(** * Zava retail database generator: a shallow embedding and its properties

    The repository ships two generators for the same retail schema:

    - [Orm]    : [zava_shop_datagenerator/__main__.py], the SQLAlchemy variant
                 (volume-driven orders, store assignments read from
                 [stores_reference.json]);
    - [Legacy] : [data_prep/generate_zava_sqlite.py], the [sqlite3] variant
                 (customer-driven orders, every product stocked everywhere).

    Both are embedded here as functions over an explicit database value.
    Python exceptions are results of type [Res]; the calls to [random] and to
    [Faker] read an explicit entropy tape, so that every statement below
    quantifies over all possible draws.  Python floats are the binary64
    floats of the kernel ([PrimFloat]). *)

From Stdlib Require Import ZArith NArith List String Ascii Bool Lia.
From Stdlib Require Import Floats DecimalString DecimalNat DecimalFacts.
From Stdlib Require Import Sorting.Permutation.
Import ListNotations.

Set Warnings "-inexact-float".
Set Implicit Arguments.

Open Scope Z_scope.

(* ================================================================= *)
(** * Python runtime: exceptions, floats, strings, [random] *)
(* ================================================================= *)

Module Py.

(** ** Exceptions and the two monads *)

Inductive exn : Type :=
| ValueError
| KeyError
| IndexError
| TypeError
| ZeroDivisionError
| IntegrityError     (* sqlite3.IntegrityError / sqlalchemy.exc.IntegrityError *)
| OverflowError      (* an [int] that does not fit an SQLite INTEGER *)
| PlainException.    (* raise Exception("...") *)

Inductive Res (A : Type) : Type :=
| Ok (a : A)
| Raise (e : exn).

Arguments Ok {A} a.
Arguments Raise {A} e.

(** The sources of non-determinism: the Mersenne-Twister behind [random]
    (one natural number per call), the names produced by [Faker], the order
    in which the database engine returns the rows of a [SELECT] that has no
    [ORDER BY] (one code per such statement, see [fetchall]) and the clock
    behind [CURRENT_TIMESTAMP] (one reading per statement that takes the
    default, in seconds). *)
Record Entropy : Type := {
  rand_tape  : list N;
  faker_tape : list string;
  scan_tape  : list (list nat);
  clock_tape : list Z
}.

Definition Gen (A : Type) : Type := Entropy -> Res (A * Entropy).

Class Monad (M : Type -> Type) : Type := {
  ret  : forall {A}, A -> M A;
  bind : forall {A B}, M A -> (A -> M B) -> M B
}.

#[global] Instance Res_Monad : Monad Res := {
  ret _ a := Ok a;
  bind _ _ m k := match m with Ok a => k a | Raise e => Raise e end
}.

#[global] Instance Gen_Monad : Monad Gen := {
  ret _ a := fun en => Ok (a, en);
  bind _ _ m k := fun en =>
    match m en with
    | Ok (a, en') => k a en'
    | Raise e => Raise e
    end
}.

Definition raise {A} (e : exn) : Res A := Raise e.
Definition raiseG {A} (e : exn) : Gen A := fun _ => Raise e.
Definition lift {A} (r : Res A) : Gen A :=
  fun en => match r with Ok a => Ok (a, en) | Raise e => Raise e end.

Declare Scope py_scope.
Delimit Scope py_scope with py.
Notation "x <- m ;; k" := (bind m (fun x => k))
  (at level 61, m at next level, right associativity) : py_scope.
Notation "' pat <- m ;; k" := (bind m (fun x => match x with pat => k end))
  (at level 61, pat pattern, m at next level, right associativity) : py_scope.
Open Scope py_scope.

(** [for x in xs: ys.append(f(x))] with effects in [f]. *)
Fixpoint mapM {M} `{Monad M} {A B} (f : A -> M B) (xs : list A) : M (list B) :=
  match xs with
  | [] => ret []
  | x :: t => y <- f x ;; ys <- mapM f t ;; ret (y :: ys)
  end.

(** [for _ in range(n): ys.append(g())]. *)
Fixpoint replicateM {M} `{Monad M} {A} (n : nat) (g : M A) : M (list A) :=
  match n with
  | O => ret []
  | S k => y <- g ;; ys <- replicateM k g ;; ret (y :: ys)
  end.

(** ** Truthiness *)

Definition str_truthy (s : string) : bool :=
  match s with EmptyString => false | _ => true end.

(** [if not x] on the result of a [dict.get] / [fetchone] over integer ids:
    both [None] and [0] are falsy. *)
Definition truthy_id (o : option Z) : option Z :=
  match o with
  | Some z => if z =? 0 then None else Some z
  | None => None
  end.

(** ** Dictionaries built by comprehension from a list of pairs.
    A later binding of a key overwrites an earlier one. *)

Section Dict.
Context {K V : Type} (eqb : K -> K -> bool).

Fixpoint dict_get (d : list (K * V)) (k : K) : option V :=
  match d with
  | [] => None
  | (k', v) :: t =>
      match dict_get t k with
      | Some v' => Some v'
      | None => if eqb k' k then Some v else None
      end
  end.

Definition dict_get_default (d : list (K * V)) (k : K) (dflt : V) : V :=
  match dict_get d k with Some v => v | None => dflt end.

End Dict.

(** ** Floats *)

(** [float(n)] for a Python [int]: the nearest binary64. *)
Definition float_of_int (z : Z) : float :=
  SF2Prim (binary_normalize prec emax z 0 false).

(** Integer nearest to [num/den], ties to even ([den > 0]). *)
Definition half_even (num den : Z) : Z :=
  let q := num / den in
  let r := num mod den in
  match 2 * r ?= den with
  | Lt => q
  | Gt => q + 1
  | Eq => if Z.even q then q else q + 1
  end.

(** [round(x, 2)] on a float, as CPython computes it: the exact binary value
    is rounded half-to-even to two decimals and that decimal is converted
    back to the nearest float; zeros, infinities and NaN are returned
    unchanged. *)
Definition round2 (x : float) : float :=
  match Prim2SF x with
  | S754_finite s m e =>
      let n := if 0 <=? e then 100 * Zpos m * 2 ^ e
               else half_even (100 * Zpos m) (2 ^ (- e)) in
      match n with
      | Zpos p =>
          SF2Prim (SFdiv prec emax (S754_finite s p 0) (S754_finite false 100 0))
      | _ => SF2Prim (S754_zero s)
      end
  | _ => x
  end.

(** Two-argument [min] and [max]: the first argument is kept unless the
    second is strictly smaller (resp. larger). *)
Definition min2 (a b : float) : float := if (b <? a)%float then b else a.
Definition max2 (a b : float) : float := if (a <? b)%float then b else a.

(** ** Strings *)

Definition digit_char (c : ascii) : bool :=
  let n := nat_of_ascii c in (48 <=? n)%nat && (n <=? 57)%nat.

(** [str(i)] for a non-negative [int]. *)
Definition str_of_nat (i : nat) : string := NilZero.string_of_uint (Nat.to_uint i).

Definition lower_char (c : ascii) : ascii :=
  let n := nat_of_ascii c in
  if (65 <=? n)%nat && (n <=? 90)%nat then ascii_of_nat (n + 32) else c.

(** [s.lower()]; exact on ASCII text, which is all the statements below
    need (none of them depends on the letters of a name). *)
Fixpoint lower (s : string) : string :=
  match s with
  | EmptyString => EmptyString
  | String c t => String (lower_char c) (lower t)
  end.

Definition apostrophe : ascii := "'"%char.

(** [s.replace("'", new)] for the two replacement strings the generators use. *)
Fixpoint replace_apostrophe (new : string) (s : string) : string :=
  match s with
  | EmptyString => EmptyString
  | String c t =>
      if Ascii.eqb c apostrophe
      then (new ++ replace_apostrophe new t)%string
      else String c (replace_apostrophe new t)
  end.

(** [needle in s]. *)
Fixpoint contains (needle s : string) : bool :=
  if String.prefix needle s then true
  else match s with
       | EmptyString => false
       | String _ t => contains needle t
       end.

(** ** The [random] module and [Faker] *)

Definition next_draw : Gen N := fun en =>
  match rand_tape en with
  | [] => Ok (0%N, en)
  | n :: t => Ok (n, {| rand_tape := t; faker_tape := faker_tape en;
                        scan_tape := scan_tape en;
                        clock_tape := clock_tape en |})
  end.

Definition next_name : Gen string := fun en =>
  match faker_tape en with
  | [] => Ok (EmptyString, en)
  | s :: t => Ok (s, {| rand_tape := rand_tape en; faker_tape := t;
                        scan_tape := scan_tape en;
                        clock_tape := clock_tape en |})
  end.

(** [random.random()]: [k / 2**53] for a 53-bit [k]. *)
Definition random : Gen float :=
  n <- next_draw ;;
  ret (float_of_int (Z.of_N n mod 9007199254740992) / 9007199254740992)%float.

(** [random.uniform(a, b)] is [a + (b - a) * random()]. *)
Definition uniform (a b : float) : Gen float :=
  r <- random ;; ret (a + (b - a) * r)%float.

(** [random.randint(a, b)]: some integer of [a..b], both ends included. *)
Definition randint (a b : Z) : Gen Z :=
  if b <? a then raiseG ValueError
  else n <- next_draw ;; ret (a + Z.of_N n mod (b - a + 1)).

(** [random.choice(seq)]: some element of [seq]; [IndexError] when empty. *)
Definition choice {A} (seq : list A) : Gen A :=
  match seq with
  | [] => raiseG IndexError
  | _ =>
      n <- next_draw ;;
      match nth_error seq (N.to_nat n mod List.length seq) with
      | Some x => ret x
      | None => raiseG IndexError
      end
  end.

(** [random.choices(population, weights=weights, k=1)[0]].  The call
    raises [ValueError] when the number of weights is not that of the
    population and when their total is not a positive finite number, and
    [IndexError] on an empty population.  Otherwise the weights shape the
    distribution only; the embedding keeps every element of the population
    as a possible outcome and drops the probabilities. *)
Definition choices {A} (population : list A) (weights : list float) : Gen A :=
  if negb (List.length weights =? List.length population)%nat
  then raiseG ValueError
  else
    match population with
    | [] => raiseG IndexError
    | _ :: _ =>
        let total := fold_left add weights 0%float in
        if (total <=? 0)%float then raiseG ValueError
        else if negb (is_finite total) then raiseG ValueError
        else choice population
    end.

(** ** What the database engine decides *)

(** [insert_at n x l] puts [x] before the element of index [n] of [l], at
    the end when [l] is shorter. *)
Fixpoint insert_at {A} (n : nat) (x : A) (l : list A) : list A :=
  match n, l with
  | O, _ => x :: l
  | S _, [] => [x]
  | S n', y :: t => y :: insert_at n' x t
  end.

(** The rows of a table in an order that the engine chose: row after row,
    from the last one, is put at the place that the code gives.  Every
    code yields a rearrangement of the rows and every rearrangement has a
    code ([scan_order_Permutation], [scan_order_complete]); the empty code
    and the code of zeros give the order of the table. *)
Fixpoint scan_order {A} (code : list nat) (rows : list A) : list A :=
  match rows with
  | [] => []
  | x :: t => insert_at (hd O code) x (scan_order (tl code) t)
  end.

(** [cursor.execute("SELECT ... FROM t")] without [ORDER BY], then
    [cursor.fetchall()]: SQL leaves the order of the rows to the engine,
    which walks the table or one of its indexes (SQLite answers
    [SELECT store_id FROM stores] from the index behind
    [store_name TEXT UNIQUE], in the order of the names). *)
Definition fetchall {A} (rows : list A) : Gen (list A) := fun en =>
  match scan_tape en with
  | [] => Ok (rows, en)
  | code :: t =>
      Ok (scan_order code rows,
          {| rand_tape := rand_tape en; faker_tape := faker_tape en;
             scan_tape := t; clock_tape := clock_tape en |})
  end.

(** [CURRENT_TIMESTAMP], read once by a statement that takes it as the
    default of a column. *)
Definition current_timestamp : Gen Z := fun en =>
  match clock_tape en with
  | [] => Ok (0, en)
  | now :: t =>
      Ok (now,
          {| rand_tape := rand_tape en; faker_tape := faker_tape en;
             scan_tape := scan_tape en; clock_tape := t |})
  end.

End Py.

Import Py.

(* ================================================================= *)
(** * The relational schema *)
(* ================================================================= *)

(** One row type per table.  The ORM schema extends the legacy one (the
    [suppliers] tables, [products.supplier_id] and
    [products.procurement_lead_time_days]); the legacy generator leaves those
    columns [None] and those tables empty.  Columns that no stage reads back
    and no statement below mentions (addresses, image URLs, the time stamp
    of a customer row, ...) are left out; the time stamp of an embedding row
    is kept, since repopulating the table rewrites it.  A primary key [0] in an object that has not been inserted
    yet stands for Python's [None]. *)

Inductive date : Type :=
| Ordinal (days : Z)            (* a [datetime.date], by proleptic ordinal *)
| Ymd (year month day : Z).     (* [date(year, month, day).isoformat()] *)

Record Store : Type := {
  store_id : Z;
  store_name : string;
  rls_user_id : string;
  is_online : bool
}.

Record Category : Type := {
  category_id : Z;
  category_name : string
}.

Record ProductType : Type := {
  type_id : Z;
  type_category_id : Z;
  type_name : string
}.

Record Supplier : Type := {
  supplier_id : Z;
  supplier_name : string;
  lead_time_days : Z
}.

Record SupplierPerformance : Type := {
  perf_supplier_id : Z;
  evaluation_date : date;
  cost_score : float;
  quality_score : float;
  delivery_score : float;
  compliance_score : float;
  overall_score : float
}.

Record Product : Type := {
  product_id : Z;
  sku : string;
  product_name : string;
  prod_category_id : Z;
  prod_type_id : Z;
  prod_supplier_id : option Z;
  cost : float;
  base_price : float;
  product_description : string;
  procurement_lead_time_days : option Z
}.

Record ProductDescriptionEmbedding : Type := {
  emb_product_id : Z;
  description_embedding : list float;   (* stored as its JSON text *)
  emb_created_at : Z                    (* [DEFAULT CURRENT_TIMESTAMP] *)
}.

Record Customer : Type := {
  customer_id : Z;
  first_name : string;
  last_name : string;
  email : string;
  phone : string;
  primary_store_id : option Z
}.

Record Inventory : Type := {
  inv_store_id : Z;
  inv_product_id : Z;
  stock_level : Z
}.

Record Order : Type := {
  order_id : Z;
  order_customer_id : Z;
  order_store_id : Z;
  order_date : date
}.

Record OrderItem : Type := {
  order_item_id : Z;
  item_order_id : Z;
  item_store_id : Z;
  item_product_id : Z;
  quantity : Z;
  unit_price : float;
  discount_percent : Z;
  discount_amount : float;
  total_amount : float
}.

(** The storage artifact: every table, rows in insertion order. *)
Record DB : Type := {
  db_stores : list Store;
  db_categories : list Category;
  db_product_types : list ProductType;
  db_suppliers : list Supplier;
  db_supplier_performance : list SupplierPerformance;
  db_products : list Product;
  db_product_description_embeddings : list ProductDescriptionEmbedding;
  db_customers : list Customer;
  db_inventory : list Inventory;
  db_orders : list Order;
  db_order_items : list OrderItem
}.

Definition empty_db : DB :=
  {| db_stores := []; db_categories := []; db_product_types := [];
     db_suppliers := []; db_supplier_performance := []; db_products := [];
     db_product_description_embeddings := []; db_customers := [];
     db_inventory := []; db_orders := []; db_order_items := [] |}.

Definition set_stores (v : list Store) (d : DB) : DB :=
  {| db_stores := v; db_categories := db_categories d;
     db_product_types := db_product_types d; db_suppliers := db_suppliers d;
     db_supplier_performance := db_supplier_performance d;
     db_products := db_products d;
     db_product_description_embeddings := db_product_description_embeddings d;
     db_customers := db_customers d; db_inventory := db_inventory d;
     db_orders := db_orders d; db_order_items := db_order_items d |}.

Definition set_categories (v : list Category) (d : DB) : DB :=
  {| db_stores := db_stores d; db_categories := v;
     db_product_types := db_product_types d; db_suppliers := db_suppliers d;
     db_supplier_performance := db_supplier_performance d;
     db_products := db_products d;
     db_product_description_embeddings := db_product_description_embeddings d;
     db_customers := db_customers d; db_inventory := db_inventory d;
     db_orders := db_orders d; db_order_items := db_order_items d |}.

Definition set_product_types (v : list ProductType) (d : DB) : DB :=
  {| db_stores := db_stores d; db_categories := db_categories d;
     db_product_types := v; db_suppliers := db_suppliers d;
     db_supplier_performance := db_supplier_performance d;
     db_products := db_products d;
     db_product_description_embeddings := db_product_description_embeddings d;
     db_customers := db_customers d; db_inventory := db_inventory d;
     db_orders := db_orders d; db_order_items := db_order_items d |}.

Definition set_suppliers (v : list Supplier) (d : DB) : DB :=
  {| db_stores := db_stores d; db_categories := db_categories d;
     db_product_types := db_product_types d; db_suppliers := v;
     db_supplier_performance := db_supplier_performance d;
     db_products := db_products d;
     db_product_description_embeddings := db_product_description_embeddings d;
     db_customers := db_customers d; db_inventory := db_inventory d;
     db_orders := db_orders d; db_order_items := db_order_items d |}.

Definition set_supplier_performance (v : list SupplierPerformance) (d : DB) : DB :=
  {| db_stores := db_stores d; db_categories := db_categories d;
     db_product_types := db_product_types d; db_suppliers := db_suppliers d;
     db_supplier_performance := v;
     db_products := db_products d;
     db_product_description_embeddings := db_product_description_embeddings d;
     db_customers := db_customers d; db_inventory := db_inventory d;
     db_orders := db_orders d; db_order_items := db_order_items d |}.

Definition set_products (v : list Product) (d : DB) : DB :=
  {| db_stores := db_stores d; db_categories := db_categories d;
     db_product_types := db_product_types d; db_suppliers := db_suppliers d;
     db_supplier_performance := db_supplier_performance d;
     db_products := v;
     db_product_description_embeddings := db_product_description_embeddings d;
     db_customers := db_customers d; db_inventory := db_inventory d;
     db_orders := db_orders d; db_order_items := db_order_items d |}.

Definition set_product_description_embeddings
  (v : list ProductDescriptionEmbedding) (d : DB) : DB :=
  {| db_stores := db_stores d; db_categories := db_categories d;
     db_product_types := db_product_types d; db_suppliers := db_suppliers d;
     db_supplier_performance := db_supplier_performance d;
     db_products := db_products d;
     db_product_description_embeddings := v;
     db_customers := db_customers d; db_inventory := db_inventory d;
     db_orders := db_orders d; db_order_items := db_order_items d |}.

Definition set_customers (v : list Customer) (d : DB) : DB :=
  {| db_stores := db_stores d; db_categories := db_categories d;
     db_product_types := db_product_types d; db_suppliers := db_suppliers d;
     db_supplier_performance := db_supplier_performance d;
     db_products := db_products d;
     db_product_description_embeddings := db_product_description_embeddings d;
     db_customers := v; db_inventory := db_inventory d;
     db_orders := db_orders d; db_order_items := db_order_items d |}.

Definition set_inventory (v : list Inventory) (d : DB) : DB :=
  {| db_stores := db_stores d; db_categories := db_categories d;
     db_product_types := db_product_types d; db_suppliers := db_suppliers d;
     db_supplier_performance := db_supplier_performance d;
     db_products := db_products d;
     db_product_description_embeddings := db_product_description_embeddings d;
     db_customers := db_customers d; db_inventory := v;
     db_orders := db_orders d; db_order_items := db_order_items d |}.

Definition set_orders (v : list Order) (d : DB) : DB :=
  {| db_stores := db_stores d; db_categories := db_categories d;
     db_product_types := db_product_types d; db_suppliers := db_suppliers d;
     db_supplier_performance := db_supplier_performance d;
     db_products := db_products d;
     db_product_description_embeddings := db_product_description_embeddings d;
     db_customers := db_customers d; db_inventory := db_inventory d;
     db_orders := v; db_order_items := db_order_items d |}.

Definition set_order_items (v : list OrderItem) (d : DB) : DB :=
  {| db_stores := db_stores d; db_categories := db_categories d;
     db_product_types := db_product_types d; db_suppliers := db_suppliers d;
     db_supplier_performance := db_supplier_performance d;
     db_products := db_products d;
     db_product_description_embeddings := db_product_description_embeddings d;
     db_customers := db_customers d; db_inventory := db_inventory d;
     db_orders := db_orders d; db_order_items := v |}.

(** ** Integer primary keys assigned by SQLite *)

Class Row (R : Type) : Type := {
  pk : R -> Z;
  with_pk : Z -> R -> R;
  pk_with_pk : forall z r, pk (with_pk z r) = z
}.

#[global] Instance Store_Row : Row Store := {
  pk := store_id;
  with_pk z r := {| store_id := z; store_name := store_name r;
                    rls_user_id := rls_user_id r; is_online := is_online r |};
  pk_with_pk _ _ := eq_refl
}.

#[global] Instance Category_Row : Row Category := {
  pk := category_id;
  with_pk z r := {| category_id := z; category_name := category_name r |};
  pk_with_pk _ _ := eq_refl
}.

#[global] Instance ProductType_Row : Row ProductType := {
  pk := type_id;
  with_pk z r := {| type_id := z; type_category_id := type_category_id r;
                    type_name := type_name r |};
  pk_with_pk _ _ := eq_refl
}.

#[global] Instance Product_Row : Row Product := {
  pk := product_id;
  with_pk z r := {| product_id := z; sku := sku r; product_name := product_name r;
                    prod_category_id := prod_category_id r;
                    prod_type_id := prod_type_id r;
                    prod_supplier_id := prod_supplier_id r;
                    cost := cost r; base_price := base_price r;
                    product_description := product_description r;
                    procurement_lead_time_days := procurement_lead_time_days r |};
  pk_with_pk _ _ := eq_refl
}.

#[global] Instance Customer_Row : Row Customer := {
  pk := customer_id;
  with_pk z r := {| customer_id := z; first_name := first_name r;
                    last_name := last_name r; email := email r;
                    phone := phone r; primary_store_id := primary_store_id r |};
  pk_with_pk _ _ := eq_refl
}.

#[global] Instance Order_Row : Row Order := {
  pk := order_id;
  with_pk z r := {| order_id := z; order_customer_id := order_customer_id r;
                    order_store_id := order_store_id r;
                    order_date := order_date r |};
  pk_with_pk _ _ := eq_refl
}.

#[global] Instance OrderItem_Row : Row OrderItem := {
  pk := order_item_id;
  with_pk z r := {| order_item_id := z; item_order_id := item_order_id r;
                    item_store_id := item_store_id r;
                    item_product_id := item_product_id r;
                    quantity := quantity r; unit_price := unit_price r;
                    discount_percent := discount_percent r;
                    discount_amount := discount_amount r;
                    total_amount := total_amount r |};
  pk_with_pk _ _ := eq_refl
}.

Section Rowid.
Context {R : Type} `{Row R}.

(** The rowid SQLite gives to the next row inserted without one:
    one more than the largest rowid in the table, [1] in an empty table.
    Under [AUTOINCREMENT], which every id column of the legacy schema has,
    the engine counts from the largest rowid the table ever held instead.
    The two agree as long as no row was deleted from the table, which is
    the case throughout a run of either generator: both delete the
    database file and start from a new one, and neither deletes a row of
    a numbered table.  On a table that was emptied by a [DELETE] the
    definition restarts at [1] where [AUTOINCREMENT] goes on counting. *)
Definition next_rowid (tbl : list R) : Z :=
  1 + fold_right (fun r m => Z.max (pk r) m) 0 tbl.

Fixpoint number_from (next : Z) (objs : list R) : list R :=
  match objs with
  | [] => []
  | o :: t => with_pk next o :: number_from (next + 1) t
  end.

(** [INSERT] of objects that carry no primary key, in list order. *)
Definition auto_insert (tbl objs : list R) : list R :=
  tbl ++ number_from (next_rowid tbl) objs.

End Rowid.

(** ** UNIQUE and PRIMARY KEY constraints *)

Section Unique.
Context {K : Type} (eqb : K -> K -> bool).

Fixpoint memb (k : K) (l : list K) : bool :=
  match l with
  | [] => false
  | x :: t => eqb x k || memb k t
  end.

Fixpoint distinctb (l : list K) : bool :=
  match l with
  | [] => true
  | x :: t => negb (memb x t) && distinctb t
  end.

End Unique.

Definition pair_eqb {A B} (ea : A -> A -> bool) (eb : B -> B -> bool)
  (x y : A * B) : bool := ea (fst x) (fst y) && eb (snd x) (snd y).

(** A write that violates a constraint raises and leaves the table as it was
    (the caller rolls back). *)
Definition checked {K R} (eqb : K -> K -> bool) (key : R -> K)
  (tbl : list R) : Res (list R) :=
  if distinctb eqb (map key tbl) then Ok tbl else Raise IntegrityError.

(** ** [sorted(set(...))] and [ORDER BY ... DESC] *)

Section SortedSet.
Context {A : Type} (cmp : A -> A -> comparison).

Fixpoint set_insert (x : A) (l : list A) : list A :=
  match l with
  | [] => [x]
  | y :: t =>
      match cmp x y with
      | Lt => x :: l
      | Eq => l
      | Gt => y :: set_insert x t
      end
  end.

Definition sorted_set (l : list A) : list A := fold_right set_insert [] l.

End SortedSet.

Definition pair_compare (x y : string * string) : comparison :=
  match String.compare (fst x) (fst y) with
  | Eq => String.compare (snd x) (snd y)
  | c => c
  end.

Fixpoint insert_desc (x : Z) (l : list Z) : list Z :=
  match l with
  | [] => [x]
  | y :: t => if y <=? x then x :: l else y :: insert_desc x t
  end.

Definition sort_desc (l : list Z) : list Z := fold_right insert_desc [] l.

(** [range(a, a + n)] over [int]. *)
Definition zrange (a : Z) (n : nat) : list Z := map (fun k => a + Z.of_nat k) (seq 0 n).

(* ================================================================= *)
(** * The SQLAlchemy generator, [zava_shop_datagenerator/__main__.py] *)
(* ================================================================= *)

Module Orm.

(** ** Reference documents *)

(** An entry of [stores_reference.json]["stores"].  The keys [store_name]
    and [location.is_online], which the stages read with a subscript, are
    taken to be there; [rls_user_id] may be absent. *)
Record StoreConfig : Type := {
  cfg_store_name : string;
  cfg_is_online : bool;                     (* ["location"]["is_online"] *)
  cfg_rls_user_id : option string;          (* [None]: the key is absent;
                                               empty when null *)
  customer_distribution_weight : float;
  product_skus : option (list string)       (* [None]: the key is absent *)
}.

(** An entry of [product_data.json]["products"]. *)
Record CatalogProduct : Type := {
  cp_sku : string;
  cp_name : string;
  cp_category : string;
  cp_subcategory : string;
  cp_price : float;
  cp_supplier_id : option Z;                (* [None]: JSON null *)
  cp_description : string;
  cp_stock_level : option Z                 (* [None]: the key is absent *)
}.

(** An entry of [supplier_data.json]; the key of the entry is kept as the
    integer [int(sid)]. *)
Record SupplierEntry : Type := {
  se_supplier_id : Z;
  se_supplier_name : string;
  se_lead_time_days : Z
}.

(** The declarative classes [Store], [Product], [Customer], [Inventory] and
    [Supplier] are imported from [zava_shop_shared.models.sqlite], whose
    modules are not among the sources.  [bulk_insert_objects] flushes in
    batches and commits once; on an exception it rolls everything back and
    re-raises, so a write either adds all the objects or none. *)

(** Modelled from the spec: the class [Store] is missing; the data model
    gives a store a unique display name. *)
Definition bulk_insert_stores (objs : list Store) (db : DB) : Res DB :=
  tbl <- checked String.eqb store_name (auto_insert (db_stores db) objs) ;;
  ret (set_stores tbl db).

(** Modelled from the spec: the class [Product] is missing; the data model
    gives a product a unique SKU. *)
Definition bulk_insert_products (objs : list Product) (db : DB) : Res DB :=
  tbl <- checked String.eqb sku (auto_insert (db_products db) objs) ;;
  ret (set_products tbl db).

(** Modelled from the spec: the class [Customer] is missing; the data model
    gives a customer a unique e-mail address. *)
Definition bulk_insert_customers (objs : list Customer) (db : DB) : Res DB :=
  tbl <- checked String.eqb email (auto_insert (db_customers db) objs) ;;
  ret (set_customers tbl db).

(** Modelled from the spec: the class [Inventory] is missing; the data model
    gives the inventory the composite key (store, product). *)
Definition bulk_insert_inventory (objs : list Inventory) (db : DB) : Res DB :=
  tbl <- checked (pair_eqb Z.eqb Z.eqb)
           (fun i => (inv_store_id i, inv_product_id i))
           (db_inventory db ++ objs) ;;
  ret (set_inventory tbl db).

(** Modelled from the spec: the class [Supplier] is missing; the data model
    gives a supplier an identity, and the generator sets it from the
    document instead of leaving it to the engine. *)
Definition bulk_insert_suppliers (objs : list Supplier) (db : DB) : Res DB :=
  tbl <- checked Z.eqb supplier_id (db_suppliers db ++ objs) ;;
  ret (set_suppliers tbl db).

Section Generator.

(** The module-level globals, loaded once at import. *)
Variable stores : list (string * StoreConfig).
Variable products_list : list CatalogProduct.
Variable supplier_data : list (Z * SupplierEntry).

(** [date.today()] and [date.today().replace(day=1)], as ordinals. *)
Variable today : Z.
Variable month_start : Z.

Definition weighted_store_choice : Gen string :=
  let store_ids := map fst stores in
  let weights := map (fun kv => customer_distribution_weight (snd kv)) stores in
  selected_id <- choices store_ids weights ;;
  match dict_get String.eqb stores selected_id with
  | Some cfg => ret (cfg_store_name cfg)
  | None => raiseG KeyError
  end.

Definition generate_phone_number : Gen (Z * Z * Z) :=
  a <- randint 200 999 ;; b <- randint 200 999 ;; c <- randint 1000 9999 ;;
  ret (a, b, c).

Definition insert_stores (db : DB) : Res DB :=
  store_objects <-
    mapM (fun kv : string * StoreConfig =>
            let store_config := snd kv in
            match cfg_rls_user_id store_config with
            | None => raise KeyError      (* [store_config["rls_user_id"]] *)
            | Some rls_user_id =>
                if negb (str_truthy rls_user_id)
                then raise ValueError
                else ret {| store_id := 0;
                            store_name := cfg_store_name store_config;
                            rls_user_id := rls_user_id;
                            is_online := cfg_is_online store_config |}
            end)
         stores ;;
  bulk_insert_stores store_objects db.

Definition insert_categories (db : DB) : Res DB :=
  let categories := sorted_set String.compare (map cp_category products_list) in
  let category_objects :=
    map (fun cat => {| category_id := 0; category_name := cat |}) categories in
  ret (set_categories (auto_insert (db_categories db) category_objects) db).

Definition category_mapping (db : DB) : list (string * Z) :=
  map (fun cat => (category_name cat, category_id cat)) (db_categories db).

Definition insert_product_types (db : DB) : Res DB :=
  let type_set :=
    sorted_set pair_compare
      (map (fun product => (cp_category product, cp_subcategory product))
           products_list) in
  product_type_objects <-
    mapM (fun cs : string * string =>
            match dict_get String.eqb (category_mapping db) (fst cs) with
            | Some category_id =>
                ret {| type_id := 0; type_category_id := category_id;
                       type_name := snd cs |}
            | None => raise KeyError
            end)
         type_set ;;
  ret (set_product_types (auto_insert (db_product_types db) product_type_objects) db).

(** One monthly evaluation of a supplier. *)
Definition evaluation (supplier_obj : Supplier) (months_ago : Z)
  : Gen SupplierPerformance :=
  let evaluation_date := Ordinal (month_start - months_ago * 30) in
  base_cost_score <- uniform 3.5 4.8 ;;
  base_quality_score <- uniform 3.2 4.9 ;;
  base_delivery_score <- uniform 3.0 4.7 ;;
  base_compliance_score <- uniform 4.2 5.0 ;;
  j_cost <- uniform (-0.3) 0.3 ;;
  let cost_score := max2 1.0 (min2 5.0 (base_cost_score + j_cost)) in
  j_quality <- uniform (-0.4) 0.4 ;;
  let quality_score := max2 1.0 (min2 5.0 (base_quality_score + j_quality)) in
  j_delivery <- uniform (-0.5) 0.5 ;;
  let delivery_score := max2 1.0 (min2 5.0 (base_delivery_score + j_delivery)) in
  j_compliance <- uniform (-0.2) 0.2 ;;
  let compliance_score :=
    max2 1.0 (min2 5.0 (base_compliance_score + j_compliance)) in
  let overall_score :=
    (cost_score * 0.3 + quality_score * 0.3 + delivery_score * 0.25
     + compliance_score * 0.15)%float in
  ret {| perf_supplier_id := supplier_id supplier_obj;
         evaluation_date := evaluation_date;
         cost_score := cost_score; quality_score := quality_score;
         delivery_score := delivery_score;
         compliance_score := compliance_score;
         overall_score := overall_score |}.

(** [for months_ago in range(0, random.randint(3, 7))]. *)
Definition evaluations (supplier_obj : Supplier) : Gen (list SupplierPerformance) :=
  n <- randint 3 7 ;;
  mapM (evaluation supplier_obj) (zrange 0 (Z.to_nat n)).

(** Suppliers, then their performance history.  The contracts are written
    to a table of their own that nothing below reads; they are left out.
    The ids of the suppliers come from the document, so the order in which
    [session.query(Supplier).all()] returns them (the engine's: by id, in
    SQLite) need not be the order in which they were inserted. *)
Definition insert_suppliers (db : DB) : Gen DB :=
  let supplier_objects :=
    map (fun kv : Z * SupplierEntry =>
           let supplier := snd kv in
           {| supplier_id := se_supplier_id supplier;
              supplier_name := se_supplier_name supplier;
              lead_time_days := se_lead_time_days supplier |})
        supplier_data in
  db1 <- lift (bulk_insert_suppliers supplier_objects db) ;;
  suppliers_in_db <- fetchall (db_suppliers db1) ;;
  per_supplier <- mapM evaluations suppliers_in_db ;;
  let performance_objects := List.concat per_supplier in
  ret (set_supplier_performance
         (db_supplier_performance db1 ++ performance_objects) db1).

Definition type_mapping (db : DB) : list ((Z * string) * Z) :=
  map (fun pt => ((type_category_id pt, type_name pt), type_id pt))
      (db_product_types db).

Definition supplier_lead_times : list (Z * Z) :=
  map (fun kv : Z * SupplierEntry => (fst kv, se_lead_time_days (snd kv)))
      supplier_data.

(** The body of the loop of [insert_products]: [None] is the [continue]. *)
Definition product_object (db : DB) (product : CatalogProduct)
  : Res (option Product) :=
  match dict_get String.eqb (category_mapping db) (cp_category product) with
  | None => raise KeyError
  | Some category_id =>
      match truthy_id (dict_get (pair_eqb Z.eqb String.eqb) (type_mapping db)
                                (category_id, cp_subcategory product)) with
      | None => ret None
      | Some type_id =>
          let supplier_id := cp_supplier_id product in
          let base_price := cp_price product in
          let cost := round2 (base_price * 0.67) in
          let procurement_lead_time :=
            match supplier_id with
            | Some s => dict_get_default Z.eqb supplier_lead_times s 15
            | None => 15
            end in
          ret (Some {| product_id := 0;
                       sku := cp_sku product;
                       product_name := cp_name product;
                       prod_category_id := category_id;
                       prod_type_id := type_id;
                       prod_supplier_id := supplier_id;
                       cost := cost;
                       base_price := base_price;
                       product_description := cp_description product;
                       procurement_lead_time_days := Some procurement_lead_time |})
      end
  end.

Fixpoint somes {A} (l : list (option A)) : list A :=
  match l with
  | [] => []
  | Some a :: t => a :: somes t
  | None :: t => somes t
  end.

Definition insert_products (db : DB) : Res DB :=
  objs <- mapM (product_object db) products_list ;;
  bulk_insert_products (somes objs) db.

Definition store_name_to_id (db : DB) : list (string * Z) :=
  map (fun s => (store_name s, store_id s)) (db_stores db).

Definition email_of (first_name last_name : string) (i : nat) : string :=
  (lower first_name ++ "." ++ lower last_name ++ "." ++ str_of_nat i
   ++ "@example.com")%string.

Definition phone_of (p : Z * Z * Z) : string :=
  let '(a, b, c) := p in
  ("(" ++ str_of_nat (Z.to_nat a) ++ ") " ++ str_of_nat (Z.to_nat b) ++ "-"
   ++ str_of_nat (Z.to_nat c))%string.

(** The body of the loop of [insert_customers]. *)
Definition customer_object (db : DB) (first_store : Store) (i : nat)
  : Gen Customer :=
  f <- next_name ;;
  let first_name := replace_apostrophe EmptyString f in
  l <- next_name ;;
  let last_name := replace_apostrophe EmptyString l in
  let email := email_of first_name last_name i in
  ph <- generate_phone_number ;;
  preferred_store_name <- weighted_store_choice ;;
  let primary_store_id :=
    dict_get_default String.eqb (store_name_to_id db) preferred_store_name
                     (store_id first_store) in
  ret {| customer_id := 0; first_name := first_name; last_name := last_name;
         email := email; phone := phone_of ph;
         primary_store_id := Some primary_store_id |}.

Definition customer_objects (db : DB) (num_customers : nat) : Gen (list Customer) :=
  match db_stores db with
  | [] => raiseG PlainException       (* "No stores found!" *)
  | first_store :: _ =>
      mapM (customer_object db first_store) (seq 1 num_customers)
  end.

Definition insert_customers (num_customers : nat) (db : DB) : Gen DB :=
  objs <- customer_objects db num_customers ;;
  lift (bulk_insert_customers objs db).

Definition sku_to_product_id (db : DB) : list (string * Z) :=
  map (fun p => (sku p, product_id p)) (db_products db).

Definition sku_to_stock_level : list (string * Z) :=
  map (fun product =>
         (cp_sku product,
          match cp_stock_level product with Some s => s | None => 25 end))
      products_list.

(** The rows of one store: one per listed SKU that names a product. *)
Definition store_inventory (db : DB) (db_store_id : Z) (skus : list string)
  : list Inventory :=
  flat_map
    (fun sku =>
       match truthy_id (dict_get String.eqb (sku_to_product_id db) sku) with
       | Some product_id =>
           [ {| inv_store_id := db_store_id; inv_product_id := product_id;
                stock_level :=
                  dict_get_default String.eqb sku_to_stock_level sku 25 |} ]
       | None => []
       end)
    skus.

Definition inventory_objects (db : DB) : list Inventory :=
  flat_map
    (fun kv : string * StoreConfig =>
       let store_config := snd kv in
       match truthy_id (dict_get String.eqb (store_name_to_id db)
                                 (cfg_store_name store_config)) with
       | None => []
       | Some db_store_id =>
           store_inventory db db_store_id
             (match product_skus store_config with
              | Some l => l
              | None => []
              end)
       end)
    stores.

Definition insert_inventory (db : DB) : Res DB :=
  bulk_insert_inventory (inventory_objects db) db.

(** One order line. *)
Definition order_item_object (product_list : list (Z * float))
  (order_id store_id : Z) : Gen OrderItem :=
  pb <- choice product_list ;;
  let product_id := fst pb in
  let base_price := snd pb in
  quantity <- randint 1 10 ;;
  let unit_price := base_price in
  discount_percent <- choice [0; 0; 0; 5; 10; 15] ;;
  let discount_amount :=
    round2 ((unit_price * float_of_int quantity * float_of_int discount_percent)
            / 100)%float in
  let total_amount :=
    round2 (unit_price * float_of_int quantity - discount_amount)%float in
  ret {| order_item_id := 0; item_order_id := order_id;
         item_store_id := store_id; item_product_id := product_id;
         quantity := quantity; unit_price := unit_price;
         discount_percent := discount_percent;
         discount_amount := discount_amount;
         total_amount := total_amount |}.

Definition order_object (customer_ids store_ids : list Z) : Gen Order :=
  customer_id <- choice customer_ids ;;
  store_id <- choice store_ids ;;
  d <- randint 0 730 ;;
  ret {| order_id := 0; order_customer_id := customer_id;
         order_store_id := store_id; order_date := Ordinal (today - d) |}.

Definition order_items_of (store_ids : list Z) (product_list : list (Z * float))
  (order_id : Z) : Gen (list OrderItem) :=
  store_id <- choice store_ids ;;
  num_items <- randint 1 5 ;;
  replicateM (Z.to_nat num_items) (order_item_object product_list order_id store_id).

(** The ids of the [num_orders] most recent orders, oldest first. *)
Definition last_order_ids (num_orders : nat) (db : DB) : list Z :=
  rev (firstn num_orders (sort_desc (map order_id (db_orders db)))).

Definition insert_orders_and_items (num_orders : nat) (db : DB) : Gen DB :=
  let customer_ids := map customer_id (db_customers db) in
  match customer_ids with
  | [] => raiseG PlainException       (* "No customers found!" *)
  | _ =>
      let store_ids := map store_id (db_stores db) in
      let product_list :=
        map (fun p => (product_id p, base_price p)) (db_products db) in
      order_objects <- replicateM num_orders (order_object customer_ids store_ids) ;;
      let db1 := set_orders (auto_insert (db_orders db) order_objects) db in
      let order_ids := last_order_ids num_orders db1 in
      per_order <- mapM (order_items_of store_ids product_list) order_ids ;;
      let order_item_objects := List.concat per_order in
      ret (set_order_items
             (auto_insert (db_order_items db1) order_item_objects) db1)
  end.

(** [main] without [--show-stats]: the storage file is deleted and rebuilt.
    The embedding stage and the fixed approver and policy rows write to
    tables of their own, which no other stage reads, and are left out. *)
Definition generate (num_customers num_orders : nat) : Gen DB :=
  db1 <- lift (insert_stores empty_db) ;;
  db2 <- lift (insert_categories db1) ;;
  db3 <- lift (insert_product_types db2) ;;
  db4 <- insert_suppliers db3 ;;
  db5 <- lift (insert_products db4) ;;
  db6 <- insert_customers num_customers db5 ;;
  db7 <- lift (insert_inventory db6) ;;
  insert_orders_and_items num_orders db7.

(** The run up to and including the inventory stage. *)
Definition generate_inventory (num_customers : nat) : Gen DB :=
  db1 <- lift (insert_stores empty_db) ;;
  db2 <- lift (insert_categories db1) ;;
  db3 <- lift (insert_product_types db2) ;;
  db4 <- insert_suppliers db3 ;;
  db5 <- lift (insert_products db4) ;;
  db6 <- insert_customers num_customers db5 ;;
  lift (insert_inventory db6).

End Generator.

End Orm.

(** A loop that updates local variables: [for x in xs: s = f(s, x)]. *)
Fixpoint foldM {M} `{Monad M} {S A} (f : S -> A -> M S) (s : S) (xs : list A) : M S :=
  match xs with
  | [] => ret s
  | x :: t => s' <- f s x ;; foldM f s' t
  end.

(* ================================================================= *)
(** * The sqlite3 generator, [data_prep/generate_zava_sqlite.py] *)
(* ================================================================= *)

Module Legacy.

(** ** Reference documents *)

(** An entry of [reference_data.json]["stores"], keyed by the store name. *)
Record StoreConfig : Type := {
  cfg_rls_user_id : string;                 (* empty when absent or null *)
  customer_distribution_weight : float
}.

(** A product of [product_data.json]. *)
Record ProductDetails : Type := {
  pd_name : string;
  pd_sku : option string;                   (* [None]: the key is absent *)
  pd_price : float;
  pd_description : string;
  pd_description_embedding : option (list float)
}.

(** What a list under a subcategory may hold. *)
Inductive Item : Type :=
| ProductDict (p : ProductDetails)
| NotADict.                                 (* a number, e.g. a multiplier *)

(** What a key of a main category may map to. *)
Inductive SubcategoryValue : Type :=
| ItemList (items : list Item)
| NotAList (truthy : bool).

Definition seasonal_key : string := "washington_seasonal_multipliers".

(** ** Writes.  The constraints are those of [create_database_schema];
    SQLite does not enforce the FOREIGN KEY clauses, since the connection
    never turns [PRAGMA foreign_keys] on. *)

Definition insert_store_rows (objs : list Store) (db : DB) : Res DB :=
  tbl <- checked String.eqb store_name (auto_insert (db_stores db) objs) ;;
  ret (set_stores tbl db).

Definition insert_category_rows (objs : list Category) (db : DB) : Res DB :=
  tbl <- checked String.eqb category_name (auto_insert (db_categories db) objs) ;;
  ret (set_categories tbl db).

(** [cost REAL NOT NULL] and [base_price REAL NOT NULL]: SQLite stores a
    NaN as NULL, so a row with a NaN in one of them is refused. *)
Definition real_not_null (x : float) : bool := negb (is_nan x).

Definition insert_product_rows (objs : list Product) (db : DB) : Res DB :=
  if forallb (fun p => real_not_null (cost p) && real_not_null (base_price p))
             objs
  then
    tbl <- checked String.eqb sku (auto_insert (db_products db) objs) ;;
    ret (set_products tbl db)
  else raise IntegrityError.

Definition insert_customer_rows (objs : list Customer) (db : DB) : Res DB :=
  tbl <- checked String.eqb email (auto_insert (db_customers db) objs) ;;
  ret (set_customers tbl db).

Definition insert_inventory_rows (objs : list Inventory) (db : DB) : Res DB :=
  tbl <- checked (pair_eqb Z.eqb Z.eqb)
           (fun i => (inv_store_id i, inv_product_id i))
           (db_inventory db ++ objs) ;;
  ret (set_inventory tbl db).

Definition insert_embedding_rows (objs : list ProductDescriptionEmbedding)
  (db : DB) : Res DB :=
  tbl <- checked Z.eqb emb_product_id
           (db_product_description_embeddings db ++ objs) ;;
  ret (set_product_description_embeddings tbl db).

Section Generator.

(** The module-level globals. *)
Variable stores : list (string * StoreConfig).
Variable main_categories : list (string * list (string * SubcategoryValue)).
Variable year_weights : list (string * float).

Definition weighted_store_choice : Gen string :=
  let store_names := map fst stores in
  let weights := map (fun kv => customer_distribution_weight (snd kv)) stores in
  choices store_names weights.

Definition generate_phone_number : Gen (Z * Z * Z) :=
  a <- randint 200 999 ;; b <- randint 200 999 ;; c <- randint 1000 9999 ;;
  ret (a, b, c).

Definition phone_of (p : Z * Z * Z) : string :=
  let '(a, b, c) := p in
  ("(" ++ str_of_nat (Z.to_nat a) ++ ") " ++ str_of_nat (Z.to_nat b) ++ "-"
   ++ str_of_nat (Z.to_nat c))%string.

Definition insert_stores (db : DB) : Res DB :=
  stores_data <-
    mapM (fun kv : string * StoreConfig =>
            let store_name := fst kv in
            let is_online := contains "online" (lower store_name) in
            let rls_user_id := cfg_rls_user_id (snd kv) in
            if negb (str_truthy rls_user_id) then raise ValueError
            else ret {| store_id := 0; store_name := store_name;
                        rls_user_id := rls_user_id; is_online := is_online |})
         stores ;;
  insert_store_rows stores_data db.

(** The lookup loop [for store_id, store_name in store_rows: if ...: break]. *)
Definition find_store_id (store_rows : list (Z * string)) (name : string)
  : option Z :=
  match find (fun r => String.eqb (snd r) name) store_rows with
  | Some r => Some (fst r)
  | None => None
  end.

Definition store_rows (db : DB) : list (Z * string) :=
  map (fun s => (store_id s, store_name s)) (db_stores db).

Definition email_of (first_name last_name : string) (i : nat) : string :=
  (lower first_name ++ "." ++ lower last_name ++ "." ++ str_of_nat i
   ++ "@example.com")%string.

Definition two_apostrophes : string := String apostrophe (String apostrophe EmptyString).

Definition customer_tuple (db : DB) (i : nat) : Gen Customer :=
  f <- next_name ;;
  let first_name := replace_apostrophe two_apostrophes f in
  l <- next_name ;;
  let last_name := replace_apostrophe two_apostrophes l in
  let email := email_of first_name last_name i in
  ph <- generate_phone_number ;;
  preferred_store_name <- weighted_store_choice ;;
  let primary_store_id := find_store_id (store_rows db) preferred_store_name in
  ret {| customer_id := 0; first_name := first_name; last_name := last_name;
         email := email; phone := phone_of ph;
         primary_store_id := primary_store_id |}.

Definition customers_data (db : DB) (num_customers : nat) : Gen (list Customer) :=
  mapM (customer_tuple db) (seq 1 num_customers).

(** The rows are sent in batches of 1000 and committed once at the end; an
    exception leaves the transaction uncommitted, so the stage either adds
    all the rows or none. *)
Definition insert_customers (num_customers : nat) (db : DB) : Gen DB :=
  objs <- customers_data db num_customers ;;
  lift (insert_customer_rows objs db).

Definition insert_categories (db : DB) : Res DB :=
  let categories_data :=
    map (fun kv : string * list (string * SubcategoryValue) =>
           {| category_id := 0; category_name := fst kv |})
        main_categories in
  insert_category_rows categories_data db.

(** [{name: id for id, name in cursor.fetchall()}]. *)
Definition category_mapping (db : DB) : list (string * Z) :=
  map (fun cat => (category_name cat, category_id cat)) (db_categories db).

Definition insert_product_types (db : DB) : Res DB :=
  per_category <-
    mapM (fun kv : string * list (string * SubcategoryValue) =>
            match dict_get String.eqb (category_mapping db) (fst kv) with
            | None => raise KeyError
            | Some category_id =>
                ret (flat_map
                       (fun sv : string * SubcategoryValue =>
                          if String.eqb (fst sv) seasonal_key then []
                          else [ {| type_id := 0;
                                    type_category_id := category_id;
                                    type_name := fst sv |} ])
                       (snd kv))
            end)
         main_categories ;;
  ret (set_product_types
         (auto_insert (db_product_types db) (List.concat per_category)) db).

Definition type_mapping (db : DB) : list ((Z * string) * Z) :=
  map (fun pt => ((type_category_id pt, type_name pt), type_id pt))
      (db_product_types db).

(** [f"{n:06d}"] for a non-negative [n]: zeros on the left up to the width. *)
Fixpoint zeros_then (k : nat) (s : string) : string :=
  match k with
  | O => s
  | S k' => String "0" (zeros_then k' s)
  end.

Definition zero_pad (width : nat) (s : string) : string :=
  zeros_then (width - String.length s) s.

Definition default_sku (products_data : list Product) : string :=
  ("SKU" ++ zero_pad 6 (str_of_nat (List.length products_data + 1)))%string.

(** [not product_list]. *)
Definition value_truthy (v : SubcategoryValue) : bool :=
  match v with
  | ItemList [] => false
  | ItemList _ => true
  | NotAList b => b
  end.

(** The innermost loop of [insert_products]. *)
Definition add_product (category_id type_id : Z) (products_data : list Product)
  (item : Item) : Res (list Product) :=
  match item with
  | NotADict => raise TypeError             (* product_details["name"] *)
  | ProductDict product_details =>
      let sku :=
        match pd_sku product_details with
        | Some s => s
        | None => default_sku products_data
        end in
      let cost := pd_price product_details in
      let base_price := round2 (cost / 0.67)%float in
      ret (products_data ++
           [ {| product_id := 0; sku := sku;
                product_name := pd_name product_details;
                prod_category_id := category_id; prod_type_id := type_id;
                prod_supplier_id := None;
                cost := cost; base_price := base_price;
                product_description := pd_description product_details;
                procurement_lead_time_days := None |} ])
  end.

Definition add_subcategory (db : DB) (category_id : Z)
  (products_data : list Product) (sv : string * SubcategoryValue)
  : Res (list Product) :=
  let subcategory := fst sv in
  let product_list := snd sv in
  if String.eqb subcategory seasonal_key || negb (value_truthy product_list)
  then ret products_data
  else
    match truthy_id (dict_get (pair_eqb Z.eqb String.eqb) (type_mapping db)
                              (category_id, subcategory)) with
    | None => ret products_data
    | Some type_id =>
        match product_list with
        | ItemList items => foldM (add_product category_id type_id) products_data items
        | NotAList _ => raise TypeError
        end
    end.

Definition add_category (db : DB) (products_data : list Product)
  (kv : string * list (string * SubcategoryValue)) : Res (list Product) :=
  match dict_get String.eqb (category_mapping db) (fst kv) with
  | None => raise KeyError
  | Some category_id => foldM (add_subcategory db category_id) products_data (snd kv)
  end.

Definition insert_products (db : DB) : Res DB :=
  products_data <- foldM (add_category db) [] main_categories ;;
  insert_product_rows products_data db.

(** The catalogue entries that carry both an SKU and an embedding. *)
Definition products_with_embeddings : list (string * list float) :=
  flat_map
    (fun kv : string * list (string * SubcategoryValue) =>
       flat_map
         (fun sv : string * SubcategoryValue =>
            match snd sv with
            | NotAList _ => []
            | ItemList items =>
                flat_map
                  (fun item =>
                     match item with
                     | NotADict => []
                     | ProductDict product =>
                         match pd_sku product, pd_description_embedding product with
                         | Some sku, Some (x :: v) =>
                             if str_truthy sku then [(sku, x :: v)] else []
                         | _, _ => []
                         end
                     end)
                  items
            end)
         (snd kv))
    main_categories.

(** [SELECT product_id FROM products WHERE sku = ?] and [fetchone]. *)
Definition select_product_id (db : DB) (sku_ : string) : option Z :=
  match find (fun p => String.eqb (sku p) sku_) (db_products db) with
  | Some p => Some (product_id p)
  | None => None
  end.

(** The rows the second loop inserts; an SKU without a product is skipped.
    Each INSERT names two columns, so the row takes [created_at] from the
    clock at the time of that statement. *)
Definition embedding_rows (db : DB) : Gen (list ProductDescriptionEmbedding) :=
  rows <-
    mapM (fun se : string * list float =>
            match select_product_id db (fst se) with
            | None => ret []
            | Some product_id =>
                created_at <- current_timestamp ;;
                ret [ {| emb_product_id := product_id;
                         description_embedding := snd se;
                         emb_created_at := created_at |} ]
            end)
         products_with_embeddings ;;
  ret (List.concat rows).

Definition populate_product_description_embeddings (clear_existing : bool)
  (db : DB) : Gen DB :=
  let db1 := if clear_existing
             then set_product_description_embeddings [] db else db in
  rows <- embedding_rows db1 ;;
  lift (insert_embedding_rows rows db1).

Definition get_yearly_weight (year : Z) : float :=
  dict_get_default String.eqb year_weights (str_of_nat (Z.to_nat year)) 1.0%float.

Definition weighted_year_choice : Gen Z :=
  let years := [2020; 2021; 2022; 2023; 2024; 2025; 2026] in
  let weights := map get_yearly_weight years in
  choices years weights.

(** Both lists of ids come from a [SELECT] without [ORDER BY], so their
    order is the engine's; the loops draw the levels in that order. *)
Definition insert_inventory (db : DB) : Gen DB :=
  store_ids <- fetchall (map store_id (db_stores db)) ;;
  product_ids <- fetchall (map product_id (db_products db)) ;;
  per_store <-
    mapM (fun store_id =>
            mapM (fun product_id =>
                    stock_level <- randint 10 200 ;;
                    ret {| inv_store_id := store_id;
                           inv_product_id := product_id;
                           stock_level := stock_level |})
                 product_ids)
         store_ids ;;
  lift (insert_inventory_rows (List.concat per_store) db).

(** One order line of [insert_orders]. *)
Definition order_item_tuple (product_prices : list (Z * float))
  (order_id store_id : Z) : Gen OrderItem :=
  let product_ids := map fst product_prices in
  product_id <- choice product_ids ;;
  match dict_get Z.eqb product_prices product_id with
  | None => raiseG KeyError
  | Some base_price =>
      quantity <- choices [1; 2; 3; 4; 5] [60; 25; 10; 3; 2]%float ;;
      u <- uniform 0.8 1.2 ;;
      let unit_price := (base_price * u)%float in
      r <- random ;;
      if (r <? 0.15)%float then
        discount_percent <- choice [5; 10; 15; 20; 25] ;;
        let discount_amount :=
          ((unit_price * float_of_int quantity * float_of_int discount_percent)
           / 100)%float in
        let total_amount :=
          (unit_price * float_of_int quantity - discount_amount)%float in
        ret {| order_item_id := 0; item_order_id := order_id;
               item_store_id := store_id; item_product_id := product_id;
               quantity := quantity; unit_price := unit_price;
               discount_percent := discount_percent;
               discount_amount := discount_amount;
               total_amount := total_amount |}
      else
        let discount_amount := 0%float in
        let total_amount :=
          (unit_price * float_of_int quantity - discount_amount)%float in
        ret {| order_item_id := 0; item_order_id := order_id;
               item_store_id := store_id; item_product_id := product_id;
               quantity := quantity; unit_price := unit_price;
               discount_percent := 0;
               discount_amount := discount_amount;
               total_amount := total_amount |}
  end.

(** The local variables of [insert_orders]: the rows gathered so far and the
    running [order_id]. *)
Record OrdersState : Type := {
  orders_data : list Order;
  order_items_data : list OrderItem;
  next_order_id : Z
}.

(** The body of [for _ in range(num_orders)].  A store name that is not in
    the table leaves [store_id] at [None]; the INSERT of that row then fails
    on the NOT NULL constraint of [orders.store_id], and the stage raises. *)
Definition one_order (db : DB) (product_prices : list (Z * float))
  (customer_id : Z) (st : OrdersState) (_ : nat) : Gen OrdersState :=
  preferred_store <- weighted_store_choice ;;
  match find_store_id (store_rows db) preferred_store with
  | None => raiseG IntegrityError
  | Some store_id =>
      year <- weighted_year_choice ;;
      month <- randint 1 12 ;;
      day <- randint 1 28 ;;
      let order :=
        {| order_id := 0; order_customer_id := customer_id;
           order_store_id := store_id; order_date := Ymd year month day |} in
      num_items <- choices [1; 2; 3; 4; 5]%nat [40; 30; 15; 10; 5]%float ;;
      items <- replicateM num_items
                 (order_item_tuple product_prices (next_order_id st) store_id) ;;
      ret {| orders_data := orders_data st ++ [order];
             order_items_data := order_items_data st ++ items;
             next_order_id := next_order_id st + 1 |}
  end.

(** The body of [for customer_id in range(1, num_customers + 1)]. *)
Definition customer_orders (db : DB) (product_prices : list (Z * float))
  (st : OrdersState) (customer_id : Z) : Gen OrdersState :=
  num_orders <- choices [0; 1; 2; 3; 4; 5]%nat [20; 40; 20; 10; 7; 3]%float ;;
  foldM (one_order db product_prices customer_id) st (seq 0 num_orders).

(** The rows are sent every 1000 customers and committed once at the end;
    the tables end up holding the rows in the order they were generated. *)
Definition insert_orders (num_customers : nat) (db : DB) : Gen DB :=
  let product_prices :=
    map (fun p => (product_id p, base_price p)) (db_products db) in
  st <- foldM (customer_orders db product_prices)
          {| orders_data := []; order_items_data := []; next_order_id := 1 |}
          (zrange 1 num_customers) ;;
  let db1 := set_orders (auto_insert (db_orders db) (orders_data st)) db in
  ret (set_order_items
         (auto_insert (db_order_items db1) (order_items_data st)) db1).

(** [generate_sqlite_database], up to the final report. *)
Definition generate_sqlite_database (num_customers : nat) : Gen DB :=
  db1 <- lift (insert_stores empty_db) ;;
  db2 <- lift (insert_categories db1) ;;
  db3 <- lift (insert_product_types db2) ;;
  db4 <- insert_customers num_customers db3 ;;
  db5 <- lift (insert_products db4) ;;
  db6 <- populate_product_description_embeddings true db5 ;;
  db7 <- insert_inventory db6 ;;
  insert_orders num_customers db7.

End Generator.

End Legacy.

(* ================================================================= *)
(** * The statistics reporters *)
(* ================================================================= *)

(** A line of the report: a label and the number printed after it. *)
Inductive Line : Type :=
| IntLine (label : string) (v : Z)
| FloatLine (label : string) (v : float).

Definition count {A} (tbl : list A) : Z := Z.of_nat (List.length tbl).

(** [SUM(total_amount)]: [None] over no rows. *)
Definition sql_sum (xs : list float) : option float :=
  match xs with
  | [] => None
  | _ => Some (fold_left PrimFloat.add xs 0%float)
  end.

(** [float / int] and [int / int]: both raise on a zero divisor. *)
Definition float_div_int (x : float) (d : Z) : Res float :=
  if d =? 0 then raise ZeroDivisionError else ret (x / float_of_int d)%float.

Definition int_div_int (n d : Z) : Res float :=
  if d =? 0 then raise ZeroDivisionError
  else ret (float_of_int n / float_of_int d)%float.

(** [x or 0] on the result of [SUM]. *)
Definition or_zero (x : option float) : float :=
  match x with
  | Some v => if is_zero v then 0%float else v
  | None => 0%float
  end.

(** [generate_zava_sqlite.show_database_stats]: only SELECTs are issued, so
    the function maps a database to the lines it logs, or to the exception
    that escapes it. *)
Definition show_database_stats (db : DB) : Res (list Line) :=
  let customers := count (db_customers db) in
  let products := count (db_products db) in
  let orders := count (db_orders db) in
  let order_items := count (db_order_items db) in
  let embeddings := count (db_product_description_embeddings db) in
  let total_revenue := or_zero (sql_sum (map total_amount (db_order_items db))) in
  let head :=
    [ IntLine "Customers" customers; IntLine "Products" products;
      IntLine "Product Embeddings" embeddings; IntLine "Orders" orders;
      IntLine "Order Items" order_items;
      FloatLine "Total Revenue" total_revenue ] in
  if 0 <? orders then
    average_order_value <- float_div_int total_revenue orders ;;
    orders_per_customer <- int_div_int orders customers ;;
    items_per_order <- int_div_int order_items orders ;;
    ret (head ++ [ FloatLine "Average Order Value" average_order_value;
                   FloatLine "Orders per Customer" orders_per_customer;
                   FloatLine "Items per Order" items_per_order ])
  else ret head.

(** [AVG(total_amount)], computed by the engine: [None] over no rows. *)
Definition sql_avg (xs : list float) : option float :=
  match sql_sum xs with
  | Some s => Some (s / float_of_int (count xs))%float
  | None => None
  end.

Definition float_truthy (x : float) : bool := negb (is_zero x).

(** [__main__.show_statistics]: the counts of the tables kept here, then the
    revenue lines when the total is neither NULL nor zero.  No Python
    division takes place, and an exception is logged, not re-raised. *)
Definition show_statistics (db : DB) : list Line :=
  let stats :=
    [ IntLine "stores" (count (db_stores db));
      IntLine "categories" (count (db_categories db));
      IntLine "product_types" (count (db_product_types db));
      IntLine "products" (count (db_products db));
      IntLine "suppliers" (count (db_suppliers db));
      IntLine "customers" (count (db_customers db));
      IntLine "orders" (count (db_orders db));
      IntLine "order_items" (count (db_order_items db));
      IntLine "inventory" (count (db_inventory db));
      IntLine "description_embeddings"
              (count (db_product_description_embeddings db)) ] in
  let amounts := map total_amount (db_order_items db) in
  match sql_sum amounts, sql_avg amounts with
  | Some total_revenue, Some avg_item_value =>
      if float_truthy total_revenue
      then stats ++ [ FloatLine "Total Revenue" total_revenue;
                      FloatLine "Average Item Value" avg_item_value ]
      else stats
  | _, _ => stats
  end.

(* ================================================================= *)
(** * General lemmas *)
(* ================================================================= *)

Unset Implicit Arguments.

(** ** Inversion of the monadic binds *)

Lemma bind_Res_inv {A B} (m : Res A) (k : A -> Res B) (b : B) :
  bind m k = Ok b -> exists a, m = Ok a /\ k a = Ok b.
Proof.
  destruct m as [a|e]; simpl; intros Hb.
  - exists a; split; [reflexivity | assumption].
  - discriminate.
Qed.

Lemma bind_Gen_inv {A B} (m : Gen A) (k : A -> Gen B) en (b : B) en' :
  bind m k en = Ok (b, en') ->
  exists a en1, m en = Ok (a, en1) /\ k a en1 = Ok (b, en').
Proof.
  simpl. destruct (m en) as [[a en1]|e]; intros Hb.
  - exists a, en1; split; [reflexivity | assumption].
  - discriminate.
Qed.

Lemma lift_inv {A} (r : Res A) en (a : A) en' :
  lift r en = Ok (a, en') -> r = Ok a /\ en' = en.
Proof.
  unfold lift. destruct r; intros Hl; inversion Hl; subst; auto.
Qed.

Lemma ret_Gen_inv {A} (a b : A) en en' :
  @ret Gen _ A a en = Ok (b, en') -> b = a /\ en' = en.
Proof. simpl. intros Hr; inversion Hr; auto. Qed.

Lemma ret_Res_inv {A} (a b : A) : @ret Res _ A a = Ok b -> b = a.
Proof. simpl. intros Hr; inversion Hr; auto. Qed.

(** Peel the first bind of a successful run: the step taken is named
    [Hstep], the rest of the run keeps the name of the hypothesis. *)
Ltac monad_inv H :=
  let a := fresh "v" in
  let e := fresh "en" in
  let H1 := fresh "Hstep" in
  let H2 := fresh "Hrest" in
  cbn [mapM replicateM foldM] in H;
  lazymatch type of H with
  | lift _ _ = Ok _ =>
      apply lift_inv in H; destruct H as (H1 & H2); rename H2 into H
  | @bind Gen _ _ _ _ _ _ = Ok _ =>
      apply bind_Gen_inv in H; destruct H as (a & e & H1 & H2); rename H2 into H
  | @ret Gen _ _ _ _ = Ok _ =>
      apply ret_Gen_inv in H; destruct H as (H1 & H2); rename H2 into H
  | @bind Res _ _ _ _ _ = Ok _ =>
      apply bind_Res_inv in H; destruct H as (a & H1 & H2); rename H2 into H
  | @ret Res _ _ _ = Ok _ =>
      apply ret_Res_inv in H
  end.

(** ** Loops *)

Section LoopsGen.
Context {A B : Type}.

Lemma mapM_Gen_Forall2 (f : A -> Gen B) (P : A -> B -> Prop) (xs : list A) :
  (forall a en b en', In a xs -> f a en = Ok (b, en') -> P a b) ->
  forall en ys en', mapM f xs en = Ok (ys, en') -> Forall2 P xs ys.
Proof.
  induction xs as [|x t IH]; intros Hf en ys en' Hrun.
  - monad_inv Hrun. subst. constructor.
  - cbn [mapM] in Hrun.
    monad_inv Hrun. monad_inv Hrun. monad_inv Hrun. subst.
    constructor.
    + eapply Hf; [left; reflexivity | eassumption].
    + eapply IH; [|eassumption].
      intros a e1 b e2 Hin; apply Hf; right; assumption.
Qed.

Lemma replicateM_Gen_Forall (g : Gen B) (P : B -> Prop) :
  (forall en b en', g en = Ok (b, en') -> P b) ->
  forall n en ys en', replicateM n g en = Ok (ys, en') ->
                      Forall P ys /\ List.length ys = n.
Proof.
  intros Hg. induction n as [|n IH]; intros en ys en' Hrun.
  - monad_inv Hrun. subst. split; [constructor | reflexivity].
  - cbn [replicateM] in Hrun.
    monad_inv Hrun. monad_inv Hrun. monad_inv Hrun. subst.
    destruct (IH _ _ _ Hstep0) as [Hall Hlen].
    split; [constructor; [eapply Hg; eassumption | assumption]|].
    simpl; congruence.
Qed.

Lemma foldM_Gen_inv (f : B -> A -> Gen B) (Inv : B -> Prop) (xs : list A) :
  (forall s a en s' en', In a xs -> Inv s -> f s a en = Ok (s', en') -> Inv s') ->
  forall s en s' en', Inv s -> foldM f s xs en = Ok (s', en') -> Inv s'.
Proof.
  induction xs as [|x t IH]; intros Hf s en s' en' Hs Hrun.
  - monad_inv Hrun. subst. assumption.
  - cbn [foldM] in Hrun. monad_inv Hrun.
    eapply IH; [| |eassumption].
    + intros s1 a e1 s2 e2 Hin; apply Hf; right; assumption.
    + eapply Hf; [left; reflexivity | eassumption | eassumption].
Qed.

End LoopsGen.

Section LoopsRes.
Context {A B : Type}.

Lemma mapM_Res_Forall2 (f : A -> Res B) (P : A -> B -> Prop) (xs : list A) :
  (forall a b, In a xs -> f a = Ok b -> P a b) ->
  forall ys, mapM f xs = Ok ys -> Forall2 P xs ys.
Proof.
  induction xs as [|x t IH]; intros Hf ys Hrun.
  - monad_inv Hrun. subst. constructor.
  - cbn [mapM] in Hrun.
    monad_inv Hrun. monad_inv Hrun. monad_inv Hrun. subst.
    constructor.
    + apply Hf; [left; reflexivity | assumption].
    + apply IH; [|assumption].
      intros a b Hin; apply Hf; right; assumption.
Qed.

Lemma foldM_Res_inv (f : B -> A -> Res B) (Inv : B -> Prop) (xs : list A) :
  (forall s a s', In a xs -> Inv s -> f s a = Ok s' -> Inv s') ->
  forall s s', Inv s -> foldM f s xs = Ok s' -> Inv s'.
Proof.
  induction xs as [|x t IH]; intros Hf s s' Hs Hrun.
  - monad_inv Hrun. subst. assumption.
  - cbn [foldM] in Hrun. monad_inv Hrun.
    eapply IH; [| |eassumption].
    + intros s1 a s2 Hin; apply Hf; right; assumption.
    + eapply Hf; [left; reflexivity | eassumption | eassumption].
Qed.

End LoopsRes.

Lemma Forall2_Forall_r {A B} (P : A -> B -> Prop) (Q : B -> Prop) xs ys :
  Forall2 P xs ys -> (forall a b, In a xs -> P a b -> Q b) -> Forall Q ys.
Proof.
  induction 1 as [|x y xs ys Hxy _ IH]; intros HQ; constructor.
  - eapply HQ; [left; reflexivity | eassumption].
  - apply IH. intros a b Hin; apply HQ; right; assumption.
Qed.

Lemma Forall_concat {A} (P : A -> Prop) (ls : list (list A)) :
  Forall (Forall P) ls -> Forall P (List.concat ls).
Proof.
  induction 1 as [|l ls Hl _ IH]; simpl.
  - constructor.
  - apply Forall_app; split; assumption.
Qed.

Lemma mapM_Gen_total {A B} (f : A -> Gen B) (xs : list A) :
  (forall a en, In a xs -> exists b en', f a en = Ok (b, en')) ->
  forall en, exists ys en', mapM f xs en = Ok (ys, en').
Proof.
  induction xs as [|x t IH]; intros Hf en.
  - eexists _, _. reflexivity.
  - destruct (Hf x en (or_introl eq_refl)) as (b & e1 & Hb).
    destruct (IH (fun a e Hin => Hf a e (or_intror Hin)) e1) as (ys & e2 & Hys).
    exists (b :: ys), e2. cbn [mapM bind Gen_Monad]. rewrite Hb, Hys.
    reflexivity.
Qed.

(** ** The order of a scan and the clock *)

Lemma insert_at_Permutation {A} (n : nat) (x : A) (l : list A) :
  Permutation (insert_at n x l) (x :: l).
Proof.
  revert n. induction l as [|y t IH]; intros [|n]; cbn [insert_at];
    try apply Permutation_refl.
  eapply Permutation_trans; [apply perm_skip, IH | apply perm_swap].
Qed.

Lemma insert_at_app {A} (x : A) (l1 l2 : list A) :
  insert_at (List.length l1) x (l1 ++ l2) = l1 ++ x :: l2.
Proof.
  induction l1 as [|y t IH]; cbn [List.length app insert_at].
  - destruct l2; reflexivity.
  - rewrite IH. reflexivity.
Qed.

(** Whatever the code, a scan returns the rows of the table, each once. *)
Lemma scan_order_Permutation {A} (code : list nat) (rows : list A) :
  Permutation (scan_order code rows) rows.
Proof.
  revert code. induction rows as [|x t IH]; intros code; cbn [scan_order].
  - apply Permutation_refl.
  - eapply Permutation_trans; [apply insert_at_Permutation|].
    apply perm_skip, IH.
Qed.

(** No order is left out: every rearrangement of the rows has a code. *)
Lemma scan_order_complete {A} (rows l : list A) :
  Permutation rows l -> exists code, scan_order code rows = l.
Proof.
  revert l. induction rows as [|x t IH]; intros l Hp.
  - apply Permutation_nil in Hp. subst l. exists []. reflexivity.
  - assert (Hin : In x l) by (eapply Permutation_in; [exact Hp | left; reflexivity]).
    apply in_split in Hin as (l1 & l2 & ->).
    apply Permutation_cons_app_inv in Hp.
    destruct (IH _ Hp) as (code & Hcode).
    exists (List.length l1 :: code). cbn [scan_order hd tl].
    rewrite Hcode. apply insert_at_app.
Qed.

Lemma scan_order_nil {A} (rows : list A) : scan_order [] rows = rows.
Proof.
  induction rows as [|x t IH]; [reflexivity|].
  cbn [scan_order hd tl]. rewrite IH. reflexivity.
Qed.

Lemma fetchall_inv {A} (rows l : list A) en en' :
  fetchall rows en = Ok (l, en') ->
  Permutation l rows /\
  rand_tape en' = rand_tape en /\ faker_tape en' = faker_tape en /\
  clock_tape en' = clock_tape en.
Proof.
  unfold fetchall. destruct (scan_tape en) as [|code t]; intros H;
    injection H as <- <-; cbn.
  - repeat split. apply Permutation_refl.
  - repeat split. apply scan_order_Permutation.
Qed.

Lemma fetchall_total {A} (rows : list A) en :
  exists l en', fetchall rows en = Ok (l, en').
Proof.
  unfold fetchall. destruct (scan_tape en); eexists _, _; reflexivity.
Qed.

Lemma current_timestamp_total en :
  exists now en', current_timestamp en = Ok (now, en').
Proof.
  unfold current_timestamp. destruct (clock_tape en); eexists _, _; reflexivity.
Qed.

(** ** Ranges *)

Lemma In_zrange (a : Z) (n : nat) (z : Z) :
  In z (zrange a n) <-> a <= z < a + Z.of_nat n.
Proof.
  unfold zrange. rewrite in_map_iff. split.
  - intros (k & Hk & Hin). apply in_seq in Hin. lia.
  - intros Hz. exists (Z.to_nat (z - a)). split; [lia|].
    apply in_seq. lia.
Qed.

Lemma zrange_length (a : Z) (n : nat) : List.length (zrange a n) = n.
Proof. unfold zrange. rewrite length_map, length_seq. reflexivity. Qed.

Lemma zrange_S (a : Z) (n : nat) : zrange a (S n) = a :: zrange (a + 1) n.
Proof.
  unfold zrange. cbn [seq map]. f_equal; [lia|].
  rewrite <- seq_shift, map_map. apply map_ext. intros k. lia.
Qed.

Lemma NoDup_zrange (a : Z) (n : nat) : NoDup (zrange a n).
Proof.
  revert a. induction n as [|n IH]; intros a.
  - constructor.
  - rewrite zrange_S. constructor; [|apply IH].
    rewrite In_zrange. lia.
Qed.

(** ** Primary keys *)

Section RowidFacts.
Context {R : Type} `{Row R}.

Lemma pk_lt_next_rowid (tbl : list R) (r : R) :
  In r tbl -> pk r < next_rowid tbl.
Proof.
  unfold next_rowid. induction tbl as [|x t IH]; cbn [fold_right In]; [tauto|].
  intros [->|Hin]; [lia|]. specialize (IH Hin). lia.
Qed.

Lemma next_rowid_pos (tbl : list R) : 1 <= next_rowid tbl.
Proof.
  unfold next_rowid. induction tbl as [|x t IH]; cbn [fold_right]; lia.
Qed.

Lemma map_pk_number_from (next : Z) (objs : list R) :
  map pk (number_from next objs) = zrange next (List.length objs).
Proof.
  revert next. induction objs as [|o t IH]; intros next.
  - reflexivity.
  - cbn [number_from map List.length]. rewrite zrange_S, pk_with_pk, IH.
    reflexivity.
Qed.

Lemma map_pk_auto_insert (tbl objs : list R) :
  map pk (auto_insert tbl objs)
  = map pk tbl ++ zrange (next_rowid tbl) (List.length objs).
Proof.
  unfold auto_insert. rewrite map_app, map_pk_number_from. reflexivity.
Qed.

Lemma NoDup_pk_auto_insert (tbl objs : list R) :
  NoDup (map pk tbl) -> NoDup (map pk (auto_insert tbl objs)).
Proof.
  intros Hnd. rewrite map_pk_auto_insert.
  apply NoDup_app; [assumption | apply NoDup_zrange |].
  intros z Hz Hz'. apply In_zrange in Hz'.
  apply in_map_iff in Hz as (r & <- & Hr).
  apply pk_lt_next_rowid in Hr. lia.
Qed.

Lemma In_number_from (next : Z) (objs : list R) (r : R) :
  In r (number_from next objs) -> exists o z, In o objs /\ r = with_pk z o.
Proof.
  revert next. induction objs as [|o t IH]; intros next; simpl; [tauto|].
  intros [<-|Hin].
  - exists o, next. auto.
  - destruct (IH _ Hin) as (o' & z & Ho & ->). exists o', z. auto.
Qed.

Lemma Forall_auto_insert (P : R -> Prop) (tbl objs : list R) :
  Forall P tbl -> Forall (fun o => forall z, P (with_pk z o)) objs ->
  Forall P (auto_insert tbl objs).
Proof.
  intros Ht Ho. unfold auto_insert. apply Forall_app. split; [assumption|].
  apply Forall_forall. intros r Hr.
  apply In_number_from in Hr as (o & z & Hin & ->).
  rewrite Forall_forall in Ho. apply Ho. assumption.
Qed.

Lemma pks_grow (tbl objs : list R) (z : Z) :
  In z (map pk tbl) -> In z (map pk (auto_insert tbl objs)).
Proof.
  intros Hin. rewrite map_pk_auto_insert. apply in_or_app. left. assumption.
Qed.

End RowidFacts.

(** ** Constraints *)

Section UniqueFacts.
Context {K : Type} (eqb : K -> K -> bool).
Hypothesis eqb_eq : forall x y, eqb x y = true <-> x = y.

Lemma memb_In (k : K) (l : list K) : memb eqb k l = true <-> In k l.
Proof.
  induction l as [|x t IH]; simpl.
  - split; [discriminate | tauto].
  - rewrite orb_true_iff, IH, eqb_eq. tauto.
Qed.

Lemma distinctb_NoDup (l : list K) : distinctb eqb l = true <-> NoDup l.
Proof.
  induction l as [|x t IH]; simpl.
  - split; [constructor | reflexivity].
  - rewrite andb_true_iff, negb_true_iff, IH. split.
    + intros [Hm Hnd]. constructor; [|assumption].
      rewrite <- memb_In, Hm. discriminate.
    + intros Hnd. inversion Hnd as [|? ? Hx Ht]; subst. split; [|assumption].
      destruct (memb eqb x t) eqn:E; [|reflexivity].
      apply memb_In in E. contradiction.
Qed.

Lemma checked_inv {R} (key : R -> K) (tbl t : list R) :
  checked eqb key tbl = Ok t -> t = tbl /\ NoDup (map key tbl).
Proof.
  unfold checked. destruct (distinctb eqb (map key tbl)) eqn:E; [|discriminate].
  intros Hc; inversion Hc; subst. split; [reflexivity|].
  apply distinctb_NoDup. assumption.
Qed.

Lemma checked_ok {R} (key : R -> K) (tbl : list R) :
  NoDup (map key tbl) -> checked eqb key tbl = Ok tbl.
Proof.
  intros Hnd. unfold checked.
  apply distinctb_NoDup in Hnd. rewrite Hnd. reflexivity.
Qed.

(** ** Dictionaries *)

Lemma dict_get_In {V} (d : list (K * V)) (k : K) (v : V) :
  dict_get eqb d k = Some v -> In (k, v) d.
Proof.
  induction d as [|[k' v'] t IH]; simpl; [discriminate|].
  destruct (dict_get eqb t k) as [w|].
  - intros Hg; inversion Hg; subst. right. apply IH. reflexivity.
  - destruct (eqb k' k) eqn:E; [|discriminate].
    intros Hg; inversion Hg; subst. apply eqb_eq in E. subst. left. reflexivity.
Qed.

Lemma dict_get_None {V} (d : list (K * V)) (k : K) :
  dict_get eqb d k = None <-> ~ In k (map fst d).
Proof.
  induction d as [|[k' v'] t IH]; simpl.
  - tauto.
  - destruct (dict_get eqb t k) as [w|] eqn:Et.
    + split; [discriminate|]. intros Hn. exfalso. apply Hn. right.
      apply dict_get_In in Et. apply in_map_iff. exists (k, w). auto.
    + destruct (eqb k' k) eqn:E.
      * apply eqb_eq in E. subst. split; [discriminate|]. intros Hn.
        exfalso. apply Hn. left. reflexivity.
      * split; [|reflexivity]. intros _ [Heq|Hin].
        -- apply eqb_eq in Heq. congruence.
        -- apply IH in Hin; [assumption | reflexivity].
Qed.

Lemma dict_get_unique {V} (d : list (K * V)) (k : K) (v : V) :
  NoDup (map fst d) -> In (k, v) d -> dict_get eqb d k = Some v.
Proof.
  induction d as [|[k' v'] t IH]; simpl; [tauto|].
  intros Hnd Hin. inversion Hnd as [|? ? Hk Ht]; subst.
  destruct Hin as [Heq|Hin].
  - inversion Heq; subst.
    assert (Hn : dict_get eqb t k = None) by (apply dict_get_None; assumption).
    rewrite Hn. assert (E : eqb k k = true) by (apply eqb_eq; reflexivity).
    rewrite E. reflexivity.
  - rewrite (IH Ht Hin). reflexivity.
Qed.

End UniqueFacts.

Lemma pair_eqb_eq {A B} (ea : A -> A -> bool) (eb : B -> B -> bool) :
  (forall x y, ea x y = true <-> x = y) ->
  (forall x y, eb x y = true <-> x = y) ->
  forall x y, pair_eqb ea eb x y = true <-> x = y.
Proof.
  intros Ha Hb [a b] [a' b']. unfold pair_eqb. simpl.
  rewrite andb_true_iff, Ha, Hb. split.
  - intros [-> ->]. reflexivity.
  - intros Heq; inversion Heq; auto.
Qed.

Lemma truthy_id_Some (o : option Z) (z : Z) :
  truthy_id o = Some z -> o = Some z /\ z <> 0.
Proof.
  unfold truthy_id. destruct o as [w|]; [|discriminate].
  destruct (w =? 0) eqn:E; [discriminate|].
  intros Ht; inversion Ht; subst. split; [reflexivity|].
  apply Z.eqb_neq. assumption.
Qed.

Lemma truthy_id_pos (z : Z) : 0 < z -> truthy_id (Some z) = Some z.
Proof.
  intros Hz. unfold truthy_id.
  destruct (z =? 0) eqn:E; [apply Z.eqb_eq in E; lia | reflexivity].
Qed.

(** ** Strings as lists of characters *)


Lemma chars_append (s1 s2 : string) :
  list_ascii_of_string (s1 ++ s2)
  = (list_ascii_of_string s1 ++ list_ascii_of_string s2)%list.
Proof.
  induction s1 as [|c t IH]; simpl; [reflexivity | rewrite IH; reflexivity].
Qed.

Lemma chars_inj (s1 s2 : string) :
  list_ascii_of_string s1 = list_ascii_of_string s2 -> s1 = s2.
Proof.
  intros Heq.
  rewrite <- (string_of_list_ascii_of_string s1),
          <- (string_of_list_ascii_of_string s2), Heq.
  reflexivity.
Qed.

Definition all_digits (s : string) : Prop :=
  Forall (fun c => digit_char c = true) (list_ascii_of_string s).

Lemma string_of_uint_digits (d : Decimal.uint) :
  all_digits (NilEmpty.string_of_uint d).
Proof.
  unfold all_digits.
  induction d; simpl; constructor; solve [reflexivity | assumption].
Qed.

Lemma to_uint_not_Nil (n : nat) : Nat.to_uint n <> Decimal.Nil.
Proof.
  intros Hnil.
  pose proof (Unsigned.to_of (Nat.to_uint n)) as Hto.
  rewrite Unsigned.of_to, Hnil in Hto. discriminate Hto.
Qed.

Lemma str_of_nat_digits (i : nat) : all_digits (str_of_nat i).
Proof.
  unfold str_of_nat, NilZero.string_of_uint.
  destruct (Nat.to_uint i) eqn:E; try (rewrite <- E; apply string_of_uint_digits).
  exfalso. exact (to_uint_not_Nil _ E).
Qed.

Lemma str_of_nat_inj (i j : nat) : str_of_nat i = str_of_nat j -> i = j.
Proof.
  unfold str_of_nat. intros Heq.
  apply Unsigned.to_uint_inj.
  assert (Hi := NilZero.usu _ (to_uint_not_Nil i)).
  assert (Hj := NilZero.usu _ (to_uint_not_Nil j)).
  rewrite Heq in Hi. rewrite Hi in Hj. inversion Hj. reflexivity.
Qed.

(** A run of digits that ends at a dot has a determined length. *)
Lemma digits_then_dot (l1 l2 r1 r2 : list ascii) :
  Forall (fun c => digit_char c = true) l1 ->
  Forall (fun c => digit_char c = true) l2 ->
  (l1 ++ "."%char :: r1 = l2 ++ "."%char :: r2)%list -> l1 = l2.
Proof.
  intros H1. revert l2. induction H1 as [|c l1 Hc _ IH]; intros l2 H2 Heq.
  - destruct H2 as [|d l2 Hd _]; [reflexivity|].
    simpl in Heq. inversion Heq; subst. discriminate Hd.
  - destruct H2 as [|d l2 Hd H2].
    + simpl in Heq. inversion Heq; subst. discriminate Hc.
    + simpl in Heq. inversion Heq; subst. f_equal. eapply IH; eassumption.
Qed.

(** The suffix [.<i>@example.com] determines [i], whatever precedes it. *)
Lemma numbered_suffix_inj (x x' tail : string) (i j : nat) :
  (x ++ "." ++ str_of_nat i ++ tail = x' ++ "." ++ str_of_nat j ++ tail)%string ->
  i = j.
Proof.
  intros Heq. apply (f_equal list_ascii_of_string) in Heq.
  rewrite !chars_append in Heq. simpl in Heq.
  change ("."%char :: ?l)%list with (["."%char] ++ l)%list in Heq.
  rewrite !app_assoc in Heq. apply app_inv_tail in Heq.
  apply (f_equal (@rev ascii)) in Heq.
  rewrite !rev_app_distr in Heq. simpl in Heq.
  apply digits_then_dot in Heq.
  - apply str_of_nat_inj, chars_inj.
    rewrite <- (rev_involutive (list_ascii_of_string (str_of_nat i))), Heq.
    apply rev_involutive.
  - apply Forall_rev, str_of_nat_digits.
  - apply Forall_rev, str_of_nat_digits.
Qed.

Lemma append_assoc (s1 s2 s3 : string) :
  ((s1 ++ s2) ++ s3 = s1 ++ (s2 ++ s3))%string.
Proof.
  induction s1 as [|c t IH]; simpl; [reflexivity | rewrite IH; reflexivity].
Qed.

Lemma orm_email_index (a b a' b' : string) (i j : nat) :
  Orm.email_of a b i = Orm.email_of a' b' j -> i = j.
Proof.
  unfold Orm.email_of. intros Heq.
  rewrite <- (append_assoc (lower a) "." _) in Heq.
  rewrite <- (append_assoc (lower a') "." _) in Heq.
  rewrite <- (append_assoc (lower a ++ ".") (lower b) _) in Heq.
  rewrite <- (append_assoc (lower a' ++ ".") (lower b') _) in Heq.
  eapply numbered_suffix_inj. exact Heq.
Qed.

Lemma legacy_email_index (a b a' b' : string) (i j : nat) :
  Legacy.email_of a b i = Legacy.email_of a' b' j -> i = j.
Proof. exact (orm_email_index a b a' b' i j). Qed.

(** ** Rows keep their columns when they receive a primary key *)

Lemma map_number_from {R} `{Row R} {C} (f : R -> C) (next : Z) (objs : list R) :
  (forall z r, f (with_pk z r) = f r) ->
  map f (number_from next objs) = map f objs.
Proof.
  intros Hf. revert next. induction objs as [|o t IH]; intros next.
  - reflexivity.
  - cbn [number_from map]. rewrite Hf, IH. reflexivity.
Qed.

Lemma Forall2_In_right {A B} (P : A -> B -> Prop) xs ys (y : B) :
  Forall2 P xs ys -> In y ys -> exists x, In x xs /\ P x y.
Proof.
  induction 1 as [|x0 y0 xs ys Hxy _ IH]; simpl; [tauto|].
  intros [<-|Hin].
  - exists x0. auto.
  - destruct (IH Hin) as (x & Hx & HP). exists x. auto.
Qed.

Lemma NoDup_map_Forall2 {A B C} (P : A -> B -> Prop) (key : B -> C) xs ys :
  Forall2 P xs ys -> NoDup xs ->
  (forall x x' y y', P x y -> P x' y' -> key y = key y' -> x = x') ->
  NoDup (map key ys).
Proof.
  intros HP Hnd Hinj. induction HP as [|x y xs ys Hxy Hrest IH]; simpl.
  - constructor.
  - inversion Hnd as [|? ? Hx Hxs]; subst. constructor; [|apply IH; assumption].
    intros Hin. apply in_map_iff in Hin as (y' & Hk & Hy').
    eapply Forall2_In_right in Hy'; [|exact Hrest].
    destruct Hy' as (x' & Hx' & Hxy').
    assert (x = x') by (eapply Hinj; eauto). subst. contradiction.
Qed.

Lemma Forall2_length_eq {A B} (P : A -> B -> Prop) xs ys :
  Forall2 P xs ys -> List.length ys = List.length xs.
Proof. induction 1; simpl; congruence. Qed.

(* ================================================================= *)
(** * Customers: e-mail addresses and primary stores *)
(* ================================================================= *)

(** What the loop body of the ORM [insert_customers] yields for index [i]:
    an address numbered [i] and a primary store resolved from the name
    [preferred] that the weighted choice returned. *)
Definition orm_customer_spec (db : DB) (first_store : Store) (i : nat)
  (c : Customer) : Prop :=
  exists a b preferred,
    email c = Orm.email_of a b i /\
    primary_store_id c =
      Some (dict_get_default String.eqb (Orm.store_name_to_id db) preferred
                             (store_id first_store)).

Definition legacy_customer_spec (db : DB) (i : nat) (c : Customer) : Prop :=
  exists a b preferred,
    email c = Legacy.email_of a b i /\
    primary_store_id c = Legacy.find_store_id (Legacy.store_rows db) preferred.

Lemma orm_customer_object_spec stores db first_store i en c en' :
  Orm.customer_object stores db first_store i en = Ok (c, en') ->
  orm_customer_spec db first_store i c.
Proof.
  unfold Orm.customer_object. intros Hrun.
  repeat monad_inv Hrun. subst c.
  unfold orm_customer_spec. cbn [email primary_store_id]. eauto.
Qed.

Lemma legacy_customer_tuple_spec stores db i en c en' :
  Legacy.customer_tuple stores db i en = Ok (c, en') ->
  legacy_customer_spec db i c.
Proof.
  unfold Legacy.customer_tuple. intros Hrun.
  repeat monad_inv Hrun. subst c.
  unfold legacy_customer_spec. cbn [email primary_store_id]. eauto.
Qed.

Lemma orm_customer_objects_spec stores db n en objs en' :
  Orm.customer_objects stores db n en = Ok (objs, en') ->
  exists first_store rest,
    db_stores db = first_store :: rest /\
    Forall2 (orm_customer_spec db first_store) (seq 1 n) objs.
Proof.
  unfold Orm.customer_objects.
  destruct (db_stores db) as [|first_store rest]; [discriminate|].
  intros Hrun. exists first_store, rest. split; [reflexivity|].
  eapply mapM_Gen_Forall2; [|exact Hrun].
  intros i e1 c e2 _ Hc. eapply orm_customer_object_spec. exact Hc.
Qed.

Lemma legacy_customers_data_spec stores db n en objs en' :
  Legacy.customers_data stores db n en = Ok (objs, en') ->
  Forall2 (legacy_customer_spec db) (seq 1 n) objs.
Proof.
  unfold Legacy.customers_data. intros Hrun.
  eapply mapM_Gen_Forall2; [|exact Hrun].
  intros i e1 c e2 _ Hc. eapply legacy_customer_tuple_spec. exact Hc.
Qed.

Lemma orm_emails_NoDup db first_store n objs :
  Forall2 (orm_customer_spec db first_store) (seq 1 n) objs ->
  NoDup (map email objs).
Proof.
  intros HF. eapply NoDup_map_Forall2; [exact HF | apply seq_NoDup |].
  intros i j c c' (a & b & p & Hc & _) (a' & b' & p' & Hc' & _) Heq.
  rewrite Hc, Hc' in Heq. eapply orm_email_index. exact Heq.
Qed.

Lemma legacy_emails_NoDup db n objs :
  Forall2 (legacy_customer_spec db) (seq 1 n) objs ->
  NoDup (map email objs).
Proof.
  intros HF. eapply NoDup_map_Forall2; [exact HF | apply seq_NoDup |].
  intros i j c c' (a & b & p & Hc & _) (a' & b' & p' & Hc' & _) Heq.
  rewrite Hc, Hc' in Heq. eapply legacy_email_index. exact Heq.
Qed.

Lemma fresh_customers_pass_unique (objs : list Customer) :
  NoDup (map email objs) ->
  checked String.eqb email (auto_insert [] objs) = Ok (auto_insert [] objs).
Proof.
  intros Hnd. apply checked_ok; [exact String.eqb_eq|].
  unfold auto_insert. cbn [app].
  rewrite map_number_from; [assumption | reflexivity].
Qed.

(** C7.  Whatever names Faker returns and whatever the random draws are,
    the [n] customers generated by either customers stage carry [n] pairwise
    distinct e-mail addresses, because the address of the [i]-th customer
    ends in [.<i>@example.com]; the rows are written as generated (nothing
    is filtered or de-duplicated), and on a fresh customers table the UNIQUE
    constraint on the address therefore never rejects the write. *)
Theorem customer_emails_pairwise_distinct (n : nat) :
  (forall stores db en objs en',
      Orm.customer_objects stores db n en = Ok (objs, en') ->
      List.length objs = n /\ NoDup (map email objs) /\
      (db_customers db = [] ->
       Orm.insert_customers stores n db en
       = Ok (set_customers (auto_insert [] objs) db, en'))) /\
  (forall stores db en objs en',
      Legacy.customers_data stores db n en = Ok (objs, en') ->
      List.length objs = n /\ NoDup (map email objs) /\
      (db_customers db = [] ->
       Legacy.insert_customers stores n db en
       = Ok (set_customers (auto_insert [] objs) db, en'))).
Proof.
  split; intros stores db en objs en' Hrun.
  - destruct (orm_customer_objects_spec _ _ _ _ _ _ Hrun) as (f & r & _ & HF).
    assert (Hnd : NoDup (map email objs))
      by (eapply orm_emails_NoDup; exact HF).
    split; [|split].
    + apply Forall2_length_eq in HF. rewrite HF. apply length_seq.
    + exact Hnd.
    + intros Hfresh. unfold Orm.insert_customers. cbn [bind Gen_Monad].
      rewrite Hrun. unfold lift, Orm.bulk_insert_customers. rewrite Hfresh.
      rewrite fresh_customers_pass_unique by exact Hnd. reflexivity.
  - pose proof (legacy_customers_data_spec _ _ _ _ _ _ Hrun) as HF.
    assert (Hnd : NoDup (map email objs))
      by (eapply legacy_emails_NoDup; exact HF).
    split; [|split].
    + apply Forall2_length_eq in HF. rewrite HF. apply length_seq.
    + exact Hnd.
    + intros Hfresh. unfold Legacy.insert_customers. cbn [bind Gen_Monad].
      rewrite Hrun. unfold lift, Legacy.insert_customer_rows. rewrite Hfresh.
      rewrite fresh_customers_pass_unique by exact Hnd. reflexivity.
Qed.

Lemma store_name_to_id_In db name z :
  dict_get String.eqb (Orm.store_name_to_id db) name = Some z ->
  exists s, In s (db_stores db) /\ store_name s = name /\ store_id s = z.
Proof.
  intros Hg. apply (dict_get_In String.eqb String.eqb_eq) in Hg.
  unfold Orm.store_name_to_id in Hg. apply in_map_iff in Hg as (s & Heq & Hs).
  inversion Heq; subst. eauto.
Qed.

Lemma find_store_id_None rows name :
  ~ In name (map snd rows) -> Legacy.find_store_id rows name = None.
Proof.
  intros Hn. unfold Legacy.find_store_id.
  destruct (find (fun r => (snd r =? name)%string) rows) as [r|] eqn:E;
    [|reflexivity].
  apply find_some in E as [Hin Heq]. apply String.eqb_eq in Heq.
  exfalso. apply Hn. apply in_map_iff. exists r. auto.
Qed.

(** The draws of one round of the customers loop up to the store name: two
    names, a phone number, the weighted choice of a store. *)
Definition orm_preferred_store (stores : list (string * Orm.StoreConfig))
  : Gen string :=
  _ <- next_name ;; _ <- next_name ;; _ <- Orm.generate_phone_number ;;
  Orm.weighted_store_choice stores.

Definition legacy_preferred_store (stores : list (string * Legacy.StoreConfig))
  : Gen string :=
  _ <- next_name ;; _ <- next_name ;; _ <- Legacy.generate_phone_number ;;
  Legacy.weighted_store_choice stores.

(** A round of the ORM loop draws the name as [orm_preferred_store] does and
    resolves it with [dict.get(name, stores_in_db[0].store_id)]. *)
Lemma orm_customer_object_draw stores db first_store i en c en' :
  Orm.customer_object stores db first_store i en = Ok (c, en') ->
  exists preferred,
    orm_preferred_store stores en = Ok (preferred, en') /\
    primary_store_id c
    = Some (dict_get_default String.eqb (Orm.store_name_to_id db) preferred
                             (store_id first_store)).
Proof.
  unfold Orm.customer_object, orm_preferred_store. intros Hrun.
  repeat monad_inv Hrun. subst c en'. exists v2. split; [|reflexivity].
  cbn [bind Gen_Monad]. rewrite Hstep, Hstep0, Hstep1. exact Hstep2.
Qed.

Lemma legacy_customer_tuple_draw stores db i en c en' :
  Legacy.customer_tuple stores db i en = Ok (c, en') ->
  exists preferred,
    legacy_preferred_store stores en = Ok (preferred, en') /\
    primary_store_id c
    = Legacy.find_store_id (Legacy.store_rows db) preferred.
Proof.
  unfold Legacy.customer_tuple, legacy_preferred_store. intros Hrun.
  repeat monad_inv Hrun. subst c en'. exists v2. split; [|reflexivity].
  cbn [bind Gen_Monad]. rewrite Hstep, Hstep0, Hstep1. exact Hstep2.
Qed.

(** A loop whose rounds draw as [g] does has drawn what [replicateM] of [g]
    draws. *)
Lemma mapM_draws {A B C} (f : A -> Gen B) (g : Gen C) (P : C -> B -> Prop)
  (xs : list A) :
  (forall a en b en', f a en = Ok (b, en') ->
                      exists c, g en = Ok (c, en') /\ P c b) ->
  forall en ys en',
    mapM f xs en = Ok (ys, en') ->
    exists cs, replicateM (List.length xs) g en = Ok (cs, en') /\
               Forall2 P cs ys.
Proof.
  intros Hf. induction xs as [|x t IH]; intros en ys en' Hrun.
  - monad_inv Hrun. subst. exists []. split; [reflexivity | constructor].
  - cbn [mapM] in Hrun. monad_inv Hrun. monad_inv Hrun. monad_inv Hrun.
    subst ys en'.
    destruct (Hf _ _ _ _ Hstep) as (c & Hc & Hp).
    destruct (IH _ _ _ Hstep0) as (cs & Hcs & HF).
    exists (c :: cs). split; [|constructor; assumption].
    cbn [List.length replicateM bind Gen_Monad]. rewrite Hc, Hcs. reflexivity.
Qed.

(** C10.  In the ORM variant the customers stage raises when the stores
    table is empty.  Otherwise the [i]-th customer gets a primary store
    from the [i]-th store name that the weighted choice draws: when a store
    of the table has that name, the id that the table gives to the name;
    when none has, the id of the first store of the table.  So the
    reference is the id of a store row in either case, never [None].  The
    legacy variant looks the same name up in the rows of the table and
    leaves the reference [None] when the name is not there. *)
Theorem orm_customer_primary_store_never_null :
  (forall stores db n en,
      db_stores db = [] ->
      Orm.customer_objects stores db n en = Raise PlainException) /\
  (forall stores db n en objs en' first_store rest,
      db_stores db = first_store :: rest ->
      Orm.customer_objects stores db n en = Ok (objs, en') ->
      exists names,
        replicateM n (orm_preferred_store stores) en = Ok (names, en') /\
        Forall2 (fun preferred c =>
                   (exists s, In s (db_stores db) /\
                              primary_store_id c = Some (store_id s)) /\
                   (In preferred (map store_name (db_stores db)) ->
                    dict_get String.eqb (Orm.store_name_to_id db) preferred
                    = primary_store_id c /\
                    exists s, In s (db_stores db) /\
                              store_name s = preferred /\
                              primary_store_id c = Some (store_id s)) /\
                   (~ In preferred (map store_name (db_stores db)) ->
                    primary_store_id c = Some (store_id first_store)))
                names objs) /\
  (forall stores db n en objs en',
      Legacy.customers_data stores db n en = Ok (objs, en') ->
      exists names,
        replicateM n (legacy_preferred_store stores) en = Ok (names, en') /\
        Forall2 (fun preferred c =>
                   primary_store_id c
                   = Legacy.find_store_id (Legacy.store_rows db) preferred /\
                   (~ In preferred (map store_name (db_stores db)) ->
                    primary_store_id c = None))
                names objs).
Proof.
  split; [|split].
  - intros stores db n en Hempty. unfold Orm.customer_objects.
    rewrite Hempty. reflexivity.
  - intros stores db n en objs en' first_store rest Hst Hrun.
    unfold Orm.customer_objects in Hrun. rewrite Hst in Hrun.
    destruct (mapM_draws
                (Orm.customer_object stores db first_store)
                (orm_preferred_store stores)
                (fun preferred c =>
                   primary_store_id c
                   = Some (dict_get_default String.eqb
                             (Orm.store_name_to_id db) preferred
                             (store_id first_store)))
                (seq 1 n)
                (fun i e1 c e2 H => orm_customer_object_draw _ _ _ _ _ _ _ H)
                _ _ _ Hrun) as (names & Hnames & HF).
    rewrite length_seq in Hnames.
    exists names. split; [exact Hnames|].
    eapply Forall2_impl; [|exact HF]. cbn beta.
    intros preferred c Hp. unfold dict_get_default in Hp.
    destruct (dict_get String.eqb (Orm.store_name_to_id db) preferred)
      as [z|] eqn:Eg.
    + destruct (store_name_to_id_In _ _ _ Eg) as (s & Hs & Hname & Hid).
      split; [exists s; split; [assumption | congruence]|].
      split.
      * intros _. split; [congruence|].
        exists s. split; [assumption|]. split; [assumption | congruence].
      * intros Hn. exfalso. apply Hn. apply in_map_iff. exists s. auto.
    + split; [exists first_store; split; [rewrite Hst; left; reflexivity
                                          | assumption]|].
      split; [|intros _; assumption].
      intros Hin. exfalso.
      apply (dict_get_None String.eqb String.eqb_eq) in Eg. apply Eg.
      unfold Orm.store_name_to_id. rewrite map_map. exact Hin.
  - intros stores db n en objs en' Hrun.
    unfold Legacy.customers_data in Hrun.
    destruct (mapM_draws
                (Legacy.customer_tuple stores db)
                (legacy_preferred_store stores)
                (fun preferred c =>
                   primary_store_id c
                   = Legacy.find_store_id (Legacy.store_rows db) preferred)
                (seq 1 n)
                (fun i e1 c e2 H => legacy_customer_tuple_draw _ _ _ _ _ _ H)
                _ _ _ Hrun) as (names & Hnames & HF).
    rewrite length_seq in Hnames.
    exists names. split; [exact Hnames|].
    eapply Forall2_impl; [|exact HF]. cbn beta.
    intros preferred c Hp. split; [exact Hp|].
    intros Hn. rewrite Hp. apply find_store_id_None.
    unfold Legacy.store_rows. rewrite map_map. exact Hn.
Qed.

(* ================================================================= *)
(** * Facts about binary64 arithmetic and the random draws *)
(* ================================================================= *)

Lemma ltb_leb (a b : float) : (a <? b)%float = true -> (a <=? b)%float = true.
Proof.
  rewrite ltb_spec, leb_spec. unfold SFltb, SFleb.
  destruct (SFcompare (Prim2SF a) (Prim2SF b)) as [[| |]|];
    solve [reflexivity | discriminate].
Qed.

Lemma SFmul_comm (x y : spec_float) : SF64mul x y = SF64mul y x.
Proof.
  unfold SF64mul, SFmul.
  destruct x as [sx|sx| |sx mx ex], y as [sy|sy| |sy my ey];
    try reflexivity; rewrite (xorb_comm sx sy); try reflexivity.
  rewrite (Pos.mul_comm mx my), (Z.add_comm ex ey). reflexivity.
Qed.

Lemma mul_comm (x y : float) : (x * y)%float = (y * x)%float.
Proof.
  apply Prim2SF_inj. rewrite !mul_spec. apply SFmul_comm.
Qed.

(** A score is in range when it compares [>= 1.0] and [<= 5.0]. *)
Definition score_in_range (x : float) : Prop :=
  (1.0 <=? x)%float = true /\ (x <=? 5.0)%float = true.

(** [max(1.0, min(5.0, x))] is in range for every float [x], NaN included. *)
Lemma clamp_in_range (x : float) : score_in_range (max2 1.0 (min2 5.0 x)).
Proof.
  unfold score_in_range, max2, min2.
  destruct (x <? 5.0)%float eqn:E5.
  - destruct (1.0 <? x)%float eqn:E1.
    + split; apply ltb_leb; assumption.
    + split; reflexivity.
  - split; reflexivity.
Qed.

Lemma next_draw_total en : exists n en', next_draw en = Ok (n, en').
Proof.
  unfold next_draw. destruct (rand_tape en); eauto.
Qed.

Lemma randint_range a b en n en' :
  randint a b en = Ok (n, en') -> a <= n <= b.
Proof.
  unfold randint. destruct (b <? a) eqn:E; [discriminate|].
  apply Z.ltb_ge in E. intros Hrun. repeat monad_inv Hrun. subst n.
  pose proof (Z.mod_pos_bound (Z.of_N v) (b - a + 1)). lia.
Qed.

Lemma choice_In {A} (seq : list A) en (x : A) en' :
  choice seq en = Ok (x, en') -> In x seq.
Proof.
  unfold choice. destruct seq as [|a l]; [discriminate|].
  intros Hrun. monad_inv Hrun.
  destruct (nth_error (a :: l) (N.to_nat v mod List.length (a :: l))) eqn:E;
    [|discriminate].
  monad_inv Hrun. subst. eapply nth_error_In. exact E.
Qed.

Lemma choices_In {A} (population : list A) weights en (x : A) en' :
  choices population weights en = Ok (x, en') -> In x population.
Proof.
  unfold choices.
  destruct (negb (List.length weights =? List.length population)%nat);
    [discriminate|].
  destruct population as [|a l]; [discriminate|].
  cbv zeta.
  destruct (fold_left add weights 0 <=? 0)%float; [discriminate|].
  destruct (negb (is_finite (fold_left add weights 0%float)));
    [discriminate|].
  apply choice_In.
Qed.

(* ================================================================= *)
(** * Supplier performance history *)
(* ================================================================= *)

(** The rule that fixes the overall score of an evaluation. *)
Definition weighted_overall (p : SupplierPerformance) : float :=
  (0.30 * cost_score p + 0.30 * quality_score p + 0.25 * delivery_score p
   + 0.15 * compliance_score p)%float.

Definition evaluation_ok (p : SupplierPerformance) : Prop :=
  score_in_range (cost_score p) /\ score_in_range (quality_score p) /\
  score_in_range (delivery_score p) /\ score_in_range (compliance_score p) /\
  overall_score p = weighted_overall p.

(** The evaluations of supplier [s] among [rows]. *)
Definition evaluations_of (s : Supplier) (rows : list SupplierPerformance)
  : list SupplierPerformance :=
  filter (fun p => perf_supplier_id p =? supplier_id s) rows.

Lemma evaluation_spec month_start s months_ago en p en' :
  Orm.evaluation month_start s months_ago en = Ok (p, en') ->
  evaluation_ok p /\ perf_supplier_id p = supplier_id s.
Proof.
  unfold Orm.evaluation. intros Hrun. repeat monad_inv Hrun. subst p.
  unfold evaluation_ok, weighted_overall.
  cbn [cost_score quality_score delivery_score compliance_score overall_score
       perf_supplier_id].
  repeat split; try apply clamp_in_range.
  rewrite (mul_comm 0.30), (mul_comm 0.30), (mul_comm 0.25), (mul_comm 0.15).
  reflexivity.
Qed.

Lemma evaluations_spec month_start s en ps en' :
  Orm.evaluations month_start s en = Ok (ps, en') ->
  (3 <= List.length ps <= 7)%nat /\
  Forall (fun p => evaluation_ok p /\ perf_supplier_id p = supplier_id s) ps.
Proof.
  unfold Orm.evaluations. intros Hrun. monad_inv Hrun.
  apply randint_range in Hstep.
  pose proof (mapM_Gen_Forall2 (Orm.evaluation month_start s)
                (fun _ p => evaluation_ok p /\ perf_supplier_id p = supplier_id s)
                (zrange 0 (Z.to_nat v))) as HF.
  specialize (HF (fun a e1 b e2 _ H => evaluation_spec _ _ _ _ _ _ H) _ _ _ Hrun).
  split.
  - rewrite (Forall2_length_eq _ _ _ HF), zrange_length. lia.
  - eapply Forall2_Forall_r; [exact HF|]. intros a b _ Hb. exact Hb.
Qed.

Lemma filter_none {A} (f : A -> bool) (l : list A) :
  Forall (fun x => f x = false) l -> filter f l = [].
Proof.
  induction 1 as [|x l Hx _ IH]; simpl; [reflexivity|].
  rewrite Hx. exact IH.
Qed.

Lemma filter_all {A} (f : A -> bool) (l : list A) :
  Forall (fun x => f x = true) l -> filter f l = l.
Proof.
  induction 1 as [|x l Hx _ IH]; simpl; [reflexivity|].
  rewrite Hx, IH. reflexivity.
Qed.

Lemma filter_concat {A} (f : A -> bool) (ls : list (list A)) :
  filter f (List.concat ls) = List.concat (map (filter f) ls).
Proof.
  induction ls as [|l ls IH]; simpl; [reflexivity|].
  rewrite filter_app, IH. reflexivity.
Qed.

Lemma foreign_blocks_filter_nil (z : Z) (sups : list Supplier)
  (blocks : list (list SupplierPerformance)) :
  ~ In z (map supplier_id sups) ->
  Forall2 (fun s ps => (3 <= List.length ps <= 7)%nat /\
                       Forall (fun p => perf_supplier_id p = supplier_id s) ps)
          sups blocks ->
  filter (fun p => perf_supplier_id p =? z) (List.concat blocks) = [].
Proof.
  intros Hz HF. induction HF as [|s ps sups blocks [_ Hps] HF IH];
    [reflexivity|].
  cbn [List.concat]. rewrite filter_app, IH.
  - rewrite List.app_nil_r. apply filter_none.
    eapply Forall_impl; [|exact Hps]. intros p Hp. cbn beta.
    rewrite Hp. apply Z.eqb_neq. intros Heq. apply Hz. left. exact Heq.
  - intros Hin. apply Hz. right. exact Hin.
Qed.

(** With distinct supplier ids, the evaluations of a supplier are exactly
    the block generated for it. *)
Lemma evaluations_of_blocks (sups : list Supplier)
  (blocks : list (list SupplierPerformance)) :
  NoDup (map supplier_id sups) ->
  Forall2 (fun s ps => (3 <= List.length ps <= 7)%nat /\
                       Forall (fun p => perf_supplier_id p = supplier_id s) ps)
          sups blocks ->
  forall s, In s sups ->
            (3 <= List.length (evaluations_of s (List.concat blocks)) <= 7)%nat.
Proof.
  intros Hnd HF. induction HF as [|s0 ps sups blocks [Hlen Hps] HF IH];
    intros s Hin; [contradiction|].
  inversion Hnd as [|? ? Hs0 Hnd']; subst.
  unfold evaluations_of in *. cbn [List.concat]. rewrite filter_app, length_app.
  destruct Hin as [->|Hin].
  - rewrite filter_all.
    + rewrite (foreign_blocks_filter_nil _ _ _ Hs0 HF). cbn [List.length]. lia.
    + eapply Forall_impl; [|exact Hps]. intros p Hp. cbn beta.
      rewrite Hp. apply Z.eqb_refl.
  - rewrite filter_none.
    + cbn [List.length]. apply (IH Hnd' s Hin).
    + eapply Forall_impl; [|exact Hps]. intros p Hp. cbn beta.
      rewrite Hp. apply Z.eqb_neq. intros Heq. apply Hs0.
      apply in_map_iff. exists s. split; [symmetry; exact Heq | exact Hin].
Qed.

Lemma blocks_total_length (sups : list Supplier)
  (blocks : list (list SupplierPerformance)) :
  Forall2 (fun s ps => (3 <= List.length ps <= 7)%nat /\
                       Forall (fun p => perf_supplier_id p = supplier_id s) ps)
          sups blocks ->
  (3 * List.length sups <= List.length (List.concat blocks)
   <= 7 * List.length sups)%nat.
Proof.
  induction 1 as [|s ps sups blocks [Hlen _] _ IH]; cbn [List.concat List.length].
  - lia.
  - rewrite length_app. lia.
Qed.

Lemma blocks_belong (sups : list Supplier)
  (blocks : list (list SupplierPerformance)) :
  Forall2 (fun s ps => (3 <= List.length ps <= 7)%nat /\
                       Forall (fun p => perf_supplier_id p = supplier_id s) ps)
          sups blocks ->
  Forall (fun p => In (perf_supplier_id p) (map supplier_id sups))
         (List.concat blocks).
Proof.
  induction 1 as [|s ps sups blocks [_ Hps] _ IH]; cbn [List.concat map].
  - constructor.
  - apply Forall_app. split.
    + eapply Forall_impl; [|exact Hps]. intros p Hp. left. symmetry. exact Hp.
    + eapply Forall_impl; [|exact IH]. intros p Hp. right. exact Hp.
Qed.

(** C6.  When the suppliers stage starts from an empty evaluation table and
    completes, the suppliers table holds, after the suppliers it held, one
    supplier per entry of the supplier document, under the id of the entry;
    every supplier of the table has between 3 and 7 evaluations, so each
    entry of the document has, and the evaluation table holds between 3 and
    7 rows per supplier in all; every evaluation belongs to a supplier of
    the table, has its four component scores between 1.0 and 5.0 and its
    overall score equal to
    [0.30*cost + 0.30*quality + 0.25*delivery + 0.15*compliance], whatever
    the random draws are (the clamp also absorbs a NaN). *)
Theorem supplier_evaluations_bounded_and_weighted
  (supplier_data : list (Z * Orm.SupplierEntry)) (month_start : Z)
  (db db' : DB) (en en' : Entropy) :
  db_supplier_performance db = [] ->
  Orm.insert_suppliers supplier_data month_start db en = Ok (db', en') ->
  map supplier_id (db_suppliers db')
  = map supplier_id (db_suppliers db)
    ++ map (fun kv => Orm.se_supplier_id (snd kv)) supplier_data /\
  Forall evaluation_ok (db_supplier_performance db') /\
  (forall s, In s (db_suppliers db') ->
     (3 <= List.length (evaluations_of s (db_supplier_performance db')) <= 7)%nat) /\
  (forall kv, In kv supplier_data ->
     exists s,
       In s (db_suppliers db') /\
       supplier_id s = Orm.se_supplier_id (snd kv) /\
       (3 <= List.length (evaluations_of s (db_supplier_performance db'))
        <= 7)%nat) /\
  Forall (fun p => In (perf_supplier_id p) (map supplier_id (db_suppliers db')))
         (db_supplier_performance db') /\
  (3 * List.length (db_suppliers db')
   <= List.length (db_supplier_performance db')
   <= 7 * List.length (db_suppliers db'))%nat.
Proof.
  intros Hp Hrun. unfold Orm.insert_suppliers in Hrun.
  monad_inv Hrun. monad_inv Hstep. subst en0.
  unfold Orm.bulk_insert_suppliers in Hstep0. monad_inv Hstep0.
  apply (checked_inv Z.eqb Z.eqb_eq) in Hstep as [-> Hnd].
  monad_inv Hstep0. subst v.
  monad_inv Hrun. rename v into suppliers_in_db.
  apply fetchall_inv in Hstep as (Hscan & _).
  monad_inv Hrun. monad_inv Hrun. subst db'.
  cbn [db_supplier_performance db_suppliers set_supplier_performance
       set_suppliers] in *.
  rewrite Hp. cbn [app].
  set (table := db_suppliers db ++ _) in *.
  pose proof (mapM_Gen_Forall2 (Orm.evaluations month_start)
                (fun s ps => (3 <= List.length ps <= 7)%nat /\
                   Forall (fun p => evaluation_ok p /\
                                    perf_supplier_id p = supplier_id s) ps)
                _ (fun a e1 b e2 _ H => evaluations_spec _ _ _ _ _ H)
                _ _ _ Hstep) as HF.
  assert (HB :
    Forall2 (fun s ps => (3 <= List.length ps <= 7)%nat /\
                         Forall (fun p => perf_supplier_id p = supplier_id s) ps)
            suppliers_in_db v).
  { eapply Forall2_impl; [|exact HF].
    intros s ps [Hlen Hall]. split; [exact Hlen|].
    eapply Forall_impl; [|exact Hall]. intros p [_ Hid]. exact Hid. }
  assert (Hnd' : NoDup (map supplier_id suppliers_in_db)).
  { eapply Permutation_NoDup; [|exact Hnd].
    apply Permutation_map, Permutation_sym, Hscan. }
  assert (Hcount : forall s, In s table ->
            (3 <= List.length (evaluations_of s (List.concat v)) <= 7)%nat).
  { intros s Hs. apply (evaluations_of_blocks _ _ Hnd' HB).
    apply (Permutation_in _ (Permutation_sym Hscan)). exact Hs. }
  split; [|split; [|split; [|split; [|split]]]].
  - unfold table. rewrite map_app, map_map. reflexivity.
  - apply Forall_concat. eapply Forall2_Forall_r; [exact HF|].
    intros s ps _ [_ Hall]. eapply Forall_impl; [|exact Hall].
    intros p [Hok _]. exact Hok.
  - exact Hcount.
  - intros kv Hkv.
    eexists {| supplier_id := Orm.se_supplier_id (snd kv);
               supplier_name := Orm.se_supplier_name (snd kv);
               lead_time_days := Orm.se_lead_time_days (snd kv) |}.
    assert (Hin : In {| supplier_id := Orm.se_supplier_id (snd kv);
                        supplier_name := Orm.se_supplier_name (snd kv);
                        lead_time_days := Orm.se_lead_time_days (snd kv) |}
                     table).
    { unfold table. apply in_or_app. right.
      apply in_map_iff. exists kv. split; [reflexivity | exact Hkv]. }
    split; [exact Hin|]. split; [reflexivity|]. apply Hcount. exact Hin.
  - eapply Forall_impl; [|exact (blocks_belong _ _ HB)]. intros p Hin.
    apply (Permutation_in _ (Permutation_map supplier_id Hscan)). exact Hin.
  - rewrite <- (Permutation_length Hscan). exact (blocks_total_length _ _ HB).
Qed.

(* ================================================================= *)
(** * Orders and order lines *)
(* ================================================================= *)

Lemma In_insert_desc (x y : Z) (l : list Z) :
  In y (insert_desc x l) -> y = x \/ In y l.
Proof.
  induction l as [|z t IH]; simpl.
  - intros [<-|[]]. left. reflexivity.
  - destruct (z <=? x); simpl.
    + intros [<-|[<-|Hin]]; auto.
    + intros [<-|Hin]; auto. destruct (IH Hin); auto.
Qed.

Lemma In_sort_desc (y : Z) (l : list Z) : In y (sort_desc l) -> In y l.
Proof.
  induction l as [|x t IH]; simpl; [tauto|].
  intros Hin. apply In_insert_desc in Hin as [->|Hin]; auto.
Qed.

Lemma In_firstn {A} (n : nat) (l : list A) (x : A) :
  In x (firstn n l) -> In x l.
Proof.
  revert l. induction n as [|n IH]; intros [|a l]; simpl; try tauto.
  intros [->|Hin]; auto.
Qed.

Lemma In_last_order_ids (n : nat) (db : DB) (z : Z) :
  In z (Orm.last_order_ids n db) -> In z (map order_id (db_orders db)).
Proof.
  unfold Orm.last_order_ids. intros Hin.
  apply in_rev in Hin. apply In_firstn in Hin. apply In_sort_desc in Hin.
  exact Hin.
Qed.

(** The amounts of an order line as the ORM generator computes them:
    both are rounded to two decimals. *)
Definition orm_amounts (it : OrderItem) : Prop :=
  discount_amount it
  = round2 ((unit_price it * float_of_int (quantity it)
             * float_of_int (discount_percent it)) / 100)%float /\
  total_amount it
  = round2 (unit_price it * float_of_int (quantity it) - discount_amount it)%float.

(** The amounts of an order line as the legacy generator computes them:
    neither is rounded, and a line without a discount carries [0]. *)
Definition legacy_amounts (it : OrderItem) : Prop :=
  (discount_amount it
   = ((unit_price it * float_of_int (quantity it)
       * float_of_int (discount_percent it)) / 100)%float
   \/ (discount_percent it = 0 /\ discount_amount it = 0%float)) /\
  total_amount it
  = (unit_price it * float_of_int (quantity it) - discount_amount it)%float.

Lemma orm_order_item_object_spec product_list oid sid en it en' :
  Orm.order_item_object product_list oid sid en = Ok (it, en') ->
  item_order_id it = oid /\ item_store_id it = sid /\
  In (item_product_id it) (map fst product_list) /\ orm_amounts it.
Proof.
  unfold Orm.order_item_object. intros Hrun. repeat monad_inv Hrun. subst it.
  apply choice_In in Hstep.
  unfold orm_amounts.
  cbn [item_order_id item_store_id item_product_id discount_amount
       total_amount unit_price quantity discount_percent].
  repeat split. apply in_map. exact Hstep.
Qed.

Lemma legacy_order_item_tuple_spec product_prices oid sid en it en' :
  Legacy.order_item_tuple product_prices oid sid en = Ok (it, en') ->
  item_order_id it = oid /\ item_store_id it = sid /\
  In (item_product_id it) (map fst product_prices) /\ legacy_amounts it.
Proof.
  unfold Legacy.order_item_tuple. intros Hrun. monad_inv Hrun.
  apply choice_In in Hstep.
  destruct (dict_get Z.eqb product_prices v) as [base_price|]; [|discriminate].
  repeat monad_inv Hrun.
  destruct (v2 <? 0.15)%float.
  - repeat monad_inv Hrun. subst it. unfold legacy_amounts.
    cbn [item_order_id item_store_id item_product_id discount_amount
         total_amount unit_price quantity discount_percent].
    repeat split; auto.
  - repeat monad_inv Hrun. subst it. unfold legacy_amounts.
    cbn [item_order_id item_store_id item_product_id discount_amount
         total_amount unit_price quantity discount_percent].
    repeat split; auto.
Qed.

(** What the ORM orders stage writes. *)
Lemma orm_orders_stage_spec today n db en db' en' :
  Orm.insert_orders_and_items today n db en = Ok (db', en') ->
  exists orders items,
    db' = set_order_items (auto_insert (db_order_items db) items)
            (set_orders (auto_insert (db_orders db) orders) db) /\
    Forall (fun o =>
              In (order_customer_id o) (map customer_id (db_customers db)) /\
              In (order_store_id o) (map store_id (db_stores db)))
           orders /\
    Forall (fun it =>
              In (item_order_id it)
                 (map order_id (auto_insert (db_orders db) orders)) /\
              In (item_store_id it) (map store_id (db_stores db)) /\
              In (item_product_id it) (map product_id (db_products db)) /\
              orm_amounts it)
           items.
Proof.
  unfold Orm.insert_orders_and_items. intros Hrun.
  destruct (map customer_id (db_customers db)) as [|c0 cs] eqn:Ec;
    [discriminate|].
  rewrite <- Ec in Hrun |- *. clear Ec.
  monad_inv Hrun. monad_inv Hrun. monad_inv Hrun. subst db'.
  exists v, (List.concat v0). split; [reflexivity|]. split.
  - refine (proj1 (replicateM_Gen_Forall _ _ _ n _ _ _ Hstep)).
    intros e1 o e2 Ho. unfold Orm.order_object in Ho. repeat monad_inv Ho.
    subst o. cbn [order_customer_id order_store_id].
    split; eapply choice_In; eassumption.
  - apply Forall_concat.
    eapply Forall2_Forall_r.
    + eapply mapM_Gen_Forall2; [|exact Hstep0].
      intros oid e1 its e2 Hoid Hits.
      instantiate (1 := fun oid its =>
        In oid (map order_id (auto_insert (db_orders db) v)) /\
        Forall (fun it => item_order_id it = oid /\
                 In (item_store_id it) (map store_id (db_stores db)) /\
                 In (item_product_id it) (map product_id (db_products db)) /\
                 orm_amounts it) its).
      cbn beta. split.
      * apply In_last_order_ids in Hoid. exact Hoid.
      * unfold Orm.order_items_of in Hits. monad_inv Hits. monad_inv Hits.
        apply choice_In in Hstep1.
        refine (proj1 (replicateM_Gen_Forall _ _ _ (Z.to_nat v2) _ _ _ Hits)).
        intros e3 it e4 Hit. apply orm_order_item_object_spec in Hit.
        destruct Hit as (H1 & H2 & H3 & H4). rewrite map_map in H3. cbn [fst] in H3.
        rewrite H2. auto.
    + cbn beta. intros oid its _ [Hoid Hall].
      eapply Forall_impl; [|exact Hall]. intros it (H1 & H2 & H3 & H4).
      rewrite H1. auto.
Qed.

Lemma find_store_id_Some db name sid :
  Legacy.find_store_id (Legacy.store_rows db) name = Some sid ->
  exists s, In s (db_stores db) /\ store_name s = name /\ store_id s = sid.
Proof.
  unfold Legacy.find_store_id.
  destruct (find (fun r => (snd r =? name)%string) (Legacy.store_rows db))
    as [r|] eqn:E; [|discriminate].
  intros Hs; inversion Hs; subst. apply find_some in E as [Hin Heq].
  apply String.eqb_eq in Heq. unfold Legacy.store_rows in Hin.
  apply in_map_iff in Hin as (s & <- & Hs'). exists s. auto.
Qed.

(** The invariant of the two nested loops of the legacy [insert_orders]:
    the running order number is one more than the number of orders gathered,
    and every line gathered so far carries the number of an order gathered
    so far. *)
Definition orders_inv (db : DB) (n : nat) (st : Legacy.OrdersState) : Prop :=
  Legacy.next_order_id st = 1 + Z.of_nat (List.length (Legacy.orders_data st)) /\
  Forall (fun o =>
            1 <= order_customer_id o <= Z.of_nat n /\
            In (order_store_id o) (map store_id (db_stores db)))
         (Legacy.orders_data st) /\
  Forall (fun it =>
            1 <= item_order_id it < Legacy.next_order_id st /\
            In (item_store_id it) (map store_id (db_stores db)) /\
            In (item_product_id it) (map product_id (db_products db)) /\
            legacy_amounts it)
         (Legacy.order_items_data st).

Lemma one_order_inv stores yw db n customer_id st k en st' en' :
  1 <= customer_id <= Z.of_nat n ->
  orders_inv db n st ->
  Legacy.one_order stores yw db
    (map (fun p => (product_id p, base_price p)) (db_products db))
    customer_id st k en = Ok (st', en') ->
  orders_inv db n st'.
Proof.
  intros Hc (Hnext & Hord & Hit) Hrun. unfold Legacy.one_order in Hrun.
  monad_inv Hrun.
  destruct (Legacy.find_store_id (Legacy.store_rows db) v) as [sid|] eqn:Es;
    [|discriminate].
  apply find_store_id_Some in Es as (s & Hs & _ & Hsid).
  assert (Hsid' : In sid (map store_id (db_stores db)))
    by (apply in_map_iff; exists s; auto).
  repeat monad_inv Hrun. subst st'.
  unfold orders_inv.
  cbn [Legacy.next_order_id Legacy.orders_data Legacy.order_items_data].
  split; [|split].
  - rewrite length_app. cbn [List.length]. lia.
  - apply Forall_app. split; [exact Hord|].
    constructor; [|constructor]. cbn [order_customer_id order_store_id]. auto.
  - apply Forall_app. split.
    + eapply Forall_impl; [|exact Hit]. intros it (H1 & H2 & H3 & H4).
      split; [lia | split; [assumption | split; assumption]].
    + refine (Forall_impl _ _
                (proj1 (replicateM_Gen_Forall _
                          (fun it => item_order_id it = Legacy.next_order_id st /\
                                     item_store_id it = sid /\
                                     In (item_product_id it)
                                        (map product_id (db_products db)) /\
                                     legacy_amounts it)
                          _ v3 _ _ _ Hstep4))).
      * intros it (H1 & H2 & H3 & H4). rewrite H1, H2.
        split; [lia | split; [assumption | split; assumption]].
      * intros e1 it e2 Hitem. apply legacy_order_item_tuple_spec in Hitem.
        destruct Hitem as (H1 & H2 & H3 & H4).
        rewrite map_map in H3. cbn [fst] in H3. auto.
Qed.

Lemma customer_orders_inv stores yw db n st customer_id en st' en' :
  1 <= customer_id <= Z.of_nat n ->
  orders_inv db n st ->
  Legacy.customer_orders stores yw db
    (map (fun p => (product_id p, base_price p)) (db_products db))
    st customer_id en = Ok (st', en') ->
  orders_inv db n st'.
Proof.
  intros Hc Hinv Hrun. unfold Legacy.customer_orders in Hrun. monad_inv Hrun.
  eapply (foldM_Gen_inv _ (orders_inv db n)); [|exact Hinv|exact Hrun].
  intros s a e1 s' e2 _ Hs Hone. eapply one_order_inv; eassumption.
Qed.

(** What the legacy orders stage writes. *)
Lemma legacy_orders_stage_spec stores yw n db en db' en' :
  Legacy.insert_orders stores yw n db en = Ok (db', en') ->
  exists orders items,
    db' = set_order_items (auto_insert (db_order_items db) items)
            (set_orders (auto_insert (db_orders db) orders) db) /\
    Forall (fun o =>
              1 <= order_customer_id o <= Z.of_nat n /\
              In (order_store_id o) (map store_id (db_stores db)))
           orders /\
    Forall (fun it =>
              1 <= item_order_id it <= Z.of_nat (List.length orders) /\
              In (item_store_id it) (map store_id (db_stores db)) /\
              In (item_product_id it) (map product_id (db_products db)) /\
              legacy_amounts it)
           items.
Proof.
  unfold Legacy.insert_orders. intros Hrun.
  monad_inv Hrun. monad_inv Hrun. subst db'.
  exists (Legacy.orders_data v), (Legacy.order_items_data v).
  split; [reflexivity|].
  assert (Hinv : orders_inv db n v).
  { eapply (foldM_Gen_inv _ (orders_inv db n)); [| |exact Hstep].
    - intros s c e1 s' e2 Hc Hs Hcust. apply In_zrange in Hc.
      eapply customer_orders_inv; [|exact Hs|exact Hcust]. lia.
    - unfold orders_inv. cbn. repeat split; constructor. }
  destruct Hinv as (Hnext & Hord & Hit). split; [exact Hord|].
  eapply Forall_impl; [|exact Hit]. intros it (H1 & H2 & H3 & H4).
  split; [lia | split; [assumption | split; assumption]].
Qed.

(* ================================================================= *)
(** * Sample reference documents *)
(* ================================================================= *)

Module Demo.

Definition store (name user : string) (online : bool) (w : float)
  (skus : option (list string)) : Orm.StoreConfig :=
  {| Orm.cfg_store_name := name; Orm.cfg_is_online := online;
     Orm.cfg_rls_user_id := Some user; Orm.customer_distribution_weight := w;
     Orm.product_skus := skus |}.

Definition product (sku_ name category subcategory : string) (price : float)
  (supplier : option Z) (stock : option Z) : Orm.CatalogProduct :=
  {| Orm.cp_sku := sku_; Orm.cp_name := name; Orm.cp_category := category;
     Orm.cp_subcategory := subcategory; Orm.cp_price := price;
     Orm.cp_supplier_id := supplier; Orm.cp_description := name;
     Orm.cp_stock_level := stock |}.

(** Two stores weighted 70/30 with lists of five and three SKUs, one SKU in
    common; eight products; one supplier. *)
Definition stores : list (string * Orm.StoreConfig) :=
  [ ("1", store "Zava Seattle" "f47ac10b" false 0.7
              (Some ["HT-001"; "HT-002"; "HT-003"; "PT-001"; "PT-002"]));
    ("2", store "Zava Online" "6ba7b810" true 0.3
              (Some ["PT-002"; "PL-001"; "PL-002"])) ]%string.

Definition products_list : list Orm.CatalogProduct :=
  [ product "HT-001" "Claw Hammer" "HAND TOOLS" "HAMMERS" 9.99 (Some 1) (Some 40);
    product "HT-002" "Mallet" "HAND TOOLS" "HAMMERS" 14.5 (Some 1) None;
    product "HT-003" "Hand Saw" "HAND TOOLS" "SAWS" 19.5 (Some 1) (Some 12);
    product "PT-001" "Drill" "POWER TOOLS" "DRILLS" 89 (Some 1) (Some 8);
    product "PT-002" "Sander" "POWER TOOLS" "SANDERS" 59.95 (Some 1) None;
    product "PL-001" "Pipe Wrench" "PLUMBING" "WRENCHES" 24.25 (Some 1) (Some 30);
    product "PL-002" "Plunger" "PLUMBING" "DRAIN" 7.5 (Some 1) (Some 55);
    product "PL-003" "Teflon Tape" "PLUMBING" "SEALANTS" 1.25 (Some 1) None ]%string.

Definition supplier_data : list (Z * Orm.SupplierEntry) :=
  [ (1, {| Orm.se_supplier_id := 1; Orm.se_supplier_name := "Acme Tools";
           Orm.se_lead_time_days := 7 |}) ].

Definition today : Z := 739923.
Definition month_start : Z := 739921.

(** Two tapes of draws, and names with an apostrophe in them. *)
Definition entropy_a : Entropy :=
  {| rand_tape := [3; 141; 59; 26; 535; 89; 79; 323; 84; 62; 64; 33; 83; 27;
                   95; 2; 88; 41; 97; 16; 93; 99; 37; 51; 5; 82; 9; 74; 94;
                   45; 92; 30; 78; 16; 40; 62; 8; 6; 20; 89]%N;
     faker_tape := ["Ann"; "O'Neil"; "Bob"; "Lee"; "Ann"; "O'Neil"]%string;
     scan_tape := []; clock_tape := [] |}.

Definition entropy_b : Entropy :=
  {| rand_tape := [27; 18; 28; 18; 284; 590; 45; 235; 36; 0; 287; 47; 13; 52;
                   66; 24; 97; 75; 72; 47; 9; 3; 69; 99; 59; 57; 4; 96; 69;
                   67; 62; 77; 24; 7; 66; 30; 35; 35; 47; 59]%N;
     faker_tape := ["Eve"; "Moss"; "Dan"; "Roy"]%string;
     scan_tape := []; clock_tape := [] |}.

(** The same stores, the first one also listing an SKU that is not in the
    catalogue. *)
Definition stores_unknown_sku : list (string * Orm.StoreConfig) :=
  [ ("1", store "Zava Seattle" "f47ac10b" false 0.7
              (Some ["HT-001"; "XX-999"]));
    ("2", store "Zava Online" "6ba7b810" true 0.3 (Some ["PT-002"])) ]%string.

(** A catalogue whose only product names a supplier that the supplier
    document does not have. *)
Definition products_unknown_supplier : list Orm.CatalogProduct :=
  [ product "HT-001" "Claw Hammer" "HAND TOOLS" "HAMMERS" 9.99 (Some 99)
            (Some 40) ]%string.

(** The legacy documents. *)
Definition legacy_stores : list (string * Legacy.StoreConfig) :=
  [ ("Zava Seattle",
     {| Legacy.cfg_rls_user_id := "f47ac10b";
        Legacy.customer_distribution_weight := 1 |}) ]%string.

Definition legacy_product (name : string) (sku_ : option string)
  (price : float) (emb : option (list float)) : Legacy.Item :=
  Legacy.ProductDict
    {| Legacy.pd_name := name; Legacy.pd_sku := sku_; Legacy.pd_price := price;
       Legacy.pd_description := name;
       Legacy.pd_description_embedding := emb |}.

Definition main_categories
  : list (string * list (string * Legacy.SubcategoryValue)) :=
  [ ("HAND TOOLS",
     [ ("HAMMERS",
        Legacy.ItemList
          [ legacy_product "Claw Hammer" (Some "HT-001") 6.69
                           (Some [0.25; 0.5]%float) ]);
       ("washington_seasonal_multipliers",
        Legacy.ItemList [Legacy.NotADict; Legacy.NotADict]) ]) ]%string.

(** One entry carries an embedding but no SKU. *)
Definition main_categories_no_sku
  : list (string * list (string * Legacy.SubcategoryValue)) :=
  [ ("HAND TOOLS",
     [ ("HAMMERS",
        Legacy.ItemList
          [ legacy_product "Claw Hammer" None 6.69 (Some [0.25; 0.5]%float) ])
     ]) ]%string.

Definition year_weights : list (string * float) :=
  [ ("2024", 1.5%float); ("2025", 2%float) ]%string.

(** One customer with one order of one line: no discount, jitter 0.8. *)
Definition legacy_entropy : Entropy :=
  {| rand_tape := [0; 0; 0; 0; 0; 1; 0; 0; 0; 0; 0; 0; 0; 0;
                   4503599627370496]%N;
     faker_tape := ["Ann"; "O'Neil"]%string;
     scan_tape := []; clock_tape := [] |}.

End Demo.


(** ** Order-line totals *)

Lemma orm_amounts_with_pk z it : orm_amounts it -> orm_amounts (with_pk z it).
Proof. intros H; exact H. Qed.

Lemma legacy_amounts_with_pk z it :
  legacy_amounts it -> legacy_amounts (with_pk z it).
Proof. intros H; exact H. Qed.

Lemma float_neq (x y : float) : Prim2SF x <> Prim2SF y -> x <> y.
Proof. intros Hn Heq. apply Hn. rewrite Heq. reflexivity. Qed.

(** The claim fails on the legacy generator: a full run whose only order
    line has no discount stores the total [9.99 * 0.8] unrounded. *)
Lemma legacy_total_is_not_rounded :
  exists db' en' it,
    Legacy.generate_sqlite_database Demo.legacy_stores Demo.main_categories
      Demo.year_weights 1 Demo.legacy_entropy = Ok (db', en') /\
    In it (db_order_items db') /\
    total_amount it
    <> round2 (unit_price it * float_of_int (quantity it)
               - discount_amount it)%float.
Proof.
  eexists. eexists. eexists. split; [vm_compute; reflexivity|].
  split; [left; reflexivity|].
  apply float_neq. vm_compute. discriminate.
Qed.

(** C3, amended.  Every order line written by the ORM orders stage has
    [discount_amount = round(unit_price*quantity*discount_percent/100, 2)]
    and [total_amount = round(unit_price*quantity - discount_amount, 2)].
    Every order line written by the legacy orders stage has
    [total_amount = unit_price*quantity - discount_amount] with no rounding
    (its discount is [unit_price*quantity*discount_percent/100], or zero).
    Under either rule a line with unit price 10.00, quantity 3 and discount
    percent 10 has discount amount 3.00 and total amount 27.00. *)
Theorem order_item_totals :
  (forall today n db en db' en',
      db_order_items db = [] ->
      Orm.insert_orders_and_items today n db en = Ok (db', en') ->
      Forall orm_amounts (db_order_items db')) /\
  (forall stores year_weights n db en db' en',
      db_order_items db = [] ->
      Legacy.insert_orders stores year_weights n db en = Ok (db', en') ->
      Forall legacy_amounts (db_order_items db')) /\
  (forall it,
      orm_amounts it \/ legacy_amounts it ->
      unit_price it = 10%float -> quantity it = 3 -> discount_percent it = 10 ->
      discount_amount it = 3%float /\ total_amount it = 27%float).
Proof.
  split; [|split].
  - intros today n db en db' en' Hfresh Hrun.
    apply orm_orders_stage_spec in Hrun as (orders & items & -> & _ & Hit).
    cbn [db_order_items set_order_items set_orders]. rewrite Hfresh.
    apply Forall_auto_insert; [constructor|].
    eapply Forall_impl; [|exact Hit]. intros it (_ & _ & _ & H) z.
    apply orm_amounts_with_pk. exact H.
  - intros stores yw n db en db' en' Hfresh Hrun.
    apply legacy_orders_stage_spec in Hrun as (orders & items & -> & _ & Hit).
    cbn [db_order_items set_order_items set_orders]. rewrite Hfresh.
    apply Forall_auto_insert; [constructor|].
    eapply Forall_impl; [|exact Hit]. intros it (_ & _ & _ & H) z.
    apply legacy_amounts_with_pk. exact H.
  - intros it Hit Hu Hq Hp.
    assert (Hd : discount_amount it = 3%float).
    { destruct Hit as [[Hd _]|[[Hd|[Hz _]] _]].
      - rewrite Hd, Hu, Hq, Hp. reflexivity.
      - rewrite Hd, Hu, Hq, Hp. reflexivity.
      - rewrite Hp in Hz. discriminate Hz. }
    split; [exact Hd|].
    destruct Hit as [[_ Ht]|[_ Ht]]; rewrite Ht, Hu, Hq, Hd; reflexivity.
Qed.

(** A line with the values of the scenario, as the ORM stage builds it. *)
Definition scenario_item : OrderItem :=
  {| order_item_id := 1; item_order_id := 1; item_store_id := 1;
     item_product_id := 1; quantity := 3; unit_price := 10;
     discount_percent := 10;
     discount_amount := round2 ((10 * float_of_int 3 * float_of_int 10) / 100);
     total_amount :=
       round2 (10 * float_of_int 3
               - round2 ((10 * float_of_int 3 * float_of_int 10) / 100)) |}.

Lemma order_item_totals_witness :
  discount_amount scenario_item = 3%float /\
  total_amount scenario_item = 27%float.
Proof.
  apply (proj2 (proj2 order_item_totals) scenario_item).
  - left. split; reflexivity.
  - reflexivity.
  - reflexivity.
  - reflexivity.
Defined.

(** ** The statements above, on the sample documents *)

(** Two suppliers, entered in the document in decreasing order of their
    ids, and the draws of [Demo.entropy_a] with the suppliers returned by
    id, as SQLite does. *)
Definition two_suppliers : list (Z * Orm.SupplierEntry) :=
  [ (7, {| Orm.se_supplier_id := 7; Orm.se_supplier_name := "Bolt and Nut";
           Orm.se_lead_time_days := 5 |});
    (3, {| Orm.se_supplier_id := 3; Orm.se_supplier_name := "Acme Tools";
           Orm.se_lead_time_days := 7 |}) ]%string.

Definition by_id_entropy : Entropy :=
  {| rand_tape := rand_tape Demo.entropy_a;
     faker_tape := faker_tape Demo.entropy_a;
     scan_tape := [[1%nat]]; clock_tape := [] |}.

Lemma supplier_evaluations_witness :
  match Orm.insert_suppliers two_suppliers Demo.month_start empty_db
          by_id_entropy with
  | Ok (db', _) =>
      map supplier_id (db_suppliers db') = [7; 3] /\
      map perf_supplier_id (db_supplier_performance db')
      = [3; 3; 3; 3; 3; 3; 7; 7; 7] /\
      Forall evaluation_ok (db_supplier_performance db') /\
      (forall s, In s (db_suppliers db') ->
         (3 <= List.length (evaluations_of s (db_supplier_performance db'))
          <= 7)%nat) /\
      (6 <= List.length (db_supplier_performance db') <= 14)%nat
  | Raise _ => False
  end.
Proof.
  destruct (Orm.insert_suppliers two_suppliers Demo.month_start empty_db
              by_id_entropy) as [[db' en']|e] eqn:E.
  - destruct (supplier_evaluations_bounded_and_weighted
                two_suppliers Demo.month_start empty_db db'
                by_id_entropy en' eq_refl E)
      as (Hids & Hok & Hcount & _ & _ & Htotal).
    split; [exact Hids|].
    split; [vm_compute in E; inversion E; reflexivity|].
    split; [exact Hok|]. split; [exact Hcount|].
    assert (Hlen : List.length (db_suppliers db') = 2%nat)
      by (rewrite <- (length_map supplier_id), Hids; reflexivity).
    rewrite Hlen in Htotal. exact Htotal.
  - vm_compute in E. discriminate E.
Defined.

(** A database that holds the two sample stores. *)
Definition two_stores_db : DB :=
  set_stores
    [ {| store_id := 1; store_name := "Zava Seattle"; rls_user_id := "f47ac10b";
         is_online := false |};
      {| store_id := 2; store_name := "Zava Online"; rls_user_id := "6ba7b810";
         is_online := true |} ]
    empty_db.

Lemma customer_emails_witness :
  match Orm.customer_objects Demo.stores two_stores_db 3 Demo.entropy_a with
  | Ok (objs, _) => List.length objs = 3%nat /\ NoDup (map email objs)
  | Raise _ => False
  end.
Proof.
  destruct (Orm.customer_objects Demo.stores two_stores_db 3 Demo.entropy_a)
    as [[objs en']|e] eqn:E.
  - destruct (proj1 (customer_emails_pairwise_distinct 3) _ _ _ _ _ E)
      as (Hlen & Hnd & _).
    exact (conj Hlen Hnd).
  - vm_compute in E. discriminate E.
Defined.

(** A table of three stores of which the store document knows the last
    only: Zava Seattle, which the document also names, is not in it. *)
Definition moved_stores_db : DB :=
  set_stores
    [ {| store_id := 1; store_name := "Zava Tacoma"; rls_user_id := "f47ac10b";
         is_online := false |};
      {| store_id := 2; store_name := "Zava Everett"; rls_user_id := "9c2f0e11";
         is_online := false |};
      {| store_id := 3; store_name := "Zava Online"; rls_user_id := "6ba7b810";
         is_online := true |} ]
    empty_db.

(** The weighted choice draws Zava Seattle for the first customer and Zava
    Online for the second. *)
Definition two_choices_entropy : Entropy :=
  {| rand_tape := [0; 0; 0; 0; 0; 0; 0; 1]%N;
     faker_tape := ["Ann"; "Lee"; "Bob"; "Roy"]%string;
     scan_tape := []; clock_tape := [] |}.

Lemma orm_customer_primary_store_witness :
  match Orm.customer_objects Demo.stores moved_stores_db 2
          two_choices_entropy with
  | Ok (objs, en') =>
      replicateM 2 (orm_preferred_store Demo.stores) two_choices_entropy
      = Ok (["Zava Seattle"; "Zava Online"]%string, en') /\
      map primary_store_id objs = [Some 1; Some 3] /\
      Forall (fun c => exists s, In s (db_stores moved_stores_db) /\
                                 primary_store_id c = Some (store_id s)) objs
  | Raise _ => False
  end.
Proof.
  destruct (Orm.customer_objects Demo.stores moved_stores_db 2
              two_choices_entropy) as [[objs en']|e] eqn:E.
  - destruct (proj1 (proj2 orm_customer_primary_store_never_null)
                _ _ _ _ _ _ _ _
                (eq_refl : db_stores moved_stores_db = _ :: _) E)
      as (names & Hnames & Hall).
    assert (Hen : en' = {| rand_tape := []; faker_tape := [];
                           scan_tape := []; clock_tape := [] |})
      by (vm_compute in E; inversion E; reflexivity).
    assert (Hn : names = ["Zava Seattle"; "Zava Online"]%string).
    { subst en'. vm_compute in Hnames. inversion Hnames. reflexivity. }
    subst names. split; [exact Hnames|]. split.
    + inversion Hall as [|p1 c1 ps cs H1 Hrest]; subst.
      inversion Hrest as [|p2 c2 ps' cs' H2 Hnil]; subst.
      inversion Hnil; subst.
      destruct H1 as (_ & _ & Hfallback). destruct H2 as (_ & Hfound & _).
      cbn [map]. rewrite Hfallback.
      * destruct Hfound as [Hget _];
          [right; right; left; reflexivity|].
        rewrite <- Hget. reflexivity.
      * cbn. intros [H|[H|[H|[]]]]; discriminate H.
    + eapply Forall2_Forall_r; [exact Hall|]. cbn beta.
      intros preferred c _ (Hs & _). exact Hs.
  - vm_compute in E. discriminate E.
Defined.

(* ================================================================= *)
(** * Products: cost, base price and supplier *)
(* ================================================================= *)

Lemma In_somes {A} (l : list (option A)) (a : A) :
  In a (Orm.somes l) <-> In (Some a) l.
Proof.
  induction l as [|[x|] t IH]; simpl.
  - tauto.
  - rewrite IH. split; intros [H|H]; auto; [left; congruence|].
    left. inversion H. reflexivity.
  - rewrite IH. split; [auto|]. intros [H|H]; [discriminate | exact H].
Qed.

(** How the ORM products stage fills a row from its catalogue entry. *)
Definition orm_product_of (product : Orm.CatalogProduct) (p : Product) : Prop :=
  sku p = Orm.cp_sku product /\
  base_price p = Orm.cp_price product /\
  cost p = round2 (Orm.cp_price product * 0.67)%float /\
  prod_supplier_id p = Orm.cp_supplier_id product.

(** How the legacy products stage fills a row from its catalogue entry:
    the catalogue price is the cost, and the base price is derived. *)
Definition legacy_product_of (details : Legacy.ProductDetails) (p : Product)
  : Prop :=
  cost p = Legacy.pd_price details /\
  base_price p = round2 (Legacy.pd_price details / 0.67)%float /\
  prod_supplier_id p = None.

(** An entry of the legacy catalogue: a dictionary in a list under a
    subcategory of a main category. *)
Definition legacy_entry
  (main_categories : list (string * list (string * Legacy.SubcategoryValue)))
  (details : Legacy.ProductDetails) : Prop :=
  exists category subcategories subcategory items,
    In (category, subcategories) main_categories /\
    In (subcategory, Legacy.ItemList items) subcategories /\
    In (Legacy.ProductDict details) items.

Lemma orm_product_object_fields supplier_data db product p :
  Orm.product_object supplier_data db product = Ok (Some p) ->
  orm_product_of product p /\
  In (prod_category_id p) (map category_id (db_categories db)) /\
  In (prod_type_id p) (map type_id (db_product_types db)).
Proof.
  unfold Orm.product_object.
  destruct (dict_get String.eqb (Orm.category_mapping db) (Orm.cp_category product))
    as [cid|] eqn:Ec; [|discriminate].
  destruct (truthy_id
              (dict_get (pair_eqb Z.eqb String.eqb) (Orm.type_mapping db)
                        (cid, Orm.cp_subcategory product)))
    as [tid|] eqn:Et; [|discriminate].
  intros Hp. apply ret_Res_inv in Hp. inversion Hp; subst p; clear Hp.
  unfold orm_product_of.
  cbn [sku base_price cost prod_supplier_id prod_category_id prod_type_id].
  repeat split.
  - apply (dict_get_In String.eqb String.eqb_eq) in Ec.
    unfold Orm.category_mapping in Ec.
    apply in_map_iff in Ec as (c & Heq & Hc). inversion Heq; subst.
    apply in_map. exact Hc.
  - apply truthy_id_Some in Et as [Et _].
    apply (dict_get_In _ (pair_eqb_eq _ _ Z.eqb_eq String.eqb_eq)) in Et.
    unfold Orm.type_mapping in Et.
    apply in_map_iff in Et as (t & Heq & Ht). inversion Heq; subst.
    apply in_map. exact Ht.
Qed.

(** What the ORM products stage writes. *)
Lemma orm_products_stage_spec products_list supplier_data db db' :
  Orm.insert_products products_list supplier_data db = Ok db' ->
  exists objs,
    db' = set_products (auto_insert (db_products db) objs) db /\
    NoDup (map sku (auto_insert (db_products db) objs)) /\
    Forall (fun p =>
              (exists product, In product products_list /\
                               orm_product_of product p) /\
              In (prod_category_id p) (map category_id (db_categories db)) /\
              In (prod_type_id p) (map type_id (db_product_types db)))
           objs.
Proof.
  unfold Orm.insert_products, Orm.bulk_insert_products. intros Hrun.
  monad_inv Hrun. monad_inv Hrun. monad_inv Hrun. subst db'.
  apply (checked_inv String.eqb String.eqb_eq) in Hstep0 as [-> Hnd].
  exists (Orm.somes v). split; [reflexivity|]. split; [exact Hnd|].
  apply Forall_forall. intros p Hp. apply In_somes in Hp.
  pose proof (mapM_Res_Forall2 (Orm.product_object supplier_data db)
                (fun product o => Orm.product_object supplier_data db product = Ok o)
                products_list (fun a b _ H => H) _ Hstep) as HF.
  destruct (Forall2_In_right _ _ _ _ HF Hp) as (product & Hin & Hobj).
  apply orm_product_object_fields in Hobj as (Hof & Hc & Ht).
  split; [exists product; auto | auto].
Qed.

Lemma legacy_type_lookup db cid sub tid :
  truthy_id (dict_get (pair_eqb Z.eqb String.eqb) (Legacy.type_mapping db)
                      (cid, sub)) = Some tid ->
  In tid (map type_id (db_product_types db)).
Proof.
  intros Et. apply truthy_id_Some in Et as [Et _].
  apply (dict_get_In _ (pair_eqb_eq _ _ Z.eqb_eq String.eqb_eq)) in Et.
  unfold Legacy.type_mapping in Et.
  apply in_map_iff in Et as (t & Heq & Ht). inversion Heq; subst.
  apply in_map. exact Ht.
Qed.

Lemma legacy_category_lookup db name cid :
  dict_get String.eqb (Legacy.category_mapping db) name = Some cid ->
  In cid (map category_id (db_categories db)).
Proof.
  intros Ec. apply (dict_get_In String.eqb String.eqb_eq) in Ec.
  unfold Legacy.category_mapping in Ec.
  apply in_map_iff in Ec as (c & Heq & Hc). inversion Heq; subst.
  apply in_map. exact Hc.
Qed.

(** What holds of every row gathered by the loops of the legacy
    [insert_products]. *)
Definition legacy_row_ok
  (main_categories : list (string * list (string * Legacy.SubcategoryValue)))
  (db : DB) (p : Product) : Prop :=
  (exists details, legacy_entry main_categories details /\
                   legacy_product_of details p) /\
  In (prod_category_id p) (map category_id (db_categories db)) /\
  In (prod_type_id p) (map type_id (db_product_types db)).

(** What the legacy products stage writes. *)
Lemma legacy_products_stage_spec main_categories db db' :
  Legacy.insert_products main_categories db = Ok db' ->
  exists objs,
    db' = set_products (auto_insert (db_products db) objs) db /\
    NoDup (map sku (auto_insert (db_products db) objs)) /\
    Forall (legacy_row_ok main_categories db) objs.
Proof.
  unfold Legacy.insert_products, Legacy.insert_product_rows. intros Hrun.
  monad_inv Hrun.
  destruct (forallb _ v); [|discriminate Hrun].
  monad_inv Hrun. monad_inv Hrun. subst db'.
  apply (checked_inv String.eqb String.eqb_eq) in Hstep0 as [-> Hnd].
  exists v. split; [reflexivity|]. split; [exact Hnd|].
  eapply (foldM_Res_inv (Legacy.add_category db)
            (Forall (legacy_row_ok main_categories db)));
    [| constructor | exact Hstep].
  intros acc [category subcategories] acc' Hcat Hacc Hadd.
  unfold Legacy.add_category in Hadd. cbn [fst snd] in Hadd.
  destruct (dict_get String.eqb (Legacy.category_mapping db) category)
    as [cid|] eqn:Ec; [|discriminate].
  apply legacy_category_lookup in Ec.
  eapply (foldM_Res_inv (Legacy.add_subcategory db cid)
            (Forall (legacy_row_ok main_categories db)));
    [| exact Hacc | exact Hadd].
  intros acc1 [subcategory value] acc1' Hsub Hacc1 Hadds.
  unfold Legacy.add_subcategory in Hadds. cbn [fst snd] in Hadds.
  destruct ((subcategory =? Legacy.seasonal_key)%string
            || negb (Legacy.value_truthy value)).
  { apply ret_Res_inv in Hadds. subst. exact Hacc1. }
  destruct (truthy_id
              (dict_get (pair_eqb Z.eqb String.eqb) (Legacy.type_mapping db)
                        (cid, subcategory))) as [tid|] eqn:Et.
  2: { apply ret_Res_inv in Hadds. subst. exact Hacc1. }
  apply legacy_type_lookup in Et.
  destruct value as [items|b]; [|discriminate].
  eapply (foldM_Res_inv (Legacy.add_product cid tid)
            (Forall (legacy_row_ok main_categories db)));
    [| exact Hacc1 | exact Hadds].
  intros acc2 item acc2' Hitem Hacc2 Haddp.
  unfold Legacy.add_product in Haddp.
  destruct item as [details|]; [|discriminate].
  apply ret_Res_inv in Haddp. subst acc2'.
  apply Forall_app. split; [exact Hacc2|]. constructor; [|constructor].
  unfold legacy_row_ok, legacy_product_of.
  cbn [cost base_price prod_supplier_id prod_category_id prod_type_id].
  split; [|split; assumption].
  exists details. split; [|repeat split].
  exists category, subcategories, subcategory, items. auto.
Qed.

Lemma orm_product_of_with_pk product z p :
  orm_product_of product p -> orm_product_of product (with_pk z p).
Proof. intros H; exact H. Qed.

(** The claim fails on the ORM generator: the product priced 9.99 is stored
    with cost 6.69, which is not [9.99 * 0.67 = 6.6933...]. *)
Lemma orm_cost_is_rounded :
  exists db' en' p,
    Orm.generate Demo.stores Demo.products_list Demo.supplier_data Demo.today
      Demo.month_start 2 2 Demo.entropy_a = Ok (db', en') /\
    In p (db_products db') /\
    base_price p = 9.99%float /\
    cost p <> (base_price p * 0.67)%float.
Proof.
  eexists. eexists. eexists. split; [vm_compute; reflexivity|].
  split; [left; reflexivity|]. split; [reflexivity|].
  apply float_neq. vm_compute. discriminate.
Qed.

(** C5, amended.  Every product row written by the ORM products stage
    comes from a catalogue entry whose price it stores as the base price,
    with cost [round(price * 0.67, 2)] and the supplier id of the entry
    unchanged.  Every product row written by the legacy products stage comes
    from a catalogue entry whose price it stores as the cost, with base
    price [round(price / 0.67, 2)] and no supplier. *)
Theorem product_cost_and_price :
  (forall products_list supplier_data db db',
      db_products db = [] ->
      Orm.insert_products products_list supplier_data db = Ok db' ->
      Forall (fun p => exists product,
                         In product products_list /\ orm_product_of product p)
             (db_products db')) /\
  (forall main_categories db db',
      db_products db = [] ->
      Legacy.insert_products main_categories db = Ok db' ->
      Forall (fun p => exists details,
                         legacy_entry main_categories details /\
                         legacy_product_of details p)
             (db_products db')).
Proof.
  split.
  - intros pl sd db db' Hfresh Hrun.
    apply orm_products_stage_spec in Hrun as (objs & -> & _ & Hall).
    cbn [db_products set_products]. rewrite Hfresh.
    apply Forall_auto_insert; [constructor|].
    eapply Forall_impl; [|exact Hall].
    intros p ((product & Hin & Hof) & _) z. exists product. auto.
  - intros mc db db' Hfresh Hrun.
    apply legacy_products_stage_spec in Hrun as (objs & -> & _ & Hall).
    cbn [db_products set_products]. rewrite Hfresh.
    apply Forall_auto_insert; [constructor|].
    eapply Forall_impl; [|exact Hall].
    intros p ((details & Hin & Hof) & _) z. exists details. auto.
Qed.

(** The stores, categories and product types of the sample run. *)
Definition catalogue_db : DB :=
  match Orm.insert_stores Demo.stores empty_db with
  | Ok db1 =>
      match Orm.insert_categories Demo.products_list db1 with
      | Ok db2 =>
          match Orm.insert_product_types Demo.products_list db2 with
          | Ok db3 => db3
          | Raise _ => empty_db
          end
      | Raise _ => empty_db
      end
  | Raise _ => empty_db
  end.

Lemma product_cost_and_price_witness :
  match Orm.insert_products Demo.products_list Demo.supplier_data catalogue_db with
  | Ok db' =>
      List.length (db_products db') = 8%nat /\
      Forall (fun p => exists product,
                         In product Demo.products_list /\
                         orm_product_of product p)
             (db_products db')
  | Raise _ => False
  end.
Proof.
  destruct (Orm.insert_products Demo.products_list Demo.supplier_data catalogue_db)
    as [db'|e] eqn:E.
  - split.
    + vm_compute in E. inversion E. reflexivity.
    + exact (proj1 product_cost_and_price Demo.products_list
               Demo.supplier_data catalogue_db db' eq_refl E).
  - vm_compute in E. discriminate E.
Defined.

(* ================================================================= *)
(** * The statistics reporter and its divisions *)
(* ================================================================= *)

Lemma count_zero_iff {A} (tbl : list A) : count tbl = 0 <-> tbl = [].
Proof.
  unfold count. destruct tbl; simpl; split; intros H;
    solve [reflexivity | discriminate | lia].
Qed.

Lemma count_pos_iff {A} (tbl : list A) : (0 <? count tbl) = true <-> tbl <> [].
Proof.
  unfold count. rewrite Z.ltb_lt. destruct tbl; simpl; split; intros H;
    solve [congruence | lia | discriminate].
Qed.

(** Without orders the legacy reporter prints the five counts and the total
    revenue, and computes no ratio. *)
Lemma show_database_stats_without_orders (db : DB) :
  db_orders db = [] ->
  exists total_revenue,
    show_database_stats db
    = Ok [ IntLine "Customers" (count (db_customers db));
           IntLine "Products" (count (db_products db));
           IntLine "Product Embeddings"
                   (count (db_product_description_embeddings db));
           IntLine "Orders" 0;
           IntLine "Order Items" (count (db_order_items db));
           FloatLine "Total Revenue" total_revenue ].
Proof.
  intros Ho. unfold show_database_stats. rewrite Ho. cbn [count List.length Z.of_nat].
  change (0 <? 0) with false. cbn iota. eexists. reflexivity.
Qed.

(** The legacy reporter raises exactly when there are orders and no
    customers. *)
Lemma show_database_stats_raises_iff (db : DB) :
  (exists e, show_database_stats db = Raise e)
  <-> (db_orders db <> [] /\ db_customers db = []).
Proof.
  unfold show_database_stats.
  destruct (0 <? count (db_orders db)) eqn:Eo.
  - assert (Ho : (count (db_orders db) =? 0) = false)
      by (apply Z.eqb_neq; apply Z.ltb_lt in Eo; lia).
    unfold float_div_int, int_div_int. rewrite Ho. cbn [bind Res_Monad ret].
    destruct (count (db_customers db) =? 0) eqn:Ec.
    + apply Z.eqb_eq, count_zero_iff in Ec. apply count_pos_iff in Eo.
      split; [intros _; auto | intros _; eexists; reflexivity].
    + apply Z.eqb_neq in Ec. cbn [bind Res_Monad ret].
      split; [intros [e He]; discriminate He|].
      intros [_ Hc]. apply count_zero_iff in Hc. contradiction.
  - split; [intros [e He]; discriminate He|].
    intros [Hn _]. apply count_pos_iff in Hn. congruence.
Qed.

(** A database whose orders outlived its customers. *)
Definition orphan_orders_db : DB :=
  set_order_items
    [ {| order_item_id := 1; item_order_id := 1; item_store_id := 1;
         item_product_id := 1; quantity := 2; unit_price := 9.99;
         discount_percent := 0; discount_amount := 0;
         total_amount := 19.98 |} ]
    (set_orders
       [ {| order_id := 1; order_customer_id := 1; order_store_id := 1;
            order_date := Ymd 2024 5 17 |} ]
       empty_db).

(** C9.  The legacy reporter guards its ratios with [orders > 0] only:
    on a database with one order and no customer, [orders / customers]
    raises [ZeroDivisionError]. *)
Theorem show_database_stats_divides_by_zero_customers :
  show_database_stats orphan_orders_db = Raise ZeroDivisionError.
Proof. vm_compute. reflexivity. Qed.

(* ================================================================= *)
(** * Re-populating the description embeddings *)
(* ================================================================= *)

(** The catalogue entries that carry a (non-empty) embedding vector. *)
Definition entries_carrying_embedding
  (main_categories : list (string * list (string * Legacy.SubcategoryValue)))
  : list Legacy.ProductDetails :=
  flat_map
    (fun kv : string * list (string * Legacy.SubcategoryValue) =>
       flat_map
         (fun sv : string * Legacy.SubcategoryValue =>
            match snd sv with
            | Legacy.NotAList _ => []
            | Legacy.ItemList items =>
                flat_map
                  (fun item =>
                     match item with
                     | Legacy.ProductDict product =>
                         match Legacy.pd_description_embedding product with
                         | Some (_ :: _) => [product]
                         | _ => []
                         end
                     | Legacy.NotADict => []
                     end)
                  items
            end)
         (snd kv))
    main_categories.

(** The (SKU, vector) pairs gathered from the catalogue whose SKU names a
    product of the database. *)
Definition matched_embeddings
  (main_categories : list (string * list (string * Legacy.SubcategoryValue)))
  (db : DB) : list (string * list float) :=
  filter (fun se => match Legacy.select_product_id db (fst se) with
                    | Some _ => true
                    | None => false
                    end)
         (Legacy.products_with_embeddings main_categories).

(** The two columns that an INSERT of the embeddings stage names. *)
Definition embedding_columns (r : ProductDescriptionEmbedding)
  : Z * list float :=
  (emb_product_id r, description_embedding r).

(** The (product id, vector) pairs of the gathered entries whose SKU names
    a product of the database, in the order of the catalogue. *)
Definition matched_rows
  (main_categories : list (string * list (string * Legacy.SubcategoryValue)))
  (db : DB) : list (Z * list float) :=
  flat_map (fun se => match Legacy.select_product_id db (fst se) with
                      | Some product_id => [(product_id, snd se)]
                      | None => []
                      end)
           (Legacy.products_with_embeddings main_categories).

Lemma matched_rows_length main_categories db :
  List.length (matched_rows main_categories db)
  = List.length (matched_embeddings main_categories db).
Proof.
  unfold matched_rows, matched_embeddings.
  induction (Legacy.products_with_embeddings main_categories) as [|se l IH];
    [reflexivity|].
  cbn [flat_map filter].
  destruct (Legacy.select_product_id db (fst se)); cbn [app List.length];
    rewrite IH; reflexivity.
Qed.

Lemma matched_rows_products main_categories db1 db2 :
  db_products db1 = db_products db2 ->
  matched_rows main_categories db1 = matched_rows main_categories db2.
Proof.
  intros Hp. unfold matched_rows, Legacy.select_product_id.
  rewrite Hp. reflexivity.
Qed.

(** The loop over the gathered entries never raises, and the rows it builds
    are the matched pairs, each with a reading of the clock. *)
Lemma embedding_rows_total main_categories db en :
  exists rows en', Legacy.embedding_rows main_categories db en = Ok (rows, en').
Proof.
  unfold Legacy.embedding_rows. cbn [bind Gen_Monad].
  match goal with
  | |- context [mapM ?f ?l en] =>
      destruct (mapM_Gen_total f l) with (en := en) as (ys & en' & Hys)
  end.
  - intros se e _. destruct (Legacy.select_product_id db (fst se)).
    + destruct (current_timestamp_total e) as (now & e' & Hnow).
      eexists _, _. cbn [bind Gen_Monad]. rewrite Hnow. reflexivity.
    + eexists _, _. reflexivity.
  - rewrite Hys. eexists _, _. reflexivity.
Qed.

Lemma embedding_rows_columns main_categories db en rows en' :
  Legacy.embedding_rows main_categories db en = Ok (rows, en') ->
  map embedding_columns rows = matched_rows main_categories db.
Proof.
  unfold Legacy.embedding_rows, matched_rows. intros Hrun.
  monad_inv Hrun. monad_inv Hrun. subst rows. clear Hrun.
  revert en v en0 Hstep.
  induction (Legacy.products_with_embeddings main_categories) as [|se l IH];
    intros en v en0 Hstep.
  - monad_inv Hstep. subst v. reflexivity.
  - cbn [mapM] in Hstep. monad_inv Hstep. monad_inv Hstep. monad_inv Hstep.
    subst v. cbn [List.concat flat_map]. rewrite map_app.
    rewrite (IH _ _ _ Hstep1). f_equal.
    destruct (Legacy.select_product_id db (fst se)).
    + monad_inv Hstep0. monad_inv Hstep0. subst v0. reflexivity.
    + monad_inv Hstep0. subst v0. reflexivity.
Qed.

Lemma emb_product_id_columns (rows : list ProductDescriptionEmbedding) :
  map emb_product_id rows = map fst (map embedding_columns rows).
Proof. rewrite map_map. reflexivity. Qed.

(** The claim fails on a regenerated database: an entry that carries an
    embedding but no SKU gets a product row (under a default SKU) and no
    embedding row, so the table stays empty. *)
Lemma embedding_without_sku_gets_no_row :
  exists db en db1 en1 db2 en2,
    Legacy.generate_sqlite_database Demo.legacy_stores
      Demo.main_categories_no_sku Demo.year_weights 1 Demo.legacy_entropy
    = Ok (db, en) /\
    Legacy.populate_product_description_embeddings
      Demo.main_categories_no_sku true db en = Ok (db1, en1) /\
    Legacy.populate_product_description_embeddings
      Demo.main_categories_no_sku true db1 en1 = Ok (db2, en2) /\
    List.length (entries_carrying_embedding Demo.main_categories_no_sku) = 1%nat /\
    List.length (db_products db2) = 1%nat /\
    List.length (db_product_description_embeddings db2) = 0%nat.
Proof.
  eexists. eexists. eexists. eexists. eexists. eexists.
  split; [vm_compute; reflexivity|].
  split; [vm_compute; reflexivity|].
  split; [vm_compute; reflexivity|].
  split; [|split]; reflexivity.
Qed.

(** C8, amended.  When a call of the embeddings-only operation with
    [clear_existing = true] completes, a second call completes too,
    whenever it is made; after it the table holds exactly one row per
    catalogue entry that carries both an SKU and an embedding and whose SKU
    names a product: the product ids and the vectors are those of the
    matched entries, in their order, as they were after the first call (no
    product has two rows), whatever rows the table held before, which the
    DELETE removed.  The second call changes no other table; the
    [created_at] of the rows is that of the second call. *)
Theorem embeddings_only_is_idempotent main_categories db en db1 en1 en2 :
  Legacy.populate_product_description_embeddings main_categories true db en
  = Ok (db1, en1) ->
  exists db2 en2',
    Legacy.populate_product_description_embeddings main_categories true db1 en2
    = Ok (db2, en2') /\
    map embedding_columns (db_product_description_embeddings db2)
    = matched_rows main_categories db /\
    map embedding_columns (db_product_description_embeddings db2)
    = map embedding_columns (db_product_description_embeddings db1) /\
    List.length (db_product_description_embeddings db2)
    = List.length (matched_embeddings main_categories db) /\
    NoDup (map emb_product_id (db_product_description_embeddings db2)) /\
    db2 = set_product_description_embeddings
            (db_product_description_embeddings db2) db1.
Proof.
  unfold Legacy.populate_product_description_embeddings,
         Legacy.insert_embedding_rows.
  intros Hrun. monad_inv Hrun. rename v into rows1.
  apply lift_inv in Hrun as [Hins ->].
  monad_inv Hins. monad_inv Hins. subst db1.
  apply (checked_inv Z.eqb Z.eqb_eq) in Hstep0 as [-> Hnd].
  cbn [db_product_description_embeddings set_product_description_embeddings
       app] in *.
  pose proof (@embedding_rows_columns _ _ _ _ _ Hstep) as Hcols1.
  rewrite (@matched_rows_products main_categories
             (set_product_description_embeddings [] db) db eq_refl) in Hcols1.
  cbv zeta. cbn [bind Gen_Monad].
  match goal with
  | |- context [Legacy.embedding_rows main_categories ?d en2] =>
      destruct (embedding_rows_total main_categories d en2)
        as (rows2 & e2 & Hrows2)
  end.
  pose proof (@embedding_rows_columns _ _ _ _ _ Hrows2) as Hcols2.
  match type of Hcols2 with
  | _ = matched_rows _ ?d =>
      rewrite (@matched_rows_products main_categories d db eq_refl) in Hcols2
  end.
  assert (Hnd2 : NoDup (map emb_product_id rows2)).
  { rewrite emb_product_id_columns, Hcols2, <- Hcols1,
            <- emb_product_id_columns.
    exact Hnd. }
  cbn [bind Gen_Monad]. rewrite Hrows2.
  cbn [db_product_description_embeddings set_product_description_embeddings
       app].
  unfold lift. cbn [bind Res_Monad].
  rewrite (checked_ok Z.eqb Z.eqb_eq emb_product_id _ Hnd2).
  eexists _, e2. split; [reflexivity|].
  cbn [db_product_description_embeddings set_product_description_embeddings].
  split; [exact Hcols2|]. split; [congruence|].
  split; [rewrite <- matched_rows_length, <- Hcols2, length_map; reflexivity|].
  split; [exact Hnd2 | reflexivity].
Qed.

(** The clock at two calls, an hour apart. *)
Definition first_call_clock : Entropy :=
  {| rand_tape := []; faker_tape := []; scan_tape := [];
     clock_tape := [1762128000] |}.

Definition second_call_clock : Entropy :=
  {| rand_tape := []; faker_tape := []; scan_tape := [];
     clock_tape := [1762131600] |}.

Lemma embeddings_only_witness :
  match Legacy.generate_sqlite_database Demo.legacy_stores
          Demo.main_categories Demo.year_weights 1 Demo.legacy_entropy with
  | Ok (db, _) =>
      exists db1 en1 db2 en2,
        Legacy.populate_product_description_embeddings
          Demo.main_categories true db first_call_clock = Ok (db1, en1) /\
        Legacy.populate_product_description_embeddings
          Demo.main_categories true db1 second_call_clock = Ok (db2, en2) /\
        map embedding_columns (db_product_description_embeddings db2)
        = map embedding_columns (db_product_description_embeddings db1) /\
        List.length (db_product_description_embeddings db2) = 1%nat /\
        map emb_created_at (db_product_description_embeddings db1)
        = [1762128000] /\
        map emb_created_at (db_product_description_embeddings db2)
        = [1762131600]
  | Raise _ => False
  end.
Proof.
  destruct (Legacy.generate_sqlite_database Demo.legacy_stores
              Demo.main_categories Demo.year_weights 1 Demo.legacy_entropy)
    as [[db en']|e] eqn:E.
  - vm_compute in E. inversion E; subst db en'; clear E.
    match goal with
    | |- exists db1 en1 db2 en2, ?run = Ok (db1, en1) /\ _ =>
        destruct run as [[db1 en1]|e] eqn:E1
    end.
    + destruct (@embeddings_only_is_idempotent Demo.main_categories _ _ _ _
                  second_call_clock E1)
        as (db2 & en2 & Hagain & _ & Hsame & _ & _ & _).
      exists db1, en1, db2, en2.
      split; [reflexivity|]. split; [exact Hagain|]. split; [exact Hsame|].
      vm_compute in E1. inversion E1; subst db1 en1; clear E1.
      vm_compute in Hagain. inversion Hagain; subst db2 en2; clear Hagain.
      split; [|split]; reflexivity.
    + vm_compute in E1. discriminate E1.
  - vm_compute in E. discriminate E.
Defined.

(* ================================================================= *)
(** * The stages of the ORM generator, one by one *)
(* ================================================================= *)

Lemma mapM_Res_ext {A B} (f g : A -> Res B) (l : list A) :
  (forall x, f x = g x) -> mapM f l = mapM g l.
Proof.
  intros Hfg. induction l as [|x t IH]; [reflexivity|].
  cbn [mapM]. rewrite Hfg, IH. reflexivity.
Qed.

Lemma Forall2_map_eq {A B C} (f : B -> C) (g : A -> C) xs ys :
  Forall2 (fun a b => f b = g a) xs ys -> map f ys = map g xs.
Proof.
  induction 1 as [|x y xs ys Hxy _ IH]; simpl; [reflexivity|].
  rewrite Hxy, IH. reflexivity.
Qed.

Lemma Ok_inj {A} (a b : A) : Ok a = Ok b -> a = b.
Proof. intros H; inversion H; reflexivity. Qed.

(** The tables the inventory is computed from, and the inventory. *)
Definition same_catalogue (a b : DB) : Prop :=
  db_stores a = db_stores b /\
  db_categories a = db_categories b /\
  db_product_types a = db_product_types b /\
  db_products a = db_products b /\
  db_inventory a = db_inventory b.

Lemma same_catalogue_refl (a : DB) : same_catalogue a a.
Proof. unfold same_catalogue. auto. Qed.

(** *** Stores *)

Lemma orm_stores_stage_spec stores db db' :
  Orm.insert_stores stores db = Ok db' ->
  exists objs,
    db' = set_stores (auto_insert (db_stores db) objs) db /\
    NoDup (map store_name (auto_insert (db_stores db) objs)) /\
    map store_name objs = map (fun kv => Orm.cfg_store_name (snd kv)) stores.
Proof.
  unfold Orm.insert_stores, Orm.bulk_insert_stores. intros Hrun.
  monad_inv Hrun. monad_inv Hrun. monad_inv Hrun. subst db'.
  apply (checked_inv String.eqb String.eqb_eq) in Hstep0 as [-> Hnd].
  exists v. split; [reflexivity|]. split; [exact Hnd|].
  apply Forall2_map_eq.
  eapply mapM_Res_Forall2; [|exact Hstep].
  intros kv o _ Ho. cbn beta zeta in Ho.
  destruct (Orm.cfg_rls_user_id (snd kv)) as [user|]; [|discriminate].
  destruct (negb (str_truthy user)); [discriminate|].
  apply ret_Res_inv in Ho. subst o. reflexivity.
Qed.

Lemma orm_stores_stage_same stores a b a' b' :
  same_catalogue a b ->
  Orm.insert_stores stores a = Ok a' ->
  Orm.insert_stores stores b = Ok b' ->
  same_catalogue a' b'.
Proof.
  intros (Hs & Hc & Ht & Hp & Hi) Ha Hb.
  unfold Orm.insert_stores, Orm.bulk_insert_stores in Ha, Hb.
  monad_inv Ha. monad_inv Hb. rewrite Hstep in Hstep0.
  apply Ok_inj in Hstep0. subst v0.
  monad_inv Ha. monad_inv Hb. monad_inv Ha. monad_inv Hb. subst a' b'.
  apply (checked_inv String.eqb String.eqb_eq) in Hstep0 as [-> _].
  apply (checked_inv String.eqb String.eqb_eq) in Hstep1 as [-> _].
  unfold same_catalogue.
  cbn [db_stores db_categories db_product_types db_products db_inventory
       set_stores].
  rewrite Hs. auto.
Qed.

(** *** Categories and product types *)

Lemma orm_categories_stage_spec products_list db db' :
  Orm.insert_categories products_list db = Ok db' ->
  exists objs, db' = set_categories (auto_insert (db_categories db) objs) db.
Proof.
  unfold Orm.insert_categories. intros Hrun. apply ret_Res_inv in Hrun.
  subst db'. eexists. reflexivity.
Qed.

Lemma orm_categories_stage_same products_list a b a' b' :
  same_catalogue a b ->
  Orm.insert_categories products_list a = Ok a' ->
  Orm.insert_categories products_list b = Ok b' ->
  same_catalogue a' b'.
Proof.
  intros (Hs & Hc & Ht & Hp & Hi) Ha Hb.
  unfold Orm.insert_categories in Ha, Hb.
  apply ret_Res_inv in Ha. apply ret_Res_inv in Hb. subst a' b'.
  unfold same_catalogue.
  cbn [db_stores db_categories db_product_types db_products db_inventory
       set_categories].
  rewrite Hc. auto.
Qed.

Lemma orm_types_stage_spec products_list db db' :
  Orm.insert_product_types products_list db = Ok db' ->
  exists objs, db' = set_product_types (auto_insert (db_product_types db) objs) db.
Proof.
  unfold Orm.insert_product_types. intros Hrun.
  monad_inv Hrun. apply ret_Res_inv in Hrun. subst db'. eexists. reflexivity.
Qed.

Lemma orm_types_stage_same products_list a b a' b' :
  same_catalogue a b ->
  Orm.insert_product_types products_list a = Ok a' ->
  Orm.insert_product_types products_list b = Ok b' ->
  same_catalogue a' b'.
Proof.
  intros (Hs & Hc & Ht & Hp & Hi) Ha Hb.
  unfold Orm.insert_product_types, Orm.category_mapping in Ha, Hb.
  rewrite Hc in Ha. monad_inv Ha. monad_inv Hb. rewrite Hstep in Hstep0.
  apply Ok_inj in Hstep0. subst v0.
  apply ret_Res_inv in Ha. apply ret_Res_inv in Hb. subst a' b'.
  unfold same_catalogue.
  cbn [db_stores db_categories db_product_types db_products db_inventory
       set_product_types].
  rewrite Ht. auto.
Qed.

(** *** Suppliers *)

Lemma orm_suppliers_stage_spec supplier_data month_start db en db' en' :
  Orm.insert_suppliers supplier_data month_start db en = Ok (db', en') ->
  exists sups perf,
    db' = set_supplier_performance perf (set_suppliers sups db) /\
    NoDup (map supplier_id sups) /\
    forall kv, In kv supplier_data ->
               In (Orm.se_supplier_id (snd kv)) (map supplier_id sups).
Proof.
  unfold Orm.insert_suppliers, Orm.bulk_insert_suppliers. intros Hrun.
  monad_inv Hrun. monad_inv Hstep. subst en0.
  monad_inv Hstep0. monad_inv Hstep0. subst v.
  apply (checked_inv Z.eqb Z.eqb_eq) in Hstep as [-> Hnd].
  monad_inv Hrun. clear Hstep.
  monad_inv Hrun. monad_inv Hrun. subst db'.
  eexists. eexists. split; [reflexivity|]. split; [exact Hnd|].
  intros kv Hkv. rewrite map_app. apply in_or_app. right.
  rewrite map_map. cbn [supplier_id].
  apply in_map_iff. exists kv. auto.
Qed.

(** *** Products *)

Lemma orm_product_object_ext supplier_data a b product :
  db_categories a = db_categories b ->
  db_product_types a = db_product_types b ->
  Orm.product_object supplier_data a product
  = Orm.product_object supplier_data b product.
Proof.
  intros Hc Ht. unfold Orm.product_object, Orm.category_mapping, Orm.type_mapping.
  rewrite Hc, Ht. reflexivity.
Qed.

Lemma orm_products_stage_same products_list supplier_data a b a' b' :
  same_catalogue a b ->
  Orm.insert_products products_list supplier_data a = Ok a' ->
  Orm.insert_products products_list supplier_data b = Ok b' ->
  same_catalogue a' b'.
Proof.
  intros (Hs & Hc & Ht & Hp & Hi) Ha Hb.
  unfold Orm.insert_products, Orm.bulk_insert_products in Ha, Hb.
  rewrite (mapM_Res_ext _ _ _ (fun p => orm_product_object_ext supplier_data a b p Hc Ht))
    in Ha.
  monad_inv Ha. monad_inv Hb. rewrite Hstep in Hstep0.
  apply Ok_inj in Hstep0. subst v0.
  monad_inv Ha. monad_inv Hb. monad_inv Ha. monad_inv Hb. subst a' b'.
  apply (checked_inv String.eqb String.eqb_eq) in Hstep0 as [-> _].
  apply (checked_inv String.eqb String.eqb_eq) in Hstep1 as [-> _].
  unfold same_catalogue.
  cbn [db_stores db_categories db_product_types db_products db_inventory
       set_products].
  rewrite Hp. auto.
Qed.

(** *** Customers *)

Lemma orm_customers_stage_spec stores n db en db' en' :
  Orm.insert_customers stores n db en = Ok (db', en') ->
  exists objs,
    db' = set_customers (auto_insert (db_customers db) objs) db /\
    List.length objs = n.
Proof.
  unfold Orm.insert_customers, Orm.bulk_insert_customers. intros Hrun.
  monad_inv Hrun. monad_inv Hrun. subst en'.
  monad_inv Hstep0. monad_inv Hstep0. subst db'.
  apply (checked_inv String.eqb String.eqb_eq) in Hstep1 as [-> _].
  exists v. split; [reflexivity|].
  destruct (orm_customer_objects_spec _ _ _ _ _ _ Hstep) as (f & r & _ & HF).
  rewrite (Forall2_length_eq _ _ _ HF). apply length_seq.
Qed.

(** *** Inventory *)

Lemma orm_inventory_objects_ext stores products_list a b :
  db_stores a = db_stores b -> db_products a = db_products b ->
  Orm.inventory_objects stores products_list a
  = Orm.inventory_objects stores products_list b.
Proof.
  intros Hs Hp.
  unfold Orm.inventory_objects, Orm.store_inventory, Orm.store_name_to_id,
         Orm.sku_to_product_id.
  rewrite Hs, Hp. reflexivity.
Qed.

Lemma orm_inventory_stage_spec stores products_list db db' :
  Orm.insert_inventory stores products_list db = Ok db' ->
  db' = set_inventory
          (db_inventory db ++ Orm.inventory_objects stores products_list db) db /\
  NoDup (map (fun i => (inv_store_id i, inv_product_id i))
             (db_inventory db ++ Orm.inventory_objects stores products_list db)).
Proof.
  unfold Orm.insert_inventory, Orm.bulk_insert_inventory. intros Hrun.
  monad_inv Hrun. monad_inv Hrun. subst db'.
  apply (checked_inv _ (pair_eqb_eq _ _ Z.eqb_eq Z.eqb_eq)) in Hstep as [-> Hnd].
  split; [reflexivity | exact Hnd].
Qed.

(** *** The run up to the inventory, and the whole run *)

Lemma orm_generate_split stores products_list supplier_data today month_start
  n m en db en' :
  Orm.generate stores products_list supplier_data today month_start n m en
  = Ok (db, en') ->
  exists db7 en7,
    Orm.generate_inventory stores products_list supplier_data month_start n en
    = Ok (db7, en7) /\
    Orm.insert_orders_and_items today m db7 en7 = Ok (db, en').
Proof.
  unfold Orm.generate, Orm.generate_inventory. intros Hrun.
  do 7 monad_inv Hrun.
  exists v5, en6. split; [|exact Hrun].
  cbn [bind Gen_Monad].
  rewrite Hstep, Hstep0, Hstep1, Hstep2, Hstep3, Hstep4. exact Hstep5.
Qed.

(** The stages a run went through, by name. *)
Lemma orm_generate_inventory_stages stores products_list supplier_data
  month_start n en db7 en' :
  Orm.generate_inventory stores products_list supplier_data month_start n en
  = Ok (db7, en') ->
  exists db1 db2 db3 db4 db5 db6 e4 e6,
    Orm.insert_stores stores empty_db = Ok db1 /\
    Orm.insert_categories products_list db1 = Ok db2 /\
    Orm.insert_product_types products_list db2 = Ok db3 /\
    Orm.insert_suppliers supplier_data month_start db3 en = Ok (db4, e4) /\
    Orm.insert_products products_list supplier_data db4 = Ok db5 /\
    Orm.insert_customers stores n db5 e4 = Ok (db6, e6) /\
    Orm.insert_inventory stores products_list db6 = Ok db7.
Proof.
  unfold Orm.generate_inventory. intros Hrun.
  monad_inv Hrun. apply lift_inv in Hstep as [H1 ->].
  monad_inv Hrun. apply lift_inv in Hstep as [H2 ->].
  monad_inv Hrun. apply lift_inv in Hstep as [H3 ->].
  monad_inv Hrun. rename Hstep into H4.
  monad_inv Hrun. apply lift_inv in Hstep as [H5 ->].
  monad_inv Hrun. rename Hstep into H6.
  apply lift_inv in Hrun as [H7 ->].
  exists v, v0, v1, v2, v3, v4, en0, en1.
  split; [exact H1|]. split; [exact H2|]. split; [exact H3|].
  split; [exact H4|]. split; [exact H5|]. split; [exact H6 | exact H7].
Qed.

(** Two runs of the generator against the same reference documents reach
    the end of the inventory stage with the same stores, products and
    inventory, whatever is drawn in between. *)
Lemma orm_generate_inventory_same stores products_list supplier_data
  ms1 n1 en1 db1 en1' ms2 n2 en2 db2 en2' :
  Orm.generate_inventory stores products_list supplier_data ms1 n1 en1
  = Ok (db1, en1') ->
  Orm.generate_inventory stores products_list supplier_data ms2 n2 en2
  = Ok (db2, en2') ->
  same_catalogue db1 db2.
Proof.
  intros Ha Hb.
  apply orm_generate_inventory_stages in Ha
    as (a1 & a2 & a3 & a4 & a5 & a6 & ea4 & ea6
        & Ha1 & Ha2 & Ha3 & Ha4 & Ha5 & Ha6 & Ha7).
  apply orm_generate_inventory_stages in Hb
    as (b1 & b2 & b3 & b4 & b5 & b6 & eb4 & eb6
        & Hb1 & Hb2 & Hb3 & Hb4 & Hb5 & Hb6 & Hb7).
  pose proof (orm_stores_stage_same _ _ _ _ _ (same_catalogue_refl _)
                Ha1 Hb1) as S1.
  pose proof (orm_categories_stage_same _ _ _ _ _ S1 Ha2 Hb2) as S2.
  pose proof (orm_types_stage_same _ _ _ _ _ S2 Ha3 Hb3) as S3.
  apply orm_suppliers_stage_spec in Ha4 as (sa & pa & -> & _).
  apply orm_suppliers_stage_spec in Hb4 as (sb & pb & -> & _).
  assert (S4 : same_catalogue
                 (set_supplier_performance pa (set_suppliers sa a3))
                 (set_supplier_performance pb (set_suppliers sb b3)))
    by exact S3.
  pose proof (orm_products_stage_same _ _ _ _ _ _ S4 Ha5 Hb5) as S5.
  apply orm_customers_stage_spec in Ha6 as (ca & -> & _).
  apply orm_customers_stage_spec in Hb6 as (cb & -> & _).
  apply orm_inventory_stage_spec in Ha7 as [-> _].
  apply orm_inventory_stage_spec in Hb7 as [-> _].
  destruct S5 as (Hs & Hc & Ht & Hp & Hi).
  unfold same_catalogue.
  cbn [db_stores db_categories db_product_types db_products db_inventory
       set_inventory set_customers].
  rewrite (orm_inventory_objects_ext stores products_list
             (set_customers (auto_insert (db_customers a5) ca) a5)
             (set_customers (auto_insert (db_customers b5) cb) b5) Hs Hp).
  rewrite Hi. auto.
Qed.

(* ================================================================= *)
(** * Reproducibility of the inventory *)
(* ================================================================= *)

(** The rows of the query of [test_reproducibility.py]:
    [SELECT s.store_name, p.sku, i.stock_level FROM inventory i
     JOIN stores s ON i.store_id = s.store_id
     JOIN products p ON i.product_id = p.product_id]. *)
Definition inventory_signature (db : DB) : list (string * string * Z) :=
  flat_map
    (fun i =>
       flat_map
         (fun s =>
            if store_id s =? inv_store_id i then
              flat_map
                (fun p =>
                   if product_id p =? inv_product_id i
                   then [(store_name s, sku p, stock_level i)]
                   else [])
                (db_products db)
            else [])
         (db_stores db))
    (db_inventory db).

Lemma inventory_signature_same (a b : DB) :
  same_catalogue a b -> inventory_signature a = inventory_signature b.
Proof.
  intros (Hs & _ & _ & Hp & Hi). unfold inventory_signature.
  rewrite Hs, Hp, Hi. reflexivity.
Qed.

Lemma orm_orders_stage_same_catalogue today m db en db' en' :
  Orm.insert_orders_and_items today m db en = Ok (db', en') ->
  same_catalogue db' db.
Proof.
  intros Hrun.
  apply orm_orders_stage_spec in Hrun as (orders & items & -> & _).
  unfold same_catalogue. cbn. auto.
Qed.

Lemma same_catalogue_trans (a b c : DB) :
  same_catalogue a b -> same_catalogue b c -> same_catalogue a c.
Proof.
  unfold same_catalogue.
  intros (H1 & H2 & H3 & H4 & H5) (K1 & K2 & K3 & K4 & K5).
  repeat split; congruence.
Qed.

Lemma same_catalogue_sym (a b : DB) : same_catalogue a b -> same_catalogue b a.
Proof.
  unfold same_catalogue. intros (H1 & H2 & H3 & H4 & H5).
  repeat split; congruence.
Qed.

(** C1.  Two complete runs of the ORM generator against the same stores
    document, product catalogue and supplier document end with the same
    inventory: the same (store name, SKU, stock level) rows, hence the same
    set of (store, SKU) pairs and the same stock levels.  The runs may differ
    in every random draw, in the names Faker returns, in the date and in the
    numbers of customers and orders asked for. *)
Theorem inventory_is_reproducible
  stores products_list supplier_data
  today1 month_start1 n1 m1 en1 db1 en1'
  today2 month_start2 n2 m2 en2 db2 en2' :
  Orm.generate stores products_list supplier_data today1 month_start1 n1 m1 en1
  = Ok (db1, en1') ->
  Orm.generate stores products_list supplier_data today2 month_start2 n2 m2 en2
  = Ok (db2, en2') ->
  inventory_signature db1 = inventory_signature db2 /\
  db_inventory db1 = db_inventory db2.
Proof.
  intros H1 H2.
  apply orm_generate_split in H1 as (a7 & ea & Ha & Hoa).
  apply orm_generate_split in H2 as (b7 & eb & Hb & Hob).
  pose proof (orm_generate_inventory_same _ _ _ _ _ _ _ _ _ _ _ _ _ Ha Hb) as S.
  apply orm_orders_stage_same_catalogue in Hoa, Hob.
  assert (S' : same_catalogue db1 db2).
  { eapply same_catalogue_trans; [exact Hoa|].
    eapply same_catalogue_trans; [exact S|].
    apply same_catalogue_sym. exact Hob. }
  split; [apply inventory_signature_same; exact S'|].
  destruct S' as (_ & _ & _ & _ & Hi). exact Hi.
Qed.

Lemma inventory_is_reproducible_witness :
  match Orm.generate Demo.stores Demo.products_list Demo.supplier_data
          Demo.today Demo.month_start 2 2 Demo.entropy_a,
        Orm.generate Demo.stores Demo.products_list Demo.supplier_data
          (Demo.today + 40) (Demo.month_start + 31) 1 3 Demo.entropy_b with
  | Ok (db1, _), Ok (db2, _) =>
      inventory_signature db1 = inventory_signature db2 /\
      List.length (inventory_signature db1) = 8%nat
  | _, _ => False
  end.
Proof.
  destruct (Orm.generate Demo.stores Demo.products_list Demo.supplier_data
              Demo.today Demo.month_start 2 2 Demo.entropy_a)
    as [[db1 e1]|e] eqn:E1;
    [|vm_compute in E1; discriminate E1].
  destruct (Orm.generate Demo.stores Demo.products_list Demo.supplier_data
              (Demo.today + 40) (Demo.month_start + 31) 1 3 Demo.entropy_b)
    as [[db2 e2]|e] eqn:E2;
    [|vm_compute in E2; discriminate E2].
  split.
  - exact (proj1 (inventory_is_reproducible _ _ _ _ _ _ _ _ _ _ _ _ _ _ _ _ _
                    E1 E2)).
  - vm_compute in E1. inversion E1. reflexivity.
Defined.

(* ================================================================= *)
(** * The database at the end of the inventory stage *)
(* ================================================================= *)

Lemma length_number_from {R} `{Row R} (next : Z) (objs : list R) :
  List.length (number_from next objs) = List.length objs.
Proof.
  revert next. induction objs as [|o t IH]; intros next; cbn; [reflexivity|].
  rewrite IH. reflexivity.
Qed.

(** Rows inserted into an empty table are numbered from 1. *)
Lemma pks_of_fresh_table {R} `{Row R} (objs : list R) :
  map pk (auto_insert [] objs)
  = zrange 1 (List.length (auto_insert [] objs)).
Proof.
  rewrite map_pk_auto_insert. unfold auto_insert. cbn [app map].
  rewrite length_number_from. reflexivity.
Qed.

(** The shape of the database after the ORM stages up to the inventory,
    table by table. *)
Record OrmCatalogue (stores : list (string * Orm.StoreConfig))
  (products_list : list Orm.CatalogProduct)
  (supplier_data : list (Z * Orm.SupplierEntry)) (d : DB) : Prop := {
  oc_store_names :
    map store_name (db_stores d)
    = map (fun kv => Orm.cfg_store_name (snd kv)) stores;
  oc_store_ids :
    map store_id (db_stores d) = zrange 1 (List.length (db_stores d));
  oc_store_names_unique : NoDup (map store_name (db_stores d));
  oc_suppliers_unique : NoDup (map supplier_id (db_suppliers d));
  oc_suppliers_known :
    forall kv, In kv supplier_data ->
               In (Orm.se_supplier_id (snd kv)) (map supplier_id (db_suppliers d));
  oc_product_ids :
    map product_id (db_products d) = zrange 1 (List.length (db_products d));
  oc_skus_unique : NoDup (map sku (db_products d));
  oc_product_rows :
    Forall (fun p =>
              (exists product, In product products_list /\
                               orm_product_of product p) /\
              In (prod_category_id p) (map category_id (db_categories d)) /\
              In (prod_type_id p) (map type_id (db_product_types d)))
           (db_products d);
  oc_inventory :
    db_inventory d = Orm.inventory_objects stores products_list d;
  oc_no_orders : db_orders d = [] /\ db_order_items d = []
}.

Lemma orm_generate_inventory_catalogue stores products_list supplier_data
  month_start n en d en' :
  Orm.generate_inventory stores products_list supplier_data month_start n en
  = Ok (d, en') ->
  OrmCatalogue stores products_list supplier_data d /\
  map customer_id (db_customers d) = zrange 1 n.
Proof.
  intros Hrun.
  apply orm_generate_inventory_stages in Hrun
    as (d1 & d2 & d3 & d4 & d5 & d6 & e4 & e6
        & H1 & H2 & H3 & H4 & H5 & H6 & H7).
  apply orm_stores_stage_spec in H1 as (sobjs & -> & Hsn & Hsm).
  apply orm_categories_stage_spec in H2 as (cobjs & ->).
  apply orm_types_stage_spec in H3 as (tobjs & ->).
  apply orm_suppliers_stage_spec in H4 as (sups & perf & -> & Hsu & Hsk).
  apply orm_products_stage_spec in H5 as (pobjs & -> & Hpn & Hpr).
  apply orm_customers_stage_spec in H6 as (custs & -> & Hcl).
  apply orm_inventory_stage_spec in H7 as [-> Hin].
  cbn [db_stores db_categories db_product_types db_suppliers
       db_supplier_performance db_products db_customers db_inventory
       db_orders db_order_items db_product_description_embeddings
       set_stores set_categories set_product_types set_suppliers
       set_supplier_performance set_products set_customers set_inventory
       empty_db] in *.
  split.
  - constructor;
      cbn [db_stores db_categories db_product_types db_suppliers
           db_supplier_performance db_products db_customers db_inventory
           db_orders db_order_items db_product_description_embeddings
           set_stores set_categories set_product_types set_suppliers
           set_supplier_performance set_products set_customers set_inventory
           empty_db].
    + unfold auto_insert. cbn [app].
      rewrite map_number_from by reflexivity. exact Hsm.
    + exact (pks_of_fresh_table sobjs).
    + exact Hsn.
    + exact Hsu.
    + exact Hsk.
    + exact (pks_of_fresh_table pobjs).
    + exact Hpn.
    + apply Forall_auto_insert; [constructor|].
      eapply Forall_impl; [|exact Hpr]. intros p Hp z. exact Hp.
    + cbn [app]. apply orm_inventory_objects_ext; reflexivity.
    + split; reflexivity.
  - change (map customer_id (auto_insert [] custs))
      with (map pk (auto_insert [] custs)).
    rewrite (pks_of_fresh_table custs). unfold auto_insert. cbn [app].
    rewrite length_number_from, Hcl. reflexivity.
Qed.

(* ================================================================= *)
(** * Every catalogue entry becomes a product *)
(* ================================================================= *)

Section SortedSetFacts.
Context {A : Type} (cmp : A -> A -> comparison).
Hypothesis cmp_eq : forall x y, cmp x y = Eq -> x = y.

Lemma In_set_insert (x : A) (l : list A) (y : A) :
  y = x \/ In y l -> In y (set_insert cmp x l).
Proof.
  induction l as [|z t IH]; cbn [set_insert].
  - intros [->|[]]. left. reflexivity.
  - destruct (cmp x z) eqn:E.
    + apply cmp_eq in E. subst z. intros [->|H]; [left; reflexivity | exact H].
    + intros [->|H]; [left; reflexivity | right; exact H].
    + intros [->|[->|H]].
      * right. apply IH. left. reflexivity.
      * left. reflexivity.
      * right. apply IH. right. exact H.
Qed.

Lemma In_sorted_set (l : list A) (y : A) : In y l -> In y (sorted_set cmp l).
Proof.
  unfold sorted_set. induction l as [|x t IH]; cbn [fold_right]; [tauto|].
  intros [->|H]; apply In_set_insert; [left; reflexivity | right; auto].
Qed.

End SortedSetFacts.

Lemma pair_compare_eq (x y : string * string) : pair_compare x y = Eq -> x = y.
Proof.
  destruct x as [a b], y as [c d]. unfold pair_compare. cbn [fst snd].
  destruct (String.compare a c) eqn:E; try discriminate.
  apply String.compare_eq_iff in E. intros E'.
  apply String.compare_eq_iff in E'. congruence.
Qed.

Lemma Forall2_In_left {A B} (P : A -> B -> Prop) xs ys (x : A) :
  Forall2 P xs ys -> In x xs -> exists y, In y ys /\ P x y.
Proof.
  induction 1 as [|x0 y0 xs ys Hxy _ IH]; simpl; [tauto|].
  intros [<-|Hin].
  - exists y0. auto.
  - destruct (IH Hin) as (y & Hy & HP). exists y. auto.
Qed.

Lemma number_from_In {R} `{Row R} (next : Z) (objs : list R) (o : R) :
  In o objs -> exists z, In (with_pk z o) (number_from next objs).
Proof.
  revert next. induction objs as [|a t IH]; intros next; simpl; [tauto|].
  intros [->|Hin].
  - exists next. left. reflexivity.
  - destruct (IH (next + 1) Hin) as (z & Hz). exists z. right. exact Hz.
Qed.

(** What the product-types stage writes: one row per (category,
    subcategory) pair of the catalogue, under the id of the category. *)
Lemma orm_types_stage_rows products_list db db' product :
  Orm.insert_product_types products_list db = Ok db' ->
  In product products_list ->
  exists cid t,
    dict_get String.eqb (Orm.category_mapping db) (Orm.cp_category product)
    = Some cid /\
    In t (db_product_types db') /\
    type_category_id t = cid /\ type_name t = Orm.cp_subcategory product.
Proof.
  unfold Orm.insert_product_types. intros Hrun Hin.
  monad_inv Hrun. apply ret_Res_inv in Hrun. subst db'.
  cbn [db_product_types set_product_types].
  assert (HF : Forall2
                 (fun (cs : string * string) (t : ProductType) =>
                    dict_get String.eqb (Orm.category_mapping db) (fst cs)
                    = Some (type_category_id t) /\ type_name t = snd cs)
                 (sorted_set pair_compare
                    (map (fun p => (Orm.cp_category p, Orm.cp_subcategory p))
                         products_list))
                 v).
  { eapply mapM_Res_Forall2; [|exact Hstep].
    intros cs t _ Ht. cbn beta in Ht.
    destruct (dict_get String.eqb (Orm.category_mapping db) (fst cs))
      as [c|]; [|discriminate].
    apply ret_Res_inv in Ht. subst t. auto. }
  assert (Hset : In (Orm.cp_category product, Orm.cp_subcategory product)
                    (sorted_set pair_compare
                       (map (fun p => (Orm.cp_category p, Orm.cp_subcategory p))
                            products_list))).
  { apply (In_sorted_set _ pair_compare_eq). apply in_map_iff.
    exists product. auto. }
  destruct (Forall2_In_left _ _ _ _ HF Hset) as (t & Ht & Hc & Hn).
  cbn [fst snd] in Hc, Hn.
  destruct (number_from_In (next_rowid (db_product_types db)) v t Ht)
    as (z & Hz).
  exists (type_category_id t), (with_pk z t).
  split; [exact Hc|]. split; [|auto].
  unfold auto_insert. apply in_or_app. right. exact Hz.
Qed.

(** In a run of the ORM generator no catalogue entry is skipped: the
    products table carries the SKUs of the catalogue, in order. *)
Lemma orm_generate_inventory_skus stores products_list supplier_data
  month_start n en d en' :
  Orm.generate_inventory stores products_list supplier_data month_start n en
  = Ok (d, en') ->
  map sku (db_products d) = map Orm.cp_sku products_list.
Proof.
  intros Hrun.
  apply orm_generate_inventory_stages in Hrun
    as (d1 & d2 & d3 & d4 & d5 & d6 & e4 & e6
        & H1 & H2 & H3 & H4 & H5 & H6 & H7).
  pose proof (fun product => orm_types_stage_rows _ _ _ product H3) as Hrows.
  apply orm_stores_stage_spec in H1 as (sobjs & -> & _).
  apply orm_categories_stage_spec in H2 as (cobjs & ->).
  apply orm_types_stage_spec in H3 as (tobjs & ->).
  apply orm_suppliers_stage_spec in H4 as (sups & perf & -> & _).
  apply orm_customers_stage_spec in H6 as (custs & -> & _).
  apply orm_inventory_stage_spec in H7 as [-> _].
  unfold Orm.insert_products, Orm.bulk_insert_products in H5.
  monad_inv H5. monad_inv H5. monad_inv H5. subst d5.
  apply (checked_inv String.eqb String.eqb_eq) in Hstep0 as [-> _].
  cbn [db_stores db_categories db_product_types db_suppliers
       db_supplier_performance db_products db_customers db_inventory
       set_stores set_categories set_product_types set_suppliers
       set_supplier_performance set_products set_customers set_inventory
       empty_db] in *.
  unfold auto_insert at 1. cbn [app].
  rewrite map_number_from by reflexivity.
  assert (HF : Forall2 (fun product o =>
                          exists p, o = Some p /\ sku p = Orm.cp_sku product)
                       products_list v).
  { eapply mapM_Res_Forall2; [|exact Hstep].
    intros product o Hin Ho.
    destruct (Hrows product Hin) as (cid & t & Hc & Ht & Htc & Htn).
    unfold Orm.product_object in Ho.
    unfold Orm.category_mapping in Hc, Ho.
    cbn [db_categories set_categories set_product_types set_suppliers
         set_supplier_performance] in Hc, Ho.
    rewrite Hc in Ho.
    assert (Hty : truthy_id
                    (dict_get (pair_eqb Z.eqb String.eqb)
                       (Orm.type_mapping
                          (set_supplier_performance perf
                             (set_suppliers sups
                                (set_product_types (auto_insert [] tobjs)
                                   (set_categories (auto_insert [] cobjs)
                                      (set_stores (auto_insert [] sobjs)
                                                  empty_db))))))
                       (cid, Orm.cp_subcategory product)) <> None).
    { unfold Orm.type_mapping.
      cbn [db_product_types set_product_types set_suppliers
           set_supplier_performance].
      destruct (dict_get (pair_eqb Z.eqb String.eqb)
                  (map (fun pt => (type_category_id pt, type_name pt, type_id pt))
                       (auto_insert [] tobjs))
                  (cid, Orm.cp_subcategory product)) as [tid|] eqn:Eg.
      - apply (dict_get_In _ (pair_eqb_eq _ _ Z.eqb_eq String.eqb_eq)) in Eg.
        apply in_map_iff in Eg as (t' & Heq & Ht').
        inversion Heq; subst tid.
        apply (in_map type_id) in Ht'.
        change (map type_id (auto_insert [] tobjs))
          with (map pk (auto_insert [] tobjs)) in Ht'.
        rewrite (pks_of_fresh_table tobjs) in Ht'. apply In_zrange in Ht'.
        rewrite truthy_id_pos by lia. discriminate.
      - exfalso.
        apply (dict_get_None _ (pair_eqb_eq _ _ Z.eqb_eq String.eqb_eq)) in Eg.
        apply Eg. rewrite map_map. cbn [fst]. apply in_map_iff.
        exists t. split; [congruence | exact Ht]. }
    destruct (truthy_id _) as [tid|]; [|contradiction].
    apply ret_Res_inv in Ho. subst o. eexists. split; [reflexivity|].
    reflexivity. }
  clear - HF. induction HF as [|product o pl objs (p & -> & Hs) _ IH];
    [reflexivity|].
  cbn [Orm.somes map]. rewrite Hs, IH. reflexivity.
Qed.

(* ================================================================= *)
(** * The SKUs a store carries *)
(* ================================================================= *)

(** The rows of the query of [test_inventory_assignments]:
    [SELECT p.sku FROM inventory i JOIN stores s ON i.store_id = s.store_id
     JOIN products p ON i.product_id = p.product_id WHERE s.store_name = ?]. *)
Definition inventory_skus (db : DB) (name : string) : list string :=
  flat_map
    (fun i =>
       flat_map
         (fun s =>
            if (store_id s =? inv_store_id i) && String.eqb (store_name s) name
            then
              flat_map
                (fun p =>
                   if product_id p =? inv_product_id i then [sku p] else [])
                (db_products db)
            else [])
         (db_stores db))
    (db_inventory db).

(** The list of a store, empty when the document has none. *)
Definition listed_skus (cfg : Orm.StoreConfig) : list string :=
  match Orm.product_skus cfg with
  | Some l => l
  | None => []
  end.

Lemma In_inventory_skus (db : DB) (name x : string) :
  In x (inventory_skus db name) <->
  exists i s p,
    In i (db_inventory db) /\ In s (db_stores db) /\ In p (db_products db) /\
    store_id s = inv_store_id i /\ store_name s = name /\
    product_id p = inv_product_id i /\ sku p = x.
Proof.
  unfold inventory_skus. rewrite in_flat_map. split.
  - intros (i & Hi & Hx). apply in_flat_map in Hx as (s & Hs & Hx).
    destruct ((store_id s =? inv_store_id i) && (store_name s =? name)%string)
      eqn:E; [|contradiction].
    apply andb_true_iff in E as [E1 E2].
    apply Z.eqb_eq in E1. apply String.eqb_eq in E2.
    apply in_flat_map in Hx as (p & Hp & Hx).
    destruct (product_id p =? inv_product_id i) eqn:E3; [|contradiction].
    apply Z.eqb_eq in E3. destruct Hx as [<-|[]].
    exists i, s, p. auto 10.
  - intros (i & s & p & Hi & Hs & Hp & E1 & E2 & E3 & <-).
    exists i. split; [exact Hi|].
    apply in_flat_map. exists s. split; [exact Hs|].
    apply Z.eqb_eq in E1. apply String.eqb_eq in E2. rewrite E1, E2.
    cbn [andb]. apply in_flat_map. exists p. split; [exact Hp|].
    apply Z.eqb_eq in E3. rewrite E3. left. reflexivity.
Qed.

Lemma In_inventory_objects stores products_list db (i : Inventory) :
  In i (Orm.inventory_objects stores products_list db) <->
  exists kv x,
    In kv stores /\ In x (listed_skus (snd kv)) /\
    truthy_id (dict_get String.eqb (Orm.store_name_to_id db)
                        (Orm.cfg_store_name (snd kv)))
    = Some (inv_store_id i) /\
    truthy_id (dict_get String.eqb (Orm.sku_to_product_id db) x)
    = Some (inv_product_id i) /\
    stock_level i
    = dict_get_default String.eqb (Orm.sku_to_stock_level products_list) x 25.
Proof.
  unfold Orm.inventory_objects, Orm.store_inventory, listed_skus.
  rewrite in_flat_map. split.
  - intros (kv & Hkv & Hi).
    destruct (truthy_id (dict_get String.eqb (Orm.store_name_to_id db)
                                  (Orm.cfg_store_name (snd kv))))
      as [sid|] eqn:Es; [|contradiction].
    apply in_flat_map in Hi as (x & Hx & Hi).
    destruct (truthy_id (dict_get String.eqb (Orm.sku_to_product_id db) x))
      as [pid|] eqn:Ep; [|contradiction].
    destruct Hi as [<-|[]]. exists kv, x. rewrite Es, Ep. cbn. auto.
  - intros (kv & x & Hkv & Hx & Es & Ep & Hl).
    exists kv. split; [exact Hkv|]. rewrite Es.
    apply in_flat_map. exists x. split; [exact Hx|]. rewrite Ep.
    left. destruct i as [a b c]. cbn in *. subst c. reflexivity.
Qed.

Lemma NoDup_map_inj {A B} (f : A -> B) (l : list A) (x y : A) :
  NoDup (map f l) -> In x l -> In y l -> f x = f y -> x = y.
Proof.
  induction l as [|a t IH]; simpl; [tauto|].
  intros Hnd Hx Hy Hf. inversion Hnd as [|? ? Ha Ht]; subst.
  destruct Hx as [->|Hx], Hy as [->|Hy].
  - reflexivity.
  - exfalso. apply Ha. rewrite Hf. apply in_map. exact Hy.
  - exfalso. apply Ha. rewrite <- Hf. apply in_map. exact Hx.
  - apply IH; assumption.
Qed.

Section CatalogueFacts.
Variable stores : list (string * Orm.StoreConfig).
Variable products_list : list Orm.CatalogProduct.
Variable supplier_data : list (Z * Orm.SupplierEntry).
Variable d : DB.
Hypothesis Hcat : OrmCatalogue stores products_list supplier_data d.

Lemma oc_store_id_pos (s : Store) : In s (db_stores d) -> 0 < store_id s.
Proof.
  intros Hs. apply (in_map store_id) in Hs.
  rewrite (oc_store_ids _ _ _ _ Hcat) in Hs. apply In_zrange in Hs. lia.
Qed.

Lemma oc_product_id_pos (p : Product) : In p (db_products d) -> 0 < product_id p.
Proof.
  intros Hp. apply (in_map product_id) in Hp.
  rewrite (oc_product_ids _ _ _ _ Hcat) in Hp. apply In_zrange in Hp. lia.
Qed.

Lemma oc_store_ids_unique : NoDup (map store_id (db_stores d)).
Proof. rewrite (oc_store_ids _ _ _ _ Hcat). apply NoDup_zrange. Qed.

Lemma oc_product_ids_unique : NoDup (map product_id (db_products d)).
Proof. rewrite (oc_product_ids _ _ _ _ Hcat). apply NoDup_zrange. Qed.

Lemma oc_store_lookup (s : Store) :
  In s (db_stores d) ->
  truthy_id (dict_get String.eqb (Orm.store_name_to_id d) (store_name s))
  = Some (store_id s).
Proof.
  intros Hs.
  rewrite (dict_get_unique String.eqb String.eqb_eq _ _ (store_id s)).
  - apply truthy_id_pos, oc_store_id_pos, Hs.
  - unfold Orm.store_name_to_id. rewrite map_map. cbn [fst].
    exact (oc_store_names_unique _ _ _ _ Hcat).
  - unfold Orm.store_name_to_id. apply in_map_iff. exists s. auto.
Qed.

Lemma oc_product_lookup (p : Product) :
  In p (db_products d) ->
  truthy_id (dict_get String.eqb (Orm.sku_to_product_id d) (sku p))
  = Some (product_id p).
Proof.
  intros Hp.
  rewrite (dict_get_unique String.eqb String.eqb_eq _ _ (product_id p)).
  - apply truthy_id_pos, oc_product_id_pos, Hp.
  - unfold Orm.sku_to_product_id. rewrite map_map. cbn [fst].
    exact (oc_skus_unique _ _ _ _ Hcat).
  - unfold Orm.sku_to_product_id. apply in_map_iff. exists p. auto.
Qed.

Lemma oc_store_found name sid :
  truthy_id (dict_get String.eqb (Orm.store_name_to_id d) name) = Some sid ->
  exists s, In s (db_stores d) /\ store_name s = name /\ store_id s = sid.
Proof.
  intros Hl. apply truthy_id_Some in Hl as [Hl _].
  apply store_name_to_id_In. exact Hl.
Qed.

Lemma oc_product_found x pid :
  truthy_id (dict_get String.eqb (Orm.sku_to_product_id d) x) = Some pid ->
  exists p, In p (db_products d) /\ sku p = x /\ product_id p = pid.
Proof.
  intros Hl. apply truthy_id_Some in Hl as [Hl _].
  apply (dict_get_In String.eqb String.eqb_eq) in Hl.
  unfold Orm.sku_to_product_id in Hl.
  apply in_map_iff in Hl as (p & Heq & Hp). inversion Heq; subst. eauto.
Qed.

Lemma oc_config_names_unique :
  NoDup (map (fun kv => Orm.cfg_store_name (snd kv)) stores).
Proof.
  rewrite <- (oc_store_names _ _ _ _ Hcat). exact (oc_store_names_unique _ _ _ _ Hcat).
Qed.

Lemma oc_config_has_store (kv : string * Orm.StoreConfig) :
  In kv stores ->
  exists s, In s (db_stores d) /\ store_name s = Orm.cfg_store_name (snd kv).
Proof.
  intros Hkv.
  apply (in_map (fun kv => Orm.cfg_store_name (snd kv))) in Hkv.
  rewrite <- (oc_store_names _ _ _ _ Hcat) in Hkv.
  apply in_map_iff in Hkv as (s & Hn & Hs). eauto.
Qed.

(** The SKUs joined to the inventory of a configured store are the SKUs of
    its list that name a product. *)
Lemma oc_inventory_skus (kv : string * Orm.StoreConfig) (x : string) :
  In kv stores ->
  (In x (inventory_skus d (Orm.cfg_store_name (snd kv))) <->
   In x (listed_skus (snd kv)) /\ In x (map sku (db_products d))).
Proof.
  intros Hkv. rewrite In_inventory_skus. split.
  - intros (i & s & p & Hi & Hs & Hp & E1 & E2 & E3 & E4).
    rewrite (oc_inventory _ _ _ _ Hcat) in Hi.
    apply In_inventory_objects in Hi
      as (kv' & x' & Hkv' & Hx' & Es & Ep & _).
    apply oc_store_found in Es as (s' & Hs' & Hn' & Hid').
    apply oc_product_found in Ep as (p' & Hp' & Hsku' & Hpid').
    assert (s' = s)
      by (apply (NoDup_map_inj store_id (db_stores d));
          [apply oc_store_ids_unique | | | congruence]; assumption).
    assert (p' = p)
      by (apply (NoDup_map_inj product_id (db_products d));
          [apply oc_product_ids_unique | | | congruence]; assumption).
    subst s' p'.
    assert (kv' = kv).
    { apply (NoDup_map_inj (fun kv => Orm.cfg_store_name (snd kv)) stores);
        [apply oc_config_names_unique | assumption | assumption |].
      cbn beta. congruence. }
    subst kv'. split.
    + congruence.
    + rewrite <- E4. apply in_map. exact Hp.
  - intros [Hx Hp]. apply in_map_iff in Hp as (p & Hsku & Hp).
    destruct (oc_config_has_store kv Hkv) as (s & Hs & Hn).
    exists {| inv_store_id := store_id s; inv_product_id := product_id p;
              stock_level :=
                dict_get_default String.eqb
                  (Orm.sku_to_stock_level products_list) x 25 |}, s, p.
    split; [|auto 10].
    rewrite (oc_inventory _ _ _ _ Hcat). apply In_inventory_objects.
    exists kv, x. cbn [inv_store_id inv_product_id stock_level].
    split; [exact Hkv|]. split; [exact Hx|].
    rewrite <- Hn, <- Hsku.
    rewrite (oc_store_lookup s Hs), (oc_product_lookup p Hp). auto.
Qed.

End CatalogueFacts.

(** The claim fails when a list names an SKU that the catalogue does not
    have: the run completes and the store gets no row for that SKU. *)
Lemma listed_sku_without_product_gets_no_row :
  exists d en',
    Orm.generate_inventory Demo.stores_unknown_sku Demo.products_list
      Demo.supplier_data Demo.month_start 2 Demo.entropy_a = Ok (d, en') /\
    In "XX-999"%string ["HT-001"; "XX-999"]%string /\
    ~ In "XX-999"%string (inventory_skus d "Zava Seattle").
Proof.
  eexists. eexists. split; [vm_compute; reflexivity|].
  split; [right; left; reflexivity|].
  vm_compute. intros [H|[]]. discriminate H.
Qed.

(** C2, amended.  After the inventory stage of a run of the ORM generator,
    the SKUs with an inventory row for a store that has a list in the stores
    document are exactly the SKUs of that list that are SKUs of the product
    catalogue (every catalogue entry has become a product): no SKU outside
    the list gets a row, and a listed SKU gets a row if and only if the
    catalogue has a product with that SKU. *)
Theorem store_inventory_is_listed_products
  stores products_list supplier_data month_start n en d en'
  (key : string) (cfg : Orm.StoreConfig) (skus : list string) (x : string) :
  Orm.generate_inventory stores products_list supplier_data month_start n en
  = Ok (d, en') ->
  In (key, cfg) stores ->
  Orm.product_skus cfg = Some skus ->
  (In x (inventory_skus d (Orm.cfg_store_name cfg)) <->
   In x skus /\ In x (map Orm.cp_sku products_list)) /\
  map sku (db_products d) = map Orm.cp_sku products_list.
Proof.
  intros Hrun Hkv Hl.
  pose proof (orm_generate_inventory_skus _ _ _ _ _ _ _ _ Hrun) as Hskus.
  apply orm_generate_inventory_catalogue in Hrun as [Hcat _].
  pose proof (oc_inventory_skus stores products_list supplier_data d Hcat
                (key, cfg) x Hkv) as H.
  cbn [snd] in H. unfold listed_skus in H. rewrite Hl, Hskus in H.
  split; [exact H | exact Hskus].
Qed.

Lemma store_inventory_witness :
  match Orm.generate_inventory Demo.stores Demo.products_list
          Demo.supplier_data Demo.month_start 2 Demo.entropy_a with
  | Ok (d, _) =>
      (In "PL-001"%string (inventory_skus d "Zava Online") <->
       In "PL-001"%string ["PT-002"; "PL-001"; "PL-002"]%string /\
       In "PL-001"%string (map Orm.cp_sku Demo.products_list)) /\
      inventory_skus d "Zava Online" = ["PT-002"; "PL-001"; "PL-002"]%string
  | Raise _ => False
  end.
Proof.
  destruct (Orm.generate_inventory Demo.stores Demo.products_list
              Demo.supplier_data Demo.month_start 2 Demo.entropy_a)
    as [[d e]|e] eqn:E; [|vm_compute in E; discriminate E].
  split.
  - refine (proj1 (store_inventory_is_listed_products
                     Demo.stores Demo.products_list Demo.supplier_data _ _ _ _ _
                     "2"%string
                     (Demo.store "Zava Online" "6ba7b810" true 0.3
                        (Some ["PT-002"; "PL-001"; "PL-002"]%string))
                     _ _ E _ eq_refl)).
    right. left. reflexivity.
  - vm_compute in E. inversion E. reflexivity.
Defined.

(* ================================================================= *)
(** * The stages of the legacy generator, one by one *)
(* ================================================================= *)

Lemma legacy_stores_stage_spec stores db db' :
  Legacy.insert_stores stores db = Ok db' ->
  exists objs,
    db' = set_stores (auto_insert (db_stores db) objs) db /\
    map store_name objs = map fst stores.
Proof.
  unfold Legacy.insert_stores, Legacy.insert_store_rows. intros Hrun.
  monad_inv Hrun. monad_inv Hrun. monad_inv Hrun. subst db'.
  apply (checked_inv String.eqb String.eqb_eq) in Hstep0 as [-> _].
  exists v. split; [reflexivity|].
  apply Forall2_map_eq.
  eapply mapM_Res_Forall2; [|exact Hstep].
  intros kv o _ Ho. cbn beta in Ho.
  destruct (negb (str_truthy (Legacy.cfg_rls_user_id (snd kv)))); [discriminate|].
  apply ret_Res_inv in Ho. subst o. reflexivity.
Qed.

Lemma legacy_categories_stage_spec main_categories db db' :
  Legacy.insert_categories main_categories db = Ok db' ->
  exists objs, db' = set_categories (auto_insert (db_categories db) objs) db.
Proof.
  unfold Legacy.insert_categories, Legacy.insert_category_rows. intros Hrun.
  monad_inv Hrun. monad_inv Hrun. subst db'.
  apply (checked_inv String.eqb String.eqb_eq) in Hstep as [-> _].
  eexists. reflexivity.
Qed.

Lemma legacy_types_stage_spec main_categories db db' :
  Legacy.insert_product_types main_categories db = Ok db' ->
  exists objs, db' = set_product_types (auto_insert (db_product_types db) objs) db.
Proof.
  unfold Legacy.insert_product_types. intros Hrun.
  monad_inv Hrun. apply ret_Res_inv in Hrun. subst db'. eexists. reflexivity.
Qed.

Lemma legacy_customers_stage_spec stores n db en db' en' :
  Legacy.insert_customers stores n db en = Ok (db', en') ->
  exists objs,
    db' = set_customers (auto_insert (db_customers db) objs) db /\
    List.length objs = n.
Proof.
  unfold Legacy.insert_customers, Legacy.insert_customer_rows. intros Hrun.
  monad_inv Hrun. monad_inv Hrun. subst en'.
  monad_inv Hstep0. monad_inv Hstep0. subst db'.
  apply (checked_inv String.eqb String.eqb_eq) in Hstep1 as [-> _].
  exists v. split; [reflexivity|].
  pose proof (legacy_customers_data_spec _ _ _ _ _ _ Hstep) as HF.
  rewrite (Forall2_length_eq _ _ _ HF). apply length_seq.
Qed.

Lemma legacy_embeddings_stage_spec main_categories clear db en db' en' :
  Legacy.populate_product_description_embeddings main_categories clear db en
  = Ok (db', en') ->
  exists rows, db' = set_product_description_embeddings rows db.
Proof.
  unfold Legacy.populate_product_description_embeddings,
         Legacy.insert_embedding_rows.
  intros Hrun. monad_inv Hrun. apply lift_inv in Hrun as [Hins _].
  monad_inv Hins. monad_inv Hins. subst db'.
  destruct clear; eexists; reflexivity.
Qed.

Lemma legacy_inventory_stage_spec db en db' en' :
  Legacy.insert_inventory db en = Ok (db', en') ->
  exists rows,
    db' = set_inventory (db_inventory db ++ rows) db /\
    Forall (fun i =>
              In (inv_store_id i) (map store_id (db_stores db)) /\
              In (inv_product_id i) (map product_id (db_products db)))
           rows.
Proof.
  unfold Legacy.insert_inventory, Legacy.insert_inventory_rows. intros Hrun.
  monad_inv Hrun. rename v into store_ids, Hstep into Hs.
  monad_inv Hrun. rename v into product_ids, Hstep into Hp.
  apply fetchall_inv in Hs as (Hs & _). apply fetchall_inv in Hp as (Hp & _).
  monad_inv Hrun. monad_inv Hrun. subst en'.
  monad_inv Hstep0. monad_inv Hstep0. subst db'.
  apply (checked_inv _ (pair_eqb_eq _ _ Z.eqb_eq Z.eqb_eq)) in Hstep1 as [-> _].
  exists (List.concat v). split; [reflexivity|].
  apply Forall_concat.
  eapply Forall2_Forall_r.
  - eapply (mapM_Gen_Forall2 _
              (fun sid rows =>
                 In sid (map store_id (db_stores db)) /\
                 Forall (fun i => inv_store_id i = sid /\
                                  In (inv_product_id i)
                                     (map product_id (db_products db))) rows));
      [|exact Hstep].
    intros sid e1 rows e2 Hsid Hrows.
    split; [exact (Permutation_in _ Hs Hsid)|].
    eapply Forall2_Forall_r.
    + eapply (mapM_Gen_Forall2 _
                (fun pid i => In pid (map product_id (db_products db)) /\
                              inv_store_id i = sid /\ inv_product_id i = pid));
        [|exact Hrows].
      intros pid e3 i e4 Hpid Hi. cbn beta in Hi.
      apply (Permutation_in _ Hp) in Hpid.
      monad_inv Hi. monad_inv Hi. subst i. cbn. auto.
    + cbn beta. intros pid i _ (Hpid & Hsi & Hpi). rewrite Hpi. auto.
  - cbn beta. intros sid rows _ [Hsid Hall].
    eapply Forall_impl; [|exact Hall]. intros i [Hsi Hpi]. rewrite Hsi. auto.
Qed.

(** The stages a legacy run went through, by name. *)
Lemma legacy_generate_stages stores main_categories year_weights n en db8 en' :
  Legacy.generate_sqlite_database stores main_categories year_weights n en
  = Ok (db8, en') ->
  exists db1 db2 db3 db4 db5 db6 db7 e4 e6 e7,
    Legacy.insert_stores stores empty_db = Ok db1 /\
    Legacy.insert_categories main_categories db1 = Ok db2 /\
    Legacy.insert_product_types main_categories db2 = Ok db3 /\
    Legacy.insert_customers stores n db3 en = Ok (db4, e4) /\
    Legacy.insert_products main_categories db4 = Ok db5 /\
    Legacy.populate_product_description_embeddings main_categories true db5 e4
    = Ok (db6, e6) /\
    Legacy.insert_inventory db6 e6 = Ok (db7, e7) /\
    Legacy.insert_orders stores year_weights n db7 e7 = Ok (db8, en').
Proof.
  unfold Legacy.generate_sqlite_database. intros Hrun.
  monad_inv Hrun. apply lift_inv in Hstep as [H1 ->].
  monad_inv Hrun. apply lift_inv in Hstep as [H2 ->].
  monad_inv Hrun. apply lift_inv in Hstep as [H3 ->].
  monad_inv Hrun. rename Hstep into H4.
  monad_inv Hrun. apply lift_inv in Hstep as [H5 ->].
  monad_inv Hrun. rename Hstep into H6.
  monad_inv Hrun. rename Hstep into H7.
  exists v, v0, v1, v2, v3, v4, v5, en0, en1, en2.
  split; [exact H1|]. split; [exact H2|]. split; [exact H3|].
  split; [exact H4|]. split; [exact H5|]. split; [exact H6|].
  split; [exact H7 | exact Hrun].
Qed.

(* ================================================================= *)
(** * Referential integrity *)
(* ================================================================= *)

(** The foreign keys of a product row other than the supplier. *)
Definition product_fk (db : DB) (p : Product) : Prop :=
  In (prod_category_id p) (map category_id (db_categories db)) /\
  In (prod_type_id p) (map type_id (db_product_types db)).

(** [products.supplier_id]: a NULL refers to nothing. *)
Definition supplier_fk (db : DB) (p : Product) : Prop :=
  forall s, prod_supplier_id p = Some s ->
            In s (map supplier_id (db_suppliers db)).

Definition inventory_fk (db : DB) (i : Inventory) : Prop :=
  In (inv_store_id i) (map store_id (db_stores db)) /\
  In (inv_product_id i) (map product_id (db_products db)).

Definition order_fk (db : DB) (o : Order) : Prop :=
  In (order_customer_id o) (map customer_id (db_customers db)) /\
  In (order_store_id o) (map store_id (db_stores db)).

Definition order_item_fk (db : DB) (it : OrderItem) : Prop :=
  In (item_order_id it) (map order_id (db_orders db)) /\
  In (item_store_id it) (map store_id (db_stores db)) /\
  In (item_product_id it) (map product_id (db_products db)).

(** Every foreign key of the four tables resolves, the supplier of a
    product left aside. *)
Definition fk_resolve (db : DB) : Prop :=
  Forall (product_fk db) (db_products db) /\
  Forall (inventory_fk db) (db_inventory db) /\
  Forall (order_fk db) (db_orders db) /\
  Forall (order_item_fk db) (db_order_items db).

(** The supplier ids of the catalogue are ids of the supplier document. *)
Definition catalogue_suppliers_known
  (products_list : list Orm.CatalogProduct)
  (supplier_data : list (Z * Orm.SupplierEntry)) : Prop :=
  forall product s,
    In product products_list -> Orm.cp_supplier_id product = Some s ->
    exists kv, In kv supplier_data /\ Orm.se_supplier_id (snd kv) = s.

Lemma orm_generate_fk stores products_list supplier_data today month_start
  n m en db en' :
  Orm.generate stores products_list supplier_data today month_start n m en
  = Ok (db, en') ->
  fk_resolve db /\
  (catalogue_suppliers_known products_list supplier_data ->
   Forall (supplier_fk db) (db_products db)).
Proof.
  intros Hrun.
  apply orm_generate_split in Hrun as (d & e7 & Hinv & Hord).
  apply orm_generate_inventory_catalogue in Hinv as [Hcat Hcust].
  apply orm_orders_stage_spec in Hord as (orders & items & -> & Ho & Hit).
  destruct (oc_no_orders _ _ _ _ Hcat) as [Hno Hni].
  unfold fk_resolve, product_fk, supplier_fk, inventory_fk, order_fk,
         order_item_fk.
  cbn [db_stores db_categories db_product_types db_suppliers db_products
       db_customers db_inventory db_orders db_order_items
       set_orders set_order_items].
  split; [split; [|split; [|split]]|].
  - eapply Forall_impl; [|exact (oc_product_rows _ _ _ _ Hcat)].
    intros p (_ & Hc & Ht). auto.
  - rewrite (oc_inventory _ _ _ _ Hcat). apply Forall_forall. intros i Hi.
    apply In_inventory_objects in Hi as (kv & x & _ & _ & Es & Ep & _).
    apply oc_store_found in Es as (s & Hs & _ & <-).
    apply (oc_product_found d) in Ep as (p & Hp & _ & <-).
    split; apply in_map; assumption.
  - apply Forall_auto_insert; [rewrite Hno; constructor|].
    eapply Forall_impl; [|exact Ho]. intros o Hfk z. exact Hfk.
  - apply Forall_auto_insert; [rewrite Hni; constructor|].
    eapply Forall_impl; [|exact Hit]. intros it (H1 & H2 & H3 & _) z. auto.
  - intros Hknown.
    eapply Forall_impl; [|exact (oc_product_rows _ _ _ _ Hcat)].
    intros p ((product & Hin & (_ & _ & _ & Hsup)) & _) s Hs.
    rewrite Hsup in Hs.
    destruct (Hknown product s Hin Hs) as (kv & Hkv & <-).
    apply (oc_suppliers_known _ _ _ _ Hcat). exact Hkv.
Qed.

Lemma legacy_generate_fk stores main_categories year_weights n en db en' :
  Legacy.generate_sqlite_database stores main_categories year_weights n en
  = Ok (db, en') ->
  fk_resolve db /\
  Forall (supplier_fk db) (db_products db) /\
  map order_id (db_orders db) = zrange 1 (List.length (db_orders db)).
Proof.
  intros Hrun.
  apply legacy_generate_stages in Hrun
    as (d1 & d2 & d3 & d4 & d5 & d6 & d7 & e4 & e6 & e7
        & H1 & H2 & H3 & H4 & H5 & H6 & H7 & H8).
  apply legacy_stores_stage_spec in H1 as (sobjs & -> & _).
  apply legacy_categories_stage_spec in H2 as (cobjs & ->).
  apply legacy_types_stage_spec in H3 as (tobjs & ->).
  apply legacy_customers_stage_spec in H4 as (custs & -> & Hcl).
  apply legacy_products_stage_spec in H5 as (pobjs & -> & _ & Hpr).
  apply legacy_embeddings_stage_spec in H6 as (embs & ->).
  apply legacy_inventory_stage_spec in H7 as (inv & -> & Hinv).
  apply legacy_orders_stage_spec in H8 as (orders & items & -> & Ho & Hit).
  unfold fk_resolve, product_fk, supplier_fk, inventory_fk, order_fk,
         order_item_fk, legacy_row_ok in *.
  cbn [db_stores db_categories db_product_types db_suppliers
       db_supplier_performance db_products db_customers db_inventory
       db_orders db_order_items db_product_description_embeddings
       set_stores set_categories set_product_types set_suppliers
       set_supplier_performance set_products set_customers set_inventory
       set_orders set_order_items set_product_description_embeddings
       empty_db app] in *.
  assert (Hcust : map customer_id (auto_insert [] custs) = zrange 1 n).
  { change (map customer_id (auto_insert [] custs))
      with (map pk (auto_insert [] custs)).
    rewrite (pks_of_fresh_table custs). unfold auto_insert. cbn [app].
    rewrite length_number_from, Hcl. reflexivity. }
  assert (Hoid : map order_id (auto_insert [] orders)
                 = zrange 1 (List.length (auto_insert [] orders)))
    by exact (pks_of_fresh_table orders).
  assert (Hlen : List.length (auto_insert [] orders) = List.length orders)
    by (unfold auto_insert; cbn [app]; apply length_number_from).
  split; [split; [|split; [|split]] | split].
  - apply Forall_auto_insert; [constructor|].
    eapply Forall_impl; [|exact Hpr]. intros p (_ & Hc & Ht) z. auto.
  - exact Hinv.
  - apply Forall_auto_insert; [constructor|].
    eapply Forall_impl; [|exact Ho]. intros o [Hc Hs] z.
    cbn [with_pk Order_Row order_customer_id order_store_id].
    split; [|exact Hs]. rewrite Hcust. apply In_zrange. lia.
  - apply Forall_auto_insert; [constructor|].
    eapply Forall_impl; [|exact Hit]. intros it (H1 & H2 & H3 & _) z.
    cbn [with_pk OrderItem_Row item_order_id item_store_id item_product_id].
    split; [|split; assumption].
    rewrite Hoid, Hlen. apply In_zrange. lia.
  - apply Forall_auto_insert; [constructor|].
    eapply Forall_impl; [|exact Hpr].
    intros p ((details & _ & (_ & _ & Hnone)) & _) z s Hs.
    cbn [with_pk Product_Row prod_supplier_id] in Hs. congruence.
  - exact Hoid.
Qed.

(** The claim fails on the supplier of a product: the catalogue may name a
    supplier that the supplier document does not have; the run completes
    and the product row keeps the dangling id. *)
Lemma product_supplier_may_dangle :
  exists db en' p,
    Orm.generate Demo.stores Demo.products_unknown_supplier Demo.supplier_data
      Demo.today Demo.month_start 2 2 Demo.entropy_a = Ok (db, en') /\
    In p (db_products db) /\
    prod_supplier_id p = Some 99 /\
    ~ In 99 (map supplier_id (db_suppliers db)).
Proof.
  eexists. eexists. eexists. split; [vm_compute; reflexivity|].
  split; [left; reflexivity|]. split; [reflexivity|].
  vm_compute. intros [H|[]]. discriminate H.
Qed.

(** C4, amended.  After a complete run of either generator on an empty
    storage artifact, every product refers to an existing category and
    product type, every inventory row to an existing store and product,
    every order to an existing customer and store, and every order line to
    an existing product, store and order; the orders table holds only the
    orders of the run, so the order of a line is one inserted by the run.
    The supplier of a product is copied from the catalogue unchecked: in the
    ORM variant it resolves provided every supplier id of the catalogue is
    an id of the supplier document; the legacy variant stores no supplier. *)
Theorem generated_foreign_keys_resolve :
  (forall stores products_list supplier_data today month_start n m en db en',
      Orm.generate stores products_list supplier_data today month_start n m en
      = Ok (db, en') ->
      fk_resolve db /\
      (catalogue_suppliers_known products_list supplier_data ->
       Forall (supplier_fk db) (db_products db))) /\
  (forall stores main_categories year_weights n en db en',
      Legacy.generate_sqlite_database stores main_categories year_weights n en
      = Ok (db, en') ->
      fk_resolve db /\ Forall (supplier_fk db) (db_products db)).
Proof.
  split.
  - intros. eapply orm_generate_fk. eassumption.
  - intros stores mc yw n en db en' Hrun.
    apply legacy_generate_fk in Hrun as (Hfk & Hs & _). auto.
Qed.

Lemma generated_foreign_keys_witness :
  match Orm.generate Demo.stores Demo.products_list Demo.supplier_data
          Demo.today Demo.month_start 2 2 Demo.entropy_a,
        Legacy.generate_sqlite_database Demo.legacy_stores
          Demo.main_categories Demo.year_weights 1 Demo.legacy_entropy with
  | Ok (db1, _), Ok (db2, _) =>
      (fk_resolve db1 /\ Forall (supplier_fk db1) (db_products db1)) /\
      (fk_resolve db2 /\ Forall (supplier_fk db2) (db_products db2)) /\
      List.length (db_orders db1) = 2%nat /\
      List.length (db_orders db2) = 1%nat
  | _, _ => False
  end.
Proof.
  destruct (Orm.generate Demo.stores Demo.products_list Demo.supplier_data
              Demo.today Demo.month_start 2 2 Demo.entropy_a)
    as [[db1 e1]|e] eqn:E1;
    [|vm_compute in E1; discriminate E1].
  destruct (Legacy.generate_sqlite_database Demo.legacy_stores
              Demo.main_categories Demo.year_weights 1 Demo.legacy_entropy)
    as [[db2 e2]|e] eqn:E2;
    [|vm_compute in E2; discriminate E2].
  destruct generated_foreign_keys_resolve as [Horm Hlegacy].
  split; [|split; [|split]].
  - destruct (Horm _ _ _ _ _ _ _ _ _ _ E1) as [Hfk Hsup].
    split; [exact Hfk|]. apply Hsup.
    intros product s Hin Hs. exists (1, {| Orm.se_supplier_id := 1;
                                           Orm.se_supplier_name := "Acme Tools";
                                           Orm.se_lead_time_days := 7 |}).
    split; [left; reflexivity|]. cbn [snd Orm.se_supplier_id].
    repeat (destruct Hin as [<-|Hin];
            [cbn in Hs; inversion Hs; reflexivity|]).
    destruct Hin.
  - exact (Hlegacy _ _ _ _ _ _ _ E2).
  - vm_compute in E1. inversion E1. reflexivity.
  - vm_compute in E2. inversion E2. reflexivity.
Defined.
(* ================================================================= *)
(** * Stores without a row-level-security user *)
(* ================================================================= *)


























(* ================================================================= *)
(** * The shape of the orders the ORM generator writes *)
(* ================================================================= *)

(** ** Rows grouped by the key of the object they were generated for *)

Section KeyedBlocks.
Context {A B : Type} (kx : A -> Z) (key : B -> Z) (lo hi : nat).

Let block_ok (x : A) (b : list B) : Prop :=
  (lo <= List.length b <= hi)%nat /\ Forall (fun y => key y = kx x) b.

Lemma foreign_keyed_blocks (z : Z) (xs : list A) (blocks : list (list B)) :
  ~ In z (map kx xs) ->
  Forall2 block_ok xs blocks ->
  filter (fun y => key y =? z) (List.concat blocks) = [].
Proof.
  intros Hz HF. induction HF as [|x b xs' bs [_ Hb] _ IH]; [reflexivity|].
  cbn [List.concat]. rewrite filter_app.
  rewrite IH by (intros Hin; apply Hz; right; exact Hin).
  rewrite List.app_nil_r. apply filter_none.
  eapply Forall_impl; [|exact Hb]. cbn beta. intros y Hy.
  apply Z.eqb_neq. intros Heq. apply Hz. left. congruence.
Qed.

Lemma keyed_blocks_count (xs : list A) (blocks : list (list B)) :
  NoDup (map kx xs) ->
  Forall2 block_ok xs blocks ->
  forall x, In x xs ->
    (lo <= List.length (filter (fun y => (key y =? kx x)%Z) (List.concat blocks))
     <= hi)%nat.
Proof.
  intros Hnd HF. induction HF as [|x0 b xs' bs [Hlen Hb] HF' IH];
    intros x Hin; [destruct Hin|].
  cbn [map] in Hnd. inversion Hnd as [|? ? Hnotin Hnd']; subst.
  cbn [List.concat]. rewrite filter_app. destruct Hin as [-> | Hin].
  - rewrite (foreign_keyed_blocks (kx x) xs' bs Hnotin HF').
    rewrite List.app_nil_r. rewrite filter_all; [exact Hlen|].
    eapply Forall_impl; [|exact Hb]. cbn beta. intros y Hy.
    apply Z.eqb_eq. exact Hy.
  - rewrite (filter_none (fun y => key y =? kx x) b).
    + cbn [app]. apply IH; assumption.
    + eapply Forall_impl; [|exact Hb]. cbn beta. intros y Hy.
      apply Z.eqb_neq. intros Heq. apply Hnotin.
      rewrite <- Hy, Heq. apply in_map. exact Hin.
Qed.

End KeyedBlocks.

Lemma filter_number_from_length {R} `{Row R} (f : R -> bool) (next : Z)
  (objs : list R) :
  (forall z r, f (with_pk z r) = f r) ->
  List.length (filter f (number_from next objs)) = List.length (filter f objs).
Proof.
  intros Hf. revert next. induction objs as [|o t IH]; intros next;
    [reflexivity|].
  cbn [number_from filter]. rewrite Hf.
  destruct (f o); cbn [List.length]; rewrite IH; reflexivity.
Qed.

(** ** [ORDER BY order_id DESC LIMIT n] *)

Lemma insert_desc_below (x : Z) (big rest : list Z) :
  Forall (fun y => x < y) big ->
  insert_desc x (big ++ rest) = big ++ insert_desc x rest.
Proof.
  induction 1 as [|y big' Hy _ IH]; [reflexivity|].
  cbn [app insert_desc].
  destruct (y <=? x) eqn:E; [apply Z.leb_le in E; lia|].
  rewrite IH. reflexivity.
Qed.

Lemma sort_desc_zrange (a : Z) (n : nat) :
  sort_desc (zrange a n) = rev (zrange a n).
Proof.
  revert a. induction n as [|n IH]; intros a; [reflexivity|].
  rewrite zrange_S. unfold sort_desc in *. cbn [fold_right rev].
  rewrite IH.
  rewrite <- (List.app_nil_r (rev (zrange (a + 1) n))) at 1.
  rewrite insert_desc_below; [reflexivity|].
  apply Forall_forall. intros y Hy. apply in_rev in Hy.
  apply In_zrange in Hy. lia.
Qed.

Lemma sort_desc_older_newer (old : list Z) (a : Z) (n : nat) :
  Forall (fun x => x < a) old ->
  exists rest, sort_desc (old ++ zrange a n) = rev (zrange a n) ++ rest.
Proof.
  intros Hold. unfold sort_desc. rewrite fold_right_app.
  fold (sort_desc (zrange a n)). rewrite sort_desc_zrange.
  induction Hold as [|x old' Hx _ IH].
  - exists []. cbn [fold_right]. rewrite List.app_nil_r. reflexivity.
  - destruct IH as (rest & IH). cbn [fold_right]. rewrite IH.
    exists (insert_desc x rest). apply insert_desc_below.
    apply Forall_forall. intros y Hy. apply in_rev in Hy.
    apply In_zrange in Hy. lia.
Qed.

(** The ids read back after the orders were written are those of the new
    orders, oldest first. *)
Lemma last_order_ids_are_the_new_orders (n : nat) (db : DB)
  (order_objects : list Order) :
  List.length order_objects = n ->
  Orm.last_order_ids n
    (set_orders (auto_insert (db_orders db) order_objects) db)
  = zrange (next_rowid (db_orders db)) n.
Proof.
  intros Hlen. unfold Orm.last_order_ids. cbn [db_orders set_orders].
  change (map order_id (auto_insert (db_orders db) order_objects))
    with (map pk (auto_insert (db_orders db) order_objects)).
  rewrite map_pk_auto_insert, Hlen.
  destruct (sort_desc_older_newer (map pk (db_orders db))
              (next_rowid (db_orders db)) n) as (rest & ->).
  - apply Forall_forall. intros z Hz. apply in_map_iff in Hz.
    destruct Hz as (r & <- & Hr). apply pk_lt_next_rowid. exact Hr.
  - rewrite firstn_app.
    rewrite firstn_all2 by (rewrite length_rev, zrange_length; lia).
    rewrite length_rev, zrange_length, Nat.sub_diag. cbn [firstn].
    rewrite List.app_nil_r. apply rev_involutive.
Qed.

(** ** One order line, one order *)

Definition orm_line_ok (db : DB) (it : OrderItem) : Prop :=
  1 <= quantity it <= 10 /\
  In (discount_percent it) [0; 5; 10; 15] /\
  exists p, In p (db_products db) /\ product_id p = item_product_id it /\
            base_price p = unit_price it.

Lemma orm_order_item_object_shape db oid sid en it en' :
  Orm.order_item_object
    (map (fun p => (product_id p, base_price p)) (db_products db)) oid sid en
  = Ok (it, en') ->
  item_order_id it = oid /\ orm_line_ok db it.
Proof.
  unfold Orm.order_item_object. intros Hrun. repeat monad_inv Hrun. subst it.
  apply choice_In in Hstep. apply randint_range in Hstep0.
  apply choice_In in Hstep1.
  unfold orm_line_ok.
  cbn [item_order_id item_product_id quantity unit_price discount_percent].
  split; [reflexivity|]. split; [exact Hstep0|]. split.
  - cbn [In] in Hstep1 |- *. intuition auto.
  - apply in_map_iff in Hstep. destruct Hstep as (p & Hp & Hin).
    exists p. subst v. cbn [fst snd]. auto.
Qed.

Lemma orm_line_ok_with_pk db z it : orm_line_ok db it -> orm_line_ok db (with_pk z it).
Proof. exact (fun H => H). Qed.

Definition recent_date (today : Z) (o : Order) : Prop :=
  exists d, 0 <= d <= 730 /\ order_date o = Ordinal (today - d).

(** The order lines of an order. *)
Definition lines_of (db : DB) (o : Order) : list OrderItem :=
  filter (fun it => item_order_id it =? order_id o) (db_order_items db).

(** X2.  On a database without orders, the ORM orders stage writes exactly
    the requested number of orders, numbered from 1 and dated within the
    last 730 days; every order gets between one and five order lines; every
    line has a quantity between 1 and 10, a discount of 0, 5, 10 or 15 per
    cent, and the base price of its product as unit price. *)
Theorem orm_orders_stage_shape today n db en db' en' :
  db_orders db = [] -> db_order_items db = [] ->
  Orm.insert_orders_and_items today n db en = Ok (db', en') ->
  map order_id (db_orders db') = zrange 1 n /\
  Forall (recent_date today) (db_orders db') /\
  (forall o, In o (db_orders db') ->
             (1 <= List.length (lines_of db' o) <= 5)%nat) /\
  Forall (orm_line_ok db') (db_order_items db').
Proof.
  intros Hno Hni. unfold Orm.insert_orders_and_items. intros Hrun.
  destruct (map customer_id (db_customers db)) as [|c0 cs] eqn:Ec;
    [discriminate|].
  rewrite <- Ec in Hrun. clear Ec.
  monad_inv Hrun. monad_inv Hrun. monad_inv Hrun. subst db'.
  rename v into orders, v0 into per_order.
  assert (Horders : Forall (recent_date today) orders /\ List.length orders = n).
  { refine (replicateM_Gen_Forall _ _ _ n _ _ _ Hstep).
    intros e1 o e2 Ho. unfold Orm.order_object in Ho. repeat monad_inv Ho.
    subst o. apply randint_range in Hstep3.
    exists v1. split; [exact Hstep3 | reflexivity]. }
  destruct Horders as [Hdates Hlen].
  rewrite (last_order_ids_are_the_new_orders n db orders Hlen) in Hstep0.
  rewrite Hno in Hstep0 |- *.
  change (next_rowid (@nil Order)) with 1 in Hstep0.
  cbn [db_orders db_order_items set_orders set_order_items db_products].
  rewrite Hni.
  assert (Hblocks :
    Forall2 (fun oid its =>
               (1 <= List.length its <= 5)%nat /\
               Forall (fun it => item_order_id it = oid /\ orm_line_ok db it) its)
            (zrange 1 n) per_order).
  { eapply mapM_Gen_Forall2; [|exact Hstep0].
    intros oid e1 its e2 _ Hits. cbn beta.
    unfold Orm.order_items_of in Hits. monad_inv Hits. monad_inv Hits.
    apply randint_range in Hstep2.
    destruct (replicateM_Gen_Forall _
                (fun it => item_order_id it = oid /\ orm_line_ok db it)
                (fun e3 it e4 Hit => orm_order_item_object_shape db oid v _ _ _ Hit)
                (Z.to_nat v0) _ _ _ Hits) as [Hall Hl].
    split; [lia | exact Hall]. }
  assert (Hids : map order_id (auto_insert [] orders) = zrange 1 n).
  { change (map order_id (auto_insert [] orders))
      with (map pk (auto_insert (@nil Order) orders)).
    rewrite map_pk_auto_insert, Hlen. reflexivity. }
  split; [exact Hids|]. split; [|split].
  - apply Forall_auto_insert; [constructor|].
    eapply Forall_impl; [|exact Hdates]. intros o Ho z. exact Ho.
  - intros o Ho. unfold lines_of. cbn [db_order_items set_order_items].
    unfold auto_insert. cbn [app].
    rewrite !filter_number_from_length by reflexivity.
    assert (Hin : In (order_id o) (zrange 1 n)).
    { rewrite <- Hids. apply in_map. exact Ho. }
    refine (keyed_blocks_count (fun z : Z => z) item_order_id 1 5
              (zrange 1 n) per_order _ _ (order_id o) Hin).
    + rewrite map_id. apply NoDup_zrange.
    + eapply Forall2_impl; [|exact Hblocks]. cbn beta.
      intros oid its [Hl Hall]. split; [exact Hl|].
      eapply Forall_impl; [|exact Hall]. intros it [H1 _]. exact H1.
  - apply Forall_auto_insert; [constructor|].
    apply Forall_concat.
    eapply Forall2_Forall_r; [exact Hblocks|]. cbn beta.
    intros oid its _ [_ Hall].
    eapply Forall_impl; [|exact Hall]. intros it [_ Hok] z. exact Hok.
Qed.

Lemma orm_orders_stage_shape_witness :
  match Orm.generate Demo.stores Demo.products_list Demo.supplier_data
          Demo.today Demo.month_start 2 2 Demo.entropy_a with
  | Ok (db', _) =>
      map order_id (db_orders db') = zrange 1 2 /\
      Forall (recent_date Demo.today) (db_orders db') /\
      (forall o, In o (db_orders db') ->
                 (1 <= List.length (lines_of db' o) <= 5)%nat) /\
      Forall (orm_line_ok db') (db_order_items db')
  | Raise _ => False
  end.
Proof.
  destruct (Orm.generate Demo.stores Demo.products_list Demo.supplier_data
              Demo.today Demo.month_start 2 2 Demo.entropy_a)
    as [[db' e']|e] eqn:E; [|vm_compute in E; discriminate E].
  destruct (orm_generate_split _ _ _ _ _ _ _ _ _ _ E) as (d & e1 & E1 & E2).
  destruct (orm_generate_inventory_catalogue _ _ _ _ _ _ _ _ E1) as [Hcat _].
  destruct (oc_no_orders _ _ _ _ Hcat) as [Hno Hni].
  exact (orm_orders_stage_shape _ _ _ _ _ _ Hno Hni E2).
Defined.
(* ================================================================= *)
(** * The shape of the orders the legacy generator writes *)
(* ================================================================= *)

(** A loop invariant that may mention the part of the list already
    traversed. *)
Lemma foldM_Gen_prefix {A B} (f : B -> A -> Gen B) (Inv : list A -> B -> Prop) :
  (forall pre s a en s' en',
      Inv pre s -> f s a en = Ok (s', en') -> Inv (pre ++ [a]) s') ->
  forall xs pre s en s' en',
    Inv pre s -> foldM f s xs en = Ok (s', en') -> Inv (pre ++ xs) s'.
Proof.
  intros Hstep. induction xs as [|x t IH]; intros pre s en s' en' Hinv Hrun.
  - cbn [foldM] in Hrun. apply ret_Gen_inv in Hrun. destruct Hrun as [-> _].
    rewrite List.app_nil_r. exact Hinv.
  - monad_inv Hrun.
    replace (pre ++ x :: t) with ((pre ++ [x]) ++ t)
      by (rewrite <- app_assoc; reflexivity).
    eapply IH; [|exact Hrun]. eapply Hstep; eassumption.
Qed.

Lemma zrange_snoc (a : Z) (n : nat) :
  zrange a (S n) = zrange a n ++ [a + Z.of_nat n].
Proof.
  unfold zrange. rewrite seq_S, map_app. reflexivity.
Qed.

Lemma combine_snoc {A B} (xs : list A) (ys : list B) (x : A) (y : B) :
  List.length xs = List.length ys ->
  combine (xs ++ [x]) (ys ++ [y]) = combine xs ys ++ [(x, y)].
Proof.
  revert ys. induction xs as [|a t IH]; intros [|b u] Hlen;
    try discriminate Hlen; [reflexivity|].
  cbn [app combine]. rewrite IH by (injection Hlen; auto). reflexivity.
Qed.

(** The rows of a fresh table, as the objects paired with their rowids. *)
Lemma number_from_combine {R} `{Row R} (next : Z) (objs : list R) :
  number_from next objs
  = map (fun oz => with_pk (snd oz) (fst oz))
        (combine objs (zrange next (List.length objs))).
Proof.
  revert next. induction objs as [|o t IH]; intros next; [reflexivity|].
  cbn [number_from List.length]. rewrite zrange_S. cbn [combine map fst snd].
  rewrite IH. reflexivity.
Qed.

Lemma map_snd_combine {A B} (xs : list A) (ys : list B) :
  List.length xs = List.length ys -> map snd (combine xs ys) = ys.
Proof.
  revert ys. induction xs as [|a t IH]; intros [|b u] Hlen;
    try discriminate Hlen; [reflexivity|].
  cbn [combine map snd]. rewrite IH by (injection Hlen; auto). reflexivity.
Qed.

(** ** One order line, one order *)

Definition legacy_line_ok (it : OrderItem) : Prop :=
  1 <= quantity it <= 5 /\ In (discount_percent it) [0; 5; 10; 15; 20; 25].

Definition legacy_order_ok (o : Order) : Prop :=
  exists year month day,
    order_date o = Ymd year month day /\
    2020 <= year <= 2026 /\ 1 <= month <= 12 /\ 1 <= day <= 28.

Lemma legacy_order_item_tuple_shape product_prices oid sid en it en' :
  Legacy.order_item_tuple product_prices oid sid en = Ok (it, en') ->
  item_order_id it = oid /\ item_store_id it = sid /\ legacy_line_ok it.
Proof.
  unfold Legacy.order_item_tuple. intros Hrun. monad_inv Hrun.
  destruct (dict_get Z.eqb product_prices v) as [base_price|]; [|discriminate].
  monad_inv Hrun. apply choices_In in Hstep0.
  assert (Hq : 1 <= v0 <= 5) by (cbn [In] in Hstep0; lia).
  repeat monad_inv Hrun.
  destruct (v2 <? 0.15)%float.
  - repeat monad_inv Hrun. subst it. apply choice_In in Hstep3.
    unfold legacy_line_ok.
    cbn [item_order_id item_store_id quantity discount_percent].
    repeat split; try lia. cbn [In] in Hstep3 |- *. intuition auto.
  - repeat monad_inv Hrun. subst it. unfold legacy_line_ok.
    cbn [item_order_id item_store_id quantity discount_percent].
    repeat split; try lia. left. reflexivity.
Qed.

(** The order lines gathered so far, order by order. *)
Definition legacy_block_ok (oz : Order * Z) (b : list OrderItem) : Prop :=
  (1 <= List.length b <= 5)%nat /\
  Forall (fun it => item_order_id it = snd oz /\
                    item_store_id it = order_store_id (fst oz) /\
                    legacy_line_ok it) b.

Definition orders_shape (st : Legacy.OrdersState) : Prop :=
  Legacy.next_order_id st = 1 + Z.of_nat (List.length (Legacy.orders_data st)) /\
  Forall legacy_order_ok (Legacy.orders_data st) /\
  exists blocks,
    Legacy.order_items_data st = List.concat blocks /\
    Forall2 legacy_block_ok
      (combine (Legacy.orders_data st)
               (zrange 1 (List.length (Legacy.orders_data st))))
      blocks.

Lemma Forall2_snoc {A B} (P : A -> B -> Prop) xs ys x y :
  Forall2 P xs ys -> P x y -> Forall2 P (xs ++ [x]) (ys ++ [y]).
Proof.
  intros HF Hxy. apply Forall2_app; [exact HF|]. constructor; [exact Hxy|constructor].
Qed.

Lemma concat_snoc {A} (ls : list (list A)) (l : list A) :
  List.concat (ls ++ [l]) = List.concat ls ++ l.
Proof. rewrite concat_app. cbn [List.concat]. rewrite List.app_nil_r. reflexivity. Qed.

Lemma one_order_shape stores yw db prices customer_id st k en st' en' :
  orders_shape st ->
  Legacy.one_order stores yw db prices customer_id st k en = Ok (st', en') ->
  orders_shape st' /\
  exists o, Legacy.orders_data st' = Legacy.orders_data st ++ [o] /\
            order_customer_id o = customer_id.
Proof.
  intros (Hnext & Hord & blocks & Hitems & Hblocks) Hrun.
  unfold Legacy.one_order in Hrun. monad_inv Hrun.
  destruct (Legacy.find_store_id (Legacy.store_rows db) v) as [sid|];
    [|discriminate].
  repeat monad_inv Hrun. subst st'.
  unfold Legacy.weighted_year_choice in Hstep0.
  apply choices_In in Hstep0. apply randint_range in Hstep1.
  apply randint_range in Hstep2. apply choices_In in Hstep3.
  destruct (replicateM_Gen_Forall _
              (fun it => item_order_id it = Legacy.next_order_id st /\
                         item_store_id it = sid /\ legacy_line_ok it)
              (fun e1 it e2 Hit =>
                 legacy_order_item_tuple_shape prices _ sid _ _ _ Hit)
              v3 _ _ _ Hstep4) as [Hall Hlen].
  cbn [Legacy.next_order_id Legacy.orders_data Legacy.order_items_data].
  split.
  - unfold orders_shape.
    cbn [Legacy.next_order_id Legacy.orders_data Legacy.order_items_data].
    split; [rewrite length_app; cbn [List.length]; lia|]. split.
    + apply Forall_app. split; [exact Hord|]. constructor; [|constructor].
      exists v0, v1, v2. cbn [order_date]. cbn [In] in Hstep0.
      repeat split; lia.
    + exists (blocks ++ [v4]). split.
      * rewrite concat_snoc, Hitems. reflexivity.
      * rewrite length_app. cbn [List.length]. rewrite Nat.add_1_r.
        rewrite zrange_snoc.
        rewrite combine_snoc by (rewrite zrange_length; reflexivity).
        apply Forall2_snoc; [exact Hblocks|].
        unfold legacy_block_ok. cbn [fst snd order_store_id]. split.
        -- rewrite Hlen. cbn [In] in Hstep3. lia.
        -- eapply Forall_impl; [|exact Hall]. cbn beta.
           intros it (H1 & H2 & H3). rewrite H1, Hnext. auto.
  - eexists. split; [reflexivity|]. reflexivity.
Qed.

(** The orders of one customer. *)
Lemma customer_orders_shape stores yw db prices st customer_id en st' en' :
  orders_shape st ->
  Legacy.customer_orders stores yw db prices st customer_id en = Ok (st', en') ->
  orders_shape st' /\
  exists new, Legacy.orders_data st' = Legacy.orders_data st ++ new /\
              (List.length new <= 5)%nat /\
              Forall (fun o => order_customer_id o = customer_id) new.
Proof.
  intros Hshape Hrun. unfold Legacy.customer_orders in Hrun. monad_inv Hrun.
  apply choices_In in Hstep.
  assert (Hv : (v <= 5)%nat) by (cbn [In] in Hstep; lia).
  assert (Hinv :
    orders_shape st' /\
    exists new, Legacy.orders_data st' = Legacy.orders_data st ++ new /\
                List.length new = List.length ([] ++ seq 0 v) /\
                Forall (fun o => order_customer_id o = customer_id) new).
  { refine (foldM_Gen_prefix _
              (fun pre s =>
                 orders_shape s /\
                 exists new,
                   Legacy.orders_data s = Legacy.orders_data st ++ new /\
                   List.length new = List.length pre /\
                   Forall (fun o => order_customer_id o = customer_id) new)
              _ (seq 0 v) [] st _ _ _ _ Hrun).
    - intros pre s a e1 s' e2 (Hs & new & Hnew & Hlen & Hall) Hone.
      destruct (one_order_shape _ _ _ _ _ _ _ _ _ _ Hs Hone)
        as (Hs' & o & Ho & Hc).
      split; [exact Hs'|]. exists (new ++ [o]). split.
      + rewrite Ho, Hnew, <- app_assoc. reflexivity.
      + split; [rewrite !length_app, Hlen; reflexivity|].
        apply Forall_app. split; [exact Hall|]. constructor; [exact Hc|constructor].
    - split; [exact Hshape|]. exists []. rewrite List.app_nil_r.
      repeat split. constructor. }
  destruct Hinv as (Hs' & new & Hnew & Hlen & Hall).
  split; [exact Hs'|]. exists new. split; [exact Hnew|]. split; [|exact Hall].
  rewrite Hlen. cbn [app]. rewrite length_seq. exact Hv.
Qed.

(** The orders stage on tables that never held a row: the ids that the
    engine gives to the orders are then the values of the local [order_id],
    which counts from 1. *)
Lemma legacy_orders_on_new_tables stores year_weights n db en db' en' :
  db_orders db = [] -> db_order_items db = [] ->
  Legacy.insert_orders stores year_weights n db en = Ok (db', en') ->
  map order_id (db_orders db') = zrange 1 (List.length (db_orders db')) /\
  Forall legacy_order_ok (db_orders db') /\
  (forall c,
      (List.length (filter (fun o => (order_customer_id o =? c)%Z) (db_orders db'))
       <= 5)%nat) /\
  (forall o, In o (db_orders db') ->
             (1 <= List.length (lines_of db' o) <= 5)%nat /\
             Forall (fun it => item_store_id it = order_store_id o)
                    (lines_of db' o)) /\
  Forall legacy_line_ok (db_order_items db').
Proof.
  intros Hno Hni. unfold Legacy.insert_orders. intros Hrun.
  monad_inv Hrun. monad_inv Hrun. subst db'. rename v into st.
  cbn [db_orders db_order_items set_orders set_order_items].
  rewrite Hno, Hni.
  assert (Hinv :
    orders_shape st /\
    exists cblocks,
      Legacy.orders_data st = List.concat cblocks /\
      Forall2 (fun c b => (0 <= List.length b <= 5)%nat /\
                          Forall (fun o => order_customer_id o = c) b)
              ([] ++ zrange 1 n) cblocks).
  { refine (foldM_Gen_prefix _
              (fun pre s =>
                 orders_shape s /\
                 exists cblocks,
                   Legacy.orders_data s = List.concat cblocks /\
                   Forall2 (fun c b =>
                              (0 <= List.length b <= 5)%nat /\
                              Forall (fun o => order_customer_id o = c) b)
                           pre cblocks)
              _ (zrange 1 n) [] _ _ _ _ _ Hstep).
    - intros pre s c e1 s' e2 (Hs & cblocks & Hcat & HF) Hcust.
      destruct (customer_orders_shape _ _ _ _ _ _ _ _ _ Hs Hcust)
        as (Hs' & new & Hnew & Hlen & Hall).
      split; [exact Hs'|]. exists (cblocks ++ [new]). split.
      + rewrite concat_snoc, Hnew, Hcat. reflexivity.
      + apply Forall2_snoc; [exact HF|]. split; [lia | exact Hall].
    - split.
      + unfold orders_shape. cbn. repeat split; try constructor.
        exists []. split; [reflexivity | constructor].
      + exists []. split; [reflexivity | constructor]. }
  cbn [app] in Hinv.
  destruct Hinv as ((Hnext & Hord & blocks & Hitems & Hblocks)
                    & cblocks & Hcat & Hcblocks).
  set (orders := Legacy.orders_data st) in *.
  set (items := Legacy.order_items_data st) in *.
  assert (Hpairs : NoDup (map snd (combine orders (zrange 1 (List.length orders))))).
  { rewrite map_snd_combine by (rewrite zrange_length; reflexivity).
    apply NoDup_zrange. }
  split; [|split; [|split; [|split]]].
  - change (map order_id (auto_insert [] orders))
      with (map pk (auto_insert (@nil Order) orders)).
    rewrite map_pk_auto_insert. unfold auto_insert. cbn [app map].
    rewrite length_number_from. reflexivity.
  - apply Forall_auto_insert; [constructor|].
    eapply Forall_impl; [|exact Hord]. intros o Ho z. exact Ho.
  - intros c. unfold auto_insert. cbn [app].
    rewrite filter_number_from_length by reflexivity.
    rewrite Hcat.
    destruct (in_dec Z.eq_dec c (zrange 1 n)) as [Hin | Hout].
    + refine (proj2 (keyed_blocks_count (fun z : Z => z) order_customer_id 0 5
                       (zrange 1 n) cblocks _ Hcblocks c Hin)).
      rewrite map_id. apply NoDup_zrange.
    + rewrite (foreign_keyed_blocks (fun z : Z => z) order_customer_id 0 5
                 c (zrange 1 n) cblocks); [cbn; lia | | exact Hcblocks].
      rewrite map_id. exact Hout.
  - intros o Ho. unfold auto_insert in Ho. cbn [app] in Ho.
    rewrite number_from_combine in Ho. apply in_map_iff in Ho.
    destruct Ho as ([o0 z] & <- & Hoz). cbn [fst snd].
    unfold lines_of. cbn [db_order_items set_order_items].
    unfold auto_insert. cbn [app].
    change (order_id (with_pk z o0)) with z.
    change (order_store_id (with_pk z o0)) with (order_store_id o0).
    split.
    + rewrite !filter_number_from_length by reflexivity.
      rewrite Hitems.
      refine (keyed_blocks_count snd item_order_id 1 5 _ blocks Hpairs _
                (o0, z) Hoz).
      eapply Forall2_impl; [|exact Hblocks]. cbn beta.
      intros oz b [Hl Hall]. split; [exact Hl|].
      eapply Forall_impl; [|exact Hall]. intros it (H1 & _). exact H1.
    + apply Forall_forall. intros it Hit. apply filter_In in Hit.
      destruct Hit as [Hit Hkey]. apply Z.eqb_eq in Hkey.
      apply In_number_from in Hit. destruct Hit as (it0 & z0 & Hit0 & ->).
      change (item_store_id (with_pk z0 it0)) with (item_store_id it0).
      change (item_order_id (with_pk z0 it0)) with (item_order_id it0) in Hkey.
      rewrite Hitems in Hit0. apply in_concat in Hit0.
      destruct Hit0 as (b & Hb & Hinb).
      destruct (Forall2_In_right _ _ _ _ Hblocks Hb) as (oz & Hoz' & _ & Hall).
      rewrite Forall_forall in Hall. destruct (Hall _ Hinb) as (H1 & H2 & _).
      assert (oz = (o0, z)).
      { apply (NoDup_map_inj snd _ _ _ Hpairs Hoz' Hoz). cbn [snd]. congruence. }
      subst oz. exact H2.
  - apply Forall_auto_insert; [constructor|]. rewrite Hitems.
    apply Forall_concat.
    eapply Forall2_Forall_r; [exact Hblocks|]. cbn beta.
    intros oz b _ [_ Hall].
    eapply Forall_impl; [|exact Hall]. intros it (_ & _ & Hok) z. exact Hok.
Qed.

(** X3.  In a run of the legacy generator, which starts from a new
    database file, the orders stage numbers the orders from 1 without gaps
    and dates each of them on a day 1..28 of a month 1..12 of a year
    2020..2026; no customer gets more than five orders; every order has
    between one and five order lines, each carrying the store of its order;
    every line has a quantity in 1..5 and a discount of 0, 5, 10, 15, 20 or
    25 per cent. *)
Theorem legacy_orders_stage_shape
  stores main_categories year_weights n en db' en' :
  Legacy.generate_sqlite_database stores main_categories year_weights n en
  = Ok (db', en') ->
  map order_id (db_orders db') = zrange 1 (List.length (db_orders db')) /\
  Forall legacy_order_ok (db_orders db') /\
  (forall c,
      (List.length (filter (fun o => (order_customer_id o =? c)%Z) (db_orders db'))
       <= 5)%nat) /\
  (forall o, In o (db_orders db') ->
             (1 <= List.length (lines_of db' o) <= 5)%nat /\
             Forall (fun it => item_store_id it = order_store_id o)
                    (lines_of db' o)) /\
  Forall legacy_line_ok (db_order_items db').
Proof.
  intros Hrun.
  destruct (legacy_generate_stages _ _ _ _ _ _ _ Hrun)
    as (db1 & db2 & db3 & db4 & db5 & db6 & db7 & e4 & e6 & e7
        & H1 & H2 & H3 & H4 & H5 & H6 & H7 & H8).
  apply legacy_stores_stage_spec in H1. destruct H1 as (o1 & -> & _).
  apply legacy_categories_stage_spec in H2. destruct H2 as (o2 & ->).
  apply legacy_types_stage_spec in H3. destruct H3 as (o3 & ->).
  apply legacy_customers_stage_spec in H4. destruct H4 as (o4 & -> & _).
  apply legacy_products_stage_spec in H5. destruct H5 as (o5 & -> & _ & _).
  apply legacy_embeddings_stage_spec in H6. destruct H6 as (o6 & ->).
  apply legacy_inventory_stage_spec in H7. destruct H7 as (o7 & -> & _).
  eapply legacy_orders_on_new_tables; [| |exact H8]; reflexivity.
Qed.

Lemma legacy_orders_stage_shape_witness :
  match Legacy.generate_sqlite_database Demo.legacy_stores Demo.main_categories
          Demo.year_weights 1 Demo.legacy_entropy with
  | Ok (db', _) =>
      map order_id (db_orders db') = [1] /\
      map order_id (db_orders db') = zrange 1 (List.length (db_orders db')) /\
      Forall legacy_order_ok (db_orders db') /\
      (forall c,
          (List.length (filter (fun o => (order_customer_id o =? c)%Z)
                               (db_orders db')) <= 5)%nat) /\
      (forall o, In o (db_orders db') ->
                 (1 <= List.length (lines_of db' o) <= 5)%nat /\
                 Forall (fun it => item_store_id it = order_store_id o)
                        (lines_of db' o)) /\
      Forall legacy_line_ok (db_order_items db')
  | Raise _ => False
  end.
Proof.
  destruct (Legacy.generate_sqlite_database Demo.legacy_stores
              Demo.main_categories Demo.year_weights 1 Demo.legacy_entropy)
    as [[db' e']|e] eqn:E; [|vm_compute in E; discriminate E].
  split; [vm_compute in E; inversion E; reflexivity|].
  eapply legacy_orders_stage_shape. exact E.
Defined.
(* ================================================================= *)
(** * The legacy inventory: every product in every store *)
(* ================================================================= *)

Definition inventory_key (i : Inventory) : Z * Z :=
  (inv_store_id i, inv_product_id i).

Lemma list_prod_concat {A B} (xs : list A) (ys : list B) :
  list_prod xs ys = List.concat (map (fun x => map (pair x) ys) xs).
Proof.
  induction xs as [|x t IH]; [reflexivity|].
  cbn [list_prod map List.concat]. rewrite IH. reflexivity.
Qed.

Lemma Forall2_concat_map {A B C} (f : B -> C) (g : A -> list C) xs
  (blocks : list (list B)) :
  Forall2 (fun x b => map f b = g x) xs blocks ->
  map f (List.concat blocks) = List.concat (map g xs).
Proof.
  induction 1 as [|x b xs' bs Hb _ IH]; [reflexivity|].
  cbn [List.concat map]. rewrite map_app, Hb, IH. reflexivity.
Qed.

Lemma list_prod_Permutation {A B} (xs xs' : list A) (ys ys' : list B) :
  Permutation xs xs' -> Permutation ys ys' ->
  Permutation (list_prod xs ys) (list_prod xs' ys').
Proof.
  intros Hx Hy.
  apply Permutation_trans with (list_prod xs ys').
  - clear Hx. induction xs as [|x t IH]; [apply Permutation_refl|].
    cbn [list_prod]. apply Permutation_app; [|exact IH].
    apply Permutation_map. exact Hy.
  - clear Hy. induction Hx as [|x l l' _ IH|x y l|l l' l'' _ IH1 _ IH2];
      cbn [list_prod].
    + apply Permutation_refl.
    + apply Permutation_app_head. exact IH.
    + rewrite !app_assoc. apply Permutation_app_tail, Permutation_app_comm.
    + eapply Permutation_trans; eassumption.
Qed.

(** X4.  The legacy inventory stage, run on an empty inventory, stocks every
    product in every store.  It walks the stores and, for each store, the
    products in the order in which the engine returned their ids, so the
    (store, product) keys of its rows are the cross product of these two
    lists, store by store: a rearrangement of the cross product of the
    store ids and the product ids of the tables, each pair once.  There
    are as many rows as stores times products, and every stock level lies
    between 10 and 200. *)
Theorem legacy_inventory_is_the_cross_product db en db' en' :
  db_inventory db = [] ->
  Legacy.insert_inventory db en = Ok (db', en') ->
  exists store_ids product_ids,
    Permutation store_ids (map store_id (db_stores db)) /\
    Permutation product_ids (map product_id (db_products db)) /\
    map inventory_key (db_inventory db') = list_prod store_ids product_ids /\
    Permutation (map inventory_key (db_inventory db'))
                (list_prod (map store_id (db_stores db))
                           (map product_id (db_products db))) /\
    List.length (db_inventory db')
    = (List.length (db_stores db) * List.length (db_products db))%nat /\
    Forall (fun i => 10 <= stock_level i <= 200) (db_inventory db').
Proof.
  intros Hempty.
  unfold Legacy.insert_inventory, Legacy.insert_inventory_rows. intros Hrun.
  monad_inv Hrun. rename v into store_ids, Hstep into Hs.
  monad_inv Hrun. rename v into product_ids, Hstep into Hp.
  apply fetchall_inv in Hs as (Hs & _). apply fetchall_inv in Hp as (Hp & _).
  monad_inv Hrun. monad_inv Hrun. subst en'.
  monad_inv Hstep0. monad_inv Hstep0. subst db'.
  apply (checked_inv _ (pair_eqb_eq _ _ Z.eqb_eq Z.eqb_eq)) in Hstep1 as [-> _].
  cbn [db_inventory set_inventory]. rewrite Hempty. cbn [app].
  assert (Hblocks :
    Forall2 (fun sid rows =>
               map inventory_key rows = map (pair sid) product_ids /\
               Forall (fun i => 10 <= stock_level i <= 200) rows)
            store_ids v).
  { eapply mapM_Gen_Forall2; [|exact Hstep].
    intros sid e1 rows e2 _ Hrows. cbn beta.
    assert (Hrow :
      Forall2 (fun pid i => inventory_key i = (sid, pid) /\
                            10 <= stock_level i <= 200)
              product_ids rows).
    { eapply mapM_Gen_Forall2; [|exact Hrows].
      intros pid e3 i e4 _ Hi. cbn beta in Hi.
      monad_inv Hi. monad_inv Hi. subst i. apply randint_range in Hstep0.
      split; [reflexivity | exact Hstep0]. }
    split.
    - apply (Forall2_map_eq inventory_key (pair sid)).
      eapply Forall2_impl; [|exact Hrow]. cbn beta. intros pid i [H _]. exact H.
    - eapply Forall2_Forall_r; [exact Hrow|]. cbn beta.
      intros pid i _ [_ H]. exact H. }
  assert (Hkeys :
    map inventory_key (List.concat v) = list_prod store_ids product_ids).
  { rewrite list_prod_concat. apply Forall2_concat_map.
    eapply Forall2_impl; [|exact Hblocks]. cbn beta.
    intros sid rows [H _]. exact H. }
  exists store_ids, product_ids.
  split; [exact Hs|]. split; [exact Hp|]. split; [exact Hkeys|].
  split; [|split].
  - rewrite Hkeys. apply list_prod_Permutation; assumption.
  - rewrite <- (length_map inventory_key), Hkeys, length_prod.
    rewrite (Permutation_length Hs), (Permutation_length Hp), !length_map.
    reflexivity.
  - apply Forall_concat. eapply Forall2_Forall_r; [exact Hblocks|].
    cbn beta. intros sid rows _ [_ H]. exact H.
Qed.

Definition stocked_db : DB :=
  set_products
    [ {| product_id := 1; sku := "HT-001"; product_name := "Claw Hammer";
         prod_category_id := 1; prod_type_id := 1; prod_supplier_id := None;
         cost := 6.69; base_price := 9.99;
         product_description := "Claw Hammer";
         procurement_lead_time_days := None |};
      {| product_id := 2; sku := "HT-002"; product_name := "Mallet";
         prod_category_id := 1; prod_type_id := 1; prod_supplier_id := None;
         cost := 9.72; base_price := 14.5;
         product_description := "Mallet";
         procurement_lead_time_days := None |} ]
    two_stores_db.

(** The engine returns the store ids in the order of the store names (Zava
    Online before Zava Seattle) and the product ids in the order of the
    table. *)
Definition index_order_entropy : Entropy :=
  {| rand_tape := rand_tape Demo.entropy_a;
     faker_tape := faker_tape Demo.entropy_a;
     scan_tape := [[1%nat]; []]; clock_tape := [] |}.

Lemma legacy_inventory_witness :
  match Legacy.insert_inventory stocked_db index_order_entropy with
  | Ok (db', _) =>
      map inventory_key (db_inventory db') = [(2, 1); (2, 2); (1, 1); (1, 2)] /\
      List.length (db_inventory db') = 4%nat /\
      Forall (fun i => 10 <= stock_level i <= 200) (db_inventory db')
  | Raise _ => False
  end.
Proof.
  destruct (Legacy.insert_inventory stocked_db index_order_entropy)
    as [[db' e']|e] eqn:E; [|vm_compute in E; discriminate E].
  destruct (@legacy_inventory_is_the_cross_product stocked_db _ _ _ eq_refl E)
    as (store_ids & product_ids & _ & _ & _ & _ & Hlen & Hlevels).
  split; [vm_compute in E; inversion E; reflexivity|].
  split; [exact Hlen | exact Hlevels].
Defined.
(* ================================================================= *)
(** * Stock levels of the ORM inventory *)
(* ================================================================= *)

(** [product.get("stock_level", 25)]. *)
Definition stock_hint (product : Orm.CatalogProduct) : Z :=
  match Orm.cp_stock_level product with
  | Some s => s
  | None => 25
  end.

Lemma sku_to_stock_level_keys products_list :
  map fst (Orm.sku_to_stock_level products_list) = map Orm.cp_sku products_list.
Proof.
  unfold Orm.sku_to_stock_level. rewrite map_map. reflexivity.
Qed.

(** X5.  After the inventory stage of a run of the ORM generator, every
    inventory row carries the stock level that the catalogue gives for the
    SKU of its product, and 25 when the catalogue entry has no
    [stock_level]; no stock level is drawn at random. *)
Theorem orm_stock_level_is_the_catalogue_hint
  stores products_list supplier_data month_start n en d en' (i : Inventory) :
  Orm.generate_inventory stores products_list supplier_data month_start n en
  = Ok (d, en') ->
  In i (db_inventory d) ->
  exists p product,
    In p (db_products d) /\ product_id p = inv_product_id i /\
    In product products_list /\ Orm.cp_sku product = sku p /\
    stock_level i = stock_hint product.
Proof.
  intros Hrun Hi.
  pose proof (orm_generate_inventory_skus _ _ _ _ _ _ _ _ Hrun) as Hskus.
  destruct (orm_generate_inventory_catalogue _ _ _ _ _ _ _ _ Hrun) as [Hcat _].
  rewrite (oc_inventory _ _ _ _ Hcat) in Hi.
  apply In_inventory_objects in Hi.
  destruct Hi as (kv & x & _ & _ & _ & Hp & Hstock).
  apply oc_product_found in Hp. destruct Hp as (p & Hp & Hsku & Hpid).
  assert (Hx : In x (map Orm.cp_sku products_list)).
  { rewrite <- Hskus, <- Hsku. apply in_map. exact Hp. }
  apply in_map_iff in Hx. destruct Hx as (product & Hpx & Hproduct).
  exists p, product. repeat split; auto; [congruence|].
  rewrite Hstock. unfold dict_get_default.
  rewrite (dict_get_unique String.eqb String.eqb_eq
             (Orm.sku_to_stock_level products_list) x (stock_hint product));
    [reflexivity| |].
  - rewrite sku_to_stock_level_keys, <- Hskus.
    exact (oc_skus_unique _ _ _ _ Hcat).
  - unfold Orm.sku_to_stock_level. apply in_map_iff. exists product.
    split; [|exact Hproduct]. rewrite Hpx. reflexivity.
Qed.

Lemma orm_stock_level_witness :
  match Orm.generate_inventory Demo.stores Demo.products_list
          Demo.supplier_data Demo.month_start 2 Demo.entropy_a with
  | Ok (d, _) =>
      map stock_level (db_inventory d) = [40; 25; 12; 8; 25; 25; 30; 55] /\
      forall i, In i (db_inventory d) ->
        exists p product,
          In p (db_products d) /\ product_id p = inv_product_id i /\
          In product Demo.products_list /\ Orm.cp_sku product = sku p /\
          stock_level i = stock_hint product
  | Raise _ => False
  end.
Proof.
  destruct (Orm.generate_inventory Demo.stores Demo.products_list
              Demo.supplier_data Demo.month_start 2 Demo.entropy_a)
    as [[d e']|e] eqn:E; [|vm_compute in E; discriminate E].
  split.
  - vm_compute in E. injection E as <- _. reflexivity.
  - intros i. exact (orm_stock_level_is_the_catalogue_hint _ _ _ _ _ _ _ _ i E).
Defined.
(* ================================================================= *)
(** * The report at the end of a legacy run *)
(* ================================================================= *)

(** [generate_sqlite_database] with the report it logs before returning. *)
Definition generate_and_report
  (stores : list (string * Legacy.StoreConfig))
  (main_categories : list (string * list (string * Legacy.SubcategoryValue)))
  (year_weights : list (string * float)) (num_customers : nat)
  : Gen (DB * list Line) :=
  db <- Legacy.generate_sqlite_database stores main_categories year_weights
          num_customers ;;
  report <- lift (show_database_stats db) ;;
  ret (db, report).

(** The customers and the orders at the end of a legacy run. *)
Lemma legacy_generate_customers_and_orders
  stores main_categories year_weights n en db en' :
  Legacy.generate_sqlite_database stores main_categories year_weights n en
  = Ok (db, en') ->
  List.length (db_customers db) = n /\
  Forall (fun o => 1 <= order_customer_id o <= Z.of_nat n) (db_orders db).
Proof.
  intros Hrun.
  destruct (legacy_generate_stages _ _ _ _ _ _ _ Hrun)
    as (db1 & db2 & db3 & db4 & db5 & db6 & db7 & e4 & e6 & e7
        & H1 & H2 & H3 & H4 & H5 & H6 & H7 & H8).
  apply legacy_stores_stage_spec in H1. destruct H1 as (o1 & -> & _).
  apply legacy_categories_stage_spec in H2. destruct H2 as (o2 & ->).
  apply legacy_types_stage_spec in H3. destruct H3 as (o3 & ->).
  apply legacy_customers_stage_spec in H4. destruct H4 as (o4 & -> & Hlen).
  apply legacy_products_stage_spec in H5. destruct H5 as (o5 & -> & _ & _).
  apply legacy_embeddings_stage_spec in H6. destruct H6 as (o6 & ->).
  apply legacy_inventory_stage_spec in H7. destruct H7 as (o7 & -> & _).
  apply legacy_orders_stage_spec in H8.
  destruct H8 as (orders & items & -> & Hord & _).
  cbn [db_customers db_orders set_order_items set_orders set_inventory
       set_product_description_embeddings set_products set_customers
       set_product_types set_categories set_stores empty_db].
  split.
  - unfold auto_insert. cbn [app]. rewrite length_number_from. exact Hlen.
  - apply Forall_auto_insert; [constructor|].
    eapply Forall_impl; [|exact Hord]. intros o [Ho _] z. exact Ho.
Qed.

(** X6.  At the end of a legacy generation run the customers table holds
    exactly [num_customers] rows and the final report is produced: the
    division [orders / customers] of [show_database_stats] cannot fail
    there, since every order belongs to one of those customers.  The run
    with its report returns whenever the run without it does. *)
Theorem legacy_report_after_generation
  stores main_categories year_weights n en db en' :
  Legacy.generate_sqlite_database stores main_categories year_weights n en
  = Ok (db, en') ->
  count (db_customers db) = Z.of_nat n /\
  exists report,
    show_database_stats db = Ok report /\
    generate_and_report stores main_categories year_weights n en
    = Ok ((db, report), en').
Proof.
  intros Hrun.
  destruct (legacy_generate_customers_and_orders _ _ _ _ _ _ _ Hrun)
    as [Hlen Hord].
  split; [unfold count; rewrite Hlen; reflexivity|].
  destruct (show_database_stats db) as [report|e] eqn:Es.
  - exists report. split; [reflexivity|].
    unfold generate_and_report. cbn [bind Gen_Monad]. rewrite Hrun.
    unfold lift. rewrite Es. reflexivity.
  - exfalso.
    destruct (proj1 (show_database_stats_raises_iff db)
                (ex_intro _ e Es)) as [Horders Hcust].
    rewrite Hcust in Hlen. cbn [List.length] in Hlen. subst n.
    destruct (db_orders db) as [|o t]; [apply Horders; reflexivity|].
    inversion Hord as [|? ? Ho _]; subst. cbn in Ho. lia.
Qed.

Lemma legacy_report_witness :
  match Legacy.generate_sqlite_database Demo.legacy_stores Demo.main_categories
          Demo.year_weights 1 Demo.legacy_entropy with
  | Ok (db, _) =>
      count (db_customers db) = 1 /\
      exists report, show_database_stats db = Ok report /\
                     List.length report = 9%nat
  | Raise _ => False
  end.
Proof.
  destruct (Legacy.generate_sqlite_database Demo.legacy_stores
              Demo.main_categories Demo.year_weights 1 Demo.legacy_entropy)
    as [[db e']|e] eqn:E; [|vm_compute in E; discriminate E].
  destruct (legacy_report_after_generation _ _ _ _ _ _ _ E)
    as (Hn & report & Hreport & _).
  split; [exact Hn|]. exists report. split; [exact Hreport|].
  vm_compute in E. injection E as <- _.
  vm_compute in Hreport. injection Hreport as <-. reflexivity.
Defined.
(* ================================================================= *)
(** * The validation suite, [test_database_validation.py] *)
(* ================================================================= *)

(** ** Test 4: inventory assignments *)

(** [set(a) == set(b)] on lists of strings. *)
Definition set_eqb (a b : list string) : bool :=
  forallb (fun x => memb String.eqb x b) a
  && forallb (fun x => memb String.eqb x a) b.

(** [test_inventory_assignments]: for every store of the stores document,
    the set of its listed SKUs is compared with the set of SKUs that the
    join of [inventory], [stores] and [products] returns for its name; the
    test passes when no store differs. *)
Definition test_inventory_assignments
  (stores_ref : list (string * Orm.StoreConfig)) (db : DB) : bool :=
  forallb
    (fun kv : string * Orm.StoreConfig =>
       let store_config := snd kv in
       let expected_skus := listed_skus store_config in
       let actual_skus := inventory_skus db (Orm.cfg_store_name store_config) in
       set_eqb expected_skus actual_skus)
    stores_ref.

Lemma set_eqb_true (a b : list string) :
  set_eqb a b = true <-> (forall x, In x a <-> In x b).
Proof.
  unfold set_eqb. rewrite andb_true_iff, !forallb_forall. split.
  - intros [Hab Hba] x. split; intros Hx.
    + apply (memb_In String.eqb String.eqb_eq). apply Hab. exact Hx.
    + apply (memb_In String.eqb String.eqb_eq). apply Hba. exact Hx.
  - intros H. split; intros x Hx;
      apply (memb_In String.eqb String.eqb_eq); apply H; exact Hx.
Qed.

Lemma inventory_skus_same (a b : DB) (name : string) :
  same_catalogue a b -> inventory_skus a name = inventory_skus b name.
Proof.
  intros (Hs & _ & _ & Hp & Hi). unfold inventory_skus.
  rewrite Hs, Hp, Hi. reflexivity.
Qed.

(** X7.  On the database of a run of the ORM generator, the inventory test
    of the validation suite passes if and only if every SKU that a store of
    the stores document lists is the SKU of a catalogue product. *)
Theorem inventory_test_passes_iff_lists_are_in_catalogue
  stores products_list supplier_data today month_start n m en db en' :
  Orm.generate stores products_list supplier_data today month_start n m en
  = Ok (db, en') ->
  (test_inventory_assignments stores db = true <->
   forall kv x, In kv stores -> In x (listed_skus (snd kv)) ->
                In x (map Orm.cp_sku products_list)).
Proof.
  intros Hrun.
  destruct (orm_generate_split _ _ _ _ _ _ _ _ _ _ Hrun)
    as (d & e1 & Hinv & Hord).
  pose proof (orm_orders_stage_same_catalogue _ _ _ _ _ _ Hord) as Hsame.
  pose proof (orm_generate_inventory_skus _ _ _ _ _ _ _ _ Hinv) as Hskus.
  destruct (orm_generate_inventory_catalogue _ _ _ _ _ _ _ _ Hinv) as [Hcat _].
  unfold test_inventory_assignments. rewrite forallb_forall. cbn zeta.
  split.
  - intros Hall kv x Hkv Hx.
    pose proof (proj1 (set_eqb_true _ _) (Hall kv Hkv) x) as Hiff.
    rewrite (inventory_skus_same _ _ _ Hsame) in Hiff.
    apply Hiff in Hx.
    apply (oc_inventory_skus _ _ _ _ Hcat kv x Hkv) in Hx.
    rewrite <- Hskus. exact (proj2 Hx).
  - intros Hall kv Hkv. apply set_eqb_true. intros x.
    rewrite (inventory_skus_same _ _ _ Hsame).
    rewrite (oc_inventory_skus _ _ _ _ Hcat kv x Hkv). rewrite Hskus.
    split; [|tauto]. intros Hx. split; [exact Hx|]. exact (Hall kv x Hkv Hx).
Qed.

Lemma inventory_test_witness :
  match Orm.generate Demo.stores Demo.products_list Demo.supplier_data
          Demo.today Demo.month_start 2 2 Demo.entropy_a,
        Orm.generate Demo.stores_unknown_sku Demo.products_list
          Demo.supplier_data Demo.today Demo.month_start 2 2 Demo.entropy_a with
  | Ok (db1, _), Ok (db2, _) =>
      test_inventory_assignments Demo.stores db1 = true /\
      test_inventory_assignments Demo.stores_unknown_sku db2 = false
  | _, _ => False
  end.
Proof.
  destruct (Orm.generate Demo.stores Demo.products_list Demo.supplier_data
              Demo.today Demo.month_start 2 2 Demo.entropy_a)
    as [[db1 e1]|e] eqn:E1; [|vm_compute in E1; discriminate E1].
  destruct (Orm.generate Demo.stores_unknown_sku Demo.products_list
              Demo.supplier_data Demo.today Demo.month_start 2 2
              Demo.entropy_a)
    as [[db2 e2]|e] eqn:E2; [|vm_compute in E2; discriminate E2].
  split.
  - apply (proj2 (inventory_test_passes_iff_lists_are_in_catalogue
                    _ _ _ _ _ _ _ _ _ _ E1)).
    intros kv x Hkv Hx. cbn in Hkv.
    destruct Hkv as [<- | [<- | []]]; cbn in Hx |- *; tauto.
  - destruct (test_inventory_assignments Demo.stores_unknown_sku db2) eqn:Et;
      [|reflexivity].
    exfalso.
    pose proof (proj1 (inventory_test_passes_iff_lists_are_in_catalogue
                         _ _ _ _ _ _ _ _ _ _ E2) Et
                  ("1"%string, Demo.store "Zava Seattle" "f47ac10b" false 0.7
                                 (Some ["HT-001"; "XX-999"]%string))
                  "XX-999"%string) as H.
    cbn in H.
    assert (Hbad : ~ ("HT-001" = "XX-999" \/ "HT-002" = "XX-999" \/
                      "HT-003" = "XX-999" \/ "PT-001" = "XX-999" \/
                      "PT-002" = "XX-999" \/ "PL-001" = "XX-999" \/
                      "PL-002" = "XX-999" \/ "PL-003" = "XX-999" \/ False)%string)
      by (intros Hd; repeat (destruct Hd as [Hd|Hd]; [discriminate Hd|]);
          exact Hd).
    apply Hbad. apply H; [left; reflexivity | right; left; reflexivity].
Defined.
(** ** Test 2: supplier relationships *)

(** The products and the suppliers at the end of the inventory stage, row by
    row against the documents they were read from. *)
Lemma Forall2_of_map_eq {A B C} (f : B -> C) (g : A -> C) xs ys :
  map f ys = map g xs -> Forall2 (fun a b => f b = g a) xs ys.
Proof.
  revert ys. induction xs as [|x t IH]; intros [|y u] H;
    try discriminate H; [constructor|].
  cbn [map] in H. injection H as Hh Ht. constructor; [exact Hh | apply IH; exact Ht].
Qed.

Lemma Forall2_and_In {A B} (P : A -> B -> Prop) xs ys :
  Forall2 P xs ys -> Forall2 (fun a b => In a xs /\ In b ys /\ P a b) xs ys.
Proof.
  induction 1 as [|x y xs' ys' Hxy _ IH]; [constructor|].
  constructor; [cbn; auto|].
  eapply Forall2_impl; [|exact IH]. cbn. intros a b (Ha & Hb & Hab). auto.
Qed.

Lemma orm_generate_inventory_rows stores products_list supplier_data
  month_start n en d en' :
  Orm.generate_inventory stores products_list supplier_data month_start n en
  = Ok (d, en') ->
  Forall2 orm_product_of products_list (db_products d).
Proof.
  intros Hrun.
  pose proof (orm_generate_inventory_skus _ _ _ _ _ _ _ _ Hrun) as Hskus.
  destruct (orm_generate_inventory_catalogue _ _ _ _ _ _ _ _ Hrun) as [Hcat _].
  pose proof (oc_skus_unique _ _ _ _ Hcat) as Hnd. rewrite Hskus in Hnd.
  pose proof (oc_product_rows _ _ _ _ Hcat) as Hrows.
  rewrite Forall_forall in Hrows.
  eapply Forall2_impl;
    [|exact (Forall2_and_In _ _ _ (Forall2_of_map_eq sku Orm.cp_sku _ _ Hskus))].
  cbn beta. intros product p (Hin & Hp & Hsku).
  destruct (Hrows p Hp) as ((product' & Hin' & Hof) & _).
  assert (product' = product).
  { apply (NoDup_map_inj Orm.cp_sku products_list _ _ Hnd Hin' Hin).
    destruct Hof as (Hs & _). congruence. }
  subst product'. exact Hof.
Qed.

Lemma orm_generate_inventory_suppliers stores products_list supplier_data
  month_start n en d en' :
  Orm.generate_inventory stores products_list supplier_data month_start n en
  = Ok (d, en') ->
  map supplier_id (db_suppliers d)
  = map (fun kv => Orm.se_supplier_id (snd kv)) supplier_data.
Proof.
  intros Hrun.
  apply orm_generate_inventory_stages in Hrun
    as (d1 & d2 & d3 & d4 & d5 & d6 & e4 & e6
        & H1 & H2 & H3 & H4 & H5 & H6 & H7).
  apply orm_stores_stage_spec in H1 as (sobjs & -> & _).
  apply orm_categories_stage_spec in H2 as (cobjs & ->).
  apply orm_types_stage_spec in H3 as (tobjs & ->).
  apply orm_products_stage_spec in H5 as (pobjs & -> & _).
  apply orm_customers_stage_spec in H6 as (custs & -> & _).
  apply orm_inventory_stage_spec in H7 as [-> _].
  unfold Orm.insert_suppliers, Orm.bulk_insert_suppliers in H4.
  monad_inv H4. monad_inv Hstep. subst en0.
  monad_inv Hstep0. monad_inv Hstep0. subst v.
  apply (checked_inv Z.eqb Z.eqb_eq) in Hstep as [-> _].
  monad_inv H4. clear Hstep.
  monad_inv H4. monad_inv H4. subst d4.
  cbn [db_suppliers set_stores set_categories set_product_types set_suppliers
       set_supplier_performance set_products set_customers set_inventory
       empty_db app].
  rewrite map_map. reflexivity.
Qed.

(** [test_supplier_relationships]: no product has a NULL [supplier_id], and
    none has a [supplier_id] that is [NOT IN (SELECT supplier_id FROM
    suppliers)].  In SQL a NULL is [NOT IN] a set only when the set is
    empty. *)
Definition test_supplier_relationships (db : DB) : bool :=
  let null_count :=
    count (filter (fun p => match prod_supplier_id p with
                            | None => true
                            | Some _ => false
                            end)
                  (db_products db)) in
  let invalid_count :=
    count (filter (fun p => match prod_supplier_id p with
                            | None => match db_suppliers db with
                                      | [] => true
                                      | _ :: _ => false
                                      end
                            | Some s =>
                                negb (memb Z.eqb s
                                        (map supplier_id (db_suppliers db)))
                            end)
                  (db_products db)) in
  (null_count =? 0) && (invalid_count =? 0).

Lemma filter_nil_iff {A} (f : A -> bool) (l : list A) :
  filter f l = [] <-> Forall (fun x => f x = false) l.
Proof.
  split.
  - induction l as [|x t IH]; cbn [filter]; intros H; [constructor|].
    destruct (f x) eqn:E; [discriminate H|]. constructor; auto.
  - apply filter_none.
Qed.

Definition supplier_is_known (supplier_data : list (Z * Orm.SupplierEntry))
  (product : Orm.CatalogProduct) : Prop :=
  exists s kv, Orm.cp_supplier_id product = Some s /\
               In kv supplier_data /\ Orm.se_supplier_id (snd kv) = s.

(** X8.  On the database of a run of the ORM generator, the supplier test of
    the validation suite passes if and only if every catalogue product names
    a supplier and that supplier is one of the suppliers document. *)
Theorem supplier_test_passes_iff_suppliers_are_known
  stores products_list supplier_data today month_start n m en db en' :
  Orm.generate stores products_list supplier_data today month_start n m en
  = Ok (db, en') ->
  (test_supplier_relationships db = true <->
   Forall (supplier_is_known supplier_data) products_list).
Proof.
  intros Hrun.
  destruct (orm_generate_split _ _ _ _ _ _ _ _ _ _ Hrun)
    as (d & e1 & Hinv & Hord).
  pose proof (orm_generate_inventory_rows _ _ _ _ _ _ _ _ Hinv) as Hrows.
  pose proof (orm_generate_inventory_suppliers _ _ _ _ _ _ _ _ Hinv) as Hsup.
  apply orm_orders_stage_spec in Hord. destruct Hord as (os & its & -> & _).
  unfold test_supplier_relationships.
  cbn [db_products db_suppliers set_order_items set_orders].
  rewrite andb_true_iff, !Z.eqb_eq, !count_zero_iff, !filter_nil_iff.
  rewrite !Forall_forall. split.
  - intros [Hnull Hinvalid] product Hin.
    destruct (Forall2_In_left _ _ _ _ Hrows Hin) as (p & Hp & Hof).
    destruct Hof as (_ & _ & _ & Hs).
    specialize (Hnull p Hp). specialize (Hinvalid p Hp). cbn beta in *.
    rewrite Hs in Hnull, Hinvalid.
    destruct (Orm.cp_supplier_id product) as [s|] eqn:Es; [|discriminate Hnull].
    apply negb_false_iff in Hinvalid.
    apply (memb_In Z.eqb Z.eqb_eq) in Hinvalid. rewrite Hsup in Hinvalid.
    apply in_map_iff in Hinvalid. destruct Hinvalid as (kv & Hkv & Hin').
    exists s, kv. auto.
  - intros Hknown. split; intros p Hp;
      destruct (Forall2_In_right _ _ _ _ Hrows Hp) as (product & Hin & Hof);
      destruct Hof as (_ & _ & _ & Hs);
      destruct (Hknown product Hin) as (s & kv & Hsome & Hkv & Hid);
      cbn beta; rewrite Hs, Hsome; [reflexivity|].
    apply negb_false_iff. apply (memb_In Z.eqb Z.eqb_eq). rewrite Hsup.
    apply in_map_iff. exists kv. auto.
Qed.

Lemma supplier_test_witness :
  match Orm.generate Demo.stores Demo.products_list Demo.supplier_data
          Demo.today Demo.month_start 2 2 Demo.entropy_a with
  | Ok (db, _) => test_supplier_relationships db = true
  | Raise _ => False
  end.
Proof.
  destruct (Orm.generate Demo.stores Demo.products_list Demo.supplier_data
              Demo.today Demo.month_start 2 2 Demo.entropy_a)
    as [[db e1]|e] eqn:E; [|vm_compute in E; discriminate E].
  apply (proj2 (supplier_test_passes_iff_suppliers_are_known
                  _ _ _ _ _ _ _ _ _ _ E)).
  repeat constructor;
    (exists 1, (1, {| Orm.se_supplier_id := 1;
                      Orm.se_supplier_name := "Acme Tools";
                      Orm.se_lead_time_days := 7 |});
     repeat split; left; reflexivity).
Defined.
(* ================================================================= *)
(** * Products point to the category and the type their entry names *)
(* ================================================================= *)

(** The row [p] was built from the catalogue entry [product], and the
    category and product-type rows it points to carry the names of the
    entry. *)
Definition names_entry (db : DB) (product : Orm.CatalogProduct) (p : Product)
  : Prop :=
  sku p = Orm.cp_sku product /\
  product_name p = Orm.cp_name product /\
  product_description p = Orm.cp_description product /\
  exists c t,
    In c (db_categories db) /\ category_id c = prod_category_id p /\
    category_name c = Orm.cp_category product /\
    In t (db_product_types db) /\ type_id t = prod_type_id p /\
    type_name t = Orm.cp_subcategory product /\
    type_category_id t = category_id c.

Lemma orm_product_object_names supplier_data db product p :
  Orm.product_object supplier_data db product = Ok (Some p) ->
  names_entry db product p.
Proof.
  unfold Orm.product_object. intros Hrun.
  destruct (dict_get String.eqb (Orm.category_mapping db)
              (Orm.cp_category product)) as [cid|] eqn:Ec; [|discriminate Hrun].
  destruct (truthy_id _) as [tid|] eqn:Et; [|discriminate Hrun].
  apply ret_Res_inv in Hrun. injection Hrun as Hp. subst p.
  apply truthy_id_Some in Et. destruct Et as [Et _].
  apply (dict_get_In String.eqb String.eqb_eq) in Ec.
  apply (dict_get_In _ (pair_eqb_eq _ _ Z.eqb_eq String.eqb_eq)) in Et.
  unfold Orm.category_mapping in Ec. apply in_map_iff in Ec.
  destruct Ec as (c & Hc & Hcin).
  unfold Orm.type_mapping in Et. apply in_map_iff in Et.
  destruct Et as (t & Ht & Htin).
  injection Hc as Hcn Hci. injection Ht as Htc Htn Hti.
  unfold names_entry.
  cbn [sku product_name product_description prod_category_id prod_type_id].
  repeat split. exists c, t. repeat split; auto. congruence.
Qed.

Lemma orm_products_stage_names products_list supplier_data db db' :
  Orm.insert_products products_list supplier_data db = Ok db' ->
  exists objs,
    db' = set_products (auto_insert (db_products db) objs) db /\
    Forall (fun p => exists product, In product products_list /\
                                     names_entry db product p) objs.
Proof.
  unfold Orm.insert_products, Orm.bulk_insert_products. intros Hrun.
  monad_inv Hrun. monad_inv Hrun. monad_inv Hrun. subst db'.
  apply (checked_inv String.eqb String.eqb_eq) in Hstep0 as [-> _].
  exists (Orm.somes v). split; [reflexivity|].
  apply Forall_forall. intros p Hp. apply In_somes in Hp.
  pose proof (mapM_Res_Forall2 _
                (fun product o => forall q, o = Some q ->
                                            names_entry db product q)
                products_list
                (fun product o _ Ho q Hq =>
                   orm_product_object_names supplier_data db product q
                     (eq_trans Ho (f_equal Ok Hq)))
                v Hstep) as HF.
  destruct (Forall2_In_right _ _ _ _ HF Hp) as (product & Hin & Hnames).
  exists product. split; [exact Hin | exact (Hnames p eq_refl)].
Qed.

(** X9.  At the end of a run of the ORM generator the products table holds
    one row per catalogue entry, in catalogue order; each row carries the
    SKU, the name and the description of its entry; its [category_id] is
    the id of a category row with the entry's category name and its
    [type_id] the id of a product-type row with the entry's subcategory
    name inside that category; category ids and type ids are unique. *)
Theorem orm_products_name_their_catalogue_entry
  stores products_list supplier_data today month_start n m en db en' :
  Orm.generate stores products_list supplier_data today month_start n m en
  = Ok (db, en') ->
  NoDup (map category_id (db_categories db)) /\
  NoDup (map type_id (db_product_types db)) /\
  Forall2 (names_entry db) products_list (db_products db).
Proof.
  intros Hrun.
  destruct (orm_generate_split _ _ _ _ _ _ _ _ _ _ Hrun)
    as (d & e1 & Hinv & Hord).
  pose proof (orm_generate_inventory_skus _ _ _ _ _ _ _ _ Hinv) as Hskus.
  destruct (orm_generate_inventory_catalogue _ _ _ _ _ _ _ _ Hinv) as [Hcat _].
  pose proof (oc_skus_unique _ _ _ _ Hcat) as Hnd. rewrite Hskus in Hnd.
  apply orm_orders_stage_spec in Hord. destruct Hord as (os & its & -> & _).
  apply orm_generate_inventory_stages in Hinv
    as (d1 & d2 & d3 & d4 & d5 & d6 & e4 & e6
        & H1 & H2 & H3 & H4 & H5 & H6 & H7).
  apply orm_stores_stage_spec in H1 as (sobjs & -> & _).
  apply orm_categories_stage_spec in H2 as (cobjs & ->).
  apply orm_types_stage_spec in H3 as (tobjs & ->).
  apply orm_suppliers_stage_spec in H4 as (sups & perf & -> & _).
  apply orm_products_stage_names in H5 as (pobjs & -> & Hnames).
  apply orm_customers_stage_spec in H6 as (custs & -> & _).
  apply orm_inventory_stage_spec in H7 as [-> _].
  cbn [db_stores db_categories db_product_types db_suppliers
       db_supplier_performance db_products db_customers db_inventory
       db_orders db_order_items
       set_stores set_categories set_product_types set_suppliers
       set_supplier_performance set_products set_customers set_inventory
       set_orders set_order_items empty_db] in *.
  split; [|split].
  - change (map category_id (auto_insert [] cobjs))
      with (map pk (auto_insert [] cobjs)).
    apply NoDup_pk_auto_insert. constructor.
  - change (map type_id (auto_insert [] tobjs))
      with (map pk (auto_insert [] tobjs)).
    apply NoDup_pk_auto_insert. constructor.
  - assert (Hall : Forall (fun p => exists product,
                             In product products_list /\
                             sku p = Orm.cp_sku product /\
                             product_name p = Orm.cp_name product /\
                             product_description p = Orm.cp_description product /\
                             exists c t,
                               In c (auto_insert [] cobjs) /\
                               category_id c = prod_category_id p /\
                               category_name c = Orm.cp_category product /\
                               In t (auto_insert [] tobjs) /\
                               type_id t = prod_type_id p /\
                               type_name t = Orm.cp_subcategory product /\
                               type_category_id t = category_id c)
                          (auto_insert [] pobjs)).
    { apply Forall_auto_insert; [constructor|].
      eapply Forall_impl; [|exact Hnames]. cbn beta.
      intros p (product & Hin & Hn) z. exists product. split; [exact Hin|].
      exact Hn. }
    rewrite Forall_forall in Hall.
    eapply Forall2_impl;
      [|exact (Forall2_and_In _ _ _
                 (Forall2_of_map_eq sku Orm.cp_sku _ _ Hskus))].
    cbn beta. intros product p (Hin & Hp & Hsku).
    destruct (Hall p Hp) as (product' & Hin' & Hs' & Hrest).
    assert (product' = product).
    { apply (NoDup_map_inj Orm.cp_sku products_list _ _ Hnd Hin' Hin).
      congruence. }
    subst product'. unfold names_entry. split; [exact Hs'|]. exact Hrest.
Qed.

Lemma orm_products_name_witness :
  match Orm.generate Demo.stores Demo.products_list Demo.supplier_data
          Demo.today Demo.month_start 2 2 Demo.entropy_a with
  | Ok (db, _) =>
      List.length (db_products db) = 8%nat /\
      Forall2 (names_entry db) Demo.products_list (db_products db)
  | Raise _ => False
  end.
Proof.
  destruct (Orm.generate Demo.stores Demo.products_list Demo.supplier_data
              Demo.today Demo.month_start 2 2 Demo.entropy_a)
    as [[db e1]|e] eqn:E; [|vm_compute in E; discriminate E].
  destruct (orm_products_name_their_catalogue_entry _ _ _ _ _ _ _ _ _ _ E)
    as (_ & _ & HF).
  split; [|exact HF].
  rewrite (Forall2_length_eq _ _ _ HF). reflexivity.
Defined.
(* ================================================================= *)
(** * The inventory server, [mcp_servers/inventory_server.py] *)
(* ================================================================= *)

(** The two tools of the server read and write the database that the ORM
    generator produced.  A tool call opens a session, runs its statements
    and either commits or leaves the session without committing, so a call
    is a function from the database to its answer and the database it
    leaves behind.  The engine is assumed to be open ([get_session] does
    not raise). *)

Module InventoryServer.

(** ** [get_stock_level_by_product_id] *)

(** A row of the answer: the seven selected columns. *)
Record StockRow : Type := {
  row_store_id : Z;
  row_product_id : Z;
  row_stock_level : Z;
  row_store_name : string;
  row_is_online : bool;
  row_product_name : string;
  row_sku : string
}.

(** [inventory JOIN stores ON ... JOIN products ON ...
    WHERE products.product_id = :product_id]. *)
Definition joined_rows (product_id_ : Z) (db : DB) : list StockRow :=
  flat_map
    (fun inv =>
       flat_map
         (fun s =>
            if store_id s =? inv_store_id inv then
              flat_map
                (fun p =>
                   if (product_id p =? inv_product_id inv)
                      && (product_id p =? product_id_)
                   then [ {| row_store_id := inv_store_id inv;
                             row_product_id := inv_product_id inv;
                             row_stock_level := stock_level inv;
                             row_store_name := store_name s;
                             row_is_online := is_online s;
                             row_product_name := product_name p;
                             row_sku := sku p |} ]
                   else [])
                (db_products db)
            else [])
         (db_stores db))
    (db_inventory db).

(** [ORDER BY stock_level DESC].  SQL leaves the order of rows with equal
    stock open; here they keep the order of the join. *)
Fixpoint insert_by_stock (r : StockRow) (l : list StockRow) : list StockRow :=
  match l with
  | [] => [r]
  | y :: t =>
      if row_stock_level y <=? row_stock_level r then r :: l
      else y :: insert_by_stock r t
  end.

Definition order_by_stock_desc (l : list StockRow) : list StockRow :=
  fold_right insert_by_stock [] l.

(** The answer of the tool; an empty answer is the empty list. *)
Definition get_stock_level_by_product_id (product_id_ : Z)
  (is_online_ : option bool) (db : DB) : list StockRow :=
  let rows := joined_rows product_id_ db in
  let rows :=
    match is_online_ with
    | Some b => filter (fun r => Bool.eqb (row_is_online r) b) rows
    | None => rows
    end in
  order_by_stock_desc rows.

(** ** [transfer_stock] *)

(** One side of the report of a transfer. *)
Record StoreReport : Type := {
  report_store_id : Z;
  report_store_name : option string;
  stock_before : Z;
  stock_after : Z
}.

(** The dictionary the tool returns, by its message. *)
Inductive TransferResult : Type :=
| SameStore                   (* "Cannot transfer stock to the same store" *)
| QuantityNotPositive         (* "Transfer quantity must be positive" *)
| NoSourceRecord              (* "No inventory record found ..." *)
| InsufficientStock (available_stock : Z)
| TransferError (e : exn)     (* the [except] branch *)
| Transferred (product_id_ quantity_transferred : Z)
              (from_store to_store : StoreReport).

(** The ["success"] entry of the dictionary. *)
Definition success (r : TransferResult) : bool :=
  match r with
  | Transferred _ _ _ _ => true
  | _ => false
  end.

(** [select(Inventory, Store.store_name).join(Store, ...)
    .where(product_id == :product_id, store_id IN (:from, :to))]. *)
Definition inventory_rows (from_store_id to_store_id product_id_ : Z) (db : DB)
  : list (Inventory * string) :=
  flat_map
    (fun inv =>
       if (inv_product_id inv =? product_id_)
          && ((inv_store_id inv =? from_store_id)
              || (inv_store_id inv =? to_store_id))
       then
         flat_map
           (fun s =>
              if store_id s =? inv_store_id inv then [(inv, store_name s)]
              else [])
           (db_stores db)
       else [])
    (db_inventory db).

(** The four local variables that the loop over the rows fills in. *)
Record Found : Type := {
  from_inventory : option Inventory;
  to_inventory : option Inventory;
  from_store_name : option string;
  to_store_name : option string
}.

(** The body of [for inv, store_name in inventory_rows]. *)
Definition organize_step (from_store_id to_store_id : Z) (acc : Found)
  (row : Inventory * string) : Found :=
  let inv := fst row in
  if inv_store_id inv =? from_store_id then
    {| from_inventory := Some inv; to_inventory := to_inventory acc;
       from_store_name := Some (snd row);
       to_store_name := to_store_name acc |}
  else if inv_store_id inv =? to_store_id then
    {| from_inventory := from_inventory acc; to_inventory := Some inv;
       from_store_name := from_store_name acc;
       to_store_name := Some (snd row) |}
  else acc.

Definition organize (from_store_id to_store_id : Z)
  (rows : list (Inventory * string)) : Found :=
  fold_left (organize_step from_store_id to_store_id) rows
    {| from_inventory := None; to_inventory := None;
       from_store_name := None; to_store_name := None |}.

(** Modelled from the spec: the class [Inventory] is missing; the data model
    gives the inventory the composite key (store, product), as the schema of
    the legacy generator does.  [session.add] and [flush] send an INSERT,
    which fails when the key is taken. *)
Definition add_inventory (row : Inventory) (tbl : list Inventory)
  : Res (list Inventory) :=
  if memb (pair_eqb Z.eqb Z.eqb) (inventory_key row) (map inventory_key tbl)
  then raise IntegrityError
  else ret (tbl ++ [row]).

(** The UPDATE that [commit] sends for an object whose [stock_level] was
    assigned: the row is addressed by its key. *)
Definition set_stock (key : Z * Z) (level : Z) (tbl : list Inventory)
  : list Inventory :=
  map (fun r =>
         if pair_eqb Z.eqb Z.eqb (inventory_key r) key
         then {| inv_store_id := inv_store_id r;
                 inv_product_id := inv_product_id r;
                 stock_level := level |}
         else r)
      tbl.

(** The body of the tool, statement by statement, on integers of any size
    as Python has them.  What the 64 bits of an SQLite INTEGER add is in
    [transfer_stock_int64] below. *)
Definition transfer_stock (from_store_id to_store_id product_id_ quantity_ : Z)
  (db : DB) : TransferResult * DB :=
  if from_store_id =? to_store_id then (SameStore, db)
  else if quantity_ <=? 0 then (QuantityNotPositive, db)
  else
    let found :=
      organize from_store_id to_store_id
        (inventory_rows from_store_id to_store_id product_id_ db) in
    match from_inventory found with
    | None => (NoSourceRecord, db)
    | Some from_inv =>
        if stock_level from_inv <? quantity_
        then (InsufficientStock (stock_level from_inv), db)
        else
          let created :=
            match to_inventory found with
            | Some to_inv => ret (to_inv, db_inventory db)
            | None =>
                let to_inv := {| inv_store_id := to_store_id;
                                 inv_product_id := product_id_;
                                 stock_level := 0 |} in
                tbl <- add_inventory to_inv (db_inventory db) ;;
                ret (to_inv, tbl)
            end in
          match created with
          | Raise e => (TransferError e, db)
          | Ok (to_inv, tbl) =>
              let old_from_stock := stock_level from_inv in
              let old_to_stock := stock_level to_inv in
              let new_from_stock := old_from_stock - quantity_ in
              let new_to_stock := old_to_stock + quantity_ in
              let tbl' :=
                set_stock (inventory_key to_inv) new_to_stock
                  (set_stock (inventory_key from_inv) new_from_stock tbl) in
              (Transferred product_id_ quantity_
                 {| report_store_id := from_store_id;
                    report_store_name := from_store_name found;
                    stock_before := old_from_stock;
                    stock_after := new_from_stock |}
                 {| report_store_id := to_store_id;
                    report_store_name := to_store_name found;
                    stock_before := old_to_stock;
                    stock_after := new_to_stock |},
               set_inventory tbl' db)
          end
    end.

(** ** The limits of the engine *)

(** An INTEGER of SQLite holds 64 bits, a Python [int] any number.  The
    driver refuses to bind an [int] that does not fit and raises
    [OverflowError]; the tool catches it, reports a failure and leaves the
    session without a commit. *)
Definition fits_int64 (z : Z) : bool :=
  (- 2 ^ 63 <=? z) && (z <=? 2 ^ 63 - 1).

(** [transfer_stock] on an engine with these limits.  The two tests on the
    arguments come first; the SELECT binds the three ids; the UPDATEs that
    [commit] sends bind the two new stock levels.  [transfer_stock] above
    computes with integers of any size: the two agree whenever this one
    succeeds ([transfer_stock_int64_success]), and when it fails it leaves
    the database as it was. *)
Definition transfer_stock_int64
  (from_store_id to_store_id product_id_ quantity_ : Z) (db : DB)
  : TransferResult * DB :=
  if from_store_id =? to_store_id then (SameStore, db)
  else if quantity_ <=? 0 then (QuantityNotPositive, db)
  else if negb (fits_int64 from_store_id && fits_int64 to_store_id
                && fits_int64 product_id_)
  then (TransferError OverflowError, db)
  else
    match transfer_stock from_store_id to_store_id product_id_ quantity_ db with
    | (Transferred p q from_store to_store, db') =>
        if fits_int64 (stock_after from_store)
           && fits_int64 (stock_after to_store)
        then (Transferred p q from_store to_store, db')
        else (TransferError OverflowError, db)
    | other => other
    end.

End InventoryServer.
(** ** Stock levels by key *)

Lemma key_eqb_eq (x y : Z * Z) : pair_eqb Z.eqb Z.eqb x y = true <-> x = y.
Proof. exact (pair_eqb_eq _ _ Z.eqb_eq Z.eqb_eq x y). Qed.

Lemma key_eqb_refl (x : Z * Z) : pair_eqb Z.eqb Z.eqb x x = true.
Proof. apply key_eqb_eq. reflexivity. Qed.

Lemma key_eqb_neq (x y : Z * Z) : pair_eqb Z.eqb Z.eqb x y = false <-> x <> y.
Proof.
  split.
  - intros H Heq. apply key_eqb_eq in Heq. congruence.
  - intros H. destruct (pair_eqb Z.eqb Z.eqb x y) eqn:E; [|reflexivity].
    apply key_eqb_eq in E. contradiction.
Qed.

(** The stock level that the inventory records for a (store, product) key:
    [SELECT stock_level FROM inventory WHERE store_id = ? AND product_id = ?]. *)
Definition stock_at (tbl : list Inventory) (key : Z * Z) : option Z :=
  match find (fun r => pair_eqb Z.eqb Z.eqb (inventory_key r) key) tbl with
  | Some r => Some (stock_level r)
  | None => None
  end.

(** [SELECT SUM(stock_level) FROM inventory WHERE product_id = ?], with [0]
    for no row. *)
Definition total_stock (product_id_ : Z) (tbl : list Inventory) : Z :=
  fold_right Z.add 0
    (map stock_level (filter (fun r => inv_product_id r =? product_id_) tbl)).

Lemma stock_at_cons (r : Inventory) (t : list Inventory) (key : Z * Z) :
  stock_at (r :: t) key
  = if pair_eqb Z.eqb Z.eqb (inventory_key r) key then Some (stock_level r)
    else stock_at t key.
Proof.
  unfold stock_at. cbn [find].
  destruct (pair_eqb Z.eqb Z.eqb (inventory_key r) key); reflexivity.
Qed.

Lemma stock_at_Some (tbl : list Inventory) (key : Z * Z) (level : Z) :
  stock_at tbl key = Some level ->
  exists r, In r tbl /\ inventory_key r = key /\ stock_level r = level.
Proof.
  unfold stock_at.
  destruct (find _ tbl) as [r|] eqn:E; [|discriminate].
  intros H. injection H as <-. apply find_some in E. destruct E as [Hin Hk].
  apply key_eqb_eq in Hk. exists r. auto.
Qed.

Lemma stock_at_None (tbl : list Inventory) (key : Z * Z) :
  stock_at tbl key = None <-> ~ In key (map inventory_key tbl).
Proof.
  induction tbl as [|r t IH]; [cbn; tauto|].
  rewrite stock_at_cons. cbn [map In].
  destruct (pair_eqb Z.eqb Z.eqb (inventory_key r) key) eqn:E.
  - apply key_eqb_eq in E. split; [discriminate | intros H; exfalso; auto].
  - apply key_eqb_neq in E. rewrite IH. tauto.
Qed.

Lemma stock_at_In (tbl : list Inventory) (r : Inventory) :
  NoDup (map inventory_key tbl) -> In r tbl ->
  stock_at tbl (inventory_key r) = Some (stock_level r).
Proof.
  induction tbl as [|x t IH]; intros Hnd Hin; [destruct Hin|].
  cbn [map] in Hnd. inversion Hnd as [|? ? Hx Hnd']; subst.
  rewrite stock_at_cons. destruct Hin as [-> | Hin].
  - rewrite key_eqb_refl. reflexivity.
  - destruct (pair_eqb Z.eqb Z.eqb (inventory_key x) (inventory_key r)) eqn:E.
    + apply key_eqb_eq in E. exfalso. apply Hx. rewrite E.
      apply in_map. exact Hin.
    + apply IH; assumption.
Qed.

Lemma stock_at_app (a b : list Inventory) (key : Z * Z) :
  stock_at (a ++ b) key
  = match stock_at a key with
    | Some level => Some level
    | None => stock_at b key
    end.
Proof.
  induction a as [|r t IH]; [reflexivity|].
  cbn [app]. rewrite !stock_at_cons.
  destruct (pair_eqb Z.eqb Z.eqb (inventory_key r) key); [reflexivity | exact IH].
Qed.

Lemma total_stock_cons (product_id_ : Z) (r : Inventory) (t : list Inventory) :
  total_stock product_id_ (r :: t)
  = (if inv_product_id r =? product_id_ then stock_level r else 0)
    + total_stock product_id_ t.
Proof.
  unfold total_stock. cbn [filter].
  destruct (inv_product_id r =? product_id_); reflexivity.
Qed.

Lemma total_stock_app (product_id_ : Z) (a b : list Inventory) :
  total_stock product_id_ (a ++ b)
  = total_stock product_id_ a + total_stock product_id_ b.
Proof.
  induction a as [|r t IH]; [reflexivity|].
  cbn [app]. rewrite !total_stock_cons, IH. lia.
Qed.

(** ** The UPDATE of one row *)

Lemma keys_set_stock (key : Z * Z) (level : Z) (tbl : list Inventory) :
  map inventory_key (InventoryServer.set_stock key level tbl)
  = map inventory_key tbl.
Proof.
  unfold InventoryServer.set_stock. rewrite map_map. apply map_ext.
  intros r. destruct (pair_eqb Z.eqb Z.eqb (inventory_key r) key); reflexivity.
Qed.

Lemma set_stock_absent (key : Z * Z) (level : Z) (tbl : list Inventory) :
  ~ In key (map inventory_key tbl) ->
  InventoryServer.set_stock key level tbl = tbl.
Proof.
  induction tbl as [|r t IH]; intros Hk; [reflexivity|].
  cbn [InventoryServer.set_stock map] in *.
  destruct (pair_eqb Z.eqb Z.eqb (inventory_key r) key) eqn:E.
  - apply key_eqb_eq in E. exfalso. apply Hk. left. exact E.
  - f_equal. apply IH. intros Hin. apply Hk. right. exact Hin.
Qed.

Lemma stock_at_set_stock (key : Z * Z) (level : Z) (tbl : list Inventory)
  (k : Z * Z) :
  stock_at (InventoryServer.set_stock key level tbl) k
  = if pair_eqb Z.eqb Z.eqb k key
    then match stock_at tbl key with
         | Some _ => Some level
         | None => None
         end
    else stock_at tbl k.
Proof.
  induction tbl as [|r t IH].
  - cbn. destruct (pair_eqb Z.eqb Z.eqb k key); reflexivity.
  - cbn [InventoryServer.set_stock map].
    fold (InventoryServer.set_stock key level t).
    destruct (pair_eqb Z.eqb Z.eqb (inventory_key r) key) eqn:Er.
    + apply key_eqb_eq in Er. rewrite !stock_at_cons.
      change (inventory_key {| inv_store_id := inv_store_id r;
                               inv_product_id := inv_product_id r;
                               stock_level := level |})
        with (inventory_key r).
      cbn [stock_level].
      rewrite Er, (key_eqb_refl key).
      destruct (pair_eqb Z.eqb Z.eqb k key) eqn:Ek.
      * apply key_eqb_eq in Ek. subst k. rewrite key_eqb_refl. reflexivity.
      * assert (Hkk : pair_eqb Z.eqb Z.eqb key k = false).
        { apply key_eqb_neq. apply key_eqb_neq in Ek. congruence. }
        rewrite Hkk. exact IH.
    + rewrite !stock_at_cons, Er, IH.
      destruct (pair_eqb Z.eqb Z.eqb k key) eqn:Ek.
      * apply key_eqb_eq in Ek. subst k. rewrite Er. reflexivity.
      * reflexivity.
Qed.

Lemma total_set_stock (product_id_ : Z) (key : Z * Z) (level old : Z)
  (tbl : list Inventory) :
  NoDup (map inventory_key tbl) ->
  stock_at tbl key = Some old ->
  total_stock product_id_ (InventoryServer.set_stock key level tbl)
  = total_stock product_id_ tbl
    + (if snd key =? product_id_ then level - old else 0).
Proof.
  induction tbl as [|r t IH]; intros Hnd Hat; [discriminate Hat|].
  cbn [map] in Hnd. inversion Hnd as [|? ? Hr Hnd']; subst.
  rewrite stock_at_cons in Hat.
  cbn [InventoryServer.set_stock map].
  fold (InventoryServer.set_stock key level t).
  destruct (pair_eqb Z.eqb Z.eqb (inventory_key r) key) eqn:Er.
  - injection Hat as <-. apply key_eqb_eq in Er. subst key.
    rewrite (set_stock_absent _ _ _ Hr). rewrite !total_stock_cons.
    cbn [inv_product_id stock_level inventory_key snd].
    destruct (inv_product_id r =? product_id_); lia.
  - rewrite !total_stock_cons, (IH Hnd' Hat). lia.
Qed.
(** ** The rows a transfer reads *)

Lemma In_inventory_rows f t pid db inv name :
  In (inv, name) (InventoryServer.inventory_rows f t pid db) <->
  In inv (db_inventory db) /\ inv_product_id inv = pid /\
  (inv_store_id inv = f \/ inv_store_id inv = t) /\
  exists s, In s (db_stores db) /\ store_id s = inv_store_id inv /\
            store_name s = name.
Proof.
  unfold InventoryServer.inventory_rows. rewrite in_flat_map. split.
  - intros (i & Hi & Hrow).
    destruct ((inv_product_id i =? pid)
              && ((inv_store_id i =? f) || (inv_store_id i =? t))) eqn:E;
      [|destruct Hrow].
    apply andb_true_iff in E. destruct E as [Ep Es].
    apply Z.eqb_eq in Ep. apply orb_true_iff in Es. rewrite !Z.eqb_eq in Es.
    apply in_flat_map in Hrow. destruct Hrow as (s & Hs & Hrow).
    destruct (store_id s =? inv_store_id i) eqn:Eid; [|destruct Hrow].
    apply Z.eqb_eq in Eid. destruct Hrow as [Hrow | []].
    injection Hrow as <- <-. repeat split; auto. exists s. auto.
  - intros (Hi & Hp & Hs & s & Hsin & Hid & Hname).
    exists inv. split; [exact Hi|].
    assert (E : (inv_product_id inv =? pid)
                && ((inv_store_id inv =? f) || (inv_store_id inv =? t)) = true).
    { apply andb_true_iff. split; [apply Z.eqb_eq; exact Hp|].
      apply orb_true_iff. rewrite !Z.eqb_eq. exact Hs. }
    rewrite E. apply in_flat_map. exists s. split; [exact Hsin|].
    apply Z.eqb_eq in Hid. rewrite Hid. left. rewrite Hname. reflexivity.
Qed.

(** The loop keeps the last row of each side. *)
Lemma organize_from_inv f t rows acc inv :
  InventoryServer.from_inventory
    (fold_left (InventoryServer.organize_step f t) rows acc) = Some inv ->
  (exists name, In (inv, name) rows /\ inv_store_id inv = f)
  \/ InventoryServer.from_inventory acc = Some inv.
Proof.
  revert acc. induction rows as [|[i nm] rows IH]; intros acc H;
    [right; exact H|].
  cbn [fold_left] in H. apply IH in H. destruct H as [(name & Hin & Hs) | H].
  - left. exists name. split; [right; exact Hin | exact Hs].
  - unfold InventoryServer.organize_step in H. cbn [fst snd] in H.
    destruct (inv_store_id i =? f) eqn:Ef.
    + cbn in H. injection H as <-. apply Z.eqb_eq in Ef.
      left. exists nm. split; [left; reflexivity | exact Ef].
    + destruct (inv_store_id i =? t); cbn in H; right; exact H.
Qed.

Lemma organize_to_inv f t rows acc inv :
  InventoryServer.to_inventory
    (fold_left (InventoryServer.organize_step f t) rows acc) = Some inv ->
  (exists name, In (inv, name) rows /\ inv_store_id inv = t)
  \/ InventoryServer.to_inventory acc = Some inv.
Proof.
  revert acc. induction rows as [|[i nm] rows IH]; intros acc H;
    [right; exact H|].
  cbn [fold_left] in H. apply IH in H. destruct H as [(name & Hin & Hs) | H].
  - left. exists name. split; [right; exact Hin | exact Hs].
  - unfold InventoryServer.organize_step in H. cbn [fst snd] in H.
    destruct (inv_store_id i =? f) eqn:Ef; [cbn in H; right; exact H|].
    destruct (inv_store_id i =? t) eqn:Et; [|right; exact H].
    cbn in H. injection H as <-. apply Z.eqb_eq in Et.
    left. exists nm. split; [left; reflexivity | exact Et].
Qed.

Lemma organize_from_keeps f t rows acc :
  InventoryServer.from_inventory acc <> None ->
  InventoryServer.from_inventory
    (fold_left (InventoryServer.organize_step f t) rows acc) <> None.
Proof.
  revert acc. induction rows as [|[i nm] rows IH]; intros acc H; [exact H|].
  cbn [fold_left]. apply IH. unfold InventoryServer.organize_step.
  cbn [fst snd]. destruct (inv_store_id i =? f); [cbn; discriminate|].
  destruct (inv_store_id i =? t); exact H.
Qed.

Lemma organize_to_keeps f t rows acc :
  InventoryServer.to_inventory acc <> None ->
  InventoryServer.to_inventory
    (fold_left (InventoryServer.organize_step f t) rows acc) <> None.
Proof.
  revert acc. induction rows as [|[i nm] rows IH]; intros acc H; [exact H|].
  cbn [fold_left]. apply IH. unfold InventoryServer.organize_step.
  cbn [fst snd]. destruct (inv_store_id i =? f); [exact H|].
  destruct (inv_store_id i =? t); [cbn; discriminate | exact H].
Qed.

Lemma organize_from_none f t rows acc :
  InventoryServer.from_inventory
    (fold_left (InventoryServer.organize_step f t) rows acc) = None ->
  forall row, In row rows -> inv_store_id (fst row) <> f.
Proof.
  revert acc. induction rows as [|[i nm] rows IH]; intros acc H row Hin;
    [destruct Hin|].
  cbn [fold_left] in H. destruct Hin as [<- | Hin]; [|exact (IH _ H row Hin)].
  cbn [fst]. intros Hf. revert H. apply organize_from_keeps.
  unfold InventoryServer.organize_step. cbn [fst snd].
  apply Z.eqb_eq in Hf. rewrite Hf. cbn. discriminate.
Qed.

Lemma organize_to_none f t rows acc :
  f <> t ->
  InventoryServer.to_inventory
    (fold_left (InventoryServer.organize_step f t) rows acc) = None ->
  forall row, In row rows -> inv_store_id (fst row) <> t.
Proof.
  intros Hft. revert acc.
  induction rows as [|[i nm] rows IH]; intros acc H row Hin; [destruct Hin|].
  cbn [fold_left] in H. destruct Hin as [<- | Hin]; [|exact (IH _ H row Hin)].
  cbn [fst]. intros Ht. revert H. apply organize_to_keeps.
  unfold InventoryServer.organize_step. cbn [fst snd].
  assert (Ef : (inv_store_id i =? f) = false) by (apply Z.eqb_neq; congruence).
  apply Z.eqb_eq in Ht. rewrite Ef, Ht. cbn. discriminate.
Qed.

(** ** Moving a quantity between two rows *)

Lemma move_stock_spec (tbl : list Inventory) (kf kt : Z * Z) (q old_f old_t : Z) :
  NoDup (map inventory_key tbl) ->
  kf <> kt ->
  stock_at tbl kf = Some old_f ->
  stock_at tbl kt = Some old_t ->
  let tbl' := InventoryServer.set_stock kt (old_t + q)
                (InventoryServer.set_stock kf (old_f - q) tbl) in
  map inventory_key tbl' = map inventory_key tbl /\
  (forall k, stock_at tbl' k
             = if pair_eqb Z.eqb Z.eqb k kf then Some (old_f - q)
               else if pair_eqb Z.eqb Z.eqb k kt then Some (old_t + q)
               else stock_at tbl k) /\
  (snd kf = snd kt ->
   forall p, total_stock p tbl' = total_stock p tbl).
Proof.
  intros Hnd Hneq Hf Ht tbl'. subst tbl'.
  assert (Hft : pair_eqb Z.eqb Z.eqb kf kt = false)
    by (apply key_eqb_neq; exact Hneq).
  assert (Htf : pair_eqb Z.eqb Z.eqb kt kf = false)
    by (apply key_eqb_neq; congruence).
  assert (Ht1 : stock_at (InventoryServer.set_stock kf (old_f - q) tbl) kt
                = Some old_t).
  { rewrite stock_at_set_stock, Htf. exact Ht. }
  split; [rewrite !keys_set_stock; reflexivity|]. split.
  - intros k. rewrite stock_at_set_stock, Ht1.
    destruct (pair_eqb Z.eqb Z.eqb k kt) eqn:Ekt.
    + apply key_eqb_eq in Ekt. subst k. rewrite Htf. reflexivity.
    + rewrite stock_at_set_stock, Hf.
      destruct (pair_eqb Z.eqb Z.eqb k kf); reflexivity.
  - intros Hp p.
    rewrite (total_set_stock p kt (old_t + q) old_t);
      [|rewrite keys_set_stock; exact Hnd | exact Ht1].
    rewrite (total_set_stock p kf (old_f - q) old_f _ Hnd Hf).
    rewrite Hp. destruct (snd kt =? p); lia.
Qed.

Definition stock_or_zero (o : option Z) : Z :=
  match o with
  | Some level => level
  | None => 0
  end.

(** What a call of [transfer_stock] does, on an inventory that satisfies its
    key constraint. *)
Lemma transfer_stock_inv f t pid q db r db' :
  NoDup (map inventory_key (db_inventory db)) ->
  InventoryServer.transfer_stock f t pid q db = (r, db') ->
  (InventoryServer.success r = false /\ db' = db) \/
  (exists old_f nf nt tbl',
      f <> t /\ 0 < q /\
      stock_at (db_inventory db) (f, pid) = Some old_f /\ q <= old_f /\
      In f (map store_id (db_stores db)) /\
      (In t (map store_id (db_stores db))
       \/ stock_at (db_inventory db) (t, pid) = None) /\
      r = InventoryServer.Transferred pid q
            {| InventoryServer.report_store_id := f;
               InventoryServer.report_store_name := nf;
               InventoryServer.stock_before := old_f;
               InventoryServer.stock_after := old_f - q |}
            {| InventoryServer.report_store_id := t;
               InventoryServer.report_store_name := nt;
               InventoryServer.stock_before :=
                 stock_or_zero (stock_at (db_inventory db) (t, pid));
               InventoryServer.stock_after :=
                 stock_or_zero (stock_at (db_inventory db) (t, pid)) + q |} /\
      db' = set_inventory tbl' db /\
      NoDup (map inventory_key tbl') /\
      map inventory_key tbl'
      = map inventory_key (db_inventory db)
        ++ match stock_at (db_inventory db) (t, pid) with
           | Some _ => []
           | None => [(t, pid)]
           end /\
      (forall k, stock_at tbl' k
                 = if pair_eqb Z.eqb Z.eqb k (f, pid) then Some (old_f - q)
                   else if pair_eqb Z.eqb Z.eqb k (t, pid)
                        then Some (stock_or_zero
                                     (stock_at (db_inventory db) (t, pid)) + q)
                        else stock_at (db_inventory db) k) /\
      (forall p, total_stock p tbl' = total_stock p (db_inventory db))).
Proof.
  intros Hnd. unfold InventoryServer.transfer_stock.
  destruct (f =? t) eqn:Eft.
  { intros H. injection H as <- <-. left. split; reflexivity. }
  apply Z.eqb_neq in Eft.
  destruct (q <=? 0) eqn:Eq.
  { intros H. injection H as <- <-. left. split; reflexivity. }
  apply Z.leb_gt in Eq. cbn zeta.
  unfold InventoryServer.organize.
  set (found := fold_left (InventoryServer.organize_step f t)
                  (InventoryServer.inventory_rows f t pid db) _).
  destruct (InventoryServer.from_inventory found) as [from_inv|] eqn:Ef.
  2:{ intros H. injection H as <- <-. left. split; reflexivity. }
  destruct (organize_from_inv _ _ _ _ _ Ef) as [(nm & Hrow & Hsf) | Hacc];
    [|discriminate Hacc].
  apply In_inventory_rows in Hrow.
  destruct Hrow as (Hfin & Hfp & _ & sf & Hsfin & Hsfid & _).
  assert (Hkf : inventory_key from_inv = (f, pid))
    by (unfold inventory_key; congruence).
  assert (Hatf : stock_at (db_inventory db) (f, pid)
                 = Some (stock_level from_inv)).
  { rewrite <- Hkf. apply stock_at_In; assumption. }
  assert (Hstore_f : In f (map store_id (db_stores db))).
  { apply in_map_iff. exists sf. split; [congruence | exact Hsfin]. }
  destruct (stock_level from_inv <? q) eqn:Elt.
  { intros H. injection H as <- <-. left. split; reflexivity. }
  apply Z.ltb_ge in Elt.
  assert (Hneq : (f, pid) <> (t, pid)) by congruence.
  destruct (InventoryServer.to_inventory found) as [to_inv|] eqn:Et.
  - (* the destination row exists *)
    cbn [ret Res_Monad]. intros H. injection H as <- <-. right.
    destruct (organize_to_inv _ _ _ _ _ Et) as [(nm' & Hrow & Hst) | Hacc];
      [|discriminate Hacc].
    apply In_inventory_rows in Hrow.
    destruct Hrow as (Htin & Htp & _ & st & Hstin & Hstid & _).
    assert (Hkt : inventory_key to_inv = (t, pid))
      by (unfold inventory_key; congruence).
    assert (Hatt : stock_at (db_inventory db) (t, pid)
                   = Some (stock_level to_inv)).
    { rewrite <- Hkt. apply stock_at_In; assumption. }
    destruct (move_stock_spec (db_inventory db) (f, pid) (t, pid) q
                (stock_level from_inv) (stock_level to_inv)
                Hnd Hneq Hatf Hatt) as (Hkeys & Hat & Htot).
    rewrite Hkf, Hkt, Hatt. cbn [stock_or_zero].
    eexists _, _, _, _.
    split; [exact Eft|]. split; [exact Eq|]. split; [exact Hatf|].
    split; [exact Elt|]. split; [exact Hstore_f|]. split.
    { left. apply in_map_iff. exists st. split; [congruence | exact Hstin]. }
    split; [reflexivity|]. split; [reflexivity|]. split.
    { rewrite Hkeys. exact Hnd. }
    split; [rewrite Hkeys, List.app_nil_r; reflexivity|].
    split; [exact Hat | exact (Htot eq_refl)].
  - (* the destination row is created *)
    unfold InventoryServer.add_inventory.
    change (inventory_key {| inv_store_id := t; inv_product_id := pid;
                             stock_level := 0 |}) with (t, pid).
    destruct (memb (pair_eqb Z.eqb Z.eqb) (t, pid)
                (map inventory_key (db_inventory db))) eqn:Em.
    { cbn. intros H. injection H as <- <-. left. split; reflexivity. }
    cbn [bind ret raise Res_Monad]. intros H. injection H as <- <-. right.
    assert (Hnot : ~ In (t, pid) (map inventory_key (db_inventory db))).
    { intros Hin. apply (memb_In _ key_eqb_eq) in Hin. congruence. }
    assert (Hatt : stock_at (db_inventory db) (t, pid) = None)
      by (apply stock_at_None; exact Hnot).
    set (new := {| inv_store_id := t; inv_product_id := pid; stock_level := 0 |}).
    set (tbl := db_inventory db ++ [new]).
    assert (Hnd' : NoDup (map inventory_key tbl)).
    { unfold tbl. rewrite map_app. cbn [map].
      apply NoDup_app; [exact Hnd | repeat constructor; intros [] | ].
      intros k Hk [<- | []]. exact (Hnot Hk). }
    assert (Hf' : stock_at tbl (f, pid) = Some (stock_level from_inv)).
    { unfold tbl. rewrite stock_at_app, Hatf. reflexivity. }
    assert (Ht' : stock_at tbl (t, pid) = Some 0).
    { unfold tbl. rewrite stock_at_app, Hatt. unfold stock_at. cbn [find].
      change (inventory_key new) with (t, pid).
      rewrite (key_eqb_refl (t, pid)). reflexivity. }
    destruct (move_stock_spec tbl (f, pid) (t, pid) q
                (stock_level from_inv) 0 Hnd' Hneq Hf' Ht')
      as (Hkeys & Hat & Htot).
    change (0 + q) with q in Hkeys, Hat, Htot.
    rewrite Hkf, Hatt. cbn [stock_or_zero].
    change (inventory_key new) with (t, pid).
    change (stock_level new) with 0.
    eexists _, _, _, _.
    split; [exact Eft|]. split; [exact Eq|]. split; [exact Hatf|].
    split; [exact Elt|]. split; [exact Hstore_f|].
    split; [right; reflexivity|].
    split; [reflexivity|]. split; [reflexivity|]. split.
    { rewrite Hkeys. exact Hnd'. }
    split; [rewrite Hkeys; unfold tbl; rewrite map_app; reflexivity|].
    split.
    + intros k. rewrite Hat.
      destruct (pair_eqb Z.eqb Z.eqb k (f, pid)); [reflexivity|].
      destruct (pair_eqb Z.eqb Z.eqb k (t, pid)) eqn:Ekt; [reflexivity|].
      unfold tbl. rewrite stock_at_app.
      destruct (stock_at (db_inventory db) k); [reflexivity|].
      unfold stock_at. cbn [find]. change (inventory_key new) with (t, pid).
      assert (Htk : pair_eqb Z.eqb Z.eqb (t, pid) k = false).
      { apply key_eqb_neq. apply key_eqb_neq in Ekt. congruence. }
      rewrite Htk. reflexivity.
    + intros p. rewrite (Htot eq_refl p). unfold tbl.
      rewrite total_stock_app, total_stock_cons.
      cbn [stock_level inv_product_id new].
      unfold total_stock at 2. cbn.
      destruct (pid =? p); lia.
Qed.
Lemma transfer_stock_succeeds f t pid q db old_f :
  NoDup (map inventory_key (db_inventory db)) ->
  f <> t -> 0 < q ->
  stock_at (db_inventory db) (f, pid) = Some old_f -> q <= old_f ->
  In f (map store_id (db_stores db)) ->
  (In t (map store_id (db_stores db))
   \/ stock_at (db_inventory db) (t, pid) = None) ->
  InventoryServer.success (fst (InventoryServer.transfer_stock f t pid q db))
  = true.
Proof.
  intros Hnd Hft Hq Hatf Hle Hsf Hdest.
  unfold InventoryServer.transfer_stock.
  assert (E1 : (f =? t) = false) by (apply Z.eqb_neq; exact Hft).
  assert (E2 : (q <=? 0) = false) by (apply Z.leb_gt; exact Hq).
  rewrite E1, E2. cbn zeta. unfold InventoryServer.organize.
  set (found := fold_left (InventoryServer.organize_step f t)
                  (InventoryServer.inventory_rows f t pid db) _).
  destruct (stock_at_Some _ _ _ Hatf) as (rf & Hrf & Hkf & Hlf).
  apply in_map_iff in Hsf. destruct Hsf as (sf & Hsfid & Hsfin).
  assert (Hrowf : In (rf, store_name sf)
                     (InventoryServer.inventory_rows f t pid db)).
  { apply In_inventory_rows. unfold inventory_key in Hkf.
    injection Hkf as Hs Hp. repeat split; auto.
    exists sf. repeat split; auto. congruence. }
  destruct (InventoryServer.from_inventory found) as [from_inv|] eqn:Ef.
  2:{ exfalso. apply (organize_from_none _ _ _ _ Ef _ Hrowf).
      cbn [fst]. unfold inventory_key in Hkf. congruence. }
  destruct (organize_from_inv _ _ _ _ _ Ef) as [(nm & Hrow & Hsfrom) | Hacc];
    [|discriminate Hacc].
  apply In_inventory_rows in Hrow. destruct Hrow as (Hfin & Hfp & _).
  assert (Hkfrom : inventory_key from_inv = (f, pid))
    by (unfold inventory_key; congruence).
  assert (Hsame : stock_level from_inv = old_f).
  { pose proof (stock_at_In _ _ Hnd Hfin) as H. rewrite Hkfrom, Hatf in H.
    congruence. }
  assert (E3 : (stock_level from_inv <? q) = false)
    by (apply Z.ltb_ge; lia).
  rewrite E3.
  destruct (InventoryServer.to_inventory found) as [to_inv|] eqn:Et;
    [reflexivity|].
  unfold InventoryServer.add_inventory.
  change (inventory_key {| inv_store_id := t; inv_product_id := pid;
                           stock_level := 0 |}) with (t, pid).
  destruct (memb (pair_eqb Z.eqb Z.eqb) (t, pid)
              (map inventory_key (db_inventory db))) eqn:Em; [|reflexivity].
  exfalso. apply (memb_In _ key_eqb_eq) in Em.
  destruct Hdest as [Hst | Hnone];
    [|apply stock_at_None in Hnone; exact (Hnone Em)].
  apply in_map_iff in Em. destruct Em as (rt & Hkt & Hrt).
  apply in_map_iff in Hst. destruct Hst as (st & Hstid & Hstin).
  assert (Hrowt : In (rt, store_name st)
                     (InventoryServer.inventory_rows f t pid db)).
  { apply In_inventory_rows. unfold inventory_key in Hkt.
    injection Hkt as Hs Hp. repeat split; auto.
    exists st. repeat split; auto. congruence. }
  apply (organize_to_none _ _ _ _ Hft Et _ Hrowt).
  cbn [fst]. unfold inventory_key in Hkt. congruence.
Qed.

(** A small shop for the examples: two stores, two products, and stock of
    the first product in both stores. *)
Definition server_db : DB :=
  set_inventory
    [ {| inv_store_id := 1; inv_product_id := 1; stock_level := 40 |};
      {| inv_store_id := 2; inv_product_id := 1; stock_level := 5 |};
      {| inv_store_id := 1; inv_product_id := 2; stock_level := 7 |} ]
    stocked_db.

Lemma server_db_keys : NoDup (map inventory_key (db_inventory server_db)).
Proof.
  apply (distinctb_NoDup _ key_eqb_eq). reflexivity.
Qed.

(** A success on the engine is a success of [transfer_stock], with the same
    report and the same database. *)
Lemma transfer_stock_int64_success f t pid q db r db' :
  InventoryServer.transfer_stock_int64 f t pid q db = (r, db') ->
  InventoryServer.success r = true ->
  InventoryServer.transfer_stock f t pid q db = (r, db').
Proof.
  unfold InventoryServer.transfer_stock_int64. intros E Hs.
  destruct (f =? t) eqn:E1;
    [injection E as <- <-; discriminate Hs|].
  destruct (q <=? 0) eqn:E2;
    [injection E as <- <-; discriminate Hs|].
  destruct (negb _);
    [injection E as <- <-; discriminate Hs|].
  destruct (InventoryServer.transfer_stock f t pid q db) as [r0 db0].
  destruct r0; try exact E.
  destruct (_ && _); [exact E|].
  injection E as <- <-. discriminate Hs.
Qed.

(** X10.  On an inventory that satisfies its key constraint, a transfer
    succeeds if and only if the two stores differ, the quantity is positive,
    the source store exists and has an inventory row for the product with at
    least that quantity, the destination store exists or has no inventory
    row for the product, and the three ids and the two stock levels after
    the transfer fit in the 64 bits of an INTEGER of SQLite (a stock level
    of the destination that would exceed them makes the commit raise, which
    the tool reports as a failure). *)
Theorem transfer_stock_succeeds_iff f t pid q db :
  NoDup (map inventory_key (db_inventory db)) ->
  (InventoryServer.success
     (fst (InventoryServer.transfer_stock_int64 f t pid q db)) = true
   <->
   f <> t /\ 0 < q /\
   (exists available,
       stock_at (db_inventory db) (f, pid) = Some available /\ q <= available /\
       InventoryServer.fits_int64 (available - q) = true) /\
   In f (map store_id (db_stores db)) /\
   (In t (map store_id (db_stores db))
    \/ stock_at (db_inventory db) (t, pid) = None) /\
   InventoryServer.fits_int64 f = true /\
   InventoryServer.fits_int64 t = true /\
   InventoryServer.fits_int64 pid = true /\
   InventoryServer.fits_int64
     (stock_or_zero (stock_at (db_inventory db) (t, pid)) + q) = true).
Proof.
  intros Hnd. unfold InventoryServer.transfer_stock_int64. split.
  - intros Hs.
    destruct (f =? t) eqn:E1; [discriminate Hs|].
    destruct (q <=? 0) eqn:E2; [discriminate Hs|].
    destruct (InventoryServer.fits_int64 f) eqn:Ff; [|discriminate Hs].
    destruct (InventoryServer.fits_int64 t) eqn:Ft; [|discriminate Hs].
    destruct (InventoryServer.fits_int64 pid) eqn:Fp; [|discriminate Hs].
    cbn [andb negb] in Hs.
    destruct (InventoryServer.transfer_stock f t pid q db) as [r db'] eqn:E.
    destruct (transfer_stock_inv _ _ _ _ _ _ _ Hnd E)
      as [[Hfail _] | (old_f & nf & nt & tbl' & H1 & H2 & H3 & H4 & H5 & H6
                       & Hr & _)].
    + destruct r; try discriminate Hs. discriminate Hfail.
    + subst r. cbn [InventoryServer.stock_after] in Hs.
      destruct (InventoryServer.fits_int64 (old_f - q)) eqn:Fa;
        [|discriminate Hs].
      destruct (InventoryServer.fits_int64
                  (stock_or_zero (stock_at (db_inventory db) (t, pid)) + q))
        eqn:Fb; [|discriminate Hs].
      repeat split; auto. exists old_f. auto.
  - intros (H1 & H2 & (old_f & H3 & H4 & Fa) & H5 & H6 & Ff & Ft & Fp & Fb).
    assert (E1 : (f =? t) = false) by (apply Z.eqb_neq; exact H1).
    assert (E2 : (q <=? 0) = false) by (apply Z.leb_gt; exact H2).
    rewrite E1, E2, Ff, Ft, Fp. cbn [andb negb].
    pose proof (transfer_stock_succeeds _ _ _ _ _ _ Hnd H1 H2 H3 H4 H5 H6)
      as Hs.
    destruct (InventoryServer.transfer_stock f t pid q db) as [r db'] eqn:E.
    cbn [fst] in Hs.
    destruct (transfer_stock_inv _ _ _ _ _ _ _ Hnd E)
      as [[Hfail _] | (old_f' & nf & nt & tbl' & _ & _ & H3' & _ & _ & _
                       & Hr & _)]; [congruence|].
    assert (old_f' = old_f) by congruence. subst old_f' r.
    cbn [InventoryServer.stock_after]. rewrite Fa, Fb. reflexivity.
Qed.

(** A shop whose second store holds as much of the first product as an
    INTEGER can hold. *)
Definition full_db : DB :=
  set_inventory
    [ {| inv_store_id := 1; inv_product_id := 1; stock_level := 40 |};
      {| inv_store_id := 2; inv_product_id := 1;
         stock_level := 9223372036854775807 |} ]
    stocked_db.

Lemma transfer_stock_succeeds_witness :
  InventoryServer.success
    (fst (InventoryServer.transfer_stock_int64 1 2 1 10 server_db)) = true
  /\ InventoryServer.success
       (fst (InventoryServer.transfer_stock_int64 2 1 1 10 server_db)) = false
  /\ InventoryServer.transfer_stock_int64 1 2 1 10 full_db
     = (InventoryServer.TransferError OverflowError, full_db).
Proof.
  split; [|split].
  - apply (proj2 (transfer_stock_succeeds_iff 1 2 1 10 server_db server_db_keys)).
    split; [discriminate|]. split; [reflexivity|]. split.
    + exists 40. split; [reflexivity|]. split; [discriminate | reflexivity].
    + split; [left; reflexivity|].
      split; [left; right; left; reflexivity|].
      repeat split; reflexivity.
  - destruct (InventoryServer.success
                (fst (InventoryServer.transfer_stock_int64 2 1 1 10 server_db)))
      eqn:E; [|reflexivity].
    apply (proj1 (transfer_stock_succeeds_iff 2 1 1 10 server_db
                    server_db_keys)) in E.
    destruct E as (_ & _ & (available & Hat & Hle & _) & _).
    vm_compute in Hat. injection Hat as <-. exfalso. apply Hle. reflexivity.
  - vm_compute. reflexivity.
Defined.

(** X11.  A transfer that fails leaves the database as it was.  A transfer
    that succeeds reports the stock of the two stores before and after; the
    source goes down and the destination goes up by exactly the quantity,
    a destination without a row starting from 0; the stock of every other
    (store, product) pair and every other table stay as they were. *)
Theorem transfer_stock_moves_the_quantity f t pid q db r db' :
  NoDup (map inventory_key (db_inventory db)) ->
  InventoryServer.transfer_stock f t pid q db = (r, db') ->
  (InventoryServer.success r = false -> db' = db) /\
  (InventoryServer.success r = true ->
   exists from_report to_report,
     r = InventoryServer.Transferred pid q from_report to_report /\
     stock_at (db_inventory db) (f, pid)
     = Some (InventoryServer.stock_before from_report) /\
     InventoryServer.stock_before to_report
     = stock_or_zero (stock_at (db_inventory db) (t, pid)) /\
     InventoryServer.stock_after from_report
     = InventoryServer.stock_before from_report - q /\
     InventoryServer.stock_after to_report
     = InventoryServer.stock_before to_report + q /\
     stock_at (db_inventory db') (f, pid)
     = Some (InventoryServer.stock_after from_report) /\
     stock_at (db_inventory db') (t, pid)
     = Some (InventoryServer.stock_after to_report) /\
     (forall k, k <> (f, pid) -> k <> (t, pid) ->
                stock_at (db_inventory db') k = stock_at (db_inventory db) k) /\
     db' = set_inventory (db_inventory db') db).
Proof.
  intros Hnd E.
  destruct (transfer_stock_inv _ _ _ _ _ _ _ Hnd E)
    as [[Hfail Hdb] | (old_f & nf & nt & tbl' & H1 & H2 & H3 & H4 & H5 & H6
                       & Hr & Hdb & Hnd' & Hkeys & Hat & Htot)].
  - split; [intros _; exact Hdb | congruence].
  - subst r db'. split; [discriminate|]. intros _.
    eexists _, _. split; [reflexivity|].
    cbn [InventoryServer.stock_before InventoryServer.stock_after
         db_inventory set_inventory].
    split; [exact H3|]. split; [reflexivity|]. split; [reflexivity|].
    split; [reflexivity|]. split; [|split; [|split]].
    + rewrite Hat, (key_eqb_refl (f, pid)). reflexivity.
    + rewrite Hat, (key_eqb_refl (t, pid)).
      assert (Htf : pair_eqb Z.eqb Z.eqb (t, pid) (f, pid) = false)
        by (apply key_eqb_neq; congruence).
      rewrite Htf. reflexivity.
    + intros k Hkf Hkt. rewrite Hat.
      apply key_eqb_neq in Hkf. apply key_eqb_neq in Hkt.
      rewrite Hkf, Hkt. reflexivity.
    + reflexivity.
Qed.

Lemma transfer_stock_moves_witness :
  stock_at (db_inventory
              (snd (InventoryServer.transfer_stock 1 2 1 10 server_db))) (1, 1)
  = Some 30 /\
  stock_at (db_inventory
              (snd (InventoryServer.transfer_stock 1 2 1 10 server_db))) (2, 1)
  = Some 15 /\
  stock_at (db_inventory
              (snd (InventoryServer.transfer_stock 1 2 1 10 server_db))) (1, 2)
  = Some 7.
Proof.
  destruct (InventoryServer.transfer_stock 1 2 1 10 server_db)
    as [r db'] eqn:E.
  destruct (transfer_stock_moves_the_quantity 1 2 1 10 server_db r db'
              server_db_keys E) as [_ Hok].
  assert (Hs : InventoryServer.success r = true)
    by (vm_compute in E; injection E as <- _; reflexivity).
  destruct (Hok Hs) as (fr & tr & Hr & Hbf & Hbt & Haf & Hat & Hf & Ht & Hother & _).
  cbn [snd].
  assert (H40 : stock_at (db_inventory server_db) (1, 1) = Some 40)
    by reflexivity.
  assert (H5 : stock_or_zero (stock_at (db_inventory server_db) (2, 1)) = 5)
    by reflexivity.
  rewrite H40 in Hbf. injection Hbf as Hbf. rewrite H5 in Hbt.
  split; [|split].
  - rewrite Hf, Haf, <- Hbf. reflexivity.
  - rewrite Ht, Hat, Hbt. reflexivity.
  - rewrite (Hother (1, 2)); [reflexivity | discriminate | discriminate].
Defined.
(** ** What a transfer preserves *)

Definition stock_is_not_negative (tbl : list Inventory) : Prop :=
  Forall (fun i => 0 <= stock_level i) tbl.

(** X12.  Whatever its outcome, a transfer keeps the key constraint of the
    inventory, keeps the total stock of every product over all stores, and
    never makes a stock level negative when none was. *)
Theorem transfer_stock_keeps_the_books f t pid q db r db' :
  NoDup (map inventory_key (db_inventory db)) ->
  InventoryServer.transfer_stock f t pid q db = (r, db') ->
  NoDup (map inventory_key (db_inventory db')) /\
  (forall p, total_stock p (db_inventory db') = total_stock p (db_inventory db)) /\
  (stock_is_not_negative (db_inventory db) ->
   stock_is_not_negative (db_inventory db')).
Proof.
  intros Hnd E.
  destruct (transfer_stock_inv _ _ _ _ _ _ _ Hnd E)
    as [[Hfail Hdb] | (old_f & nf & nt & tbl' & H1 & H2 & H3 & H4 & H5 & H6
                       & Hr & Hdb & Hnd' & Hkeys & Hat & Htot)].
  - subst db'. repeat split; auto.
  - subst db'. cbn [db_inventory set_inventory].
    split; [exact Hnd'|]. split; [exact Htot|].
    unfold stock_is_not_negative. rewrite !Forall_forall. intros Hpos i Hi.
    pose proof (stock_at_In _ _ Hnd' Hi) as Hrow. rewrite Hat in Hrow.
    destruct (pair_eqb Z.eqb Z.eqb (inventory_key i) (f, pid)).
    + injection Hrow as Hrow. lia.
    + destruct (pair_eqb Z.eqb Z.eqb (inventory_key i) (t, pid)).
      * injection Hrow as Hrow.
        destruct (stock_at (db_inventory db) (t, pid)) as [old_t|] eqn:Et;
          cbn [stock_or_zero] in Hrow; [|lia].
        apply stock_at_Some in Et. destruct Et as (r0 & Hr0 & _ & Hl).
        specialize (Hpos r0 Hr0). lia.
      * apply stock_at_Some in Hrow. destruct Hrow as (r0 & Hr0 & _ & Hl).
        specialize (Hpos r0 Hr0). lia.
Qed.

Lemma transfer_stock_books_witness :
  total_stock 1
    (db_inventory (snd (InventoryServer.transfer_stock 1 2 1 10 server_db)))
  = 45 /\
  stock_is_not_negative
    (db_inventory (snd (InventoryServer.transfer_stock 1 2 1 10 server_db))).
Proof.
  destruct (InventoryServer.transfer_stock 1 2 1 10 server_db)
    as [r db'] eqn:E.
  destruct (transfer_stock_keeps_the_books 1 2 1 10 server_db r db'
              server_db_keys E) as (_ & Htot & Hpos).
  cbn [snd]. split.
  - rewrite Htot. reflexivity.
  - apply Hpos. repeat constructor; discriminate.
Defined.

(** ** Transferring back *)

(** An inventory is determined by its keys and the stock at each key. *)
Lemma inventory_ext (a b : list Inventory) :
  NoDup (map inventory_key a) ->
  map inventory_key a = map inventory_key b ->
  (forall k, stock_at a k = stock_at b k) ->
  a = b.
Proof.
  revert b. induction a as [|x a IH]; intros [|y b] Hnd Hkeys Hat;
    try discriminate Hkeys; [reflexivity|].
  cbn [map] in Hkeys, Hnd.
  pose proof (f_equal (hd (0, 0)) Hkeys) as Hk.
  pose proof (f_equal (@tl (Z * Z)) Hkeys) as Hkt.
  cbn [hd tl] in Hk, Hkt. clear Hkeys. rename Hkt into Hkeys.
  inversion Hnd as [|? ? Hx Hnd']; subst.
  assert (x = y).
  { pose proof (Hat (inventory_key x)) as Hxy.
    rewrite !stock_at_cons in Hxy.
    rewrite <- Hk in Hxy. rewrite (key_eqb_refl (inventory_key x)) in Hxy.
    injection Hxy as Hl. destruct x, y. unfold inventory_key in Hk.
    cbn in Hk, Hl. injection Hk as Hk1 Hk2. subst. reflexivity. }
  subst y. f_equal. apply IH; [exact Hnd' | exact Hkeys|].
  intros k. pose proof (Hat k) as Hxy. rewrite !stock_at_cons in Hxy.
  destruct (pair_eqb Z.eqb Z.eqb (inventory_key x) k) eqn:E; [|exact Hxy].
  apply key_eqb_eq in E. subst k.
  rewrite (proj2 (stock_at_None a (inventory_key x)) Hx).
  rewrite Hkeys in Hx.
  rewrite (proj2 (stock_at_None b (inventory_key x)) Hx). reflexivity.
Qed.

Lemma set_inventory_twice (a b : list Inventory) (db : DB) :
  set_inventory a (set_inventory b db) = set_inventory a db.
Proof. reflexivity. Qed.

Lemma set_inventory_same (db : DB) : set_inventory (db_inventory db) db = db.
Proof. destruct db. reflexivity. Qed.

(** X13.  After a successful transfer to a store that exists, on an inventory
    without negative stock, the transfer of the same quantity in the opposite
    direction succeeds too, and it restores the database: exactly, when the
    destination had an inventory row for the product, and up to the row
    with stock 0 that the first transfer created for it, when it had
    none. *)
Theorem transfer_back_restores_the_stock f t pid q db r1 db1 :
  NoDup (map inventory_key (db_inventory db)) ->
  stock_is_not_negative (db_inventory db) ->
  In t (map store_id (db_stores db)) ->
  InventoryServer.transfer_stock f t pid q db = (r1, db1) ->
  InventoryServer.success r1 = true ->
  exists r2 db2,
    InventoryServer.transfer_stock t f pid q db1 = (r2, db2) /\
    InventoryServer.success r2 = true /\
    (stock_at (db_inventory db) (t, pid) <> None -> db2 = db) /\
    (stock_at (db_inventory db) (t, pid) = None ->
     db2 = set_inventory
             (db_inventory db
              ++ [ {| inv_store_id := t; inv_product_id := pid;
                      stock_level := 0 |} ])
             db).
Proof.
  intros Hnd Hpos Hst E1 Hs1.
  destruct (transfer_stock_inv _ _ _ _ _ _ _ Hnd E1)
    as [[Hfail _] | (old_f & nf & nt & tbl1 & H1 & H2 & H3 & H4 & H5 & H6
                     & Hr & Hdb & Hnd1 & Hkeys1 & Hat1 & _)];
    [congruence|].
  subst db1. clear Hs1 Hr.
  set (old_t := stock_or_zero (stock_at (db_inventory db) (t, pid))) in *.
  assert (Hold_t : 0 <= old_t).
  { unfold old_t.
    destruct (stock_at (db_inventory db) (t, pid)) as [l|] eqn:Et;
      cbn [stock_or_zero]; [|lia].
    apply stock_at_Some in Et. destruct Et as (r0 & Hr0 & _ & Hl).
    unfold stock_is_not_negative in Hpos. rewrite Forall_forall in Hpos.
    specialize (Hpos r0 Hr0). lia. }
  assert (Htf : pair_eqb Z.eqb Z.eqb (t, pid) (f, pid) = false)
    by (apply key_eqb_neq; congruence).
  assert (Hft : pair_eqb Z.eqb Z.eqb (f, pid) (t, pid) = false)
    by (apply key_eqb_neq; congruence).
  assert (Hat1t : stock_at tbl1 (t, pid) = Some (old_t + q)).
  { rewrite Hat1, Htf, (key_eqb_refl (t, pid)). reflexivity. }
  assert (Hat1f : stock_at tbl1 (f, pid) = Some (old_f - q)).
  { rewrite Hat1, (key_eqb_refl (f, pid)). reflexivity. }
  destruct (InventoryServer.transfer_stock t f pid q (set_inventory tbl1 db))
    as [r2 db2] eqn:E2.
  assert (Hs2 : InventoryServer.success r2 = true).
  { change r2 with (fst (r2, db2)). rewrite <- E2.
    apply (transfer_stock_succeeds t f pid q (set_inventory tbl1 db)
             (old_t + q)); cbn [db_inventory db_stores set_inventory];
      auto; try lia. }
  exists r2, db2. split; [reflexivity|]. split; [exact Hs2|].
  destruct (transfer_stock_inv t f pid q (set_inventory tbl1 db) r2 db2
              Hnd1 E2)
    as [[Hfail _] | (old_t' & nf' & nt' & tbl2 & _ & _ & G3 & _ & _ & _
                     & _ & Hdb2 & Hnd2 & Hkeys2 & Hat2 & _)];
    [congruence|].
  cbn [db_inventory db_stores set_inventory] in G3, Hkeys2, Hat2.
  rewrite Hat1t in G3. injection G3 as <-.
  rewrite Hat1f in Hkeys2, Hat2. cbn [stock_or_zero] in Hat2.
  rewrite List.app_nil_r in Hkeys2.
  subst db2. rewrite set_inventory_twice.
  assert (Hat : forall k, stock_at tbl2 k
                          = if pair_eqb Z.eqb Z.eqb k (t, pid) then Some old_t
                            else stock_at (db_inventory db) k).
  { intros k. rewrite Hat2.
    destruct (pair_eqb Z.eqb Z.eqb k (t, pid)) eqn:Ekt;
      [f_equal; lia|].
    destruct (pair_eqb Z.eqb Z.eqb k (f, pid)) eqn:Ekf.
    - apply key_eqb_eq in Ekf. subst k. rewrite H3. f_equal. lia.
    - rewrite Hat1, Ekf, Ekt. reflexivity. }
  split.
  - intros Hsome.
    destruct (stock_at (db_inventory db) (t, pid)) as [l|] eqn:Et;
      [|congruence].
    rewrite List.app_nil_r in Hkeys1.
    rewrite <- (set_inventory_same db) at 2. f_equal.
    apply inventory_ext; [exact Hnd2 | congruence|].
    intros k. rewrite Hat.
    destruct (pair_eqb Z.eqb Z.eqb k (t, pid)) eqn:Ekt; [|reflexivity].
    apply key_eqb_eq in Ekt. subst k. rewrite Et. reflexivity.
  - intros Hnone. rewrite Hnone in Hkeys1. f_equal.
    apply inventory_ext; [exact Hnd2 | |].
    + rewrite Hkeys2, Hkeys1, map_app. reflexivity.
    + intros k. rewrite Hat, stock_at_app.
      unfold old_t. rewrite Hnone. cbn [stock_or_zero].
      destruct (pair_eqb Z.eqb Z.eqb k (t, pid)) eqn:Ekt.
      * apply key_eqb_eq in Ekt. subst k. rewrite Hnone.
        unfold stock_at. cbn [find].
        change (inventory_key {| inv_store_id := t; inv_product_id := pid;
                                 stock_level := 0 |}) with (t, pid).
        rewrite (key_eqb_refl (t, pid)). reflexivity.
      * destruct (stock_at (db_inventory db) k); [reflexivity|].
        unfold stock_at. cbn [find].
        change (inventory_key {| inv_store_id := t; inv_product_id := pid;
                                 stock_level := 0 |}) with (t, pid).
        assert (Htk : pair_eqb Z.eqb Z.eqb (t, pid) k = false).
        { apply key_eqb_neq. apply key_eqb_neq in Ekt. congruence. }
        rewrite Htk. reflexivity.
Qed.

Lemma transfer_back_witness :
  snd (InventoryServer.transfer_stock 2 1 1 10
         (snd (InventoryServer.transfer_stock 1 2 1 10 server_db)))
  = server_db.
Proof.
  destruct (InventoryServer.transfer_stock 1 2 1 10 server_db)
    as [r1 db1] eqn:E1.
  assert (Hs1 : InventoryServer.success r1 = true)
    by (vm_compute in E1; injection E1 as <- _; reflexivity).
  assert (Hpos : stock_is_not_negative (db_inventory server_db))
    by (repeat constructor; discriminate).
  assert (Hst : In 2 (map store_id (db_stores server_db)))
    by (right; left; reflexivity).
  destruct (transfer_back_restores_the_stock 1 2 1 10 server_db r1 db1
              server_db_keys Hpos Hst E1 Hs1)
    as (r2 & db2 & E2 & _ & Hsame & _).
  cbn [snd]. rewrite E2. cbn [snd]. apply Hsame. discriminate.
Defined.
(** ** The stock query *)

From Stdlib Require Import Sorting.Permutation Sorting.Sorted.

(** The row that the join builds from an inventory row, its store and its
    product. *)
Definition stock_row (inv : Inventory) (s : Store) (p : Product)
  : InventoryServer.StockRow :=
  {| InventoryServer.row_store_id := inv_store_id inv;
     InventoryServer.row_product_id := inv_product_id inv;
     InventoryServer.row_stock_level := stock_level inv;
     InventoryServer.row_store_name := store_name s;
     InventoryServer.row_is_online := is_online s;
     InventoryServer.row_product_name := product_name p;
     InventoryServer.row_sku := sku p |}.

Lemma In_joined_rows pid db r :
  In r (InventoryServer.joined_rows pid db) <->
  exists inv s p,
    In inv (db_inventory db) /\ In s (db_stores db) /\ In p (db_products db) /\
    store_id s = inv_store_id inv /\ product_id p = inv_product_id inv /\
    product_id p = pid /\ r = stock_row inv s p.
Proof.
  unfold InventoryServer.joined_rows. rewrite in_flat_map. split.
  - intros (inv & Hinv & H). apply in_flat_map in H.
    destruct H as (s & Hs & H).
    destruct (store_id s =? inv_store_id inv) eqn:Es; [|destruct H].
    apply in_flat_map in H. destruct H as (p & Hp & H).
    destruct ((product_id p =? inv_product_id inv) && (product_id p =? pid))
      eqn:Ep; [|destruct H].
    destruct H as [<- | []].
    apply andb_true_iff in Ep. rewrite !Z.eqb_eq in Ep. apply Z.eqb_eq in Es.
    exists inv, s, p. repeat split; tauto.
  - intros (inv & s & p & Hinv & Hs & Hp & Es & Ep & Epid & ->).
    exists inv. split; [exact Hinv|]. apply in_flat_map.
    exists s. split; [exact Hs|]. apply Z.eqb_eq in Es. rewrite Es.
    apply in_flat_map. exists p. split; [exact Hp|].
    apply Z.eqb_eq in Ep. apply Z.eqb_eq in Epid. rewrite Ep, Epid.
    left. reflexivity.
Qed.

Lemma insert_by_stock_perm (r : InventoryServer.StockRow) l :
  Permutation (InventoryServer.insert_by_stock r l) (r :: l).
Proof.
  induction l as [|y t IH]; [apply Permutation_refl|].
  cbn [InventoryServer.insert_by_stock].
  destruct (InventoryServer.row_stock_level y
            <=? InventoryServer.row_stock_level r);
    [apply Permutation_refl|].
  eapply Permutation_trans; [apply perm_skip; exact IH | apply perm_swap].
Qed.

Lemma order_by_stock_desc_perm l :
  Permutation (InventoryServer.order_by_stock_desc l) l.
Proof.
  induction l as [|r t IH]; [apply Permutation_refl|].
  cbn [InventoryServer.order_by_stock_desc fold_right].
  eapply Permutation_trans; [apply insert_by_stock_perm|].
  apply perm_skip. exact IH.
Qed.

(** [a] comes before [c] in an answer only if it has at least as much
    stock. *)
Definition at_least_as_stocked (a c : InventoryServer.StockRow) : Prop :=
  InventoryServer.row_stock_level c <= InventoryServer.row_stock_level a.

Lemma insert_by_stock_sorted (r : InventoryServer.StockRow) l :
  StronglySorted at_least_as_stocked l ->
  StronglySorted at_least_as_stocked (InventoryServer.insert_by_stock r l).
Proof.
  induction 1 as [|y t Hs IH Hall];
    [repeat constructor|].
  cbn [InventoryServer.insert_by_stock].
  destruct (InventoryServer.row_stock_level y
            <=? InventoryServer.row_stock_level r) eqn:E.
  - apply Z.leb_le in E. constructor; [constructor; assumption|].
    constructor; [exact E|].
    eapply Forall_impl; [|exact Hall]. unfold at_least_as_stocked.
    intros c Hc. lia.
  - apply Z.leb_gt in E. constructor; [exact IH|].
    apply Forall_forall. intros c Hc.
    apply (Permutation_in _ (insert_by_stock_perm r t)) in Hc.
    destruct Hc as [<- | Hc].
    + unfold at_least_as_stocked. lia.
    + rewrite Forall_forall in Hall. exact (Hall c Hc).
Qed.

Lemma order_by_stock_desc_sorted l :
  StronglySorted at_least_as_stocked (InventoryServer.order_by_stock_desc l).
Proof.
  induction l as [|r t IH]; [constructor|].
  cbn [InventoryServer.order_by_stock_desc fold_right].
  apply insert_by_stock_sorted. exact IH.
Qed.

(** The rows of an answer, whatever their order. *)
Definition answer_row (pid : Z) (b : option bool) (db : DB)
  (r : InventoryServer.StockRow) : Prop :=
  exists inv s p,
    In inv (db_inventory db) /\ In s (db_stores db) /\ In p (db_products db) /\
    store_id s = inv_store_id inv /\ product_id p = inv_product_id inv /\
    product_id p = pid /\
    (forall x, b = Some x -> is_online s = x) /\
    r = stock_row inv s p.

Lemma In_stock_answer pid b db r :
  In r (InventoryServer.get_stock_level_by_product_id pid b db)
  <-> answer_row pid b db r.
Proof.
  unfold InventoryServer.get_stock_level_by_product_id, answer_row. cbn zeta.
  split.
  - intros H. apply (Permutation_in _ (order_by_stock_desc_perm _)) in H.
    destruct b as [x|].
    + apply filter_In in H. destruct H as [H Hx].
      apply In_joined_rows in H.
      destruct H as (inv & s & p & H1 & H2 & H3 & H4 & H5 & H6 & ->).
      cbn [stock_row InventoryServer.row_is_online] in Hx.
      apply Bool.eqb_prop in Hx.
      exists inv, s, p. repeat split; auto. intros y Hy. congruence.
    + apply In_joined_rows in H.
      destruct H as (inv & s & p & H1 & H2 & H3 & H4 & H5 & H6 & ->).
      exists inv, s, p. repeat split; auto. discriminate.
  - intros (inv & s & p & H1 & H2 & H3 & H4 & H5 & H6 & Hb & ->).
    apply (Permutation_in _ (Permutation_sym (order_by_stock_desc_perm _))).
    assert (Hj : In (stock_row inv s p) (InventoryServer.joined_rows pid db)).
    { apply In_joined_rows. exists inv, s, p. repeat split; auto. }
    destruct b as [x|]; [|exact Hj].
    apply filter_In. split; [exact Hj|].
    cbn [stock_row InventoryServer.row_is_online].
    rewrite (Hb x eq_refl). apply Bool.eqb_reflx.
Qed.

(** ** One answer row per store *)

Lemma flat_map_all_nil {A B} (f : A -> list B) (l : list A) :
  (forall a, In a l -> f a = []) -> flat_map f l = [].
Proof.
  induction l as [|a t IH]; intros H; [reflexivity|].
  cbn [flat_map]. rewrite (H a (or_introl eq_refl)). cbn [app].
  apply IH. intros a' Ha'. apply H. right. exact Ha'.
Qed.

Lemma flat_map_at_most_one {A B} (k : A -> Z) (x : Z) (f : A -> list B)
  (l : list A) :
  NoDup (map k l) ->
  (forall a, In a l -> k a <> x -> f a = []) ->
  (forall a, In a l -> (List.length (f a) <= 1)%nat) ->
  (List.length (flat_map f l) <= 1)%nat.
Proof.
  induction l as [|a t IH]; intros Hnd Hother Hone; [cbn; lia|].
  cbn [map] in Hnd. inversion Hnd as [|? ? Ha Hnd']; subst.
  cbn [flat_map]. rewrite length_app.
  destruct (Z.eq_dec (k a) x) as [Hk | Hk].
  - assert (Ht : flat_map f t = []).
    { apply flat_map_all_nil. intros a' Ha'.
      apply Hother; [right; exact Ha'|]. intros Hk'. apply Ha.
      rewrite Hk, <- Hk'. apply in_map. exact Ha'. }
    rewrite Ht. cbn [List.length]. rewrite Nat.add_0_r.
    apply Hone. left. reflexivity.
  - rewrite (Hother a (or_introl eq_refl) Hk). cbn [List.length plus].
    apply IH; [exact Hnd' | |]; intros a' Ha'.
    + apply Hother. right. exact Ha'.
    + apply Hone. right. exact Ha'.
Qed.

Lemma NoDup_short {A} (l : list A) : (List.length l <= 1)%nat -> NoDup l.
Proof.
  destruct l as [|a [|b t]]; cbn; intros H;
    [constructor | repeat constructor; intros [] | lia].
Qed.

Record KeysHold (db : DB) : Prop := {
  inventory_keys : NoDup (map inventory_key (db_inventory db));
  store_keys : NoDup (map store_id (db_stores db));
  product_keys : NoDup (map product_id (db_products db))
}.

Lemma joined_rows_one_per_store pid db :
  KeysHold db ->
  NoDup (map InventoryServer.row_store_id (InventoryServer.joined_rows pid db)).
Proof.
  intros [Hinv Hst Hpr]. unfold InventoryServer.joined_rows.
  set (rows_of := fun inv : Inventory => flat_map _ (db_stores db)).
  assert (Hrows : forall inv r, In r (rows_of inv) ->
                    InventoryServer.row_store_id r = inv_store_id inv /\
                    inv_product_id inv = pid).
  { intros inv r Hr. unfold rows_of in Hr. apply in_flat_map in Hr.
    destruct Hr as (s & _ & Hr).
    destruct (store_id s =? inv_store_id inv); [|destruct Hr].
    apply in_flat_map in Hr. destruct Hr as (p & _ & Hr).
    destruct ((product_id p =? inv_product_id inv) && (product_id p =? pid))
      eqn:Ep; [|destruct Hr].
    destruct Hr as [<- | []]. apply andb_true_iff in Ep.
    rewrite !Z.eqb_eq in Ep. cbn. split; [reflexivity | lia]. }
  assert (Hone : forall inv, (List.length (rows_of inv) <= 1)%nat).
  { intros inv. unfold rows_of.
    apply (flat_map_at_most_one store_id (inv_store_id inv)); [exact Hst | |].
    - intros s _ Hs. apply Z.eqb_neq in Hs. rewrite Hs. reflexivity.
    - intros s _. destruct (store_id s =? inv_store_id inv); [|cbn; lia].
      apply (flat_map_at_most_one product_id (inv_product_id inv));
        [exact Hpr | |].
      + intros p _ Hp. apply Z.eqb_neq in Hp. rewrite Hp. reflexivity.
      + intros p _.
        destruct ((product_id p =? inv_product_id inv)
                  && (product_id p =? pid)); cbn; lia. }
  clearbody rows_of.
  induction (db_inventory db) as [|inv t IH]; [constructor|].
  cbn [map] in Hinv. inversion Hinv as [|? ? Hk Hinv']; subst.
  cbn [flat_map]. rewrite map_app. apply NoDup_app.
  - apply NoDup_short. rewrite length_map. apply Hone.
  - apply IH. exact Hinv'.
  - intros sid Ha Hb. apply in_map_iff in Ha. destruct Ha as (r & <- & Hr).
    apply in_map_iff in Hb. destruct Hb as (r' & Heq & Hr').
    apply in_flat_map in Hr'. destruct Hr' as (inv' & Hin' & Hr').
    destruct (Hrows _ _ Hr) as [Hs Hp]. destruct (Hrows _ _ Hr') as [Hs' Hp'].
    apply Hk. replace (inventory_key inv) with (inventory_key inv').
    + apply in_map. exact Hin'.
    + unfold inventory_key. congruence.
Qed.

(** X14.  The answer of the stock query holds exactly the rows of the join
    of the inventory with its stores and products for the requested product
    (and channel, when one is given); it is ordered by decreasing stock;
    and when the keys of the three tables hold it has one row per store,
    which reports the stock that the inventory records for that store and
    product. *)
Theorem stock_query_answer pid b db :
  (forall r, In r (InventoryServer.get_stock_level_by_product_id pid b db)
             <-> answer_row pid b db r) /\
  StronglySorted at_least_as_stocked
    (InventoryServer.get_stock_level_by_product_id pid b db) /\
  (KeysHold db ->
   NoDup (map InventoryServer.row_store_id
              (InventoryServer.get_stock_level_by_product_id pid b db)) /\
   forall r, In r (InventoryServer.get_stock_level_by_product_id pid b db) ->
             InventoryServer.row_product_id r = pid /\
             stock_at (db_inventory db) (InventoryServer.row_store_id r, pid)
             = Some (InventoryServer.row_stock_level r)).
Proof.
  split; [intros r; apply In_stock_answer|]. split.
  - unfold InventoryServer.get_stock_level_by_product_id. cbn zeta.
    apply order_by_stock_desc_sorted.
  - intros Hkeys. split.
    + unfold InventoryServer.get_stock_level_by_product_id. cbn zeta.
      eapply Permutation_NoDup;
        [apply Permutation_sym; apply Permutation_map;
         apply order_by_stock_desc_perm|].
      pose proof (joined_rows_one_per_store pid db Hkeys) as Hnd.
      destruct b as [x|]; [|exact Hnd].
      clear - Hnd.
      induction (InventoryServer.joined_rows pid db) as [|r t IH];
        [constructor|].
      cbn [map] in Hnd. inversion Hnd as [|? ? Hr Hnd']; subst.
      cbn [filter].
      destruct (Bool.eqb (InventoryServer.row_is_online r) x);
        [|exact (IH Hnd')].
      cbn [map]. constructor; [|exact (IH Hnd')].
      intros Hin. apply Hr. apply in_map_iff in Hin.
      destruct Hin as (r' & Heq & Hr'). apply filter_In in Hr'.
      rewrite <- Heq. apply in_map. exact (proj1 Hr').
    + intros r Hr. apply In_stock_answer in Hr.
      destruct Hr as (inv & s & p & H1 & H2 & H3 & H4 & H5 & H6 & _ & ->).
      cbn [stock_row InventoryServer.row_product_id
           InventoryServer.row_store_id InventoryServer.row_stock_level].
      split; [congruence|].
      replace (inv_store_id inv, pid) with (inventory_key inv)
        by (unfold inventory_key; congruence).
      apply stock_at_In; [exact (inventory_keys _ Hkeys) | exact H1].
Qed.

Lemma server_db_keys_hold : KeysHold server_db.
Proof.
  constructor.
  - exact server_db_keys.
  - apply (distinctb_NoDup Z.eqb Z.eqb_eq). reflexivity.
  - apply (distinctb_NoDup Z.eqb Z.eqb_eq). reflexivity.
Qed.

Lemma stock_query_witness :
  map InventoryServer.row_stock_level
      (InventoryServer.get_stock_level_by_product_id 1 None server_db)
  = [40; 5] /\
  NoDup (map InventoryServer.row_store_id
             (InventoryServer.get_stock_level_by_product_id 1 None server_db)).
Proof.
  split; [reflexivity|].
  exact (proj1 (proj2 (proj2 (stock_query_answer 1 None server_db))
                  server_db_keys_hold)).
Defined.
(** ** A transfer to a store that does not exist *)

(** X15.  The tool does not check that the destination store exists.  A
    successful transfer to a store id that is not in the stores table
    creates an inventory row for it that holds the transferred quantity;
    that row never shows in an answer of the stock query, and no transfer
    can take its stock back, since both read the inventory through its
    join with the stores. *)
Theorem transfer_to_unknown_store_strands_the_stock f t pid q db r db' :
  NoDup (map inventory_key (db_inventory db)) ->
  ~ In t (map store_id (db_stores db)) ->
  InventoryServer.transfer_stock f t pid q db = (r, db') ->
  InventoryServer.success r = true ->
  stock_at (db_inventory db') (t, pid) = Some q /\
  (forall b row,
      In row (InventoryServer.get_stock_level_by_product_id pid b db') ->
      InventoryServer.row_store_id row <> t) /\
  (forall t' q',
      InventoryServer.success
        (fst (InventoryServer.transfer_stock t t' pid q' db')) = false).
Proof.
  intros Hnd Hunknown E Hs.
  destruct (transfer_stock_inv _ _ _ _ _ _ _ Hnd E)
    as [[Hfail _] | (old_f & nf & nt & tbl' & H1 & H2 & H3 & H4 & H5 & H6
                     & Hr & Hdb & Hnd' & Hkeys & Hat & _)];
    [congruence|].
  destruct H6 as [H6 | H6]; [contradiction|].
  subst db'. cbn [db_inventory set_inventory]. split; [|split].
  - rewrite Hat, (key_eqb_refl (t, pid)).
    assert (Htf : pair_eqb Z.eqb Z.eqb (t, pid) (f, pid) = false)
      by (apply key_eqb_neq; congruence).
    rewrite Htf, H6. reflexivity.
  - intros b row Hrow. apply In_stock_answer in Hrow.
    destruct Hrow as (inv & s & p & _ & Hsin & _ & Hsid & _ & _ & _ & ->).
    cbn [stock_row InventoryServer.row_store_id]. intros Heq.
    apply Hunknown. apply in_map_iff. exists s.
    split; [congruence | exact Hsin].
  - intros t' q'.
    destruct (InventoryServer.transfer_stock t t' pid q'
                (set_inventory tbl' db)) as [r2 db2] eqn:E2.
    cbn [fst].
    destruct (transfer_stock_inv t t' pid q' (set_inventory tbl' db) r2 db2
                Hnd' E2)
      as [[Hfail _] | (old & nf' & nt' & tbl2 & _ & _ & _ & _ & G5 & _)];
      [exact Hfail|].
    cbn [db_stores set_inventory] in G5. contradiction.
Qed.

Lemma transfer_to_unknown_store_witness :
  stock_at (db_inventory
              (snd (InventoryServer.transfer_stock 1 9 1 10 server_db))) (9, 1)
  = Some 10 /\
  InventoryServer.success
    (fst (InventoryServer.transfer_stock 9 1 1 10
            (snd (InventoryServer.transfer_stock 1 9 1 10 server_db))))
  = false.
Proof.
  destruct (InventoryServer.transfer_stock 1 9 1 10 server_db)
    as [r db'] eqn:E.
  assert (Hs : InventoryServer.success r = true)
    by (vm_compute in E; injection E as <- _; reflexivity).
  assert (Hunknown : ~ In 9 (map store_id (db_stores server_db))).
  { cbn. intros [H | [H | []]]; discriminate H. }
  destruct (transfer_to_unknown_store_strands_the_stock 1 9 1 10 server_db
              r db' server_db_keys Hunknown E Hs) as (Hat & _ & Hback).
  cbn [snd]. split; [exact Hat | exact (Hback 1 10)].
Defined.

(** ** The query after a transfer *)

(** X16.  After a successful transfer on a database whose keys hold, the
    stock query for the product shows the stock that the transfer reported
    as [stock_after]: in every row of the answer for the source store or
    the destination store, and such a row is in the answer, for the source
    store and for a destination store that exists, whenever the product
    has a row in the products table and the store passes the channel
    filter.  Every row of another store was in the answer before.  When
    the product has no row in the products table the answer is empty, and
    a destination that is not in the stores table has no row in it. *)
Theorem stock_query_after_transfer
  f t pid q db pid' q' from_report to_report db' b :
  KeysHold db ->
  InventoryServer.transfer_stock f t pid q db
  = (InventoryServer.Transferred pid' q' from_report to_report, db') ->
  (forall row,
      In row (InventoryServer.get_stock_level_by_product_id pid b db') ->
      (InventoryServer.row_store_id row = f ->
       InventoryServer.row_stock_level row
       = InventoryServer.stock_after from_report) /\
      (InventoryServer.row_store_id row = t ->
       InventoryServer.row_stock_level row
       = InventoryServer.stock_after to_report) /\
      (InventoryServer.row_store_id row <> f ->
       InventoryServer.row_store_id row <> t ->
       In row (InventoryServer.get_stock_level_by_product_id pid b db))) /\
  (forall s p,
      In s (db_stores db) -> In p (db_products db) -> product_id p = pid ->
      (forall x, b = Some x -> is_online s = x) ->
      (store_id s = f ->
       In (stock_row {| inv_store_id := f; inv_product_id := pid;
                        stock_level :=
                          InventoryServer.stock_after from_report |} s p)
          (InventoryServer.get_stock_level_by_product_id pid b db')) /\
      (store_id s = t ->
       In (stock_row {| inv_store_id := t; inv_product_id := pid;
                        stock_level :=
                          InventoryServer.stock_after to_report |} s p)
          (InventoryServer.get_stock_level_by_product_id pid b db'))) /\
  (exists s, In s (db_stores db) /\ store_id s = f) /\
  (~ In pid (map product_id (db_products db)) ->
   InventoryServer.get_stock_level_by_product_id pid b db' = []) /\
  (~ In t (map store_id (db_stores db)) ->
   forall row,
     In row (InventoryServer.get_stock_level_by_product_id pid b db') ->
     InventoryServer.row_store_id row <> t).
Proof.
  intros Hkeys E.
  destruct (transfer_stock_inv _ _ _ _ _ _ _ (inventory_keys _ Hkeys) E)
    as [[Hfail _] | (old_f & nf & nt & tbl' & H1 & H2 & H3 & H4 & H5 & H6
                     & Hr & Hdb & Hnd' & _ & Hat & _)];
    [discriminate Hfail|].
  injection Hr as -> -> -> ->. subst db'.
  cbn [InventoryServer.stock_after].
  assert (Htf : pair_eqb Z.eqb Z.eqb (t, pid) (f, pid) = false)
    by (apply key_eqb_neq; congruence).
  assert (Hrow_at : forall store level,
             stock_at tbl' (store, pid) = Some level ->
             In {| inv_store_id := store; inv_product_id := pid;
                   stock_level := level |} tbl').
  { intros store level Hl. apply stock_at_Some in Hl.
    destruct Hl as (inv & Hinv & Hk & Hlev).
    destruct inv as [si pi li]. unfold inventory_key in Hk.
    cbn [inv_store_id inv_product_id stock_level] in Hk, Hlev.
    injection Hk as -> ->. subst li. exact Hinv. }
  split; [|split; [|split; [|split]]].
  - intros row Hrow. apply In_stock_answer in Hrow.
    destruct Hrow as (inv & s & p & Hinv & Hsin & Hpin & Hsid & Hpid & Hp & Hb
                      & ->).
    cbn [db_inventory db_stores db_products set_inventory] in Hinv, Hsin, Hpin.
    cbn [stock_row InventoryServer.row_store_id InventoryServer.row_stock_level].
    pose proof (stock_at_In _ _ Hnd' Hinv) as Hlevel. rewrite Hat in Hlevel.
    assert (Hkey : inventory_key inv = (inv_store_id inv, pid))
      by (unfold inventory_key; congruence).
    rewrite Hkey in Hlevel.
    split; [|split].
    + intros Hf. rewrite Hf, (key_eqb_refl (f, pid)) in Hlevel. congruence.
    + intros Ht. rewrite Ht in Hlevel.
      rewrite Htf, (key_eqb_refl (t, pid)) in Hlevel. congruence.
    + intros Hnf Hnt.
      assert (E1 : pair_eqb Z.eqb Z.eqb (inv_store_id inv, pid) (f, pid) = false)
        by (apply key_eqb_neq; congruence).
      assert (E2 : pair_eqb Z.eqb Z.eqb (inv_store_id inv, pid) (t, pid) = false)
        by (apply key_eqb_neq; congruence).
      rewrite E1, E2 in Hlevel. apply stock_at_Some in Hlevel.
      destruct Hlevel as (inv0 & Hinv0 & Hk0 & Hl0).
      assert (inv0 = inv).
      { destruct inv0, inv. unfold inventory_key in Hk0, Hkey. cbn in *.
        injection Hk0 as -> ->. congruence. }
      subst inv0. apply In_stock_answer.
      exists inv, s, p. repeat split; auto.
  - intros s p Hs Hp Hpid Hb. split; intros Hstore; apply In_stock_answer.
    + eexists _, s, p.
      cbn [db_inventory db_stores db_products set_inventory
           inv_store_id inv_product_id].
      repeat split; try eassumption; try reflexivity.
      apply Hrow_at. rewrite Hat, (key_eqb_refl (f, pid)). reflexivity.
    + eexists _, s, p.
      cbn [db_inventory db_stores db_products set_inventory
           inv_store_id inv_product_id].
      repeat split; try eassumption; try reflexivity.
      apply Hrow_at. rewrite Hat, Htf, (key_eqb_refl (t, pid)). reflexivity.
  - apply in_map_iff in H5. destruct H5 as (s & Hsid & Hs).
    exists s. split; assumption.
  - intros Hnone.
    destruct (InventoryServer.get_stock_level_by_product_id pid b
                (set_inventory tbl' db)) as [|row rest] eqn:Ea; [reflexivity|].
    exfalso. assert (Hrow : In row (row :: rest)) by (left; reflexivity).
    rewrite <- Ea in Hrow. apply In_stock_answer in Hrow.
    destruct Hrow as (inv & s & p & _ & _ & Hpin & _ & _ & Hp & _).
    cbn [db_products set_inventory] in Hpin.
    apply Hnone. apply in_map_iff. exists p. split; assumption.
  - intros Hunknown row Hrow. apply In_stock_answer in Hrow.
    destruct Hrow as (inv & s & p & _ & Hsin & _ & Hsid & _ & _ & _ & ->).
    cbn [stock_row InventoryServer.row_store_id]. intros Heq.
    apply Hunknown. apply in_map_iff. exists s.
    split; [congruence | exact Hsin].
Qed.

Lemma stock_query_after_transfer_witness :
  map (fun r => (InventoryServer.row_store_id r,
                 InventoryServer.row_stock_level r))
      (InventoryServer.get_stock_level_by_product_id 1 None
         (snd (InventoryServer.transfer_stock 1 2 1 10 server_db)))
  = [(1, 30); (2, 15)] /\
  (forall row,
      In row (InventoryServer.get_stock_level_by_product_id 1 None
                (snd (InventoryServer.transfer_stock 1 2 1 10 server_db))) ->
      InventoryServer.row_store_id row = 1 ->
      InventoryServer.row_stock_level row = 30) /\
  (exists row,
      In row (InventoryServer.get_stock_level_by_product_id 1 None
                (snd (InventoryServer.transfer_stock 1 2 1 10 server_db))) /\
      InventoryServer.row_store_id row = 2 /\
      InventoryServer.row_stock_level row = 15).
Proof.
  split; [reflexivity|].
  destruct (InventoryServer.transfer_stock 1 2 1 10 server_db)
    as [r db'] eqn:E.
  assert (Hr : exists nf nt,
             r = InventoryServer.Transferred 1 10
                   {| InventoryServer.report_store_id := 1;
                      InventoryServer.report_store_name := nf;
                      InventoryServer.stock_before := 40;
                      InventoryServer.stock_after := 30 |}
                   {| InventoryServer.report_store_id := 2;
                      InventoryServer.report_store_name := nt;
                      InventoryServer.stock_before := 5;
                      InventoryServer.stock_after := 15 |}).
  { vm_compute in E. injection E as <- _. eexists _, _. reflexivity. }
  destruct Hr as (nf & nt & ->). cbn [snd].
  destruct (@stock_query_after_transfer 1 2 1 10 server_db _ _ _ _ db'
              None server_db_keys_hold E) as (Hrows & Hthere & _).
  split.
  - intros row Hrow Hstore. exact (proj1 (Hrows row Hrow) Hstore).
  - pose (s := {| store_id := 2; store_name := "Zava Online";
                  rls_user_id := "6ba7b810"; is_online := true |}%string).
    pose (p := {| product_id := 1; sku := "HT-001";
                  product_name := "Claw Hammer";
                  prod_category_id := 1; prod_type_id := 1;
                  prod_supplier_id := None;
                  cost := 6.69; base_price := 9.99;
                  product_description := "Claw Hammer";
                  procurement_lead_time_days := None |}%string).
    assert (Hs : In s (db_stores server_db)) by (right; left; reflexivity).
    assert (Hp : In p (db_products server_db)) by (left; reflexivity).
    eexists. split.
    + apply (proj2 (Hthere s p Hs Hp eq_refl
                      (fun x (H : None = Some x) =>
                         match H in _ = o
                               return match o with
                                      | Some _ => is_online s = x
                                      | None => True
                                      end
                         with eq_refl => I end))).
      reflexivity.
    + split; reflexivity.
Defined.
(* ================================================================= *)
(** * Writes in batches: [bulk_insert_objects] *)
(* ================================================================= *)

(** [range(0, stop, step)] for a [stop] that is not negative: a zero step
    raises, a negative step gives no index. *)
Definition range_from_zero (stop step : Z) : Res (list Z) :=
  if step =? 0 then raise ValueError
  else if step <? 0 then ret []
  else ret (map (fun k => Z.of_nat k * step)
                (seq 0 (Z.to_nat ((stop + step - 1) / step)))).

(** [l[i:j]] for indexes that are not negative. *)
Definition slice {A} (l : list A) (i j : Z) : list A :=
  firstn (Z.to_nat (j - i)) (skipn (Z.to_nat i) l).

(** The batches that the loop of [bulk_insert_objects] saves, in order. *)
Definition batches {A} (objects : list A) (batch_size : Z)
  : Res (list (list A)) :=
  starts <- range_from_zero (Z.of_nat (List.length objects)) batch_size ;;
  ret (map (fun i => slice objects i (i + batch_size)) starts).

(** [__main__.bulk_insert_objects]; [bulk_save_objects] is the write of one
    batch with its flush.  The commit changes nothing here, and an exception
    rolls the session back and is raised again. *)
Definition bulk_insert_objects {A} (bulk_save_objects : list A -> DB -> Res DB)
  (objects : list A) (batch_size : Z) (db : DB) : Res DB :=
  starts <- range_from_zero (Z.of_nat (List.length objects)) batch_size ;;
  foldM (fun db i => bulk_save_objects (slice objects i (i + batch_size)) db)
        db starts.

(** ** The batches *)

Lemma foldM_Res_map {S A B} (f : S -> B -> Res S) (g : A -> B) (xs : list A)
  (s : S) :
  foldM f s (map g xs) = foldM (fun s x => f s (g x)) s xs.
Proof.
  revert s. induction xs as [|x t IH]; intros s; [reflexivity|].
  cbn [map foldM]. cbn. destruct (f s (g x)); [apply IH | reflexivity].
Qed.

Lemma bulk_insert_objects_batches {A} (save : list A -> DB -> Res DB)
  (objects : list A) (batch_size : Z) (db : DB) :
  bulk_insert_objects save objects batch_size db
  = (bl <- batches objects batch_size ;; foldM (fun db b => save b db) db bl).
Proof.
  unfold bulk_insert_objects, batches.
  destruct (range_from_zero _ batch_size) as [starts|e]; [|reflexivity].
  cbn. rewrite foldM_Res_map. reflexivity.
Qed.

Lemma firstn_add {A} (a b : nat) (l : list A) :
  firstn (a + b) l = firstn a l ++ firstn b (skipn a l).
Proof.
  revert l. induction a as [|a IH]; intros l; [reflexivity|].
  destruct l as [|x l]; cbn [Nat.add firstn skipn app].
  - rewrite firstn_nil. reflexivity.
  - rewrite IH. reflexivity.
Qed.

Lemma concat_slices {A} (l : list A) (step : nat) (m : nat) :
  List.concat (map (fun k => firstn step (skipn (k * step) l)) (seq 0 m))
  = firstn (m * step) l.
Proof.
  induction m as [|m IH]; [reflexivity|].
  rewrite seq_S, map_app, concat_app, IH. cbn [map List.concat Nat.add].
  rewrite List.app_nil_r.
  replace (S m * step)%nat with (m * step + step)%nat by lia.
  rewrite firstn_add. reflexivity.
Qed.

Lemma ceil_div_bounds (n step : Z) :
  0 <= n -> 0 < step ->
  let m := (n + step - 1) / step in
  0 <= m /\ n <= m * step /\ (m - 1) * step < n \/ (n = 0 /\ m = 0).
Proof.
  intros Hn Hs m. subst m.
  destruct (Z.eq_dec n 0) as [->|Hnz].
  - right. split; [reflexivity|]. apply Z.div_small. lia.
  - left.
    pose proof (Z.div_mod (n + step - 1) step ltac:(lia)) as Hdm.
    pose proof (Z.mod_pos_bound (n + step - 1) step Hs) as Hmod.
    assert (0 <= (n + step - 1) / step) by (apply Z.div_pos; lia).
    nia.
Qed.

Lemma batches_starts (stop step : Z) :
  0 < step ->
  range_from_zero stop step
  = Ok (map (fun k => Z.of_nat k * step)
            (seq 0 (Z.to_nat ((stop + step - 1) / step)))).
Proof.
  intros Hs. unfold range_from_zero.
  destruct (step =? 0) eqn:E0; [apply Z.eqb_eq in E0; lia|].
  destruct (step <? 0) eqn:E1; [apply Z.ltb_lt in E1; lia|].
  reflexivity.
Qed.

Lemma batches_positive {A} (objects : list A) (batch_size : Z) :
  0 < batch_size ->
  batches objects batch_size
  = Ok (map (fun k => firstn (Z.to_nat batch_size)
                             (skipn (k * Z.to_nat batch_size) objects))
            (seq 0 (Z.to_nat ((Z.of_nat (List.length objects) + batch_size - 1)
                              / batch_size)))).
Proof.
  intros Hs. unfold batches. rewrite (batches_starts _ _ Hs). cbn.
  rewrite map_map. f_equal. apply map_ext. intros k. unfold slice.
  f_equal; f_equal; lia.
Qed.

(** ** A write that can be split *)

Section SplitWrites.
Context {A : Type} (save : list A -> DB -> Res DB).
Hypothesis save_app :
  forall a b db, save (a ++ b) db = (db1 <- save a db ;; save b db1).

Lemma fold_save_concat (bl : list (list A)) (db : DB) :
  bl <> [] ->
  foldM (fun db b => save b db) db bl = save (List.concat bl) db.
Proof.
  revert db. induction bl as [|b rest IH]; intros db Hne; [congruence|].
  destruct rest as [|b' rest].
  - cbn [foldM List.concat]. rewrite List.app_nil_r. cbn.
    destruct (save b db); reflexivity.
  - change (List.concat (b :: b' :: rest)) with (b ++ List.concat (b' :: rest)).
    rewrite save_app. cbn [foldM]. cbn [bind Res_Monad].
    destruct (save b db) as [db1|e]; [|reflexivity].
    apply IH. discriminate.
Qed.

End SplitWrites.

(** ** Numbering continues from one batch to the next *)

Section RowidBatches.
Context {R : Type} `{Row R}.

Let top (l : list R) : Z := fold_right (fun r m => Z.max (pk r) m) 0 l.

Lemma top_app (l1 l2 : list R) : top (l1 ++ l2) = Z.max (top l1) (top l2).
Proof.
  unfold top. induction l1 as [|x t IH]; cbn [app fold_right].
  - assert (0 <= fold_right (fun r m => Z.max (pk r) m) 0 l2)
      by (induction l2; cbn [fold_right]; lia).
    lia.
  - rewrite IH. lia.
Qed.

Lemma top_number_from (n : Z) (a : list R) :
  1 <= n -> a <> [] ->
  top (number_from n a) = n + Z.of_nat (List.length a) - 1.
Proof.
  unfold top. revert n. induction a as [|x t IH]; intros n Hn Hne; [congruence|].
  cbn [number_from fold_right List.length]. rewrite pk_with_pk.
  destruct t as [|y t].
  - cbn [number_from fold_right List.length]. lia.
  - rewrite IH by (lia || discriminate). cbn [List.length]. lia.
Qed.

Lemma next_rowid_auto_insert (tbl a : list R) :
  next_rowid (auto_insert tbl a) = next_rowid tbl + Z.of_nat (List.length a).
Proof.
  destruct a as [|x a].
  - unfold auto_insert. cbn [number_from List.length]. rewrite List.app_nil_r.
    cbn. lia.
  - unfold auto_insert.
    change (next_rowid (tbl ++ number_from (next_rowid tbl) (x :: a)))
      with (1 + top (tbl ++ number_from (next_rowid tbl) (x :: a))).
    rewrite top_app, top_number_from
      by (apply next_rowid_pos || discriminate).
    change (next_rowid tbl) with (1 + top tbl).
    assert (0 <= top tbl)
      by (unfold top; induction tbl; cbn [fold_right]; lia).
    cbn [List.length]. lia.
Qed.

Lemma number_from_app (n : Z) (a b : list R) :
  number_from n (a ++ b)
  = number_from n a ++ number_from (n + Z.of_nat (List.length a)) b.
Proof.
  revert n. induction a as [|x t IH]; intros n.
  - cbn [app number_from List.length]. f_equal. lia.
  - cbn [app number_from List.length]. rewrite IH. do 3 f_equal. lia.
Qed.

Lemma auto_insert_app (tbl a b : list R) :
  auto_insert tbl (a ++ b) = auto_insert (auto_insert tbl a) b.
Proof.
  unfold auto_insert at 1 2. rewrite next_rowid_auto_insert, number_from_app.
  unfold auto_insert. rewrite app_assoc. reflexivity.
Qed.

End RowidBatches.

(** ** A constraint checked batch by batch *)

Section CheckedBatches.
Context {K R : Type} (eqb : K -> K -> bool).
Hypothesis eqb_eq : forall x y, eqb x y = true <-> x = y.
Variable key : R -> K.
Variable ins : list R -> list R -> list R.
Hypothesis ins_app : forall t a b, ins t (a ++ b) = ins (ins t a) b.
Hypothesis ins_extends : forall t a, exists s, ins t a = t ++ s.

Lemma checked_split (t a b : list R) :
  checked eqb key (ins t (a ++ b))
  = (t1 <- checked eqb key (ins t a) ;; checked eqb key (ins t1 b)).
Proof.
  unfold checked at 2.
  destruct (distinctb eqb (map key (ins t a))) eqn:Ea; cbn [bind Res_Monad].
  - rewrite ins_app. reflexivity.
  - unfold checked.
    destruct (distinctb eqb (map key (ins t (a ++ b)))) eqn:Eab;
      [|reflexivity].
    exfalso. apply (distinctb_NoDup eqb eqb_eq) in Eab.
    rewrite ins_app in Eab. destruct (ins_extends (ins t a) b) as [s Hs].
    rewrite Hs, map_app in Eab. apply NoDup_app_remove_r in Eab.
    apply (distinctb_NoDup eqb eqb_eq) in Eab. congruence.
Qed.

End CheckedBatches.

Lemma auto_insert_extends {R} `{Row R} (t a : list R) :
  exists s, auto_insert t a = t ++ s.
Proof. unfold auto_insert. eauto. Qed.

Lemma app_extends {R} (t a : list R) : exists s, t ++ a = t ++ s.
Proof. eauto. Qed.

Lemma bulk_insert_stores_app a b db :
  Orm.bulk_insert_stores (a ++ b) db
  = (db1 <- Orm.bulk_insert_stores a db ;; Orm.bulk_insert_stores b db1).
Proof.
  unfold Orm.bulk_insert_stores.
  rewrite (checked_split String.eqb String.eqb_eq store_name auto_insert
             auto_insert_app auto_insert_extends).
  destruct (checked String.eqb store_name (auto_insert (db_stores db) a));
    reflexivity.
Qed.

Lemma bulk_insert_products_app a b db :
  Orm.bulk_insert_products (a ++ b) db
  = (db1 <- Orm.bulk_insert_products a db ;; Orm.bulk_insert_products b db1).
Proof.
  unfold Orm.bulk_insert_products.
  rewrite (checked_split String.eqb String.eqb_eq sku auto_insert
             auto_insert_app auto_insert_extends).
  destruct (checked String.eqb sku (auto_insert (db_products db) a));
    reflexivity.
Qed.

Lemma bulk_insert_customers_app a b db :
  Orm.bulk_insert_customers (a ++ b) db
  = (db1 <- Orm.bulk_insert_customers a db ;; Orm.bulk_insert_customers b db1).
Proof.
  unfold Orm.bulk_insert_customers.
  rewrite (checked_split String.eqb String.eqb_eq email auto_insert
             auto_insert_app auto_insert_extends).
  destruct (checked String.eqb email (auto_insert (db_customers db) a));
    reflexivity.
Qed.

Lemma bulk_insert_inventory_app a b db :
  Orm.bulk_insert_inventory (a ++ b) db
  = (db1 <- Orm.bulk_insert_inventory a db ;; Orm.bulk_insert_inventory b db1).
Proof.
  unfold Orm.bulk_insert_inventory.
  rewrite (checked_split (pair_eqb Z.eqb Z.eqb) key_eqb_eq
             (fun i => (inv_store_id i, inv_product_id i))
             (@app Inventory) (fun t a b => app_assoc t a b) app_extends).
  destruct (checked (pair_eqb Z.eqb Z.eqb)
              (fun i => (inv_store_id i, inv_product_id i))
              (db_inventory db ++ a));
    reflexivity.
Qed.

Lemma bulk_insert_suppliers_app a b db :
  Orm.bulk_insert_suppliers (a ++ b) db
  = (db1 <- Orm.bulk_insert_suppliers a db ;; Orm.bulk_insert_suppliers b db1).
Proof.
  unfold Orm.bulk_insert_suppliers.
  rewrite (checked_split Z.eqb Z.eqb_eq supplier_id
             (@app Supplier) (fun t a b => app_assoc t a b) app_extends).
  destruct (checked Z.eqb supplier_id (db_suppliers db ++ a)); reflexivity.
Qed.

(** ** What the loop of [bulk_insert_objects] does *)

Lemma batches_cover {A} (objects : list A) (batch_size : Z) :
  0 < batch_size ->
  exists bl,
    batches objects batch_size = Ok bl /\
    List.concat bl = objects /\
    Forall (fun b => (1 <= List.length b)%nat
                     /\ Z.of_nat (List.length b) <= batch_size) bl /\
    (forall k b, nth_error bl k = Some b -> (S k < List.length bl)%nat ->
                 Z.of_nat (List.length b) = batch_size) /\
    (objects <> [] -> bl <> []).
Proof.
  intros Hs. eexists. split; [apply (batches_positive _ _ Hs)|].
  set (n := Z.of_nat (List.length objects)).
  set (step := Z.to_nat batch_size).
  set (m := Z.to_nat ((n + batch_size - 1) / batch_size)).
  assert (Hstep : (1 <= step)%nat) by (subst step; lia).
  assert (Hm : (List.length objects <= m * step)%nat
               /\ (m = 0 \/ (m - 1) * step < List.length objects)%nat).
  { assert (Hbs : Z.of_nat step = batch_size) by (subst step; lia).
    destruct (ceil_div_bounds n batch_size ltac:(subst n; lia) Hs)
      as [(H0 & H1 & H2) | (H1 & H2)].
    - assert (Hq : Z.of_nat m = (n + batch_size - 1) / batch_size)
        by (subst m; lia).
      rewrite <- Hq in H1, H2. split.
      + apply Nat2Z.inj_le. rewrite Nat2Z.inj_mul, Hbs. exact H1.
      + destruct m as [|m']; [left; reflexivity | right].
        apply Nat2Z.inj_lt. rewrite Nat2Z.inj_mul, Hbs.
        replace (Z.of_nat (S m' - 1)) with (Z.of_nat (S m') - 1) by lia.
        exact H2.
    - subst m. rewrite H2. split; [subst n; cbn; lia | left; reflexivity]. }
  destruct Hm as [Hcover Hlast].
  split; [|split; [|split]].
  - rewrite concat_slices. apply firstn_all2. exact Hcover.
  - apply Forall_forall. intros b Hb. apply in_map_iff in Hb.
    destruct Hb as (k & <- & Hk). apply in_seq in Hk.
    rewrite length_firstn, length_skipn.
    assert ((k * step <= (m - 1) * step)%nat) by nia.
    subst step. lia.
  - intros k b Hnth Hk. rewrite length_map, length_seq in Hk.
    rewrite nth_error_map in Hnth.
    destruct (nth_error (seq 0 m) k) as [k'|] eqn:Ek; [|discriminate Hnth].
    apply nth_error_In in Ek as Hin. apply in_seq in Hin.
    assert (k' = k).
    { pose proof (nth_error_nth _ _ 0%nat Ek) as Hn.
      rewrite seq_nth in Hn by lia. lia. }
    subst k'. cbn in Hnth. injection Hnth as <-.
    rewrite length_firstn, length_skipn.
    assert (((k + 1) * step <= (m - 1) * step)%nat) by nia.
    subst step. lia.
  - intros Hne Hnil. apply map_eq_nil in Hnil.
    destruct m as [|m']; [|discriminate Hnil].
    destruct objects; [congruence|]. cbn [List.length] in Hcover. lia.
Qed.

(** X17.  [bulk_insert_objects] cuts the objects into consecutive batches
    and saves them in order.  With a positive batch size the batches put
    end to end are the objects, none is empty or longer than the batch size,
    and every batch but the last is full; without objects nothing is
    written.  A batch size of zero raises [ValueError], even without
    objects, and a negative batch size writes nothing and reports no
    error, whatever the objects. *)
Theorem bulk_insert_objects_cuts_batches {A} (save : list A -> DB -> Res DB)
  (objects : list A) (batch_size : Z) (db : DB) :
  (batch_size = 0 ->
   bulk_insert_objects save objects batch_size db = Raise ValueError) /\
  (batch_size < 0 ->
   bulk_insert_objects save objects batch_size db = Ok db) /\
  (0 < batch_size ->
   exists bl,
     batches objects batch_size = Ok bl /\
     bulk_insert_objects save objects batch_size db
     = foldM (fun db b => save b db) db bl /\
     List.concat bl = objects /\
     Forall (fun b => (1 <= List.length b)%nat
                      /\ Z.of_nat (List.length b) <= batch_size) bl /\
     (forall k b, nth_error bl k = Some b -> (S k < List.length bl)%nat ->
                  Z.of_nat (List.length b) = batch_size) /\
     (objects = [] ->
      bulk_insert_objects save objects batch_size db = Ok db)).
Proof.
  split; [|split].
  - intros ->. reflexivity.
  - intros Hneg. unfold bulk_insert_objects, range_from_zero.
    destruct (batch_size =? 0) eqn:E0; [apply Z.eqb_eq in E0; lia|].
    destruct (batch_size <? 0) eqn:E1; [reflexivity|].
    apply Z.ltb_ge in E1. lia.
  - intros Hs.
    destruct (batches_cover objects batch_size Hs)
      as (bl & Hbl & Hcat & Hlen & Hfull & _).
    exists bl. split; [exact Hbl|].
    assert (Hrun : bulk_insert_objects save objects batch_size db
                   = foldM (fun db b => save b db) db bl)
      by (rewrite bulk_insert_objects_batches, Hbl; reflexivity).
    repeat split; auto.
    intros ->. rewrite Hrun. destruct bl as [|b bl]; [reflexivity|].
    exfalso. inversion Hlen as [|? ? [Hb _] _]; subst.
    destruct b; [cbn in Hb; lia | discriminate Hcat].
Qed.

Lemma bulk_insert_objects_cuts_batches_witness :
  batches [1; 2; 3; 4; 5] 2 = Ok [[1; 2]; [3; 4]; [5]] /\
  bulk_insert_objects Orm.bulk_insert_suppliers [] 0 empty_db
  = Raise ValueError /\
  bulk_insert_objects Orm.bulk_insert_stores (db_stores two_stores_db) (-1)
    empty_db
  = Ok empty_db.
Proof.
  split; [reflexivity|]. split.
  - exact (proj1 (bulk_insert_objects_cuts_batches Orm.bulk_insert_suppliers
                    [] 0 empty_db) eq_refl).
  - exact (proj1 (proj2 (bulk_insert_objects_cuts_batches
                           Orm.bulk_insert_stores (db_stores two_stores_db)
                           (-1) empty_db)) eq_refl).
Defined.

(** X18.  The stores, products, customers, inventory rows and suppliers
    that the stages hand to [bulk_insert_objects] are written as by one
    insert of the whole list, whatever the positive batch size: the row
    numbers continue from one batch to the next, and a batch that breaks
    a uniqueness constraint fails the write as the whole list would. *)
Theorem bulk_insert_objects_is_one_write (batch_size : Z) (db : DB) :
  0 < batch_size ->
  (forall objs, objs <> [] ->
     bulk_insert_objects Orm.bulk_insert_stores objs batch_size db
     = Orm.bulk_insert_stores objs db) /\
  (forall objs, objs <> [] ->
     bulk_insert_objects Orm.bulk_insert_products objs batch_size db
     = Orm.bulk_insert_products objs db) /\
  (forall objs, objs <> [] ->
     bulk_insert_objects Orm.bulk_insert_customers objs batch_size db
     = Orm.bulk_insert_customers objs db) /\
  (forall objs, objs <> [] ->
     bulk_insert_objects Orm.bulk_insert_inventory objs batch_size db
     = Orm.bulk_insert_inventory objs db) /\
  (forall objs, objs <> [] ->
     bulk_insert_objects Orm.bulk_insert_suppliers objs batch_size db
     = Orm.bulk_insert_suppliers objs db).
Proof.
  intros Hs.
  assert (Hone : forall A (save : list A -> DB -> Res DB),
             (forall a b db, save (a ++ b) db
                             = (db1 <- save a db ;; save b db1)) ->
             forall objs, objs <> [] ->
               bulk_insert_objects save objs batch_size db = save objs db).
  { intros A save Happ objs Hne.
    destruct (batches_cover objs batch_size Hs)
      as (bl & Hbl & Hcat & _ & _ & Hnil).
    rewrite bulk_insert_objects_batches, Hbl. cbn [bind Res_Monad].
    rewrite (fold_save_concat save Happ bl db (Hnil Hne)), Hcat.
    reflexivity. }
  repeat split; apply Hone.
  - exact bulk_insert_stores_app.
  - exact bulk_insert_products_app.
  - exact bulk_insert_customers_app.
  - exact bulk_insert_inventory_app.
  - exact bulk_insert_suppliers_app.
Qed.

Lemma bulk_insert_objects_one_write_witness :
  0 < 2 /\
  bulk_insert_objects Orm.bulk_insert_inventory
    [ {| inv_store_id := 1; inv_product_id := 1; stock_level := 40 |};
      {| inv_store_id := 2; inv_product_id := 1; stock_level := 5 |};
      {| inv_store_id := 1; inv_product_id := 2; stock_level := 7 |} ]
    2 stocked_db
  = Orm.bulk_insert_inventory
      [ {| inv_store_id := 1; inv_product_id := 1; stock_level := 40 |};
        {| inv_store_id := 2; inv_product_id := 1; stock_level := 5 |};
        {| inv_store_id := 1; inv_product_id := 2; stock_level := 7 |} ]
      stocked_db.
Proof.
  assert (H2 : 0 < 2) by reflexivity.
  split; [exact H2|].
  apply (proj1 (proj2 (proj2 (proj2
           (bulk_insert_objects_is_one_write 2 stocked_db H2))))).
  discriminate.
Defined.

(* ================================================================= *)
(** * The legacy customers stage, batch by batch *)
(* ================================================================= *)

(** The body of the loop of the legacy [insert_customers].  Its state is the
    list [customers_data] of the rows not yet sent and the database;
    [db0] is the database at entry, from which the store rows were read. *)
Definition customers_batch_step (stores : list (string * Legacy.StoreConfig))
  (db0 : DB) (batch_size : Z) (st : list Customer * DB) (i : nat)
  : Gen (list Customer * DB) :=
  c <- Legacy.customer_tuple stores db0 i ;;
  let customers_data := fst st ++ [c] in
  if batch_size <=? Z.of_nat (List.length customers_data)
  then db' <- lift (Legacy.insert_customer_rows customers_data (snd st)) ;;
       ret ([], db')
  else ret (customers_data, snd st).

(** The loop, then the rows that remain.  The source fixes [batch_size]
    at 1000. *)
Definition insert_customers_in_batches
  (stores : list (string * Legacy.StoreConfig)) (batch_size : Z)
  (num_customers : nat) (db : DB) : Gen DB :=
  st <- foldM (customers_batch_step stores db batch_size) ([], db)
          (seq 1 num_customers) ;;
  match fst st with
  | [] => ret (snd st)
  | customers_data =>
      lift (Legacy.insert_customer_rows customers_data (snd st))
  end.

Definition emails_unique (db : DB) : Prop :=
  NoDup (map email (db_customers db)).

Lemma insert_customer_rows_app a b db :
  Legacy.insert_customer_rows (a ++ b) db
  = (db1 <- Legacy.insert_customer_rows a db ;;
     Legacy.insert_customer_rows b db1).
Proof.
  unfold Legacy.insert_customer_rows.
  rewrite (checked_split String.eqb String.eqb_eq email auto_insert
             auto_insert_app auto_insert_extends).
  destruct (checked String.eqb email (auto_insert (db_customers db) a));
    reflexivity.
Qed.

Lemma insert_customer_rows_nil db :
  emails_unique db -> Legacy.insert_customer_rows [] db = Ok db.
Proof.
  unfold emails_unique, Legacy.insert_customer_rows, auto_insert.
  cbn [number_from]. rewrite List.app_nil_r. intros Hnd.
  rewrite (checked_ok String.eqb String.eqb_eq email _ Hnd).
  destruct db. reflexivity.
Qed.

Lemma insert_customer_rows_unique a db db1 :
  Legacy.insert_customer_rows a db = Ok db1 -> emails_unique db1.
Proof.
  unfold Legacy.insert_customer_rows. intros Hrun.
  monad_inv Hrun. monad_inv Hrun. subst db1.
  apply (checked_inv String.eqb String.eqb_eq) in Hstep as [-> Hnd].
  exact Hnd.
Qed.

(** When the rows can all be generated, the loop and a single insert of
    the generated rows end alike, exception included. *)
Lemma customers_batch_loop stores db0 batch_size xs :
  forall p d en cs en',
    emails_unique d ->
    mapM (Legacy.customer_tuple stores db0) xs en = Ok (cs, en') ->
    (exists st,
        foldM (customers_batch_step stores db0 batch_size) (p, d) xs en
        = Ok (st, en') /\
        emails_unique (snd st) /\
        Legacy.insert_customer_rows (fst st) (snd st)
        = Legacy.insert_customer_rows (p ++ cs) d)
    \/ (exists e,
           foldM (customers_batch_step stores db0 batch_size) (p, d) xs en
           = Raise e /\
           Legacy.insert_customer_rows (p ++ cs) d = Raise e).
Proof.
  induction xs as [|x xs IH]; intros p d en cs en' Hd Hrun.
  - monad_inv Hrun. subst cs en'. left. exists (p, d).
    cbn [fst snd]. rewrite List.app_nil_r. repeat split; auto.
  - cbn [mapM] in Hrun. monad_inv Hrun. monad_inv Hrun. monad_inv Hrun.
    subst cs en'. rename v into c, v0 into cs'.
    assert (Hs : customers_batch_step stores db0 batch_size (p, d) x en
                 = if batch_size <=? Z.of_nat (List.length (p ++ [c]))
                   then match Legacy.insert_customer_rows (p ++ [c]) d with
                        | Ok db1 => Ok (([], db1), en0)
                        | Raise e => Raise e
                        end
                   else Ok ((p ++ [c], d), en0)).
    { unfold customers_batch_step. cbn [bind Gen_Monad]. rewrite Hstep.
      cbn [fst snd].
      destruct (batch_size <=? Z.of_nat (List.length (p ++ [c])));
        [|reflexivity].
      unfold lift.
      destruct (Legacy.insert_customer_rows (p ++ [c]) d); reflexivity. }
    cbn [foldM]. cbn [bind Gen_Monad]. rewrite Hs. clear Hs.
    replace (p ++ c :: cs') with ((p ++ [c]) ++ cs')
      by (rewrite <- app_assoc; reflexivity).
    destruct (batch_size <=? Z.of_nat (List.length (p ++ [c]))).
    + rewrite (insert_customer_rows_app (p ++ [c]) cs').
      destruct (Legacy.insert_customer_rows (p ++ [c]) d) as [db1|e] eqn:Ew.
      * cbn [bind Res_Monad].
        apply insert_customer_rows_unique in Ew.
        exact (IH [] db1 _ _ _ Ew Hstep0).
      * right. exists e. split; reflexivity.
    + exact (IH (p ++ [c]) d _ _ _ Hd Hstep0).
Qed.

Lemma customers_batch_loop_generates stores db0 batch_size xs :
  forall st en st' en',
    foldM (customers_batch_step stores db0 batch_size) st xs en
    = Ok (st', en') ->
    exists cs, mapM (Legacy.customer_tuple stores db0) xs en = Ok (cs, en').
Proof.
  induction xs as [|x xs IH]; intros st en st' en' Hrun.
  - monad_inv Hrun. subst. exists []. reflexivity.
  - cbn [foldM] in Hrun. monad_inv Hrun.
    unfold customers_batch_step in Hstep. cbn [bind Gen_Monad] in Hstep.
    destruct (Legacy.customer_tuple stores db0 x en) as [[c en1]|e] eqn:Hc;
      [|discriminate Hstep].
    assert (Hen : en0 = en1).
    { destruct (batch_size <=? _) in Hstep.
      - unfold lift in Hstep.
        destruct (Legacy.insert_customer_rows _ _) in Hstep;
          [|discriminate Hstep].
        cbn in Hstep. congruence.
      - cbn in Hstep. congruence. }
    subst en1. destruct (IH _ _ _ _ Hrun) as (cs & Hcs).
    exists (c :: cs). cbn [mapM]. cbn [bind Gen_Monad].
    rewrite Hc, Hcs. reflexivity.
Qed.

Lemma insert_customers_in_batches_run stores batch_size n db en cs en' :
  emails_unique db ->
  Legacy.customers_data stores db n en = Ok (cs, en') ->
  insert_customers_in_batches stores batch_size n db en
  = Legacy.insert_customers stores n db en.
Proof.
  intros Hdb Hgen. unfold Legacy.insert_customers.
  cbn [bind Gen_Monad]. rewrite Hgen.
  unfold insert_customers_in_batches. cbn [bind Gen_Monad].
  destruct (customers_batch_loop stores db batch_size (seq 1 n) [] db en cs en'
              Hdb Hgen) as [(st & Hloop & Hst & Hw) | (e & Hloop & Hw)];
    rewrite Hloop; cbn [app] in Hw.
  - rewrite <- Hw. destruct st as [[|c p] d]; cbn [fst snd] in *.
    + rewrite (insert_customer_rows_nil _ Hst). reflexivity.
    + reflexivity.
  - rewrite Hw. reflexivity.
Qed.

(** X19.  The legacy customers stage sends its rows in batches and the
    rows that remain after the loop.  On a customers table whose e-mail
    addresses are unique, a run with any batch size, the 1000 of the source
    included, succeeds exactly when one insert of all the generated rows
    succeeds, and leaves the same database and the same random state.
    When the rows can all be generated the two also fail alike. *)
Theorem legacy_customer_batches_are_one_insert
  stores batch_size n db en :
  emails_unique db ->
  (forall r, insert_customers_in_batches stores batch_size n db en = Ok r
             <-> Legacy.insert_customers stores n db en = Ok r) /\
  (forall cs en', Legacy.customers_data stores db n en = Ok (cs, en') ->
                  insert_customers_in_batches stores batch_size n db en
                  = Legacy.insert_customers stores n db en).
Proof.
  intros Hdb. split.
  - intros r. split; intros Hrun.
    + assert (Hgen : exists cs en',
                 Legacy.customers_data stores db n en = Ok (cs, en')).
      { unfold insert_customers_in_batches in Hrun. destruct r as [r en2].
        monad_inv Hrun. destruct v as [p d].
        destruct (customers_batch_loop_generates _ _ _ _ _ _ _ _ Hstep)
          as (cs & Hcs).
        exists cs, en0. exact Hcs. }
      destruct Hgen as (cs & en' & Hgen).
      rewrite <- (insert_customers_in_batches_run stores batch_size n db en
                    cs en' Hdb Hgen).
      exact Hrun.
    + assert (Hgen : exists cs en',
                 Legacy.customers_data stores db n en = Ok (cs, en')).
      { unfold Legacy.insert_customers in Hrun. destruct r as [r en2].
        monad_inv Hrun. eauto. }
      destruct Hgen as (cs & en' & Hgen).
      rewrite (insert_customers_in_batches_run stores batch_size n db en
                 cs en' Hdb Hgen).
      exact Hrun.
  - intros cs en' Hgen.
    exact (insert_customers_in_batches_run _ _ _ _ _ _ _ Hdb Hgen).
Qed.

Lemma legacy_customer_batches_witness :
  emails_unique two_stores_db /\
  insert_customers_in_batches Demo.legacy_stores 2 5 two_stores_db
    Demo.legacy_entropy
  = Legacy.insert_customers Demo.legacy_stores 5 two_stores_db
      Demo.legacy_entropy.
Proof.
  assert (Hdb : emails_unique two_stores_db) by constructor.
  split; [exact Hdb|].
  destruct (Legacy.customers_data Demo.legacy_stores two_stores_db 5
              Demo.legacy_entropy) as [[cs en']|e] eqn:E.
  - exact (proj2 (legacy_customer_batches_are_one_insert Demo.legacy_stores 2 5
                    two_stores_db Demo.legacy_entropy Hdb) cs en' E).
  - vm_compute in E. discriminate E.
Defined.

(* ================================================================= *)
(** * The category and product-type tables of the ORM generator *)
(* ================================================================= *)

From Stdlib Require Import Sorting.Sorted Structures.OrderedTypeEx.

(** ** [sorted(set(...))] gives a list in strictly ascending order *)

Section SortedSetOrder.
Context {A : Type} (cmp : A -> A -> comparison).
Hypothesis cmp_eq : forall x y, cmp x y = Eq -> x = y.
Hypothesis cmp_gt : forall x y, cmp x y = Gt -> cmp y x = Lt.
Hypothesis cmp_trans :
  forall x y z, cmp x y = Lt -> cmp y z = Lt -> cmp x z = Lt.

Let before (x y : A) : Prop := cmp x y = Lt.

Lemma set_insert_In_inv (x : A) (l : list A) (y : A) :
  In y (set_insert cmp x l) -> y = x \/ In y l.
Proof.
  induction l as [|z t IH]; cbn [set_insert].
  - intros [<-|[]]. left. reflexivity.
  - destruct (cmp x z) eqn:E.
    + intros H. right. exact H.
    + intros [<-|H]; [left; reflexivity | right; exact H].
    + intros [<-|H]; [right; left; reflexivity|].
      destruct (IH H) as [->|Hin]; [left; reflexivity | right; right; exact Hin].
Qed.

Lemma sorted_set_In_inv (l : list A) (y : A) :
  In y (sorted_set cmp l) -> In y l.
Proof.
  unfold sorted_set. induction l as [|x t IH]; cbn [fold_right]; [tauto|].
  intros H. apply set_insert_In_inv in H. destruct H as [->|H];
    [left; reflexivity | right; apply IH; exact H].
Qed.

Lemma set_insert_sorted (x : A) (l : list A) :
  StronglySorted before l -> StronglySorted before (set_insert cmp x l).
Proof.
  induction 1 as [|z t Ht IH Hz]; cbn [set_insert].
  - constructor; constructor.
  - destruct (cmp x z) eqn:E.
    + constructor; assumption.
    + constructor; [constructor; assumption|].
      constructor; [exact E|].
      rewrite Forall_forall in Hz |- *. intros y Hy.
      exact (cmp_trans _ _ _ E (Hz y Hy)).
    + constructor; [exact IH|].
      apply Forall_forall. intros y Hy. apply set_insert_In_inv in Hy.
      destruct Hy as [->|Hy]; [exact (cmp_gt _ _ E)|].
      rewrite Forall_forall in Hz. exact (Hz y Hy).
Qed.

Lemma sorted_set_sorted (l : list A) : StronglySorted before (sorted_set cmp l).
Proof.
  unfold sorted_set. induction l as [|x t IH]; cbn [fold_right].
  - constructor.
  - apply set_insert_sorted. exact IH.
Qed.

End SortedSetOrder.

Lemma string_compare_gt (x y : string) :
  String.compare x y = Gt -> String.compare y x = Lt.
Proof.
  intros H. rewrite String.compare_antisym, H. reflexivity.
Qed.

Lemma string_compare_trans (x y z : string) :
  String.compare x y = Lt -> String.compare y z = Lt ->
  String.compare x z = Lt.
Proof.
  intros Hxy Hyz. apply String_as_OT.cmp_lt.
  apply String_as_OT.cmp_lt in Hxy. apply String_as_OT.cmp_lt in Hyz.
  exact (String_as_OT.lt_trans _ _ _ Hxy Hyz).
Qed.

Lemma string_compare_refl (x : string) : String.compare x x = Eq.
Proof. apply String_as_OT.cmp_eq. reflexivity. Qed.

Lemma pair_compare_gt (x y : string * string) :
  pair_compare x y = Gt -> pair_compare y x = Lt.
Proof.
  destruct x as [a b], y as [c d]. unfold pair_compare. cbn [fst snd].
  pose proof (String.compare_antisym c a) as Hca.
  destruct (String.compare a c) eqn:E; cbn [CompOpp] in Hca; rewrite Hca;
    try discriminate.
  - intros H. exact (string_compare_gt _ _ H).
  - reflexivity.
Qed.

Lemma pair_compare_trans (x y z : string * string) :
  pair_compare x y = Lt -> pair_compare y z = Lt -> pair_compare x z = Lt.
Proof.
  destruct x as [a b], y as [c d], z as [e f]. unfold pair_compare.
  cbn [fst snd].
  destruct (String.compare a c) eqn:Eac; try discriminate;
    destruct (String.compare c e) eqn:Ece; try discriminate; intros H1 H2.
  - apply String.compare_eq_iff in Eac, Ece. subst c e.
    rewrite string_compare_refl. exact (string_compare_trans _ _ _ H1 H2).
  - apply String.compare_eq_iff in Eac. subst c. rewrite Ece. reflexivity.
  - apply String.compare_eq_iff in Ece. subst e. rewrite Eac. reflexivity.
  - rewrite (string_compare_trans _ _ _ Eac Ece). reflexivity.
Qed.

(** ** The two stages on a fresh database *)

(** [SELECT category_name FROM categories WHERE category_id = ?]. *)
Definition category_name_of (db : DB) (cid : Z) : option string :=
  match find (fun c => category_id c =? cid) (db_categories db) with
  | Some c => Some (category_name c)
  | None => None
  end.

(** The (category name, type name) pair that a product-type row stands
    for, through its category. *)
Definition type_pair (db : DB) (t : ProductType) : option (string * string) :=
  match category_name_of db (type_category_id t) with
  | Some n => Some (n, type_name t)
  | None => None
  end.

Lemma mapM_Res_total {A B} (f : A -> Res B) (xs : list A) :
  (forall x, In x xs -> exists y, f x = Ok y) ->
  exists ys, mapM f xs = Ok ys.
Proof.
  induction xs as [|x t IH]; intros Hf.
  - exists []. reflexivity.
  - destruct (Hf x (or_introl eq_refl)) as [y Hy].
    destruct (IH (fun a Ha => Hf a (or_intror Ha))) as [ys Hys].
    exists (y :: ys). cbn [mapM]. cbn. rewrite Hy, Hys. reflexivity.
Qed.

Lemma category_found (l : list Category) (c : Category) :
  NoDup (map category_id l) -> In c l ->
  find (fun c' => category_id c' =? category_id c) l = Some c.
Proof.
  induction l as [|x t IH]; cbn [map find]; intros Hnd Hin; [destruct Hin|].
  inversion Hnd as [|? ? Hx Ht]; subst.
  destruct Hin as [->|Hin].
  - rewrite Z.eqb_refl. reflexivity.
  - destruct (category_id x =? category_id c) eqn:E.
    + exfalso. apply Z.eqb_eq in E. apply Hx. rewrite E.
      apply in_map. exact Hin.
    + apply IH; assumption.
Qed.

(** X20.  On a database without categories and product types, the two
    reference stages of the ORM generator cannot fail.  The categories come
    out numbered from 1 in the strictly ascending order of their names, one
    for each category name of the catalogue; the product types come out
    numbered from 1 in the strictly ascending order of their
    (category name, type name) pairs, one for each pair of the
    catalogue.  So the ids of both tables depend on the catalogue alone. *)
Theorem orm_reference_tables_follow_the_catalogue products_list db :
  db_categories db = [] -> db_product_types db = [] ->
  exists db1 db2 pairs,
    Orm.insert_categories products_list db = Ok db1 /\
    Orm.insert_product_types products_list db1 = Ok db2 /\
    db_categories db2 = db_categories db1 /\
    map category_id (db_categories db2)
    = zrange 1 (List.length (db_categories db2)) /\
    StronglySorted (fun a b => String.compare a b = Lt)
      (map category_name (db_categories db2)) /\
    (forall n, In n (map category_name (db_categories db2))
               <-> In n (map Orm.cp_category products_list)) /\
    map type_id (db_product_types db2)
    = zrange 1 (List.length (db_product_types db2)) /\
    map (type_pair db2) (db_product_types db2) = map Some pairs /\
    StronglySorted (fun a b => pair_compare a b = Lt) pairs /\
    (forall cs, In cs pairs
                <-> In cs (map (fun p => (Orm.cp_category p,
                                          Orm.cp_subcategory p))
                               products_list)).
Proof.
  intros Hc Ht.
  set (names := sorted_set String.compare (map Orm.cp_category products_list)).
  set (pairs := sorted_set pair_compare
                  (map (fun p => (Orm.cp_category p, Orm.cp_subcategory p))
                       products_list)).
  set (cats := auto_insert []
                 (map (fun cat => {| category_id := 0; category_name := cat |})
                      names)).
  set (db1 := set_categories cats db).
  assert (Hrun1 : Orm.insert_categories products_list db = Ok db1).
  { unfold Orm.insert_categories. rewrite Hc. reflexivity. }
  assert (Hids : map category_id cats = zrange 1 (List.length cats))
    by (exact (pks_of_fresh_table (R := Category) _)).
  assert (Hnames : map category_name cats = names).
  { unfold cats, auto_insert. cbn [app].
    rewrite (map_number_from (R := Category) category_name)
      by reflexivity.
    rewrite map_map. cbn [category_name]. apply map_id. }
  assert (Hnd : NoDup (map category_id cats))
    by (rewrite Hids; apply NoDup_zrange).
  assert (Hpair_in : forall cs, In cs pairs <->
                       In cs (map (fun p => (Orm.cp_category p,
                                             Orm.cp_subcategory p))
                                  products_list)).
  { intros cs. split.
    - apply sorted_set_In_inv.
    - apply (In_sorted_set pair_compare pair_compare_eq). }
  assert (Hname_in : forall n, In n names <->
                       In n (map Orm.cp_category products_list)).
  { intros n. split.
    - apply sorted_set_In_inv.
    - apply (In_sorted_set String.compare String.compare_eq_iff). }
  (* every pair finds its category *)
  assert (Hlook : forall cs, In cs pairs ->
             exists c, In c cats /\ category_name c = fst cs /\
                       dict_get String.eqb (Orm.category_mapping db1) (fst cs)
                       = Some (category_id c)).
  { intros cs Hcs. apply Hpair_in in Hcs. apply in_map_iff in Hcs.
    destruct Hcs as (p & <- & Hp). cbn [fst].
    assert (Hn : In (Orm.cp_category p) (map category_name cats)).
    { rewrite Hnames. apply Hname_in. apply in_map. exact Hp. }
    destruct (dict_get String.eqb (Orm.category_mapping db1)
                (Orm.cp_category p)) as [cid|] eqn:Eg.
    - apply (dict_get_In String.eqb String.eqb_eq) in Eg.
      unfold Orm.category_mapping in Eg. apply in_map_iff in Eg.
      destruct Eg as (c & Hc' & Hin). injection Hc' as Hcn Hci.
      exists c. subst cid. repeat split; auto.
    - exfalso. apply (dict_get_None String.eqb String.eqb_eq) in Eg.
      apply Eg. unfold Orm.category_mapping. rewrite map_map. cbn [fst].
      exact Hn. }
  set (mk := fun cs : string * string =>
               match dict_get String.eqb (Orm.category_mapping db1) (fst cs)
               with
               | Some category_id =>
                   ret {| type_id := 0; type_category_id := category_id;
                          type_name := snd cs |}
               | None => raise KeyError
               end).
  destruct (mapM_Res_total mk pairs) as [objs Hobjs].
  { intros cs Hcs. destruct (Hlook cs Hcs) as (c & _ & _ & Hg).
    unfold mk. rewrite Hg. eexists. reflexivity. }
  set (db2 := set_product_types (auto_insert [] objs) db1).
  assert (Hrun2 : Orm.insert_product_types products_list db1 = Ok db2).
  { unfold Orm.insert_product_types. fold pairs. fold mk.
    rewrite Hobjs. cbn [bind Res_Monad].
    replace (db_product_types db1) with (@nil ProductType)
      by (symmetry; exact Ht).
    reflexivity. }
  exists db1, db2, pairs.
  split; [exact Hrun1|]. split; [exact Hrun2|]. split; [reflexivity|].
  change (db_categories db2) with cats.
  change (db_product_types db2) with (auto_insert [] objs).
  split; [exact Hids|]. split.
  { rewrite Hnames.
    apply (sorted_set_sorted String.compare string_compare_gt
             string_compare_trans). }
  split; [intros n; rewrite Hnames; apply Hname_in|].
  split; [exact (pks_of_fresh_table (R := ProductType) objs)|].
  split; [|split; [|exact Hpair_in]].
  - unfold auto_insert. cbn [app].
    rewrite (map_number_from (R := ProductType) (type_pair db2))
      by reflexivity.
    apply Forall2_map_eq.
    apply (mapM_Res_Forall2 mk
             (fun cs t => type_pair db2 t = Some cs) pairs);
      [|exact Hobjs].
    intros cs t Hcs Hmk. destruct (Hlook cs Hcs) as (c & Hcin & Hcn & Hg).
    unfold mk in Hmk. rewrite Hg in Hmk. injection Hmk as <-.
    unfold type_pair, category_name_of. cbn [type_category_id type_name].
    change (db_categories db2) with cats.
    rewrite (category_found cats c Hnd Hcin), Hcn.
    destruct cs; reflexivity.
  - apply (sorted_set_sorted pair_compare pair_compare_gt pair_compare_trans).
Qed.

Lemma orm_reference_tables_witness :
  db_categories empty_db = [] /\ db_product_types empty_db = [] /\
  exists db1 db2,
    Orm.insert_categories Demo.products_list empty_db = Ok db1 /\
    Orm.insert_product_types Demo.products_list db1 = Ok db2 /\
    map category_id (db_categories db2)
    = zrange 1 (List.length (db_categories db2)) /\
    map type_id (db_product_types db2)
    = zrange 1 (List.length (db_product_types db2)).
Proof.
  split; [reflexivity|]. split; [reflexivity|].
  destruct (orm_reference_tables_follow_the_catalogue Demo.products_list
              empty_db eq_refl eq_refl)
    as (db1 & db2 & pairs & H1 & H2 & _ & H3 & _ & _ & H4 & _).
  exists db1, db2. repeat split; assumption.
Defined.

(* ================================================================= *)
(** * Default SKUs of the legacy catalogue *)
(* ================================================================= *)

(** The number that a string of decimal digits denotes. *)
Definition decimal_value (s : string) : option nat :=
  match NilZero.uint_of_string s with
  | Some d => Some (Nat.of_uint d)
  | None => None
  end.

Lemma decimal_value_str (n : nat) : decimal_value (str_of_nat n) = Some n.
Proof.
  unfold decimal_value, str_of_nat.
  rewrite (NilZero.usu _ (to_uint_not_Nil n)), Unsigned.of_to. reflexivity.
Qed.

Lemma decimal_value_zero (s : string) :
  s <> EmptyString -> decimal_value (String "0" s) = decimal_value s.
Proof.
  destruct s as [|c s]; [congruence|]. intros _.
  unfold decimal_value, NilZero.uint_of_string.
  change (NilEmpty.uint_of_string (String "0" (String c s)))
    with (match NilEmpty.uint_of_string (String c s) with
          | Some d => Some (Decimal.D0 d)
          | None => None
          end).
  destruct (NilEmpty.uint_of_string (String c s)); reflexivity.
Qed.

Lemma zeros_then_not_empty (k : nat) (s : string) :
  s <> EmptyString -> Legacy.zeros_then k s <> EmptyString.
Proof. destruct k; cbn [Legacy.zeros_then]; [tauto | discriminate]. Qed.

Lemma decimal_value_zeros_then (k : nat) (s : string) :
  s <> EmptyString -> decimal_value (Legacy.zeros_then k s) = decimal_value s.
Proof.
  intros Hs. induction k as [|k IH]; cbn [Legacy.zeros_then]; [reflexivity|].
  rewrite decimal_value_zero by (apply zeros_then_not_empty; exact Hs).
  exact IH.
Qed.

Lemma str_of_nat_not_empty (n : nat) : str_of_nat n <> EmptyString.
Proof.
  intros H. pose proof (decimal_value_str n) as Hv. rewrite H in Hv.
  discriminate Hv.
Qed.

(** [f"{i:06d}"] tells the numbers apart, whatever their size. *)
Lemma zero_pad_inj (width i j : nat) :
  Legacy.zero_pad width (str_of_nat i) = Legacy.zero_pad width (str_of_nat j) ->
  i = j.
Proof.
  unfold Legacy.zero_pad. intros H. apply (f_equal decimal_value) in H.
  rewrite !decimal_value_zeros_then, !decimal_value_str in H
    by apply str_of_nat_not_empty.
  congruence.
Qed.

(** The SKU of the [k]-th collected product when its entry has none. *)
Definition numbered_sku (k : nat) : string :=
  ("SKU" ++ Legacy.zero_pad 6 (str_of_nat k))%string.

Lemma numbered_sku_inj (i j : nat) : numbered_sku i = numbered_sku j -> i = j.
Proof.
  unfold numbered_sku. cbn [append]. intros H. injection H as H.
  exact (zero_pad_inj _ _ _ H).
Qed.

Definition numbered_skus (l : list Product) : Prop :=
  map sku l = map numbered_sku (seq 1 (List.length l)).

Lemma NoDup_map_of_inj {A B} (f : A -> B) (l : list A) :
  (forall x y, f x = f y -> x = y) -> NoDup l -> NoDup (map f l).
Proof.
  intros Hinj. induction 1 as [|x t Hx _ IH]; cbn [map]; constructor.
  - intros Hin. apply in_map_iff in Hin. destruct Hin as (y & Hy & Hin).
    apply Hinj in Hy. subst y. exact (Hx Hin).
  - exact IH.
Qed.

Lemma numbered_skus_NoDup (l : list Product) :
  numbered_skus l -> NoDup (map sku l).
Proof.
  unfold numbered_skus. intros ->.
  apply NoDup_map_of_inj; [exact numbered_sku_inj | apply seq_NoDup].
Qed.

Lemma legacy_products_collected main_categories db products_data :
  (forall details, legacy_entry main_categories details ->
                   Legacy.pd_sku details = None) ->
  foldM (Legacy.add_category db) [] main_categories = Ok products_data ->
  numbered_skus products_data.
Proof.
  intros Hnone Hrun.
  eapply (foldM_Res_inv (Legacy.add_category db) numbered_skus);
    [| | exact Hrun]; [|reflexivity].
  intros acc [category subcategories] acc' Hcat Hacc Hadd.
  unfold Legacy.add_category in Hadd. cbn [fst snd] in Hadd.
  destruct (dict_get String.eqb (Legacy.category_mapping db) category)
    as [cid|]; [|discriminate].
  eapply (foldM_Res_inv (Legacy.add_subcategory db cid) numbered_skus);
    [| exact Hacc | exact Hadd].
  intros acc1 [subcategory value] acc1' Hsub Hacc1 Hadds.
  unfold Legacy.add_subcategory in Hadds. cbn [fst snd] in Hadds.
  destruct ((subcategory =? Legacy.seasonal_key)%string
            || negb (Legacy.value_truthy value)).
  { apply ret_Res_inv in Hadds. subst. exact Hacc1. }
  destruct (truthy_id
              (dict_get (pair_eqb Z.eqb String.eqb) (Legacy.type_mapping db)
                        (cid, subcategory))) as [tid|].
  2: { apply ret_Res_inv in Hadds. subst. exact Hacc1. }
  destruct value as [items|b]; [|discriminate].
  eapply (foldM_Res_inv (Legacy.add_product cid tid) numbered_skus);
    [| exact Hacc1 | exact Hadds].
  intros acc2 item acc2' Hitem Hacc2 Haddp.
  unfold Legacy.add_product in Haddp.
  destruct item as [details|]; [|discriminate].
  apply ret_Res_inv in Haddp. subst acc2'.
  rewrite (Hnone details)
    by (exists category, subcategories, subcategory, items; auto).
  unfold numbered_skus in *. rewrite map_app, length_app, Hacc2.
  cbn [map List.length sku]. rewrite Nat.add_1_r, seq_S, map_app.
  cbn [map]. unfold Legacy.default_sku, numbered_sku.
  rewrite Nat.add_1_r. reflexivity.
Qed.

(** A row whose cost or base price is NaN, which SQLite stores as NULL. *)
Definition nan_price (p : Product) : Prop :=
  is_nan (cost p) = true \/ is_nan (base_price p) = true.

Definition real_prices (p : Product) : Prop :=
  is_nan (cost p) = false /\ is_nan (base_price p) = false.

Lemma real_prices_forallb (objs : list Product) :
  forallb (fun p => Legacy.real_not_null (cost p)
                    && Legacy.real_not_null (base_price p)) objs = true
  <-> Forall real_prices objs.
Proof.
  rewrite forallb_forall, Forall_forall. unfold real_prices, Legacy.real_not_null.
  split; intros H p Hp; specialize (H p Hp).
  - apply andb_true_iff in H as [H1 H2].
    apply negb_true_iff in H1, H2. auto.
  - destruct H as [-> ->]. reflexivity.
Qed.

Lemma nan_price_forallb (objs : list Product) :
  Exists nan_price objs ->
  forallb (fun p => Legacy.real_not_null (cost p)
                    && Legacy.real_not_null (base_price p)) objs = false.
Proof.
  intros Hex. apply not_true_is_false. intros Hall.
  apply real_prices_forallb in Hall. rewrite Forall_forall in Hall.
  apply Exists_exists in Hex as (p & Hp & Hnan).
  destruct (Hall p Hp) as [H1 H2]. destruct Hnan; congruence.
Qed.

(** X21.  A product of the legacy catalogue that has no [sku] key gets the
    SKU made of [SKU] and its position among the collected products, padded
    with zeros to six digits.  These SKUs never coincide, however many
    products there are.  So when no entry of the catalogue has an [sku]
    key and the products table is empty, the products stage cannot fail on
    the uniqueness of the SKU.  Once the rows are collected, the insert
    fails with [IntegrityError] when the cost or the base price of a row is
    NaN, which SQLite stores as NULL and the NOT NULL columns refuse;
    otherwise it succeeds, and the products carry the SKUs numbered
    1, 2, ... in their order. *)
Theorem legacy_default_skus_are_distinct main_categories db products_data :
  (forall details, legacy_entry main_categories details ->
                   Legacy.pd_sku details = None) ->
  db_products db = [] ->
  foldM (Legacy.add_category db) [] main_categories = Ok products_data ->
  map sku products_data
  = map numbered_sku (seq 1 (List.length products_data)) /\
  (forall i j, numbered_sku i = numbered_sku j -> i = j) /\
  (Exists nan_price products_data ->
   Legacy.insert_products main_categories db = Raise IntegrityError) /\
  (Forall real_prices products_data ->
   exists db',
     Legacy.insert_products main_categories db = Ok db' /\
     List.length (db_products db') = List.length products_data /\
     map sku (db_products db')
     = map numbered_sku (seq 1 (List.length products_data)) /\
     NoDup (map sku (db_products db'))).
Proof.
  intros Hnone Hempty Hrun.
  pose proof (legacy_products_collected _ _ _ Hnone Hrun) as Hnum.
  assert (Hskus : map sku (auto_insert [] products_data)
                  = map sku products_data).
  { unfold auto_insert. cbn [app].
    apply (map_number_from (R := Product) sku). reflexivity. }
  split; [exact Hnum|]. split; [exact numbered_sku_inj|]. split.
  - intros Hnan. unfold Legacy.insert_products. rewrite Hrun.
    cbn [bind Res_Monad]. unfold Legacy.insert_product_rows.
    rewrite (nan_price_forallb _ Hnan). reflexivity.
  - intros Hreal.
    exists (set_products (auto_insert [] products_data) db).
    split; [|split; [|split]].
    + unfold Legacy.insert_products. rewrite Hrun. cbn [bind Res_Monad].
      unfold Legacy.insert_product_rows.
      rewrite (proj2 (real_prices_forallb products_data) Hreal), Hempty.
      rewrite (checked_ok String.eqb String.eqb_eq sku).
      * reflexivity.
      * rewrite Hskus. apply numbered_skus_NoDup. exact Hnum.
    + cbn [db_products set_products]. unfold auto_insert. cbn [app].
      apply (length_number_from (R := Product)).
    + cbn [db_products set_products]. rewrite Hskus. exact Hnum.
    + cbn [db_products set_products]. rewrite Hskus.
      apply numbered_skus_NoDup. exact Hnum.
Qed.

(** A catalogue of two hammers without SKUs, and the database that the
    category and product-type stages make of it. *)
Definition unnumbered_catalogue
  : list (string * list (string * Legacy.SubcategoryValue)) :=
  [ ("HAND TOOLS",
     [ ("HAMMERS",
        Legacy.ItemList
          [ Demo.legacy_product "Claw Hammer" None 6.69 None;
            Demo.legacy_product "Sledge Hammer" None 19.99 None ]) ]) ]%string.

(** The same catalogue with a price that is not a number. *)
Definition nan_catalogue
  : list (string * list (string * Legacy.SubcategoryValue)) :=
  [ ("HAND TOOLS",
     [ ("HAMMERS",
        Legacy.ItemList
          [ Demo.legacy_product "Claw Hammer" None 6.69 None;
            Demo.legacy_product "Sledge Hammer" None nan None ]) ]) ]%string.

Definition unnumbered_db : DB :=
  match Legacy.insert_categories unnumbered_catalogue empty_db with
  | Ok db1 =>
      match Legacy.insert_product_types unnumbered_catalogue db1 with
      | Ok db2 => db2
      | Raise _ => empty_db
      end
  | Raise _ => empty_db
  end.

Lemma unnumbered_entries_have_no_sku catalogue a b :
  catalogue
  = [ ("HAND TOOLS",
       [ ("HAMMERS",
          Legacy.ItemList
            [ Demo.legacy_product "Claw Hammer" None 6.69 None;
              Demo.legacy_product "Sledge Hammer" None a b ]) ]) ]%string ->
  forall details,
    legacy_entry catalogue details -> Legacy.pd_sku details = None.
Proof.
  intros -> details (c & subs & s & items & H1 & H2 & H3).
  destruct H1 as [H1|[]]. injection H1 as <- <-.
  destruct H2 as [H2|[]]. injection H2 as <- <-.
  destruct H3 as [H3|[H3|[]]]; injection H3 as <-; reflexivity.
Qed.

Lemma legacy_default_skus_witness :
  db_products unnumbered_db = [] /\
  (exists db',
      Legacy.insert_products unnumbered_catalogue unnumbered_db = Ok db' /\
      map sku (db_products db') = ["SKU000001"; "SKU000002"]%string) /\
  Legacy.insert_products nan_catalogue unnumbered_db = Raise IntegrityError.
Proof.
  split; [reflexivity|]. split.
  - destruct (foldM (Legacy.add_category unnumbered_db) [] unnumbered_catalogue)
      as [pd|e] eqn:E; [|vm_compute in E; discriminate E].
    destruct (@legacy_default_skus_are_distinct unnumbered_catalogue
                unnumbered_db pd
                (@unnumbered_entries_have_no_sku unnumbered_catalogue
                   19.99%float None eq_refl) eq_refl E)
      as (_ & _ & _ & Hgood).
    assert (Hpd : List.length pd = 2%nat /\ Forall real_prices pd).
    { vm_compute in E. injection E as <-. split; [reflexivity|].
      repeat constructor. }
    destruct Hpd as [Hlen Hreal].
    destruct (Hgood Hreal) as (db' & Hrun & _ & Hskus & _).
    exists db'. split; [exact Hrun|]. rewrite Hskus, Hlen. reflexivity.
  - destruct (foldM (Legacy.add_category unnumbered_db) [] nan_catalogue)
      as [pd|e] eqn:E; [|vm_compute in E; discriminate E].
    destruct (@legacy_default_skus_are_distinct nan_catalogue
                unnumbered_db pd
                (@unnumbered_entries_have_no_sku nan_catalogue
                   nan None eq_refl) eq_refl E)
      as (_ & _ & Hbad & _).
    apply Hbad. vm_compute in E. injection E as <-.
    right. left. left. reflexivity.
Defined.

(* ================================================================= *)
(** * An ORM run without customers *)
(* ================================================================= *)

(** The run is the stages up to the inventory, then the orders stage. *)
Lemma orm_generate_then_orders stores products_list supplier_data today
  month_start n m en :
  Orm.generate stores products_list supplier_data today month_start n m en
  = match Orm.generate_inventory stores products_list supplier_data
            month_start n en with
    | Ok (db7, en7) => Orm.insert_orders_and_items today m db7 en7
    | Raise e => Raise e
    end.
Proof.
  unfold Orm.generate, Orm.generate_inventory. cbn [bind Gen_Monad].
  destruct (lift (Orm.insert_stores stores empty_db) en) as [[d1 e1]|];
    [|reflexivity].
  destruct (lift (Orm.insert_categories products_list d1) e1) as [[d2 e2]|];
    [|reflexivity].
  destruct (lift (Orm.insert_product_types products_list d2) e2)
    as [[d3 e3]|]; [|reflexivity].
  destruct (Orm.insert_suppliers supplier_data month_start d3 e3)
    as [[d4 e4]|]; [|reflexivity].
  destruct (lift (Orm.insert_products products_list supplier_data d4) e4)
    as [[d5 e5]|]; [|reflexivity].
  destruct (Orm.insert_customers stores n d5 e5) as [[d6 e6]|];
    [|reflexivity].
  destruct (lift (Orm.insert_inventory stores products_list d6) e6)
    as [[d7 e7]|]; reflexivity.
Qed.

(** X22.  A run of the ORM generator that is asked for no customers never
    completes, whatever the documents, the number of orders (zero
    included) and the random draws: when the stages up to the inventory go
    through, the orders stage finds no customer and raises its
    [Exception("No customers found!")]. *)
Theorem orm_run_without_customers_fails stores products_list supplier_data
  today month_start num_orders en :
  (forall r,
     Orm.generate stores products_list supplier_data today month_start
       0 num_orders en <> Ok r) /\
  (forall db en',
     Orm.generate_inventory stores products_list supplier_data month_start
       0 en = Ok (db, en') ->
     db_customers db = [] /\
     Orm.generate stores products_list supplier_data today month_start
       0 num_orders en = Raise PlainException).
Proof.
  assert (Hstage : forall db en',
             Orm.generate_inventory stores products_list supplier_data
               month_start 0 en = Ok (db, en') ->
             db_customers db = [] /\
             Orm.generate stores products_list supplier_data today month_start
               0 num_orders en = Raise PlainException).
  { intros db en' Hinv.
    destruct (orm_generate_inventory_catalogue _ _ _ _ _ _ _ _ Hinv)
      as [_ Hids].
    apply map_eq_nil in Hids. split; [exact Hids|].
    rewrite orm_generate_then_orders, Hinv.
    unfold Orm.insert_orders_and_items. rewrite Hids. reflexivity. }
  split; [|exact Hstage].
  intros [db en'] Hrun.
  destruct (orm_generate_split _ _ _ _ _ _ _ _ _ _ Hrun)
    as (db7 & en7 & Hinv & _).
  destruct (Hstage _ _ Hinv) as [_ Hfail]. congruence.
Qed.

Lemma orm_run_without_customers_witness :
  Orm.generate Demo.stores Demo.products_list Demo.supplier_data Demo.today
    Demo.month_start 0 0 Demo.entropy_a = Raise PlainException.
Proof.
  destruct (Orm.generate_inventory Demo.stores Demo.products_list
              Demo.supplier_data Demo.month_start 0 Demo.entropy_a)
    as [[db en']|e] eqn:E; [|vm_compute in E; discriminate E].
  exact (proj2 (proj2 (orm_run_without_customers_fails Demo.stores
                         Demo.products_list Demo.supplier_data Demo.today
                         Demo.month_start 0 Demo.entropy_a) db en' E)).
Defined.

(* ================================================================= *)
(** * The shape of a customer row *)
(* ================================================================= *)

(** The number of apostrophes in a string. *)
Fixpoint apostrophes (s : string) : nat :=
  match s with
  | EmptyString => 0%nat
  | String c t =>
      ((if Ascii.eqb c apostrophe then 1 else 0) + apostrophes t)%nat
  end.

Lemma apostrophes_append (s1 s2 : string) :
  apostrophes (s1 ++ s2) = (apostrophes s1 + apostrophes s2)%nat.
Proof.
  induction s1 as [|c t IH]; cbn [append apostrophes]; [reflexivity|].
  rewrite IH. lia.
Qed.

Lemma apostrophes_removed (s : string) :
  apostrophes (replace_apostrophe EmptyString s) = 0%nat.
Proof.
  induction s as [|c t IH]; cbn [replace_apostrophe]; [reflexivity|].
  destruct (Ascii.eqb c apostrophe) eqn:E.
  - exact IH.
  - cbn [apostrophes]. rewrite E, IH. reflexivity.
Qed.

Lemma apostrophes_doubled (s : string) :
  apostrophes (replace_apostrophe Legacy.two_apostrophes s)
  = (2 * apostrophes s)%nat.
Proof.
  induction s as [|c t IH]; cbn [replace_apostrophe apostrophes];
    [reflexivity|].
  destruct (Ascii.eqb c apostrophe) eqn:E.
  - rewrite apostrophes_append, IH. cbn. lia.
  - cbn [apostrophes]. rewrite E, IH. lia.
Qed.

Lemma replace_apostrophe_none (new s : string) :
  apostrophes s = 0%nat -> replace_apostrophe new s = s.
Proof.
  induction s as [|c t IH]; cbn [replace_apostrophe apostrophes];
    [reflexivity|].
  destruct (Ascii.eqb c apostrophe); [discriminate|].
  intros H. rewrite (IH H). reflexivity.
Qed.

(** ** Telephone numbers *)

Lemma str_of_nat_length_in (lo len : Z) (width : nat) :
  forallb (fun z => String.length (str_of_nat (Z.to_nat z)) =? width)%nat
          (zrange lo (Z.to_nat len))
  = true ->
  forall z, lo <= z < lo + len ->
            String.length (str_of_nat (Z.to_nat z)) = width.
Proof.
  intros Hall z Hz. rewrite forallb_forall in Hall.
  apply Nat.eqb_eq. apply Hall. apply In_zrange. lia.
Qed.

Lemma three_digits (z : Z) :
  200 <= z <= 999 -> String.length (str_of_nat (Z.to_nat z)) = 3%nat.
Proof.
  intros Hz. apply (str_of_nat_length_in 200 800 3); [|lia].
  vm_compute. reflexivity.
Qed.

Lemma four_digits (z : Z) :
  1000 <= z <= 9999 -> String.length (str_of_nat (Z.to_nat z)) = 4%nat.
Proof.
  intros Hz. apply (str_of_nat_length_in 1000 9000 4); [|lia].
  vm_compute. reflexivity.
Qed.

Lemma length_append (s1 s2 : string) :
  String.length (s1 ++ s2) = (String.length s1 + String.length s2)%nat.
Proof.
  induction s1 as [|c t IH]; cbn [append String.length]; [reflexivity|].
  rewrite IH. reflexivity.
Qed.

(** [(AAA) BBB-CCCC]: an area code and an exchange in 200..999 and a
    number in 1000..9999. *)
Definition phone_shape (s : string) : Prop :=
  exists a b c,
    200 <= a <= 999 /\ 200 <= b <= 999 /\ 1000 <= c <= 9999 /\
    s = ("(" ++ str_of_nat (Z.to_nat a) ++ ") " ++ str_of_nat (Z.to_nat b)
         ++ "-" ++ str_of_nat (Z.to_nat c))%string /\
    String.length s = 14%nat /\
    all_digits (str_of_nat (Z.to_nat a)) /\
    all_digits (str_of_nat (Z.to_nat b)) /\
    all_digits (str_of_nat (Z.to_nat c)).

Lemma phone_of_shape (a b c : Z) :
  200 <= a <= 999 -> 200 <= b <= 999 -> 1000 <= c <= 9999 ->
  phone_shape (Orm.phone_of (a, b, c)).
Proof.
  intros Ha Hb Hc. exists a, b, c.
  split; [exact Ha|]. split; [exact Hb|]. split; [exact Hc|].
  split; [reflexivity|]. split; [|repeat split; apply str_of_nat_digits].
  unfold Orm.phone_of.
  rewrite !length_append, !three_digits, four_digits by lia. reflexivity.
Qed.

(** ** The rows of the two generators *)

Definition orm_customer_shape (c : Customer) : Prop :=
  apostrophes (first_name c) = 0%nat /\
  apostrophes (last_name c) = 0%nat /\
  phone_shape (phone c).

(** [f] and [l] are the names that Faker gave. *)
Definition legacy_customer_shape (c : Customer) : Prop :=
  (exists f l,
      first_name c = replace_apostrophe Legacy.two_apostrophes f /\
      last_name c = replace_apostrophe Legacy.two_apostrophes l /\
      apostrophes (first_name c) = (2 * apostrophes f)%nat /\
      apostrophes (last_name c) = (2 * apostrophes l)%nat) /\
  phone_shape (phone c).

Lemma orm_customer_object_shape stores db first_store i en c en' :
  Orm.customer_object stores db first_store i en = Ok (c, en') ->
  orm_customer_shape c.
Proof.
  unfold Orm.customer_object. intros Hrun.
  monad_inv Hrun. monad_inv Hrun. monad_inv Hrun.
  unfold Orm.generate_phone_number in Hstep1. repeat monad_inv Hstep1.
  repeat monad_inv Hrun. subst.
  apply randint_range in Hstep2, Hstep3, Hstep4.
  unfold orm_customer_shape. cbn [first_name last_name phone].
  rewrite !apostrophes_removed. repeat split.
  apply phone_of_shape; assumption.
Qed.

Lemma legacy_customer_tuple_shape stores db i en c en' :
  Legacy.customer_tuple stores db i en = Ok (c, en') ->
  legacy_customer_shape c.
Proof.
  unfold Legacy.customer_tuple. intros Hrun.
  monad_inv Hrun. monad_inv Hrun. monad_inv Hrun.
  unfold Legacy.generate_phone_number in Hstep1. repeat monad_inv Hstep1.
  repeat monad_inv Hrun. subst.
  apply randint_range in Hstep2, Hstep3, Hstep4.
  unfold legacy_customer_shape. cbn [first_name last_name phone]. split.
  - exists v, v0. rewrite !apostrophes_doubled. repeat split.
  - change (Legacy.phone_of (v2, v3, v4)) with (Orm.phone_of (v2, v3, v4)).
    apply phone_of_shape; assumption.
Qed.

Lemma shape_of_numbered {P : Customer -> Prop} (next : Z)
  (objs : list Customer) :
  (forall z c, P c -> P (with_pk z c)) ->
  Forall P objs -> Forall P (number_from next objs).
Proof.
  intros Hpk Hall. apply Forall_forall. intros r Hr.
  apply In_number_from in Hr. destruct Hr as (o & z & Ho & ->).
  rewrite Forall_forall in Hall. apply Hpk, Hall, Ho.
Qed.

(** X23.  Every customer row that a customers stage writes has a telephone
    number of the shape [(AAA) BBB-CCCC], 14 characters, with [AAA] and
    [BBB] in 200..999 and [CCCC] in 1000..9999.  The ORM generator removes
    the apostrophes from the names it stores.  The legacy generator stores
    every apostrophe of a name twice, although its INSERT binds the names
    as parameters: a name with an apostrophe is not stored as it was
    drawn. *)
Theorem customer_rows_have_their_shape :
  (forall stores n db en db' en',
      Orm.insert_customers stores n db en = Ok (db', en') ->
      exists rows,
        db_customers db' = db_customers db ++ rows /\
        List.length rows = n /\
        Forall orm_customer_shape rows) /\
  (forall stores n db en db' en',
      Legacy.insert_customers stores n db en = Ok (db', en') ->
      exists rows,
        db_customers db' = db_customers db ++ rows /\
        List.length rows = n /\
        Forall legacy_customer_shape rows) /\
  (forall s, apostrophes s <> 0%nat ->
             replace_apostrophe Legacy.two_apostrophes s <> s) /\
  (forall new s, apostrophes s = 0%nat -> replace_apostrophe new s = s).
Proof.
  split; [|split; [|split]].
  - intros stores n db en db' en' Hrun.
    unfold Orm.insert_customers, Orm.bulk_insert_customers in Hrun.
    monad_inv Hrun. monad_inv Hrun. subst en'.
    monad_inv Hstep0. monad_inv Hstep0. subst db'.
    apply (checked_inv String.eqb String.eqb_eq) in Hstep1 as [-> _].
    rename v into objs.
    assert (Hobjs : List.length objs = n /\ Forall orm_customer_shape objs).
    { unfold Orm.customer_objects in Hstep.
      destruct (db_stores db) as [|first_store rest]; [discriminate Hstep|].
      assert (HF : Forall2 (fun _ c => orm_customer_shape c) (seq 1 n) objs).
      { eapply mapM_Gen_Forall2; [|exact Hstep].
        intros i e1 c e2 _ Hc. eapply orm_customer_object_shape. exact Hc. }
      split.
      - rewrite (Forall2_length_eq _ _ _ HF). apply length_seq.
      - eapply Forall2_Forall_r; [exact HF|]. intros i c _ Hc. exact Hc. }
    destruct Hobjs as [Hlen Hall].
    exists (number_from (next_rowid (db_customers db)) objs).
    split; [reflexivity|].
    split; [rewrite length_number_from; exact Hlen|].
    apply shape_of_numbered; [|exact Hall]. intros z c Hc. exact Hc.
  - intros stores n db en db' en' Hrun.
    unfold Legacy.insert_customers, Legacy.insert_customer_rows in Hrun.
    monad_inv Hrun. monad_inv Hrun. subst en'.
    monad_inv Hstep0. monad_inv Hstep0. subst db'.
    apply (checked_inv String.eqb String.eqb_eq) in Hstep1 as [-> _].
    rename v into objs.
    assert (HF : Forall2 (fun _ c => legacy_customer_shape c) (seq 1 n) objs).
    { unfold Legacy.customers_data in Hstep.
      eapply mapM_Gen_Forall2; [|exact Hstep].
      intros i e1 c e2 _ Hc. eapply legacy_customer_tuple_shape. exact Hc. }
    exists (number_from (next_rowid (db_customers db)) objs).
    split; [reflexivity|].
    split.
    + rewrite length_number_from, (Forall2_length_eq _ _ _ HF).
      apply length_seq.
    + apply shape_of_numbered; [intros z c Hc; exact Hc|].
      eapply Forall2_Forall_r; [exact HF|]. intros i c _ Hc. exact Hc.
  - intros s Hs Heq. apply (f_equal apostrophes) in Heq.
    rewrite apostrophes_doubled in Heq. lia.
  - intros new s. apply replace_apostrophe_none.
Qed.

Lemma customer_rows_shape_witness :
  match Legacy.insert_customers Demo.legacy_stores 1 two_stores_db
          Demo.legacy_entropy with
  | Ok (db', _) =>
      map last_name (db_customers db') = ["O''Neil"]%string /\
      exists rows, db_customers db' = db_customers two_stores_db ++ rows /\
                   Forall legacy_customer_shape rows
  | Raise _ => False
  end.
Proof.
  destruct (Legacy.insert_customers Demo.legacy_stores 1 two_stores_db
              Demo.legacy_entropy) as [[db' en']|e] eqn:E.
  - split; [vm_compute in E; injection E as <- _; reflexivity|].
    destruct (proj1 (proj2 customer_rows_have_their_shape)
                Demo.legacy_stores 1%nat two_stores_db Demo.legacy_entropy
                db' en' E) as (rows & Hrows & _ & Hall).
    exists rows. split; assumption.
  - vm_compute in E. discriminate E.
Defined.
